(* ===== verification/_CoqProject ===== *)
-Q . S2P
Prelude.v
Words.v
Console.v
FrameMap.v
FrameAlloc.v
Allocator.v
TaskControl.v
Interrupts.v
Scheduler.v
Locking.v
LockProtocol.v
Memory.v
Stubs.v
CLib.v
OrderedArray.v
KHeap.v
HeapInv.v
HeapRuns.v
HeapTrace.v
Monitor.v
Paging.v
PageTree.v
Descriptors.v
Keyboard.v
Shell.v
Fat32.v
Ata.v
Devices.v
Elf.v
Isolation.v
PagingInit.v
Boot.v
UserSpace.v
Clone.v
CloneTree.v
ClonePool.v
Processes.v
Exec.v
ExecDisk.v
UserPaging.v
Debug.v
KernelEntry.v
BootPaging.v
LoadElf.v
BootDisk.v
BootMap.v
BootLoader.v
BootStage1.v
BootChain.v
Layouts.v
