(* ===== verification/Prelude.v ===== *)
(** JAOS64, a small 64-bit kernel: a verification development.

    The kernel (src/kernel, with src/lib and src/user) runs on one processor in long
    mode. A boot loader of two stages (src/boot) reads it from the disk, enters long mode and
    leaves it with the firmware's memory map; it sets up a block allocator over physical memory, page tables, a heap, a text screen, interrupts,
    a round-robin scheduler, sleeping locks, a FAT32 reader, a keyboard and a system
    call gate; then it forks its first process, which executes the shell. This library
    models those parts as Rocq functions on explicit states and proves what they do.

    * Files

    - Prelude.v: automation, counted loops ([for_range], [for_first]), loops with
      fuel ([iter_fuel]), and lemmas on lists and counting that all files share.
    - Words.v: the integer types of the C code as [Z] with their wrap-around
      ([uint64_t], [int8_t], ...), bit-fields, bit tests. The scope [word_scope] has
      the arithmetic of [uint64_t].
    - Console.v: output as a list of events, for code that only prints.
    - FrameMap.v, FrameAlloc.v: the block allocator (kernel/memman.c). FrameMap has the
      bitmap and the two searches, FrameAlloc the allocation functions and the part of
      [memman_init] that fills the map from the firmware's regions.
    - Allocator.v: interfaces between components. [Allocator] is what the locks and the
      processes need of [kmalloc], [SizedAllocator] what the file system needs, which
      writes to its blocks, [HeapBudget] that a heap serves so many requests up to a
      size; [KernelPages] is what the heap needs of [alloc_kernel_page]. Each has a
      bump implementation for concrete runs.
    - TaskControl.v: the interface of the scheduler to the locks: the current process
      and the change of a process's status.
    - Interrupts.v: the frame that interrupt.asm builds, the handler table of isr.c,
      and the system call gate from user/syscall.c to kernel/syscall.c and back.
      Stubs.v: the stubs of interrupt.asm as programs for the processor's registers and
      stack, which build that frame, the way back to the interrupted program, and a system
      call from the user's [int] to the instruction behind it.
    - Scheduler.v: the task list and [switch_task] (kernel/scheduler.c).
    - Locking.v: the lock queues (kernel/b_locking.c), one function per critical
      section between [spin_lock] and [master_lock = 0], with an abstract queue that
      they refine. LockProtocol.v: processes that call [lock] and [unlock], nested or not,
      and interleave at every step outside and inside those sections, the [kfree] behind
      [master_lock = 0] included. [call_step] lets them call as they like, [step] asks that
      they unlock only what they hold, once.
    - Memory.v: bytes by address, little-endian words. CLib.v: src/lib.
    - OrderedArray.v: the sorted array (kernel/ordered_array.c) in byte memory.
    - KHeap.v: the heap (kernel/kheap.c) in byte memory, over [KernelPages].
      HeapInv.v: its invariant and what [create_heap], [alloc] and [free] do to it.
      HeapRuns.v: whole runs of the heap on concrete requests. HeapTrace.v: what the
      heap promises its clients, a map from addresses to blocks of bytes, and sequences
      of calls that refine it.
    - Monitor.v: the text screen (kernel/monitor.c) and the terminal it implements.
    - Paging.v: page tables in physical memory, the processor's walk, and the
      functions of memman.c that reach the tables through the window that entry 511
      of the top table opens. PageTree.v: the tables as a tree and what mapping
      pages does to the translation of addresses. Isolation.v: sequences of such calls
      as a step relation. PagingInit.v: the whole of [memman_init], whose stores to the top
      tables go through the tables it is started on, and Boot.v:
      [memman_init] and then [kheap_init] on the pages it can map. UserSpace.v: [clean_user_space]. Clone.v: [clone_pml4t] over
      the interface [PageSource] of a heap that gives whole pages; CloneTree.v: the
      invariant of its loops and the copy; ClonePool.v: a heap with pages in stock that
      implements the interface, and a small program that is copied.
    - Descriptors.v: the segment and interrupt descriptor tables (kernel/gdt.c, idt.c)
      in memory, as the processor reads them.
    - Keyboard.v: the interrupt handler and [readline] between the interrupts
      (kernel/keyboard.c).
    - Shell.v: the tokenizer and the main loop of the shell (user/shell.c), and the calls
      of the other user programs.
    - Fat32.v: the file system (kernel/fat32.c, diskio.c) over a function that gives
      the bytes of the disk. Ata.v: the routine of kernel/read_sectors.asm, instruction by
      instruction, over the interface [Drive] of a disk behind its ports. Elf.v: the loader
      (kernel/elf.c) over the file system and the interface [UserPages] of [alloc_page],
      which UserPaging.v implements with the page tables.
    - Devices.v: the interrupt controllers through their registers, and the search of
      the firmware's tables (kernel/apic.c, ioapic.c, msr.c, io.c, acpi.c).
    - Processes.v: [fork], [fork_kernel], [exit] and [sleep] (kernel/fork.c, exit.c)
      over the heap, the page tables and the scheduler. Exec.v: [exec] (kernel/exec.c)
      over the file system, the loader and the interface [UserSpace] of
      [clean_user_space]. ExecDisk.v: the way of a program from the sectors of the disk to
      user mode. KernelEntry.v: [kernel_entry] (kernel/main.c), which sets up all parts.
    - Debug.v: what the page fault handler and the debugging functions print.
    - BootStage1.v: the first stage of the boot loader (boot/stage1.asm, diskio.asm), over the
      sectors that the BIOS reads. BootMap.v: the firmware's memory map (boot/memory.asm),
      over the interface [Bios], and the kernel's view of it. BootPaging.v: the page tables
      that stage2.asm writes, instruction by instruction, and what [memman_init] makes of
      them. BootDisk.v: the search for the kernel and the reading of its file
      (boot/diskio64.asm) as programs for the processor, over a [Drive] of Ata.v.
      LoadElf.v: the copying of its segments (boot/loadelf.asm) and its two variables. BootLoader.v:
      the second stage as a whole (boot/stage2.asm), BootChain.v: both stages.
    - Layouts.v: the structures, unions and bit-fields of the headers as declarations, the
      compiler's rules for where members are, and the comparison with the offsets of those
      accessors of the other files that it lists.

    * How the models correspond to the code

    A C function is a Rocq function of its arguments and of the state its component
    keeps in globals; the state is a record whose fields carry the names of the
    globals. Unsigned values are [Z] between 0 and a power of two, with wrap-around
    where the C code computes in a fixed width. Structs that are linked by pointers are
    either a map from addresses to records (tasks, lock nodes) or bytes in memory
    (heap blocks, the ordered array, strings), bytes where the code depends on the
    layout or lets structs overlap. [None] is an access the hardware or the language
    does not define: a null or foreign pointer, a page fault, a division by zero.
    Inline assembly is modelled by what it does to the state ([cr3], the port writes
    of the screen, the registers of a switch). The assembly files that move data, the stubs
    of interrupts, the read of a sector and most of the boot loader, are lists of instructions
    with a small machine that runs them. In the first stage and in memory.asm, which keep
    their state in memory, registers are let-bound instead.

    Loops with a counter are [for_range]. Other loops take fuel, and each theorem says
    how much is enough, so that it also says that the loop ends: the search for a run
    of blocks ends within [zone_fuel] steps, [switch_task] within one turn of the list,
    the string functions within the length of the string. [alloc] takes fuel for its
    recursion after the heap has grown; when a hole fits one unit is enough. [itoa]
    needs at most 66 steps for 64 bits. Searching a directory and reading a file need as
    many steps as the chain has clusters, polling the disk one more than the drive is busy,
    and loading a program one more than its header has entries. In the boot loader 512
    rounds are enough for each table of pages, one more than the firmware has entries for
    its list, as many as there are headers for the segments; where the drive may be
    busy, [eventually] says that some fuel is enough and more does no harm. The one loop that may run for ever, the search
    of [switch_task] when every task is blocked, is proved to do so for every fuel: [switch_task] is [None] only
    when its loop is not done, a fault is an outcome of its own ([Fault]).

    * What the theorems show

    - Block allocator: what is allocated was free, nothing else changes, failure means
      that there was nothing to find in the words the code searches; freeing restores
      the state; the count of used blocks agrees with the bitmap through every
      operation, from [memman_init] on.
    - Boot: [memman_init] and [kheap_init], started on tables that map the first blocks to
      themselves, one of them free, end without a fault, with the kernel's image,
      video memory and the heap mapped to frames of their own. [kernel_entry] ends with
      each handler behind the gate of its vector, the timer and the keyboard sending those
      vectors, and process 1 forked.
    - Boot loader: from the BIOS's jump to the first sector to the kernel's entry. The first
      stage finds the second along the chain of the root directory and
      loads all its clusters; the second enters the kernel with the firmware's list where the
      kernel looks for it, the segment in its place byte by byte as on the disk, and the
      translation that [memman_init] starts on and, for image and stack, keeps. That is for
      clusters of one sector and a kernel of one cluster with one program header. Theorems also say
      where the loader goes wrong: a name that is not found, a file of several clusters or whose
      clusters have several sectors, a second program header, a firmware with one entry.
    - Layouts: the members whose accessors Layouts.v lists are where the declaration puts them, in
      C and in the loader's assembly; stores to members leave the other members alone.
    - Page tables: mapping pages gives each its own fresh frame, other addresses
      translate as before, and the tables stay a tree under the window. Over any
      sequence of calls no two pages share a frame. Clearing a program's space takes
      away exactly the pages its test selects and frees their frames; a copy of the
      space translates the program's addresses as the original does, to frames of its own
      with equal contents, and shares the kernel's tables.
    - Processes: [fork] returns to the parent with the new process id and, when the
      scheduler resumes the child, to the child with 0, the parent's registers and the
      copied tables. A task that exits is never resumed. [exec] comes back only when
      there is no such file. After the start of the kernel the first timer interrupt goes
      to process 1, which executes the shell.
    - File system and loader: on one-sector clusters, a file is read along the chain that
      [find_next_cluster] follows ([fat_read]), which is the file's when all numbers are below
      128; the first entry of the directory whose first ten characters start with the string
      is found, and the segments of an executable are put where its header says, in the pages
      that the code counts for them. A page that two segments share is lost for the first. Together: [exec] of a name on the
      disk enters user mode with the bytes of the segments as the sectors hold them; on
      the real page tables each of their addresses is translated. The assembly of
      [read_sectors] does what the file system's model of it says.
    - Descriptors, devices, keyboard, shell: the tables and registers that are written
      read back as what the processor and the controllers should do; a line that is typed
      arrives in the reader's buffer; the words of the lines decide what the shell runs
      and when it ends.
    - Heap: the blocks and holes tile the heap, the index lists the holes; [alloc]
      takes from a hole and leaves every other block alone; [free] joins on the left. Over
      any sequence of such calls and of stores to blocks, the blocks keep their bytes.
      The theorem on [free] asks for a live block behind the freed one, the one on [alloc]
      for a hole that fits and, for an aligned block, has room for the headers in front and
      behind; runs in HeapRuns show what goes wrong with a hole behind a freed block, with
      other holes for aligned blocks and when the heap grows.
    - Locks: two processes that unlock only what they hold are never inside the same lock,
      under every interleaving; the critical sections refine queue operations. Concrete runs
      show that nested use breaks the exclusion, that the [kfree] of [unlock] can run beside a
      [kmalloc], and a wakeup that is lost.
    - Scheduler: round robin order, the saved context is the one restored, every ready
      task runs within one turn.
    - Interrupts: the frame the stubs build is the one the handlers read, the interrupted
      program gets back its registers but for r10 to r15, and a user's call reaches the
      function of that name with its argument and gets its result. The stubs of vectors 8, 17,
      21, 29 and 30 are excepted: they misplace the processor's error code.
    - Screen: [putchar] is a step of a 25 x 80 terminal; [puts] and [putint] follow.
    - C library and ordered array: copying, comparing, sorted insertion and removal.

    * What is not modelled

    - The processor's caches, its translation buffer, and interrupts in the middle of
      a function other than in LockProtocol, which lets processes interleave.
    - One state of the whole kernel. The heap of KHeap.v hands out memory in use after it
      has grown, and its index goes wrong after a contraction (HeapRuns.v), so that it is not an
      instance of the interfaces that its clients are proved against; HeapTrace.v is the part
      of the promise that it keeps. [kernel_entry] is a definition over the states of the
      components with the heap behind its interface, after [boot_memory].
    - The heap behind [PageSource]: the heap's memory is not the frames of the page tables,
      so that the copy of a space is proved against the interface. [UserSpace] is not
      implemented by the tables either: [clean_user_space] leaves the freed tables' bytes in
      their frames, and the next tables take them for entries (UserSpace.v).
    - Of the boot loader: the messages, the line A20, the loading of descriptor tables and
      the switches of the processor's mode (cr0, cr4, EFER), which leave the modelled state
      as it is; the BIOS itself, which is an interface. The stack of its long mode part is a list,
      apart from memory but for the word that [loadelf] pushes, and its registers at the start of a part are arbitrary.
      boot/gdt.asm is in no program.
    - Headers of other origin (include/stdint.h but for its exact types, include/ctype.h,
      whose table does not exist), and the list of key names in kernel/keyboard.h, which nothing
      uses. *)

From stdpp Require Export base numbers list gmap.
From Stdlib Require Export Lia.

#[global] Open Scope Z_scope.

(** * Automation *)

Create HintDb kernel.

(** [bsimpl] turns the boolean tests of the context into propositions. *)
Ltac bsimpl :=
  repeat match goal with
  | H : (_ && _)%bool = true |- _ => apply andb_prop in H; destruct H
  | H : (_ || _)%bool = false |- _ => apply orb_false_elim in H; destruct H
  | H : (_ =? _) = true |- _ => apply Z.eqb_eq in H
  | H : (_ =? _) = false |- _ => apply Z.eqb_neq in H
  | H : (_ <? _) = true |- _ => apply Z.ltb_lt in H
  | H : (_ <? _) = false |- _ => apply Z.ltb_ge in H
  | H : (_ <=? _) = true |- _ => apply Z.leb_le in H
  | H : (_ <=? _) = false |- _ => apply Z.leb_gt in H
  | H : negb _ = true |- _ => apply negb_true_iff in H
  | H : negb _ = false |- _ => apply negb_false_iff in H
  end.

(** Arithmetic with quotients and remainders by constants. *)
Ltac div_lia := Z.to_euclidean_division_equations; lia.

(** [cases_if] splits on the test of a conditional of the goal and reads the
    outcome as a proposition. *)
Ltac cases_if :=
  match goal with
  | |- context [if ?b then _ else _] =>
      let E := fresh "E" in destruct b eqn:E; bsimpl
  end.

(** [zbool_cases] decides the comparisons of the goal and closes what arithmetic
    or computation closes. *)
Ltac zbool_cases :=
  repeat match goal with
  | |- context [?a <=? ?b] => destruct (Z.leb_spec a b)
  | |- context [?a <? ?b] => destruct (Z.ltb_spec a b)
  | |- context [?a =? ?b] => destruct (Z.eqb_spec a b)
  end; try done; try lia.

(** * Bounded loops *)

(** [for (i = lo; i < hi; i++) body]. *)
Fixpoint for_nat {S : Type} (n : nat) (i : Z) (body : Z -> S -> S) (s : S) : S :=
  match n with
  | O => s
  | Datatypes.S n' => for_nat n' (i + 1) body (body i s)
  end.

Definition for_range {S : Type} (lo hi : Z) (body : Z -> S -> S) (s : S) : S :=
  for_nat (Z.to_nat (hi - lo)) lo body s.

(** [for (i = lo; i < hi; i++) if (...) return ...;]: the first result of a
    loop whose body may leave the function. *)
Fixpoint find_nat {A : Type} (n : nat) (i : Z) (f : Z -> option A) : option A :=
  match n with
  | O => None
  | Datatypes.S n' =>
      match f i with
      | Some a => Some a
      | None => find_nat n' (i + 1) f
      end
  end.

Definition for_first {A : Type} (lo hi : Z) (f : Z -> option A) : option A :=
  find_nat (Z.to_nat (hi - lo)) lo f.

Section for_range.
Context {S : Type}.
Implicit Types (s : S) (body : Z -> S -> S).

Lemma for_nat_ind (P : Z -> S -> Prop) n i body s :
  P i s ->
  (forall j s, i <= j < i + Z.of_nat n -> P j s -> P (j + 1) (body j s)) ->
  P (i + Z.of_nat n) (for_nat n i body s).
Proof.
  revert i s; induction n as [|n IH]; intros i s Hs Hstep; simpl.
  - by rewrite Z.add_0_r.
  - replace (i + Z.of_nat (Datatypes.S n)) with (i + 1 + Z.of_nat n) by lia.
    apply IH; [apply Hstep; [lia | done] |].
    intros j s' Hj. apply Hstep. lia.
Qed.

(** A loop invariant holds when the loop ends. *)
Lemma for_range_ind (P : Z -> S -> Prop) lo hi body s :
  lo <= hi ->
  P lo s ->
  (forall j s, lo <= j < hi -> P j s -> P (j + 1) (body j s)) ->
  P hi (for_range lo hi body s).
Proof.
  intros Hle Hs Hstep. unfold for_range.
  replace hi with (lo + Z.of_nat (Z.to_nat (hi - lo))) at 1 by lia.
  apply for_nat_ind; [done |].
  intros j s' Hj. apply Hstep. lia.
Qed.

Lemma for_range_empty lo hi body s : hi <= lo -> for_range lo hi body s = s.
Proof.
  intros. unfold for_range. by replace (Z.to_nat (hi - lo)) with O by lia.
Qed.

Lemma for_nat_snoc n i body s :
  for_nat (Datatypes.S n) i body s = body (i + Z.of_nat n) (for_nat n i body s).
Proof.
  revert i s; induction n as [|n IH]; intros i s.
  - simpl. by rewrite Z.add_0_r.
  - change (for_nat (Datatypes.S n) (i + 1) body (body i s) =
      body (i + Z.of_nat (Datatypes.S n)) (for_nat n (i + 1) body (body i s))).
    rewrite IH. f_equal. lia.
Qed.

Lemma for_range_snoc lo hi body s :
  lo <= hi -> for_range lo (hi + 1) body s = body hi (for_range lo hi body s).
Proof.
  intros. unfold for_range.
  replace (Z.to_nat (hi + 1 - lo)) with (Datatypes.S (Z.to_nat (hi - lo))) by lia.
  rewrite for_nat_snoc. f_equal. lia.
Qed.
End for_range.

Section for_first.
Context {A : Type}.
Implicit Types (f : Z -> option A).

Lemma find_nat_Some n i f a :
  find_nat n i f = Some a ->
  exists k, i <= k < i + Z.of_nat n /\ f k = Some a /\
    forall j, i <= j < k -> f j = None.
Proof.
  revert i; induction n as [|n IH]; intros i; simpl; [done |].
  destruct (f i) as [b|] eqn:Hf; intros H.
  - simplify_eq. exists i. split; [lia | split; [done | lia]].
  - destruct (IH _ H) as (k & Hk & Hfk & Hmin).
    exists k. split; [lia | split; [done |]].
    intros j Hj. destruct (decide (j = i)) as [-> | ]; [done | apply Hmin; lia].
Qed.

Lemma find_nat_None n i f :
  find_nat n i f = None <-> forall k, i <= k < i + Z.of_nat n -> f k = None.
Proof.
  revert i; induction n as [|n IH]; intros i; simpl; [split; [lia | done] |].
  destruct (f i) as [b|] eqn:Hf.
  - split; [done |]. intros H. rewrite H in Hf; [done | lia].
  - rewrite IH. split; intros H k Hk.
    + destruct (decide (k = i)) as [-> | ]; [done | apply H; lia].
    + apply H; lia.
Qed.

Lemma for_first_Some lo hi f a :
  for_first lo hi f = Some a ->
  exists k, lo <= k < hi /\ f k = Some a /\ forall j, lo <= j < k -> f j = None.
Proof.
  intros H. apply find_nat_Some in H as (k & Hk & ? & ?).
  exists k. split; [lia | done].
Qed.

Lemma for_first_None lo hi f :
  for_first lo hi f = None <-> forall k, lo <= k < hi -> f k = None.
Proof.
  unfold for_first. rewrite find_nat_None.
  split; intros H k Hk; apply H; lia.
Qed.

Lemma for_first_intro lo hi f k a :
  lo <= k < hi -> f k = Some a -> (forall j, lo <= j < k -> f j = None) ->
  for_first lo hi f = Some a.
Proof.
  intros Hk Hf Hmin. destruct (for_first lo hi f) as [b|] eqn:E.
  - apply for_first_Some in E as (k' & Hk' & Hf' & Hmin').
    destruct (Z.lt_trichotomy k k') as [?|[->|?]].
    + rewrite Hmin' in Hf; [done | lia].
    + congruence.
    + rewrite Hmin in Hf'; [done | lia].
  - rewrite for_first_None in E. rewrite E in Hf; [done | lia].
Qed.
End for_first.

(** * Unbounded loops *)

(** A [while] or [do] loop as a step function: [inl s] goes round again with
    the new values of the loop's variables, [inr r] leaves the loop. *)
Fixpoint iter_fuel {S R : Type} (fuel : nat) (step : S -> S + R) (s : S) : option R :=
  match fuel with
  | O => None
  | Datatypes.S n =>
      match step s with
      | inl s' => iter_fuel n step s'
      | inr r => Some r
      end
  end.

Section iter_fuel.
Context {S R : Type} (step : S -> S + R).

(** Total correctness: an invariant and a measure that every round decreases
    give a result, which satisfies what the last round establishes. *)
Lemma iter_fuel_total (Inv : S -> Prop) (Post : R -> Prop) (m : S -> Z) s fuel :
  (forall s, Inv s ->
     match step s with
     | inl s' => Inv s' /\ 0 <= m s' < m s
     | inr r => Post r
     end) ->
  Inv s -> m s < Z.of_nat fuel -> 0 <= m s ->
  exists r, iter_fuel fuel step s = Some r /\ Post r.
Proof.
  intros Hstep. revert s; induction fuel as [|n IH]; intros s Hs Hm Hm0; [lia |].
  simpl. specialize (Hstep s Hs) as Hs1. destruct (step s) as [s'|r].
  - destruct Hs1 as [? ?]. apply IH; [done | lia | lia].
  - eauto.
Qed.

(** More fuel never changes a result. *)
Lemma iter_fuel_mono n1 n2 s r :
  (n1 <= n2)%nat -> iter_fuel n1 step s = Some r -> iter_fuel n2 step s = Some r.
Proof.
  revert n2 s; induction n1 as [|n1 IH]; intros n2 s Hle; [done |].
  destruct n2 as [|n2]; [lia |]. simpl. destruct (step s); [|done].
  apply IH. lia.
Qed.

(** Partial correctness, for loops that need not end. *)
Lemma iter_fuel_inv (Inv : S -> Prop) (Post : R -> Prop) fuel s r :
  (forall s, Inv s ->
     match step s with inl s' => Inv s' | inr r => Post r end) ->
  Inv s -> iter_fuel fuel step s = Some r -> Post r.
Proof.
  intros Hstep. revert s; induction fuel as [|n IH]; intros s Hs; simpl; [done |].
  specialize (Hstep s Hs) as Hs1. destruct (step s) as [s'|r'].
  - by apply IH.
  - intros [= ->]. done.
Qed.

(** A loop that never leaves a set of states from which it goes round has no
    result, whatever the fuel. *)
Lemma iter_fuel_diverges (Inv : S -> Prop) fuel s :
  (forall s, Inv s -> exists s', step s = inl s' /\ Inv s') ->
  Inv s -> iter_fuel fuel step s = None.
Proof.
  intros Hstep. revert s; induction fuel as [|n IH]; intros s Hs; [done |].
  simpl. destruct (Hstep s Hs) as (s' & -> & ?). by apply IH.
Qed.
End iter_fuel.

(** The same for a body that itself takes fuel, where [inr None] says that it ran out. *)
Lemma iter_fuel_approx {S R : Type} (f g : S -> S + option R) n1 n2 s r :
  (forall s, f s = g s \/ f s = inr None) -> (n1 <= n2)%nat -> iter_fuel n1 f s = Some (Some r) -> iter_fuel n2 g s = Some (Some r).
Proof.
  intros Hfg. revert n2 s; induction n1 as [|n1 IH]; intros n2 s Hle; [done |].
  destruct n2 as [|n2]; [lia |]. simpl. destruct (Hfg s) as [<- | ->]; [| done].
  destruct (f s); [| done]. apply IH. lia.
Qed.

(** * Counting *)

(** The number of [i] in [0, n) with [f i]. *)
Definition count_range (f : Z -> bool) (n : Z) : Z :=
  for_range 0 n (fun i c => if f i then c + 1 else c) 0.

(** Induction on the upper end of a range. *)
Lemma range_ind (P : Z -> Prop) n :
  P 0 -> (forall k, 0 <= k -> P k -> P (k + 1)) -> 0 <= n -> P n.
Proof. intros H0 HS Hn. by apply (natlike_ind P H0). Qed.

Ltac range_induction n := pattern n; apply range_ind; [| | lia].

Section count_range.
Implicit Types (f g : Z -> bool) (n : Z).

Lemma count_range_0 f n : n <= 0 -> count_range f n = 0.
Proof. intros. by apply for_range_empty. Qed.

Lemma count_range_succ f n :
  0 <= n -> count_range f (n + 1) = count_range f n + (if f n then 1 else 0).
Proof.
  intros. unfold count_range. rewrite for_range_snoc by done.
  destruct (f n); lia.
Qed.

Lemma count_range_ext f g n :
  (forall i, 0 <= i < n -> f i = g i) -> count_range f n = count_range g n.
Proof.
  destruct (Z.le_gt_cases n 0); [by rewrite !count_range_0 |].
  range_induction n; [by rewrite !count_range_0 |].
  intros k Hk IH Hext. rewrite !count_range_succ by done.
  rewrite (Hext k) by lia. f_equal. apply IH. intros; apply Hext; lia.
Qed.

Lemma count_range_bounds f n : 0 <= n -> 0 <= count_range f n <= n.
Proof.
  intros Hn. range_induction n; [by rewrite count_range_0 |].
  intros k Hk IH. rewrite count_range_succ by done. destruct (f k); lia.
Qed.

Lemma count_range_true f n :
  0 <= n -> (forall i, 0 <= i < n -> f i = true) -> count_range f n = n.
Proof.
  intros Hn. range_induction n; [by rewrite count_range_0 |].
  intros k Hk IH Hf. rewrite count_range_succ, (Hf k), IH by (intros; try apply Hf; lia).
  lia.
Qed.

Lemma count_range_full f n :
  count_range f n = n -> forall i, 0 <= i < n -> f i = true.
Proof.
  destruct (Z.le_gt_cases n 0); [lia |]. range_induction n; [lia |].
  intros k Hk IH Hc i Hi. rewrite count_range_succ in Hc by done.
  pose proof (count_range_bounds f k Hk). destruct (f k) eqn:Hf; [| lia].
  destruct (decide (i = k)) as [-> |]; [done | apply IH; lia].
Qed.

(** A prefix whose elements are all on. *)
Lemma count_range_prefix f k n :
  0 <= k <= n -> (forall i, 0 <= i < k -> f i = true) -> k <= count_range f n.
Proof.
  intros [Hk Hkn] Hf. rewrite <- (count_range_true f k Hk Hf) at 1. revert Hkn. clear Hf.
  replace n with (k + (n - k)) by lia. intros Hn. assert (0 <= n - k) as H0 by lia. revert H0. generalize (n - k). clear n Hn.
  intros d Hd. range_induction d; [by rewrite Z.add_0_r |].
  intros j Hj IH. rewrite Z.add_assoc, count_range_succ by lia. destruct (f (k + j)); lia.
Qed.

(** Turning one element on adds one. *)
Lemma count_range_set f g n b :
  0 <= b < n -> f b = false ->
  (forall i, 0 <= i < n -> g i = (i =? b) || f i)%bool ->
  count_range g n = count_range f n + 1.
Proof.
  intros Hb Hf. revert Hb. destruct (Z.le_gt_cases n 0); [lia |].
  range_induction n; [lia |].
  intros k Hk IH Hb Hg. rewrite !count_range_succ by done.
  destruct (decide (b = k)) as [-> | Hne].
  - rewrite (Hg k), Z.eqb_refl, Hf by lia. simpl.
    rewrite (count_range_ext g f); [lia |].
    intros i Hi. rewrite Hg by lia. by destruct (Z.eqb_spec i k); [lia |].
  - rewrite IH; [|lia | intros; apply Hg; lia].
    rewrite (Hg k) by lia. destruct (Z.eqb_spec k b); [lia |]. simpl. lia.
Qed.

(** Turning one element off removes one. *)
Lemma count_range_clear f g n b :
  0 <= b < n -> f b = true ->
  (forall i, 0 <= i < n -> g i = (negb (i =? b) && f i)%bool) ->
  count_range g n = count_range f n - 1.
Proof.
  intros Hb Hf Hg. enough (count_range f n = count_range g n + 1) by lia.
  apply (count_range_set _ _ _ b); [done | |].
  - rewrite Hg, Z.eqb_refl by lia. done.
  - intros i Hi. rewrite Hg by done. destruct (Z.eqb_spec i b); [by subst | done].
Qed.

(** Turning [k] elements from [lo] on adds [k]. *)
Lemma count_range_set_many f g n lo k :
  0 <= lo -> 0 <= k -> lo + k <= n ->
  (forall i, lo <= i < lo + k -> f i = false) ->
  (forall i, 0 <= i < n -> g i = ((lo <=? i) && (i <? lo + k)) || f i)%bool ->
  count_range g n = count_range f n + k.
Proof.
  intros Hlo Hk. revert g. range_induction k.
  - intros g Hn _ Hg. rewrite (count_range_ext g f); [lia |]. intros i Hi.
    rewrite Hg by done. zbool_cases.
  - intros j Hj IH g Hn Hf Hg.
    set (h := fun i => (((lo <=? i) && (i <? lo + j)) || f i)%bool).
    rewrite (count_range_set h g n (lo + j)); [rewrite (IH h); try done; try lia | lia | |].
    + intros; apply Hf; lia.
    + unfold h. rewrite Hf by lia. replace (lo + j <? lo + j) with false by lia.
      by rewrite andb_false_r.
    + intros i Hi. rewrite Hg by done. unfold h.
      zbool_cases.
Qed.
End count_range.

Lemma bind_Some_eq {A B} (f : A -> option B) x : (Some x ≫= f) = f x.
Proof. reflexivity. Qed.

(** A run whose result is compared only where it is small. *)
Lemma run_pair {A B} (x : option (A * B)) a d : fst <$> x = Some a -> x = Some (a, snd (default d x)).
Proof. destruct x as [[]|]; [| done]. by intros [= ->]. Qed.

Lemma run_triple {A B C} (x : option (A * B * C)) a d :
  (fun r => fst (fst r)) <$> x = Some a -> x = Some (a, snd (fst (default d x)), snd (default d x)).
Proof. destruct x as [[[]]|]; [| done]. by intros [= ->]. Qed.

Lemma run_total {A} (x : option A) d : (if x is Some _ then true else false) = true -> x = Some (default d x).
Proof. by destruct x. Qed.
