(* ===== verification/Words.v ===== *)
(** Machine words: the integer types of include/stdint.h as [Z] with their
    wrap-around, the single-bit operations of the memory map, and the C
    bit-fields of the descriptors and page entries. *)

From S2P Require Import Prelude.

(** * The integer types *)

(** Unsigned and two's complement conversion to [w] bits. *)
Definition uwrap (w z : Z) : Z := z mod 2 ^ w.
Definition swrap (w z : Z) : Z :=
  let m := z mod 2 ^ w in if m <? 2 ^ (w - 1) then m else m - 2 ^ w.

(** The typedefs of include/stdint.h that the kernel uses. *)
Definition uint8_t : Z -> Z := uwrap 8.
Definition uint16_t : Z -> Z := uwrap 16.
Definition uint32_t : Z -> Z := uwrap 32.
Definition uint64_t : Z -> Z := uwrap 64.
Definition int8_t : Z -> Z := swrap 8.
Definition int16_t : Z -> Z := swrap 16.
Definition int32_t : Z -> Z := swrap 32.
Definition int64_t : Z -> Z := swrap 64.

#[global] Arguments uwrap _ _ : simpl never.
#[global] Arguments swrap _ _ : simpl never.
#[global] Arguments uint8_t _ : simpl never.
#[global] Arguments uint16_t _ : simpl never.
#[global] Arguments uint32_t _ : simpl never.
#[global] Arguments uint64_t _ : simpl never.
#[global] Arguments int8_t _ : simpl never.
#[global] Arguments int16_t _ : simpl never.
#[global] Arguments int32_t _ : simpl never.
#[global] Arguments int64_t _ : simpl never.

(** Arithmetic of [uint64_t] values. *)
Declare Scope word_scope.
Delimit Scope word_scope with word.
Infix "+" := (fun a b => uint64_t (Z.add a b)) : word_scope.
Infix "-" := (fun a b => uint64_t (Z.sub a b)) : word_scope.
Infix "*" := (fun a b => uint64_t (Z.mul a b)) : word_scope.

Definition is_word (w z : Z) : Prop := 0 <= z < 2 ^ w.

Lemma uwrap_is_word w z : 0 <= w -> is_word w (uwrap w z).
Proof. intros. unfold is_word, uwrap. apply Z.mod_pos_bound. lia. Qed.

Lemma uwrap_id w z : is_word w z -> uwrap w z = z.
Proof. intros. by apply Z.mod_small. Qed.

Lemma uint64_id z : 0 <= z < 2 ^ 64 -> uint64_t z = z.
Proof. apply (uwrap_id 64). Qed.

Lemma uint64_bounds z : 0 <= uint64_t z < 2 ^ 64.
Proof. by apply (uwrap_is_word 64). Qed.

Lemma swrap_bounds w z : 0 < w -> - 2 ^ (w - 1) <= swrap w z < 2 ^ (w - 1).
Proof.
  intros Hw. unfold swrap.
  assert (2 ^ w = 2 * 2 ^ (w - 1)) as Hp.
  { replace w with (Z.succ (w - 1)) at 1 by lia. apply Z.pow_succ_r. lia. }
  assert (0 < 2 ^ (w - 1)) by lia.
  pose proof (Z.mod_pos_bound z (2 ^ w) ltac:(lia)).
  cases_if; lia.
Qed.

Lemma swrap_id w z : 0 < w -> - 2 ^ (w - 1) <= z < 2 ^ (w - 1) -> swrap w z = z.
Proof.
  intros Hw Hz. unfold swrap.
  assert (2 ^ w = 2 * 2 ^ (w - 1)) as Hp.
  { replace w with (Z.succ (w - 1)) at 1 by lia. apply Z.pow_succ_r. lia. }
  destruct (Z.le_gt_cases 0 z).
  - rewrite Z.mod_small by lia. cases_if; lia.
  - assert (z mod 2 ^ w = z + 2 ^ w) as ->.
    { rewrite <- (Z.mod_add z 1 (2 ^ w)) by lia. rewrite Z.mod_small; lia. }
    cases_if; lia.
Qed.

(** Reading a signed value back as unsigned loses nothing. *)
Lemma uwrap_swrap w z : 0 < w -> uwrap w (swrap w z) = uwrap w z.
Proof.
  intros Hw. unfold uwrap, swrap. cases_if.
  - by rewrite Z.mod_mod by lia.
  - replace (z mod 2 ^ w - 2 ^ w) with (z mod 2 ^ w + (-1) * 2 ^ w) by lia.
    rewrite Z.mod_add, Z.mod_mod; lia.
Qed.

#[export] Hint Resolve uwrap_is_word uint64_bounds : kernel.

(** * Single bits *)

Definition all_ones : Z := 2 ^ 64 - 1.

Lemma testbit_above w z i : 0 <= w <= i -> is_word w z -> Z.testbit z i = false.
Proof.
  intros Hi [Hz Hz']. destruct (decide (z = 0)) as [-> |]; [apply Z.bits_0 |].
  apply Z.bits_above_log2; [done |].
  apply Z.lt_le_trans with w; [| lia]. apply Z.log2_lt_pow2; lia.
Qed.

Lemma testbit_mod_pow2 w z i :
  0 <= w -> Z.testbit (z mod 2 ^ w) i = ((i <? w) && Z.testbit z i)%bool.
Proof.
  intros. destruct (Z.ltb_spec i w); simpl.
  - by apply Z.mod_pow2_bits_low.
  - by apply Z.mod_pow2_bits_high.
Qed.

(** A nonnegative number with no bit at [w] or above has [w] bits. *)
Lemma is_word_testbit w z :
  0 <= w -> 0 <= z -> (forall i, w <= i -> Z.testbit z i = false) -> is_word w z.
Proof.
  intros Hw Hz Hb. split; [done |].
  destruct (decide (z = 0)) as [-> |]; [lia |].
  apply Z.log2_lt_pow2; [lia |].
  destruct (Z.lt_ge_cases (Z.log2 z) w) as [|Hge]; [done |].
  specialize (Hb _ Hge). rewrite Z.bit_log2 in Hb; [done | lia].
Qed.

Lemma testbit_mask z j : 0 <= j -> (Z.land z (Z.shiftl 1 j) =? 0) = negb (Z.testbit z j).
Proof.
  intros Hj. destruct (Z.testbit z j) eqn:Hb; simpl.
  - apply Z.eqb_neq. intros H.
    assert (Z.testbit (Z.land z (Z.shiftl 1 j)) j = false) as Hc by (rewrite H; apply Z.bits_0).
    rewrite Z.land_spec, Z.shiftl_spec, Z.sub_diag, Hb in Hc by done. done.
  - apply Z.eqb_eq. apply Z.bits_inj'. intros i Hi.
    rewrite Z.land_spec, Z.bits_0, Z.shiftl_spec by done.
    destruct (decide (i = j)) as [-> |]; [by rewrite Hb |].
    assert (Z.testbit 1 (i - j) = false) as ->; [| by rewrite andb_false_r].
    destruct (Z.lt_ge_cases (i - j) 0); [by apply Z.testbit_neg_r |].
    apply (testbit_above 1); [lia | done].
Qed.

Lemma setbit_is_word w z j : 0 <= j < w -> is_word w z -> is_word w (Z.setbit z j).
Proof.
  intros Hj Hz. apply is_word_testbit; [lia | |].
  - unfold Z.setbit. rewrite Z.lor_nonneg, Z.shiftl_nonneg. destruct Hz; lia.
  - intros i Hi. rewrite Z.setbit_eqb by lia.
    rewrite (testbit_above w) by (done || lia). destruct (Z.eqb_spec j i); [lia | done].
Qed.

Lemma clearbit_is_word w z j : 0 <= j < w -> is_word w z -> is_word w (Z.clearbit z j).
Proof.
  intros Hj Hz. apply is_word_testbit; [lia | |].
  - unfold Z.clearbit. rewrite Z.ldiff_nonneg. destruct Hz; lia.
  - intros i Hi. rewrite Z.clearbit_eqb by lia.
    by rewrite (testbit_above w) by (done || lia).
Qed.

(** [x &= ~((uint64_t) 1 << j)] clears bit [j]. *)
Lemma mask_out_bit z j :
  0 <= j < 64 -> is_word 64 z ->
  Z.land z (uint64_t (Z.lnot (Z.shiftl 1 j))) = Z.clearbit z j.
Proof.
  intros Hj Hz. apply Z.bits_inj'. intros i Hi.
  unfold Z.clearbit. rewrite Z.land_spec, Z.ldiff_spec.
  unfold uint64_t, uwrap. rewrite testbit_mod_pow2 by lia.
  destruct (Z.lt_ge_cases i 64).
  - replace (i <? 64) with true by lia. by rewrite Z.lnot_spec.
  - by rewrite (testbit_above 64 z) by (done || lia).
Qed.

(** A word that is not all ones has a clear bit. *)
Lemma all_ones_testbit z :
  is_word 64 z -> z <> all_ones -> exists j, 0 <= j < 64 /\ Z.testbit z j = false.
Proof.
  intros Hz Hne.
  destruct (for_first 0 64 (fun j => if Z.testbit z j then None else Some j)) as [j|] eqn:E.
  - apply for_first_Some in E as (k & Hk & Hf & _). exists k. split; [done |].
    destruct (Z.testbit z k); done.
  - exfalso. apply Hne. change all_ones with (Z.ones 64). apply Z.bits_inj'. intros i Hi.
    rewrite for_first_None in E. destruct (Z.lt_ge_cases i 64).
    + rewrite Z.ones_spec_low by lia. specialize (E i ltac:(lia)).
      by destruct (Z.testbit z i).
    + rewrite Z.ones_spec_high by lia. apply (testbit_above 64); [lia | done].
Qed.

Lemma all_ones_bit j : 0 <= j < 64 -> Z.testbit all_ones j = true.
Proof. intros. change all_ones with (Z.ones 64). apply Z.ones_spec_low. lia. Qed.

Lemma all_ones_is_word : is_word 64 all_ones.
Proof. done. Qed.

#[export] Hint Resolve setbit_is_word clearbit_is_word all_ones_is_word : kernel.

(** * Bit-fields *)

(** A bit-field of [w] bits at bit [off] of a unit: reading it, and storing
    [v], which the store truncates to the field's width. *)
Definition bf_get (off w x : Z) : Z := Z.land (Z.shiftr x off) (Z.ones w).
Definition bf_set (off w v x : Z) : Z :=
  Z.lor (Z.ldiff x (Z.shiftl (Z.ones w) off)) (Z.shiftl (Z.land v (Z.ones w)) off).

Lemma bf_get_mod off w x : 0 <= w -> bf_get off w x = Z.shiftr x off mod 2 ^ w.
Proof. intros. unfold bf_get. by apply Z.land_ones. Qed.

Lemma bf_get_bounds off w x : 0 <= w -> 0 <= bf_get off w x < 2 ^ w.
Proof. intros. rewrite bf_get_mod by done. apply Z.mod_pos_bound. lia. Qed.

Lemma bf_get_testbit off w x i :
  0 <= off -> 0 <= w -> 0 <= i ->
  Z.testbit (bf_get off w x) i = (Z.testbit x (i + off) && (i <? w))%bool.
Proof.
  intros. unfold bf_get. rewrite Z.land_spec, Z.shiftr_spec by done.
  f_equal. destruct (Z.ltb_spec i w).
  - apply Z.ones_spec_low. lia.
  - apply Z.ones_spec_high. lia.
Qed.

Lemma bf_set_testbit off w v x i :
  0 <= off -> 0 <= w -> 0 <= i ->
  Z.testbit (bf_set off w v x) i =
  if (off <=? i) && (i <? off + w) then Z.testbit v (i - off) else Z.testbit x i.
Proof.
  intros. unfold bf_set.
  rewrite Z.lor_spec, Z.ldiff_spec, !Z.shiftl_spec, Z.land_spec by done.
  destruct (Z.leb_spec off i); simpl.
  - destruct (Z.ltb_spec i (off + w)).
    + rewrite Z.ones_spec_low by lia. simpl. by rewrite andb_false_r, andb_true_r.
    + rewrite Z.ones_spec_high by lia. simpl. by rewrite andb_false_r, andb_true_r, orb_false_r.
  - rewrite !(Z.testbit_neg_r _ (i - off)) by lia. simpl.
    by rewrite andb_true_r, orb_false_r.
Qed.

Lemma bf_get_set_same off w v x :
  0 <= off -> 0 <= w -> bf_get off w (bf_set off w v x) = v mod 2 ^ w.
Proof.
  intros. apply Z.bits_inj'. intros i Hi.
  rewrite bf_get_testbit, bf_set_testbit, testbit_mod_pow2 by lia.
  replace (off <=? i + off) with true by lia.
  destruct (Z.ltb_spec i w).
  - replace (i + off <? off + w) with true by lia.
    simpl. rewrite andb_true_r. f_equal. lia.
  - by rewrite andb_false_r.
Qed.

Lemma bf_get_set_other off w off' w' v x :
  0 <= off -> 0 <= w -> 0 <= off' -> 0 <= w' ->
  off + w <= off' \/ off' + w' <= off ->
  bf_get off' w' (bf_set off w v x) = bf_get off' w' x.
Proof.
  intros. apply Z.bits_inj'. intros i Hi.
  rewrite !bf_get_testbit, bf_set_testbit by lia.
  destruct (Z.ltb_spec i w'); [| by rewrite !andb_false_r].
  replace ((off <=? i + off') && (i + off' <? off + w)) with false; [done |].
  destruct (Z.leb_spec off (i + off')); simpl; [lia | done].
Qed.

Lemma bf_set_is_word n off w v x :
  0 <= off -> 0 <= w -> off + w <= n -> is_word n x -> is_word n (bf_set off w v x).
Proof.
  intros. apply is_word_testbit; [lia | |].
  - unfold bf_set. rewrite Z.lor_nonneg, Z.ldiff_nonneg, Z.shiftl_nonneg, Z.land_nonneg.
    unfold is_word in *. rewrite Z.ones_equiv. lia.
  - intros i Hi. rewrite bf_set_testbit by lia.
    replace (i <? off + w) with false by lia. rewrite andb_false_r.
    apply (testbit_above n); [lia | done].
Qed.

#[export] Hint Resolve bf_set_is_word : kernel.

(** ** Bit-fields of shifted, masked and wrapped words *)

Lemma bf_get_div off w x : 0 <= off -> 0 <= w -> bf_get off w x = x / 2 ^ off mod 2 ^ w.
Proof. intros. by rewrite bf_get_mod, Z.shiftr_div_pow2. Qed.

Lemma bf_get_low w x : 0 <= w -> bf_get 0 w x = x mod 2 ^ w.
Proof. intros. by rewrite bf_get_div, Z.div_1_r. Qed.

Lemma bf_get_shiftr off w n x : 0 <= off -> 0 <= n -> bf_get off w (Z.shiftr x n) = bf_get (n + off) w x.
Proof. intros. unfold bf_get. by rewrite Z.shiftr_shiftr. Qed.

Lemma bf_get_land off w x y : bf_get off w (Z.land x y) = Z.land (bf_get off w x) (bf_get off w y).
Proof.
  unfold bf_get. rewrite Z.shiftr_land, <- !Z.land_assoc, (Z.land_assoc (Z.ones w)), (Z.land_comm (Z.ones w)).
  by rewrite <- Z.land_assoc, Z.land_diag.
Qed.

Lemma bf_get_lor off w x y : bf_get off w (Z.lor x y) = Z.lor (bf_get off w x) (bf_get off w y).
Proof. unfold bf_get. by rewrite Z.shiftr_lor, Z.land_lor_distr_l. Qed.

(** A mask that covers the field. *)
Lemma bf_get_masked off w x k : bf_get off w k = Z.ones w -> bf_get off w (Z.land x k) = bf_get off w x.
Proof. intros Hk. rewrite bf_get_land, Hk. unfold bf_get. by rewrite <- Z.land_assoc, Z.land_diag. Qed.

(** A mask that misses it. *)
Lemma bf_get_masked_off off w x k : bf_get off w k = 0 -> bf_get off w (Z.land x k) = 0.
Proof. intros Hk. by rewrite bf_get_land, Hk, Z.land_0_r. Qed.

Lemma bf_get_uwrap off w n x : 0 <= off -> 0 <= w -> off + w <= n -> bf_get off w (uwrap n x) = bf_get off w x.
Proof.
  intros. apply Z.bits_inj'. intros i Hi. rewrite !bf_get_testbit by lia.
  unfold uwrap. rewrite testbit_mod_pow2 by lia. destruct (Z.ltb_spec i w); [| by rewrite !andb_false_r].
  by replace (i + off <? n) with true by lia.
Qed.

Lemma bf_get_swrap off w n x :
  0 <= off -> 0 <= w -> 0 < n -> off + w <= n -> bf_get off w (swrap n x) = bf_get off w x.
Proof. intros. rewrite <- (bf_get_uwrap off w n (swrap n x)), uwrap_swrap by lia. by apply bf_get_uwrap. Qed.

(** Two adjacent fields. *)
Lemma bf_get_join off w1 w2 x :
  0 <= off -> 0 <= w1 -> 0 <= w2 -> bf_get off w1 x + bf_get (off + w1) w2 x * 2 ^ w1 = bf_get off (w1 + w2) x.
Proof.
  intros. rewrite !bf_get_div, !Z.pow_add_r, <- Z.div_div, Z.rem_mul_r by lia. lia.
Qed.
