(* ===== verification/Console.v ===== *)
(** What the kernel prints. A component's definition lists the calls of [puts],
    [putint] and [puthex] it makes; Monitor.v gives them their effect. *)

From stdpp Require Export strings.
From S2P Require Import Prelude.
#[local] Open Scope Z_scope.

Inductive out :=
  | Puts (str : string)
  | Putint (i : Z)
  | Puthex (i : Z).

(** The newline, and a line of output. *)
Definition nl : string := String (Ascii.ascii_of_nat 10) EmptyString.
Definition Putsln (str : string) : out := Puts (str +:+ nl).

#[export] Instance out_eq_dec : EqDecision out.
Proof. solve_decision. Defined.
