(* ===== verification/FrameMap.v ===== *)
(** The bitmap of physical memory blocks (kernel/memman.c, lines 24-114): one
    bit per 4 KiB block, 1 for used, and the two searches over it. *)

From S2P Require Import Prelude Words.

(** * Definitions *)

(** [_mem_memory_map]: the 64-bit words the pointer reaches, by index. An index
    the map does not hold reads as 0, the content that lets the searches run
    furthest. *)
Abbreviation memory_map := (gmap Z Z).

Definition word_at (m : memory_map) (i : Z) : Z := default 0 (m !! i).

Definition mmap_set (bit : Z) (m : memory_map) : memory_map :=
  <[bit / 64 := Z.lor (word_at m (bit / 64)) (Z.shiftl 1 (bit mod 64))]> m.

Definition mmap_unset (bit : Z) (m : memory_map) : memory_map :=
  <[bit / 64 := Z.land (word_at m (bit / 64)) (uint64_t (Z.lnot (Z.shiftl 1 (bit mod 64))))]> m.

Definition mmap_test (bit : Z) (m : memory_map) : Z :=
  Z.land (word_at m (bit / 64)) (Z.shiftl 1 (bit mod 64)).

(** The two nested loops of [mmap_first_free]. *)
Definition mmap_first_free (max_blocks : Z) (m : memory_map) : Z :=
  default 0
    (for_first 0 (max_blocks / 64) (fun i =>
       if word_at m i =? all_ones then None
       else for_first 0 64 (fun j =>
              if Z.land (word_at m i) (Z.shiftl 1 j) =? 0 then Some (i * 64 + j)
              else None))).

(** [mmap_first_free_zone] moves the counters of both its loops, so it is a
    machine with two program points: the head of the outer loop and the head of
    the inner one. *)
Inductive zone_pc :=
  | Outer (i : Z)
  | Inner (i j : Z).

(** The [count] loop: [inr] when it returns, [inl count] when it stops there. *)
Definition zone_count (m : memory_map) (size p : Z) : Z + unit :=
  default (inl (size + 1))
    (for_first 0 (size + 1) (fun count =>
       if count =? size then Some (inr tt)
       else if mmap_test (p + count) m =? 0 then None
       else Some (inl count))).

Definition zone_step (max_blocks : Z) (m : memory_map) (size : Z) (pc : zone_pc) : zone_pc + Z :=
  match pc with
  | Outer i =>
      if i <? max_blocks / 64 then
        if word_at m i =? all_ones then inl (Outer (i + 1)) else inl (Inner i 0)
      else inr 0
  | Inner i j =>
      if j <? 64 then
        if Z.land (word_at m i) (Z.shiftl 1 j) =? 0 then
          match zone_count m size (i * 64 + j) with
          | inr _ => inr (i * 64 + j)
          | inl count =>
              let i2 := (i * 64 + j + count) / 64 in
              let j2 := (i * 64 + j + count) mod 64 in
              inl (Inner i2 (j2 + 1))
          end
        else inl (Inner i (j + 1))
      else inl (Outer (i + 1))
  end.

Definition mmap_first_free_zone (fuel : nat) (max_blocks : Z) (m : memory_map) (size : Z) : option Z :=
  if size =? 0 then Some 0
  else if size =? 1 then Some (mmap_first_free max_blocks m)
  else iter_fuel fuel (zone_step max_blocks m size) (Outer 0).

(** Rounds that the search needs at most on a map that ends in used blocks. *)
Definition zone_fuel (max_blocks : Z) : nat := Z.to_nat (66 * (max_blocks / 64 + 2) + 1).

(** * The bitmap as a set of used blocks *)

Definition bit_used (m : memory_map) (b : Z) : bool := negb (mmap_test b m =? 0).

Definition map_wf (m : memory_map) : Prop := forall i, is_word 64 (word_at m i).

(** [size] blocks from [p] are free. *)
Definition run_free (m : memory_map) (p size : Z) : Prop :=
  forall k, 0 <= k < size -> bit_used m (p + k) = false.

(** The bits from the last block to the end of its word are set, as
    [memman_init] leaves them. *)
Definition sentinel (max_blocks : Z) (m : memory_map) : Prop :=
  forall b, max_blocks <= b < 64 * (max_blocks / 64 + 1) -> bit_used m b = true.

Section bitmap.
Implicit Types (m : memory_map) (b i j p size : Z).

Lemma word_at_insert m i j w :
  word_at (<[i := w]> m) j = if decide (i = j) then w else word_at m j.
Proof. unfold word_at. rewrite lookup_insert. by case_decide. Qed.

Lemma bit_used_testbit m b :
  0 <= b -> bit_used m b = Z.testbit (word_at m (b / 64)) (b mod 64).
Proof.
  intros. unfold bit_used, mmap_test.
  pose proof (Z.mod_pos_bound b 64 ltac:(lia)).
  by rewrite testbit_mask, negb_involutive by lia.
Qed.

Lemma bit_used_word m i j :
  0 <= i -> 0 <= j < 64 -> bit_used m (i * 64 + j) = Z.testbit (word_at m i) j.
Proof.
  intros. rewrite bit_used_testbit by lia. f_equal; [f_equal |]; div_lia.
Qed.

Lemma mmap_set_setbit m b :
  mmap_set b m = <[b / 64 := Z.setbit (word_at m (b / 64)) (b mod 64)]> m.
Proof. done. Qed.

Lemma mmap_unset_clearbit m b :
  map_wf m -> mmap_unset b m = <[b / 64 := Z.clearbit (word_at m (b / 64)) (b mod 64)]> m.
Proof.
  intros Hm. unfold mmap_unset. rewrite mask_out_bit; [done | | apply Hm].
  apply Z.mod_pos_bound. lia.
Qed.

Lemma mmap_set_wf m b : map_wf m -> map_wf (mmap_set b m).
Proof.
  intros Hm i. rewrite mmap_set_setbit, word_at_insert. case_decide; [| apply Hm].
  apply setbit_is_word; [apply Z.mod_pos_bound; lia | apply Hm].
Qed.

Lemma mmap_unset_wf m b : map_wf m -> map_wf (mmap_unset b m).
Proof.
  intros Hm i. rewrite mmap_unset_clearbit, word_at_insert by done.
  case_decide; [| apply Hm].
  apply clearbit_is_word; [apply Z.mod_pos_bound; lia | apply Hm].
Qed.

(** Two blocks are the same when word and bit are. *)
Lemma block_eq b b' : b / 64 = b' / 64 -> b mod 64 = b' mod 64 -> b = b'.
Proof. intros. rewrite (Z.div_mod b 64), (Z.div_mod b' 64) by lia. congruence. Qed.

Lemma bit_used_set m b b' :
  0 <= b -> 0 <= b' -> bit_used (mmap_set b m) b' = ((b' =? b) || bit_used m b')%bool.
Proof.
  intros. rewrite !bit_used_testbit, mmap_set_setbit, word_at_insert by done.
  destruct (decide (b / 64 = b' / 64)) as [Hw|Hw].
  - rewrite Z.setbit_eqb by (apply Z.mod_pos_bound; lia). rewrite Hw. f_equal.
    destruct (Z.eqb_spec (b mod 64) (b' mod 64)), (Z.eqb_spec b' b); try done; subst; try done.
    exfalso. eauto using block_eq.
  - destruct (Z.eqb_spec b' b); [by subst | done].
Qed.

Lemma bit_used_unset m b b' :
  map_wf m -> 0 <= b -> 0 <= b' ->
  bit_used (mmap_unset b m) b' = (negb (b' =? b) && bit_used m b')%bool.
Proof.
  intros Hm ? ?. rewrite !bit_used_testbit, mmap_unset_clearbit, word_at_insert by done.
  destruct (decide (b / 64 = b' / 64)) as [Hw|Hw].
  - rewrite Z.clearbit_eqb by (apply Z.mod_pos_bound; lia). rewrite Hw, andb_comm. f_equal.
    destruct (Z.eqb_spec (b mod 64) (b' mod 64)), (Z.eqb_spec b' b); try done; subst; try done.
    exfalso. eauto using block_eq.
  - destruct (Z.eqb_spec b' b); [by subst | done].
Qed.

Lemma all_ones_used m i b :
  word_at m i = all_ones -> 0 <= i -> 64 * i <= b < 64 * i + 64 -> bit_used m b = true.
Proof.
  intros Hw ? ?. replace b with (i * 64 + (b - 64 * i)) by lia.
  rewrite bit_used_word, Hw by lia. apply all_ones_bit. lia.
Qed.

Lemma bit_clear_used m i j :
  0 <= i -> 0 <= j < 64 ->
  (Z.land (word_at m i) (Z.shiftl 1 j) =? 0) = negb (bit_used m (i * 64 + j)).
Proof. intros. rewrite testbit_mask, bit_used_word by lia. done. Qed.
End bitmap.

#[export] Hint Resolve mmap_set_wf mmap_unset_wf : kernel.

(** * The searches *)

Section search.
Context (max_blocks : Z) (m : memory_map).
Context (Hmax : 0 <= max_blocks) (Hwf : map_wf m).

Let W := max_blocks / 64.

Lemma mmap_first_free_spec :
  let r := mmap_first_free max_blocks m in
  (0 <= r < 64 * W /\ bit_used m r = false /\ forall b, 0 <= b < r -> bit_used m b = true) \/
  (r = 0 /\ forall b, 0 <= b < 64 * W -> bit_used m b = true).
Proof.
  assert (0 <= W) by (apply Z.div_pos; lia). cbv zeta. unfold mmap_first_free. fold W.
  set (word_scan := fun i => for_first 0 64 (fun j =>
    if Z.land (word_at m i) (Z.shiftl 1 j) =? 0 then Some (i * 64 + j) else None)).
  assert (forall i b, 0 <= i -> word_at m i = all_ones \/ word_scan i = None ->
            64 * i <= b < 64 * i + 64 -> bit_used m b = true) as Hskip.
  { intros i b Hi [Hw|Hs] Hb; [by apply (all_ones_used m i) |].
    unfold word_scan in Hs. rewrite for_first_None in Hs.
    specialize (Hs (b - 64 * i) ltac:(lia)). rewrite bit_clear_used in Hs by lia.
    replace (i * 64 + (b - 64 * i)) with b in Hs by lia.
    by destruct (bit_used m b). }
  assert (forall i b, (if word_at m i =? all_ones then None else word_scan i) = None ->
            0 <= i -> 64 * i <= b < 64 * i + 64 -> bit_used m b = true) as Hskip'.
  { intros i b Hn ?. apply Hskip; [done |].
    destruct (Z.eqb_spec (word_at m i) all_ones); auto. }
  destruct (for_first 0 W _) as [r|] eqn:E; simpl.
  - left. apply for_first_Some in E as (i & Hi & Hf & Hmin).
    destruct (Z.eqb_spec (word_at m i) all_ones); [done |].
    pose proof Hf as Hj. apply for_first_Some in Hj as (j & Hj & Hfj & Hminj).
    rewrite bit_clear_used in Hfj by lia.
    destruct (bit_used m (i * 64 + j)) eqn:Hb; simplify_eq/=.
    split; [lia | split; [done |]]. intros b Hbr.
    destruct (Z.lt_ge_cases b (64 * i)).
    + apply (Hskip' (b / 64)); [apply Hmin | |]; div_lia.
    + specialize (Hminj (b - 64 * i) ltac:(lia)). rewrite bit_clear_used in Hminj by lia.
      replace (i * 64 + (b - 64 * i)) with b in Hminj by lia. by destruct (bit_used m b).
  - right. split; [done |]. rewrite for_first_None in E. intros b Hb.
    apply (Hskip' (b / 64)); [apply E | |]; div_lia.
Qed.

(** The [count] loop ends in one of its two exits. *)
Lemma zone_count_spec size p :
  0 < size -> 0 <= p -> bit_used m p = false ->
  match zone_count m size p with
  | inr _ => run_free m p size
  | inl count => 0 < count < size /\ run_free m p count /\ bit_used m (p + count) = true
  end.
Proof.
  intros Hs Hp Hfree. unfold zone_count.
  assert (forall k, (if k =? size then Some (inr tt)
    else if mmap_test (p + k) m =? 0 then None else Some (inl k)) =@{option (Z + unit)} None ->
    bit_used m (p + k) = false) as Hnone.
  { intros k. unfold bit_used. destruct (k =? size); [done |].
    by destruct (mmap_test (p + k) m =? 0). }
  destruct (for_first 0 (size + 1) _) as [r|] eqn:E.
  - apply for_first_Some in E as (k & Hk & Hf & Hmin). simpl.
    destruct (Z.eqb_spec k size) as [->|Hne]; simplify_eq.
    { intros j Hj. apply Hnone, Hmin. lia. }
    destruct (mmap_test (p + k) m =? 0) eqn:Ht; simplify_eq.
    assert (bit_used m (p + k) = true) as Hu by (unfold bit_used; by rewrite Ht).
    split_and!; [| lia | intros j Hj; apply Hnone, Hmin; lia | done].
    destruct (decide (k = 0)) as [->|]; [| lia]. rewrite Z.add_0_r in Hu. congruence.
  - rewrite for_first_None in E. specialize (E size ltac:(lia)).
    by rewrite Z.eqb_refl in E.
Qed.

Context (Hsent : sentinel max_blocks m).

(** A free run that starts below the end of the last word ends within the
    blocks. *)
Lemma run_free_bound p size :
  0 <= p < 64 * (W + 1) -> 0 < size -> run_free m p size -> p + size <= max_blocks.
Proof.
  intros Hp Hs Hrun. unfold sentinel in Hsent. fold W in Hsent.
  assert (max_blocks < 64 * (W + 1)) by (unfold W; div_lia).
  destruct (Z.le_gt_cases max_blocks p).
  - specialize (Hrun 0 ltac:(lia)). rewrite Z.add_0_r, Hsent in Hrun by lia. done.
  - destruct (Z.le_gt_cases (p + size) max_blocks); [done |].
    specialize (Hrun (max_blocks - p) ltac:(lia)).
    replace (p + (max_blocks - p)) with max_blocks in Hrun by lia.
    rewrite Hsent in Hrun by lia. done.
Qed.

Definition no_run_below (size p : Z) : Prop :=
  forall q, 0 <= q < p -> ~ run_free m q size.

Definition zone_inv (size : Z) (pc : zone_pc) : Prop :=
  match pc with
  | Outer i => 0 <= i <= W + 1 /\ no_run_below size (64 * i)
  | Inner i j => 0 <= i <= W /\ 0 <= j <= 64 /\ no_run_below size (i * 64 + j)
  end.

Definition zone_post (size r : Z) : Prop :=
  (0 <= r /\ r + size <= max_blocks /\ run_free m r size /\ no_run_below size r) \/
  (r = 0 /\ no_run_below size (64 * W)).

Definition zone_measure (pc : zone_pc) : Z :=
  match pc with
  | Outer i => 66 * (W + 2) - 66 * i
  | Inner i j => 66 * (W + 2) - (66 * i + 1 + j)
  end.

Lemma no_run_below_used size p b :
  0 < size -> no_run_below size p -> p <= b ->
  (forall q, p <= q <= b -> exists c, q <= c < q + size /\ bit_used m c = true) ->
  no_run_below size (b + 1).
Proof.
  intros Hs Hbelow Hpb Hused q Hq Hrun. destruct (Z.lt_ge_cases q p).
  - by apply (Hbelow q); [lia |].
  - destruct (Hused q ltac:(lia)) as (c & Hc & Hu).
    specialize (Hrun (c - q) ltac:(lia)). replace (q + (c - q)) with c in Hrun by lia. congruence.
Qed.

Lemma zone_step_spec size pc :
  0 < size -> zone_inv size pc ->
  match zone_step max_blocks m size pc with
  | inl pc' => zone_inv size pc' /\ 0 <= zone_measure pc' < zone_measure pc
  | inr r => zone_post size r
  end.
Proof.
  intros Hs. assert (0 <= W) by (apply Z.div_pos; lia).
  destruct pc as [i | i j]; simpl; fold W.
  - intros [Hi Hbelow]. destruct (Z.ltb_spec i W) as [Hlt|Hge].
    + destruct (Z.eqb_spec (word_at m i) all_ones) as [Hw|Hw]; simpl; split; try lia.
      * split; [lia |]. replace (64 * (i + 1)) with (64 * i + 63 + 1) by lia.
        apply (no_run_below_used size (64 * i)); [done .. | lia |].
        intros q Hq. exists q. split; [lia |]. apply (all_ones_used m i); [done | lia | lia].
      * split_and!; [lia .. |]. by replace (i * 64 + 0) with (64 * i) by lia.
    + right. split; [done |]. intros q Hq. apply Hbelow. lia.
  - intros (Hi & Hj & Hbelow). destruct (Z.ltb_spec j 64) as [Hlt|Hge]; simpl.
    2:{ split; [split; [lia |] | lia]. by replace (64 * (i + 1)) with (i * 64 + j) by lia. }
    rewrite bit_clear_used by lia.
    destruct (bit_used m (i * 64 + j)) eqn:Hb; simpl.
    + split; [split_and!; [lia .. |] | lia]. rewrite Z.add_assoc.
      apply (no_run_below_used size (i * 64 + j)); [done .. | lia |].
      intros q Hq. exists q. split; [lia |]. by replace q with (i * 64 + j) by lia.
    + pose proof (zone_count_spec size (i * 64 + j) Hs ltac:(lia) Hb) as Hc.
      destruct (zone_count m size (i * 64 + j)) as [count|?].
      * destruct Hc as (Hc & Hrun & Hu).
        pose proof (run_free_bound (i * 64 + j) count ltac:(lia) ltac:(lia) Hrun) as Hle.
        set (b := i * 64 + j + count) in *.
        assert (b / 64 <= W) by (apply Z.div_le_mono; lia).
        assert (b = b / 64 * 64 + b mod 64) by (div_lia).
        pose proof (Z.mod_pos_bound b 64 ltac:(lia)).
        split; [split_and!; [lia .. |] | simpl; lia].
        replace (b / 64 * 64 + (b mod 64 + 1)) with (b + 1) by lia.
        apply (no_run_below_used size (i * 64 + j)); [done .. | lia |].
        intros q Hq. exists b. split; [lia | done].
      * left. split_and!; [lia | | done | done].
        apply run_free_bound; [lia | done | done].
Qed.

(** The zone search ends within [zone_fuel] rounds, and is first fit. *)
Lemma zone_search_total size :
  1 < size ->
  exists r, mmap_first_free_zone (zone_fuel max_blocks) max_blocks m size = Some r /\
    zone_post size r.
Proof.
  intros Hs. assert (0 <= W) by (apply Z.div_pos; lia).
  unfold mmap_first_free_zone.
  replace (size =? 0) with false by lia. replace (size =? 1) with false by lia.
  apply (iter_fuel_total _ (zone_inv size) (zone_post size) zone_measure).
  - intros pc. apply zone_step_spec. lia.
  - simpl. split; [lia |]. intros q ?. lia.
  - simpl. unfold zone_fuel. fold W. lia.
  - simpl. lia.
Qed.
End search.
