(* ===== verification/FrameAlloc.v ===== *)
(** The physical block allocator (kernel/memman.c, lines 116-280, 338-358 and
    696-711): allocation and release of 4 KiB blocks over the bitmap of
    FrameMap.v, the set-up of the bitmap from the firmware's memory map, and the
    accounting of [_mem_used_blocks]. *)

From S2P Require Import Prelude Words Console FrameMap.
#[local] Open Scope Z_scope.

(** * State *)

Definition MEM_BLOCKS_PER_BYTE : Z := 8.
Definition MEM_MAP_WORD_SIZE : Z := 64.
Definition MEM_BLOCK_SIZE : Z := 4096.

(** The static variables of memman.c. *)
Record memman := Memman {
  _mem_memory_size : Z;
  _mem_used_blocks : Z;
  _mem_max_blocks : Z;
  _mem_memory_map : gmap Z Z;
  _kernel_next_block : Z
}.

Definition upd_used (f : Z -> Z) (s : memman) : memman :=
  Memman (_mem_memory_size s) (f (_mem_used_blocks s)) (_mem_max_blocks s)
    (_mem_memory_map s) (_kernel_next_block s).
Definition upd_map (f : gmap Z Z -> gmap Z Z) (s : memman) : memman :=
  Memman (_mem_memory_size s) (_mem_used_blocks s) (_mem_max_blocks s)
    (f (_mem_memory_map s)) (_kernel_next_block s).
Definition upd_next_block (f : Z -> Z) (s : memman) : memman :=
  Memman (_mem_memory_size s) (_mem_used_blocks s) (_mem_max_blocks s)
    (_mem_memory_map s) (f (_kernel_next_block s)).

(** * Allocation and release *)

Definition mem_free_block_count (s : memman) : Z :=
  (_mem_max_blocks s - _mem_used_blocks s)%word.

Definition mem_alloc_block (s : memman) : Z * memman :=
  if mem_free_block_count s =? 0 then (0, s)
  else
    let frame := mmap_first_free (_mem_max_blocks s) (_mem_memory_map s) in
    if frame =? 0 then (0, s)
    else ((frame * MEM_BLOCK_SIZE)%word,
          upd_used (fun u => (u + 1)%word) (upd_map (mmap_set frame) s)).

Definition mem_free_block (addr : Z) (s : memman) : memman :=
  upd_used (fun u => (u - 1)%word) (upd_map (mmap_unset (addr / MEM_BLOCK_SIZE)) s).

Definition mem_alloc_blocks (size : Z) (s : memman) : option (Z * memman) :=
  if mem_free_block_count s <? size then Some (0, s)
  else
    frame ← mmap_first_free_zone (zone_fuel (_mem_max_blocks s))
              (_mem_max_blocks s) (_mem_memory_map s) size;
    if frame =? 0 then Some (0, s)
    else Some ((frame * MEM_BLOCK_SIZE)%word,
               upd_used (fun u => (u + size)%word)
                 (for_range 0 size (fun i => upd_map (mmap_set (frame + i))) s)).

Definition mem_free_blocks (addr size : Z) (s : memman) : memman :=
  let frame := addr / MEM_BLOCK_SIZE in
  upd_used (fun u => (u - size)%word)
    (for_range frame (frame + size)%word (fun i => upd_map (mmap_unset i)) s).

(** * Initialisation *)

(** An entry of the BIOS memory map (kernel/memman.h). *)
Record memory_region := MemoryRegion {
  start : Z;
  size : Z;
  type : Z;
  acpi3 : Z
}.

(** [align] and the allocator's state, as the loop over [blocks] changes them. *)
Definition mem_init_region (base size : Z) (s : memman) : memman :=
  let align := base / MEM_BLOCK_SIZE in
  let blocks := size / MEM_BLOCK_SIZE in
  snd (for_range 0 blocks (fun _ '(align, s) =>
         if mmap_test align (_mem_memory_map s) =? 0 then (align, s)
         else (align + 1,
               upd_used (fun u => (u - 1)%word) (upd_map (mmap_unset align) s)))
       (align, s)).

(** The loops that mark the first megabyte and the kernel as used. *)
Definition mark_used (lo hi : Z) (s : memman) : memman :=
  for_range lo hi (fun i s =>
    if mmap_test i (_mem_memory_map s) =? 0
    then upd_map (mmap_set i) (upd_used (fun u => (u + 1)%word) s)
    else s) s.

Definition strMemoryType : list string :=
  ["Unknown"; "Available"; "Reserved"; "ACPI Reclaim"; "ACPI NVS Memory"; "Bad stuff"]%string.

(** The first loop of [memman_init]: [(total, limit)]. *)
Definition analyze_memory_map (memory_map : list memory_region) : Z * Z :=
  foldl (fun '(total, limit) r =>
    if type r =? 1 then
      ((total + size r)%word,
       if limit <? (start r + size r)%word then (start r + size r)%word else limit)
    else (total, limit)) (0, 0) memory_map.

Definition print_memory_map (memory_map : list memory_region) : list out :=
  r ← memory_map;
  [Puts "   From: "; Puthex (start r); Puts "    Size: "; Puthex (size r);
   Puts "    Type: "; Puts (default ""%string (strMemoryType !! Z.to_nat (type r))); Putsln ""].

(** [debug_memmap]: the number of free blocks it counts, and its output. *)
Definition debug_memmap_free (s : memman) : Z :=
  let used := count_range (fun i => negb (mmap_test i (_mem_memory_map s) =? 0)) (_mem_max_blocks s) in
  (_mem_max_blocks s - used)%word.

Definition debug_memmap (s : memman) : list out :=
  [Puts "Debugging "; Putint (_mem_max_blocks s); Puts " memory blocks: ";
   Putint (debug_memmap_free s); Puts " (";
   Putint (debug_memmap_free s * MEM_BLOCK_SIZE)%word; Putsln "B) free"].

(** How many blocks the kernel image and the bitmap behind it take. *)
Definition blocks_used_by_kernel (kernel_start kernel_end max_blocks : Z) : Z :=
  (kernel_end / 4096 + 1 + (max_blocks / MEM_BLOCKS_PER_BYTE) / MEM_BLOCK_SIZE + 1
     - kernel_start / 4096)%word.

(** The part of [memman_init] before paging: the state it leaves and what it
    prints. [m0] is what the memory behind the kernel held. *)
Definition memman_init_frames (kernel_start kernel_end : Z) (memory_map : list memory_region)
    (m0 : gmap Z Z) : memman * list out :=
  let '(total, limit) := analyze_memory_map memory_map in
  let max := limit / MEM_BLOCK_SIZE in
  let m := for_range 0 (max / MEM_MAP_WORD_SIZE + 1) (fun i m => <[i := all_ones]> m) m0 in
  let s := Memman total max max m 0 in
  let s := foldl (fun s r => if type r =? 1 then mem_init_region (start r) (size r) s else s)
             s memory_map in
  let s := mark_used 0 256 s in
  let blocks := blocks_used_by_kernel kernel_start kernel_end max in
  let s := mark_used 0x200 (blocks + 0x200)%word s in
  let s := upd_next_block (fun _ => (0xc0000000 / 0x1000 + blocks)%word) s in
  let free := (_mem_max_blocks s - _mem_used_blocks s)%word in
  (s,
   [Putsln "Initializing memory manager... "; Putsln "Analyzing memory map:"]
   ++ print_memory_map memory_map
   ++ [Puts "Found "; Putint total; Putsln " bytes of usable memory...";
       Puts "Highest address of available memory: "; Putint limit; Putsln "";
       Puts "Memory map put at "; Puthex ((kernel_end / 0x1000 + 1) * 0x1000)%word;
       Puts " and it's taking "; Putint (max / MEM_BLOCKS_PER_BYTE); Putsln " bytes...";
       Puts "Initialised "; Putint max; Puts " memory blocks... ("; Putint free;
       Puts " blocks or "; Putint (free * MEM_BLOCK_SIZE)%word; Putsln " bytes usable)"]
   ++ debug_memmap s).

(** * The accounting invariant *)

Definition used (s : memman) : Z -> bool := bit_used (_mem_memory_map s).

(** The words are words, the map ends in used blocks and [_mem_used_blocks] is
    the number of blocks marked. *)
Record acct_ok (s : memman) : Prop := {
  acct_wf : map_wf (_mem_memory_map s);
  acct_max : 0 <= _mem_max_blocks s < 2 ^ 52;
  acct_sentinel : sentinel (_mem_max_blocks s) (_mem_memory_map s);
  acct_used : _mem_used_blocks s = count_range (used s) (_mem_max_blocks s)
}.

(** Block 0, whose address is the code's "no block", is never given away. *)
Definition frames_ok (s : memman) : Prop := acct_ok s /\ used s 0 = true.

#[export] Hint Resolve acct_wf acct_max acct_sentinel acct_used : kernel.

Lemma acct_used_bounds s : acct_ok s -> 0 <= _mem_used_blocks s <= _mem_max_blocks s.
Proof.
  intros H. rewrite acct_used by done. apply count_range_bounds, acct_max, H.
Qed.

(** The state after the marks of some blocks changed: it is accounted for when
    [_mem_used_blocks] moved by as much as the count. *)
Lemma acct_ok_step s m' d :
  acct_ok s -> map_wf m' ->
  (forall b, _mem_max_blocks s <= b -> bit_used m' b = used s b) ->
  count_range (bit_used m') (_mem_max_blocks s) = _mem_used_blocks s + d ->
  acct_ok (upd_used (fun u => (u + d)%word) (upd_map (fun _ => m') s)).
Proof.
  intros Hs Hm Hhigh Hc. pose proof (acct_max s Hs). split; simpl; [done | done | |].
  - intros b Hb. rewrite Hhigh by lia. by apply (acct_sentinel s Hs).
  - pose proof (count_range_bounds (bit_used m') (_mem_max_blocks s) ltac:(lia)).
    unfold used; simpl. rewrite Hc, uint64_id; lia.
Qed.

Lemma acct_ok_set s b :
  acct_ok s -> 0 <= b < _mem_max_blocks s -> used s b = false ->
  acct_ok (upd_used (fun u => (u + 1)%word) (upd_map (mmap_set b) s)).
Proof.
  intros Hs Hb Hu. pose proof (acct_max s Hs).
  apply (acct_ok_step s (mmap_set b (_mem_memory_map s)) 1); [done | eauto with kernel | |].
  - intros b' ?. rewrite bit_used_set by lia. by destruct (Z.eqb_spec b' b); [lia |].
  - rewrite (acct_used s Hs). apply (count_range_set _ _ _ b); [done | done |].
    intros i Hi. apply bit_used_set; lia.
Qed.

Lemma acct_ok_unset s b :
  acct_ok s -> 0 <= b < _mem_max_blocks s -> used s b = true ->
  acct_ok (upd_used (fun u => (u - 1)%word) (upd_map (mmap_unset b) s)).
Proof.
  intros Hs Hb Hu. pose proof (acct_max s Hs). pose proof (acct_wf s Hs).
  apply (acct_ok_step s (mmap_unset b (_mem_memory_map s)) (-1)); [done | eauto with kernel | |].
  - intros b' ?. rewrite bit_used_unset by (done || lia).
    by destruct (Z.eqb_spec b' b); [lia |].
  - rewrite (acct_used s Hs), (count_range_clear (used s) _ _ b); [lia | done | done |].
    intros i Hi. apply bit_used_unset; [done | lia | lia].
Qed.

#[export] Hint Resolve acct_ok_set acct_ok_unset : kernel.

(** * Loops over a range of blocks *)

Lemma upd_map_loop n i h s :
  for_nat n i (fun i => upd_map (h i)) s = upd_map (for_nat n i h) s.
Proof. revert i s; induction n as [|n IH]; intros i s; simpl; [by destruct s | by rewrite IH]. Qed.

Lemma set_loop_spec m frame size :
  map_wf m -> 0 <= frame -> 0 <= size ->
  let m' := for_range 0 size (fun i => mmap_set (frame + i)) m in
  map_wf m' /\ forall b, 0 <= b ->
    bit_used m' b = (((frame <=? b) && (b <? frame + size)) || bit_used m b)%bool.
Proof.
  intros Hm Hf Hsz. apply (for_range_ind (fun k m' => map_wf m' /\ forall b, 0 <= b ->
    bit_used m' b = (((frame <=? b) && (b <? frame + k)) || bit_used m b)%bool)); [done | |].
  - split; [done |]. intros b Hb.
    zbool_cases.
  - intros k m' Hk [Hwf Hbits]. split; [eauto with kernel |]. intros b Hb.
    rewrite bit_used_set, Hbits by lia.
    zbool_cases.
Qed.

Lemma unset_loop_spec m frame size :
  map_wf m -> 0 <= frame -> 0 <= size ->
  let m' := for_range frame (frame + size) (fun i => mmap_unset i) m in
  map_wf m' /\ forall b, 0 <= b ->
    bit_used m' b = (negb ((frame <=? b) && (b <? frame + size)) && bit_used m b)%bool.
Proof.
  intros Hm Hf Hsz. apply (for_range_ind (fun k m' => map_wf m' /\ forall b, 0 <= b ->
    bit_used m' b = (negb ((frame <=? b) && (b <? k)) && bit_used m b)%bool)); [lia | |].
  - split; [done |]. intros b Hb.
    zbool_cases.
  - intros k m' Hk [Hwf Hbits]. split; [eauto with kernel |]. intros b Hb.
    rewrite bit_used_unset, Hbits by (done || lia).
    zbool_cases.
Qed.

(** What a run of [size] blocks from [frame] being marked means. *)
Definition marks_exactly (s s' : memman) (frame size : Z) : Prop :=
  _mem_max_blocks s' = _mem_max_blocks s /\
  forall b, 0 <= b -> used s' b = (((frame <=? b) && (b <? frame + size)) || used s b)%bool.

Definition unmarks_exactly (s s' : memman) (frame size : Z) : Prop :=
  _mem_max_blocks s' = _mem_max_blocks s /\
  forall b, 0 <= b -> used s' b = (negb ((frame <=? b) && (b <? frame + size)) && used s b)%bool.

(** * Allocation *)

Lemma mem_free_block_count_spec s :
  acct_ok s -> mem_free_block_count s = _mem_max_blocks s - _mem_used_blocks s.
Proof.
  intros Hs. pose proof (acct_used_bounds s Hs). pose proof (acct_max s Hs).
  apply uint64_id. lia.
Qed.

(** The address of a block fits in 64 bits. *)
Lemma block_address s b :
  acct_ok s -> 0 <= b < _mem_max_blocks s -> (b * MEM_BLOCK_SIZE)%word = b * MEM_BLOCK_SIZE.
Proof. intros Hs Hb. pose proof (acct_max s Hs). apply uint64_id. unfold MEM_BLOCK_SIZE. lia. Qed.

(** Marking a free run, with [_mem_used_blocks] raised by its size. *)
Lemma acct_ok_set_run s frame size :
  acct_ok s -> 0 <= frame -> 0 <= size -> frame + size <= _mem_max_blocks s ->
  run_free (_mem_memory_map s) frame size ->
  let s' := upd_used (fun u => (u + size)%word)
              (for_range 0 size (fun i => upd_map (mmap_set (frame + i))) s) in
  acct_ok s' /\ marks_exactly s s' frame size.
Proof.
  intros Hs Hf Hsz Hle Hrun. cbv zeta. unfold for_range. rewrite upd_map_loop.
  destruct (set_loop_spec (_mem_memory_map s) frame size) as [Hwf Hbits];
    [apply acct_wf, Hs | done | done |].
  unfold for_range in Hwf, Hbits.
  split; [| split; [done |]; exact Hbits].
  apply (acct_ok_step s (for_nat (Z.to_nat (size - 0)) 0 (fun i => mmap_set (frame + i))
    (_mem_memory_map s)) size); [done | done | |].
  - intros b ?. rewrite Hbits by lia. unfold used.
    zbool_cases.
  - rewrite (acct_used s Hs).
    apply (count_range_set_many _ _ _ frame); [done | done | done | |].
    + intros i Hi. unfold used. replace i with (frame + (i - frame)) by lia. apply Hrun. lia.
    + intros i Hi. apply Hbits. lia.
Qed.

(** Clearing a used run, with [_mem_used_blocks] lowered by its size. *)
Lemma acct_ok_unset_run s frame size :
  acct_ok s -> 0 <= frame -> 0 <= size -> frame + size <= _mem_max_blocks s ->
  (forall b, frame <= b < frame + size -> used s b = true) ->
  let s' := upd_used (fun u => (u - size)%word)
              (for_range frame (frame + size) (fun i => upd_map (mmap_unset i)) s) in
  acct_ok s' /\ unmarks_exactly s s' frame size.
Proof.
  intros Hs Hf Hsz Hle Hrun. cbv zeta. unfold for_range. rewrite upd_map_loop.
  destruct (unset_loop_spec (_mem_memory_map s) frame size) as [Hwf Hbits];
    [apply acct_wf, Hs | done | done |].
  unfold for_range in Hwf, Hbits.
  split; [| split; [done |]; exact Hbits].
  apply (acct_ok_step s (for_nat (Z.to_nat (frame + size - frame)) frame (fun i => mmap_unset i)
    (_mem_memory_map s)) (- size)); [done | done | |].
  - intros b ?. rewrite Hbits by lia. unfold used.
    zbool_cases.
  - rewrite (acct_used s Hs).
    match goal with |- count_range ?g ?n = _ =>
      enough (count_range (used s) n = count_range g n + size) by lia;
      apply (count_range_set_many _ _ _ frame); [done | done | done | |] end.
    + intros i Hi. rewrite Hbits by lia.
      replace (frame <=? i) with true by lia. by replace (i <? frame + size) with true by lia.
    + intros i Hi. rewrite Hbits by lia.
      destruct (Z.leb_spec frame i), (Z.ltb_spec i (frame + size)); try done.
      by apply Hrun.
Qed.

(** An allocator's answer to a request for [size] blocks: nothing, with the
    state untouched, or the address of a run that was free, is now used, and
    starts no later than any other (first fit). *)
Inductive alloc_result (size : Z) (s : memman) (exhausted : Prop) : Z -> memman -> Prop :=
  | alloc_fail : exhausted -> alloc_result size s exhausted 0 s
  | alloc_success frame s' :
      0 < frame -> frame + size <= _mem_max_blocks s ->
      run_free (_mem_memory_map s) frame size ->
      no_run_below (_mem_memory_map s) size frame ->
      marks_exactly s s' frame size ->
      alloc_result size s exhausted (frame * MEM_BLOCK_SIZE) s'.

Lemma alloc_result_mono size s (P Q : Prop) p s' :
  (P -> Q) -> alloc_result size s P p s' -> alloc_result size s Q p s'.
Proof. intros HPQ []; constructor; auto. Qed.

Lemma run_free_1 m p : run_free m p 1 <-> bit_used m p = false.
Proof.
  split.
  - intros H. specialize (H 0 ltac:(lia)). by rewrite Z.add_0_r in H.
  - intros H k Hk. by replace (p + k) with p by lia.
Qed.

Lemma no_run_below_1 m n :
  no_run_below m 1 n -> forall b, 0 <= b < n -> bit_used m b = true.
Proof.
  intros Hno b Hb. destruct (bit_used m b) eqn:Hu; [done |].
  exfalso. apply (Hno b Hb). by apply run_free_1.
Qed.

(** The one-block search in the terms of the zone search. *)
Lemma mmap_first_free_zone_post max_blocks m :
  0 <= max_blocks -> map_wf m -> zone_post max_blocks m 1 (mmap_first_free max_blocks m).
Proof.
  intros Hmax Hm. pose proof (mmap_first_free_spec max_blocks m Hmax) as Hr.
  cbv zeta in Hr. destruct Hr as [(Hr & Hu & Hmin)|(Hr & Hall)]; [left | right].
  - assert (64 * (max_blocks / 64) <= max_blocks) by (apply Z.mul_div_le; lia).
    split_and!; [lia | lia | by apply run_free_1 |].
    intros q Hq Hrun%run_free_1. rewrite Hmin in Hrun; [done | lia].
  - split; [done |]. intros q Hq Hrun%run_free_1. rewrite Hall in Hrun; [done | lia].
Qed.

(** From the search's answer to the allocator's. *)
Lemma alloc_of_zone s size r exhausted :
  frames_ok s -> 0 < size -> zone_post (_mem_max_blocks s) (_mem_memory_map s) size r ->
  (no_run_below (_mem_memory_map s) size (64 * (_mem_max_blocks s / 64)) -> exhausted) ->
  let s' := upd_used (fun u => (u + size)%word)
              (for_range 0 size (fun i => upd_map (mmap_set (r + i))) s) in
  if r =? 0 then exhausted
  else frames_ok s' /\ alloc_result size s exhausted (r * MEM_BLOCK_SIZE)%word s'.
Proof.
  intros [Hs H0] Hsz Hpost Hex. cbv zeta.
  assert (run_free (_mem_memory_map s) 0 size -> False) as Hzero.
  { intros Hrun. specialize (Hrun 0 ltac:(lia)). change (used s 0 = false) in Hrun. congruence. }
  destruct (Z.eqb_spec r 0) as [->|Hne].
  - destruct Hpost as [(_ & _ & Hrun & _)|(_ & Hnone)]; [done | by apply Hex].
  - destruct Hpost as [(Hr & Hle & Hrun & Hmin)|(? & _)]; [| done].
    destruct (acct_ok_set_run s r size) as [Hok Hm]; [done | done | lia | done | done |].
    split; [split; [done |] |].
    + rewrite (proj2 Hm 0) by lia. by rewrite H0, orb_true_r.
    + rewrite (block_address s) by (done || lia). by apply alloc_success; [lia | ..].
Qed.

Lemma for_range_one {S} lo (f : Z -> S -> S) s : for_range lo (lo + 1) f s = f lo s.
Proof. unfold for_range. by replace (Z.to_nat (lo + 1 - lo)) with 1%nat by lia. Qed.

Lemma mem_alloc_block_run (s : memman) (Hs : frames_ok s) :
  let '(p, s') := mem_alloc_block s in
  frames_ok s' /\
  alloc_result 1 s (forall b, 0 <= b < 64 * (_mem_max_blocks s / 64) -> used s b = true) p s'.
Proof.
  pose proof Hs as [Ha H0]. pose proof (acct_max s Ha) as Hmax.
  unfold mem_alloc_block. rewrite mem_free_block_count_spec by done.
  destruct (Z.eqb_spec (_mem_max_blocks s - _mem_used_blocks s) 0) as [E|_].
  - split; [done | apply alloc_fail]. intros b Hb.
    apply (count_range_full (used s) (_mem_max_blocks s)); [rewrite <- acct_used by done; lia |].
    pose proof (Z.mul_div_le (_mem_max_blocks s) 64 ltac:(lia)). lia.
  - pose proof (alloc_of_zone s 1 _ (forall b, 0 <= b < 64 * (_mem_max_blocks s / 64) -> used s b = true)
      Hs ltac:(lia) (mmap_first_free_zone_post (_mem_max_blocks s) _ ltac:(lia) (acct_wf s Ha))
      (no_run_below_1 _ _)) as H.
    cbv zeta in H. rewrite (for_range_one 0) in H. rewrite Z.add_0_r in H.
    destruct (mmap_first_free (_mem_max_blocks s) (_mem_memory_map s) =? 0).
    + split; [done | apply alloc_fail, H].
    + apply H.
Qed.

(** [mem_alloc_block] keeps the accounting invariant; it either finds every
    block of the searched words used and changes nothing, or returns the address
    of the lowest free block, marks exactly that block and counts it. *)
Theorem mem_alloc_block_spec (s : memman) (Hs : frames_ok s) :
  let '(p, s') := mem_alloc_block s in
  frames_ok s' /\
  alloc_result 1 s (forall b, 0 <= b < 64 * (_mem_max_blocks s / 64) -> used s b = true) p s'.
Proof. exact (mem_alloc_block_run s Hs). Qed.

(** The search and the marking together. *)
Lemma mem_alloc_blocks_run (s : memman) (size : Z) (Hs : frames_ok s) (Hsize : 0 <= size < 2 ^ 64) :
  exists p s', mem_alloc_blocks size s = Some (p, s') /\ frames_ok s' /\
    alloc_result size s
      (size = 0 \/ mem_free_block_count s < size \/
       no_run_below (_mem_memory_map s) size (64 * (_mem_max_blocks s / 64))) p s'.
Proof.
  pose proof Hs as [Ha H0]. pose proof (acct_max s Ha) as Hmax.
  unfold mem_alloc_blocks.
  destruct (Z.ltb_spec (mem_free_block_count s) size) as [Hlt|Hge].
  { eexists _, _. split_and!; [done | done | apply alloc_fail; auto]. }
  destruct (decide (size = 0)) as [->|Hne].
  { eexists _, _. split_and!; [done | done | apply alloc_fail; auto]. }
  assert (exists r, mmap_first_free_zone (zone_fuel (_mem_max_blocks s)) (_mem_max_blocks s)
            (_mem_memory_map s) size = Some r /\
          zone_post (_mem_max_blocks s) (_mem_memory_map s) size r) as (r & Hr & Hpost).
  { destruct (decide (size = 1)) as [->|].
    - eexists. split; [done |]. apply mmap_first_free_zone_post; [lia | apply acct_wf, Ha].
    - apply zone_search_total; [lia | apply acct_sentinel, Ha | lia]. }
  rewrite Hr. simpl.
  pose proof (alloc_of_zone s size r _ Hs ltac:(lia) Hpost (fun H => H)) as H. cbv zeta in H.
  destruct (r =? 0).
  - eexists _, _. split_and!; [done | done | apply alloc_fail; auto].
  - destruct H as [Hok Hres]. eexists _, _. split_and!; [done | done |].
    eapply alloc_result_mono, Hres. auto.
Qed.

(** C14: [mem_alloc_blocks] always answers (its search ends within [zone_fuel]
    rounds); it keeps the invariant and returns either nothing or a first-fit
    run of [size] free blocks that lies within the managed memory, and marks
    exactly that run. *)
Theorem mem_alloc_blocks_spec (s : memman) (size : Z) (Hs : frames_ok s) (Hsize : 0 <= size < 2 ^ 64) :
  exists p s', mem_alloc_blocks size s = Some (p, s') /\ frames_ok s' /\
    alloc_result size s
      (size = 0 \/ mem_free_block_count s < size \/
       no_run_below (_mem_memory_map s) size (64 * (_mem_max_blocks s / 64))) p s'.
Proof. exact (mem_alloc_blocks_run s size Hs Hsize). Qed.

(** * Release *)

(** [mem_free_blocks] (and [mem_free_block], its one-block case) on a run of
    used blocks other than block 0 keeps the invariant and frees exactly them. *)
Theorem mem_free_blocks_spec (s : memman) (frame off size : Z)
  (Hs : frames_ok s) (Hframe : 0 < frame) (Hoff : 0 <= off < MEM_BLOCK_SIZE)
  (Hsize : 0 <= size) (Hin : frame + size <= _mem_max_blocks s)
  (Hused : forall b, frame <= b < frame + size -> used s b = true) :
  let s' := mem_free_blocks (frame * MEM_BLOCK_SIZE + off) size s in
  frames_ok s' /\ unmarks_exactly s s' frame size /\
  (size = 1 -> mem_free_block (frame * MEM_BLOCK_SIZE + off) s = s').
Proof.
  destruct Hs as [Hs H0]. pose proof (acct_max s Hs).
  unfold mem_free_blocks, mem_free_block.
  assert ((frame * MEM_BLOCK_SIZE + off) / MEM_BLOCK_SIZE = frame) as ->.
  { unfold MEM_BLOCK_SIZE in *. div_lia. }
  rewrite (uint64_id (frame + size)) by lia.
  destruct (acct_ok_unset_run s frame size) as [Hok Hm]; [done | lia | done .. |].
  split_and!; [split; [done |] | done |].
  - rewrite (proj2 Hm 0) by lia. rewrite H0. by replace (frame <=? 0) with false by lia.
  - intros ->. by rewrite for_range_one.
Qed.

(** States that differ at most in how the bitmap stores the marks. *)
Definition memman_equiv (s1 s2 : memman) : Prop :=
  _mem_max_blocks s1 = _mem_max_blocks s2 /\ _mem_used_blocks s1 = _mem_used_blocks s2 /\
  forall b, 0 <= b -> used s1 b = used s2 b.

#[export] Instance memman_equiv_equivalence : Equivalence memman_equiv.
Proof.
  split.
  - by intros s.
  - intros s1 s2 (? & ? & H). split_and!; [done .. |]. intros b ?. by rewrite H.
  - intros s1 s2 s3 (? & ? & H) (? & ? & H'). split_and!; [congruence .. |].
    intros b ?. by rewrite H, H'.
Qed.

(** Accounted states with the same marks agree on the count. *)
Lemma memman_equiv_intro s1 s2 :
  acct_ok s1 -> acct_ok s2 -> _mem_max_blocks s1 = _mem_max_blocks s2 ->
  (forall b, 0 <= b -> used s1 b = used s2 b) -> memman_equiv s1 s2.
Proof.
  intros H1 H2 Hmax Hu. split_and!; [done | | done].
  rewrite (acct_used s1 H1), (acct_used s2 H2), Hmax.
  apply count_range_ext. intros; apply Hu; lia.
Qed.

(** C37: Freeing what [mem_alloc_blocks] returned restores the allocator: the
    same blocks are used and the same number is counted. *)
Theorem mem_alloc_free_roundtrip (s : memman) (size p : Z) (s' : memman)
  (Hs : frames_ok s) (Hsize : 0 <= size < 2 ^ 64)
  (Halloc : mem_alloc_blocks size s = Some (p, s')) (Hp : p <> 0) :
  memman_equiv (mem_free_blocks p size s') s.
Proof.
  destruct (mem_alloc_blocks_run s size Hs Hsize) as (p' & s1 & Ha & Hok & Hres).
  rewrite Ha in Halloc. simplify_eq. destruct Hres as [|frame s' Hf Hle Hrun _ [Hmax Hm]]; [done |].
  assert (forall b, frame <= b < frame + size -> used s' b = true) as Hused.
  { intros b Hb. rewrite Hm by lia. replace (frame <=? b) with true by lia.
    by replace (b <? frame + size) with true by lia. }
  destruct (mem_free_blocks_spec s' frame 0 size) as (Hok' & [Hmax' Hm'] & _);
    [done | lia | done | lia | lia | done |].
  rewrite Z.add_0_r in *. apply memman_equiv_intro; [apply Hok' | apply Hs | congruence |].
  intros b Hb. rewrite Hm', Hm by done.
  destruct (Z.leb_spec frame b), (Z.ltb_spec b (frame + size)); try done. simpl.
  unfold used. replace b with (frame + (b - frame)) by lia. symmetry. apply Hrun. lia.
Qed.

(** [debug_memmap] walks the whole bitmap; under the invariant it prints the
    number that [mem_free_block_count] returns without walking it. *)
Theorem debug_memmap_agrees (s : memman) (Hs : acct_ok s) :
  debug_memmap_free s = mem_free_block_count s.
Proof. unfold debug_memmap_free, mem_free_block_count. by rewrite (acct_used s Hs). Qed.

(** * Initialisation *)

(** [mem_init_region] frees the leading used blocks of the region and stops
    for good at the first block that is free already ([align] no longer moves);
    on a region that is all used it frees the whole region. *)
Theorem mem_init_region_spec (s : memman) (base size k : Z)
  (Hs : acct_ok s) (Hbase : 0 <= base)
  (Hk : 0 <= k <= size / MEM_BLOCK_SIZE)
  (Hin : base / MEM_BLOCK_SIZE + size / MEM_BLOCK_SIZE <= _mem_max_blocks s)
  (Hlead : forall b, base / MEM_BLOCK_SIZE <= b < base / MEM_BLOCK_SIZE + k -> used s b = true)
  (Hstop : k = size / MEM_BLOCK_SIZE \/ used s (base / MEM_BLOCK_SIZE + k) = false) :
  let s' := mem_init_region base size s in
  acct_ok s' /\ unmarks_exactly s s' (base / MEM_BLOCK_SIZE) k.
Proof.
  unfold mem_init_region. set (align := base / MEM_BLOCK_SIZE) in *.
  set (blocks := size / MEM_BLOCK_SIZE) in *.
  assert (0 <= align) by (apply Z.div_pos; unfold MEM_BLOCK_SIZE; lia).
  set (P := fun (j : Z) (r : Z * memman) => r.1 = align + Z.min j k /\ acct_ok r.2 /\
    unmarks_exactly s r.2 align (Z.min j k)).
  match goal with |- context [for_range 0 blocks ?f ?x] =>
    assert (P blocks (for_range 0 blocks f x)) as (_ & Hok & Hm);
      [apply (for_range_ind P) | by replace (Z.min blocks k) with k in Hm by lia] end;
    [lia | unfold P; simpl | unfold P; simpl].
  - split_and!; [lia | done |]. split; [done |]. intros b Hb.
    destruct (Z.leb_spec align b), (Z.ltb_spec b (align + Z.min 0 k)); done || lia.
  - intros j [a s'] Hj (Ha & Hok & Hmax & Hm). simpl in *. subst a.
    assert (used s' (align + Z.min j k) = used s (align + Z.min j k)) as Hu.
    { rewrite Hm by lia. replace (align + Z.min j k <? align + Z.min j k) with false by lia.
      by rewrite andb_false_r. }
    destruct (mmap_test (align + Z.min j k) (_mem_memory_map s') =? 0) eqn:Ht.
    + assert (used s' (align + Z.min j k) = false) as Hf by (unfold used, bit_used; by rewrite Ht).
      destruct (Z.lt_ge_cases j k); [rewrite Hu, Hlead in Hf by lia; done |].
      replace (Z.min (j + 1) k) with (Z.min j k) by lia. done.
    + assert (used s' (align + Z.min j k) = true) as Hf by (unfold used, bit_used; by rewrite Ht).
      destruct (Z.lt_ge_cases j k).
      2:{ destruct Hstop as [->|Hstop]; [lia |].
          replace (Z.min j k) with k in * by lia. congruence. }
      replace (Z.min j k) with j in * by lia. replace (Z.min (j + 1) k) with (j + 1) by lia.
      split_and!; [simpl; lia | apply acct_ok_unset; [done | lia | done] |]. split; [done |].
      intros b Hb. unfold used at 1. simpl.
      rewrite bit_used_unset by (apply (acct_wf s' Hok) || lia).
      change (bit_used (_mem_memory_map s') b) with (used s' b). rewrite Hm by done.
      zbool_cases.
Qed.

Lemma mem_init_region_ok s base size :
  acct_ok s -> 0 <= base -> 0 <= size ->
  base / MEM_BLOCK_SIZE + size / MEM_BLOCK_SIZE <= _mem_max_blocks s ->
  exists k, 0 <= k <= size / MEM_BLOCK_SIZE /\ acct_ok (mem_init_region base size s) /\
    unmarks_exactly s (mem_init_region base size s) (base / MEM_BLOCK_SIZE) k.
Proof.
  intros Hs Hbase Hsize Hin.
  assert (0 <= size / MEM_BLOCK_SIZE) by (apply Z.div_pos; unfold MEM_BLOCK_SIZE; lia).
  set (f := fun k => if used s (base / MEM_BLOCK_SIZE + k) then None else Some k).
  destruct (for_first 0 (size / MEM_BLOCK_SIZE) f) as [k|] eqn:E.
  - apply for_first_Some in E as (k' & Hk & Hf & Hmin). unfold f in Hf, Hmin.
    exists k'. split; [lia |]. apply mem_init_region_spec; [done | done | lia | done | |].
    + intros b Hb. specialize (Hmin (b - base / MEM_BLOCK_SIZE) ltac:(lia)).
      replace (base / MEM_BLOCK_SIZE + (b - base / MEM_BLOCK_SIZE)) with b in Hmin by lia.
      by destruct (used s b).
    + right. by destruct (used s (base / MEM_BLOCK_SIZE + k')).
  - rewrite for_first_None in E. unfold f in E.
    exists (size / MEM_BLOCK_SIZE). split; [lia |].
    apply mem_init_region_spec; [done | done | lia | done | | by left].
    intros b Hb. specialize (E (b - base / MEM_BLOCK_SIZE) ltac:(lia)).
    replace (base / MEM_BLOCK_SIZE + (b - base / MEM_BLOCK_SIZE)) with b in E by lia.
    by destruct (used s b).
Qed.

(** The blocks that the code takes a region to hold. *)
Definition region_block (r : memory_region) (b : Z) : Prop :=
  type r = 1 /\ start r / MEM_BLOCK_SIZE <= b < start r / MEM_BLOCK_SIZE + size r / MEM_BLOCK_SIZE.

(** An entry whose last address is a 64-bit number. *)
Definition region_wf (r : memory_region) : Prop :=
  0 <= start r /\ 0 <= size r /\ start r + size r < 2 ^ 64.

Lemma init_regions_ok l s :
  acct_ok s -> Forall region_wf l ->
  (forall r, r ∈ l -> type r = 1 ->
     start r / MEM_BLOCK_SIZE + size r / MEM_BLOCK_SIZE <= _mem_max_blocks s) ->
  let s' := foldl (fun s r => if type r =? 1 then mem_init_region (start r) (size r) s else s) s l in
  acct_ok s' /\ _mem_max_blocks s' = _mem_max_blocks s /\
  forall b, 0 <= b -> used s' b = false -> used s b = false \/ exists r, r ∈ l /\ region_block r b.
Proof.
  revert s; induction l as [|r l IH]; intros s Hs Hwf Hin; simpl.
  { split_and!; [done | done |]. by left. }
  apply Forall_cons in Hwf as [(Hr0 & Hr1 & _) Hwf].
  destruct (Z.eqb_spec (type r) 1) as [Ht|Ht].
  - destruct (mem_init_region_ok s (start r) (size r)) as (k & Hk & Hok & Hmax & Hm);
      [done | done | done | apply Hin; [apply list_elem_of_here | done] |].
    destruct (IH _ Hok Hwf) as (Hok' & Hmax' & Hfree).
    { intros r' ? ?. rewrite Hmax. apply Hin; [by apply list_elem_of_further | done]. }
    split_and!; [done | congruence |]. intros b Hb Hu.
    destruct (Hfree b Hb Hu) as [Hu' | (r' & Hr' & ?)].
    + rewrite Hm in Hu' by done. destruct (used s b) eqn:Eb; [| by left].
      right. exists r. split; [apply list_elem_of_here |]. split; [done |].
      revert Hu'. zbool_cases.
    + right. exists r'. split; [by apply list_elem_of_further | done].
  - destruct (IH s Hs Hwf) as (Hok' & Hmax' & Hfree).
    { intros r' ? ?. apply Hin; [by apply list_elem_of_further | done]. }
    split_and!; [done | done |]. intros b Hb Hu.
    destruct (Hfree b Hb Hu) as [|(r' & ? & ?)]; [by left |].
    right. exists r'. split; [by apply list_elem_of_further | done].
Qed.

(** [limit] is above the end of every available region. *)
Lemma analyze_memory_map_spec l :
  Forall region_wf l ->
  let limit := (analyze_memory_map l).2 in
  0 <= limit < 2 ^ 64 /\ forall r, r ∈ l -> type r = 1 -> start r + size r <= limit.
Proof.
  unfold analyze_memory_map.
  enough (forall t lim, Forall region_wf l -> 0 <= lim < 2 ^ 64 ->
    let limit := (foldl (fun '(total, limit) r =>
      if type r =? 1 then ((total + size r)%word,
        if limit <? (start r + size r)%word then (start r + size r)%word else limit)
      else (total, limit)) (t, lim) l).2 in
    lim <= limit < 2 ^ 64 /\ forall r, r ∈ l -> type r = 1 -> start r + size r <= limit) as H
    by (intros Hwf; apply (H 0 0 Hwf); lia).
  induction l as [|r l IH]; intros t lim Hwf Hlim; simpl.
  { split; [lia |]. by intros r ?%elem_of_nil. }
  apply Forall_cons in Hwf as [(? & ? & ?) Hwf].
  rewrite (uint64_id (start r + size r)) by lia.
  destruct (Z.eqb_spec (type r) 1).
  - specialize (IH (t + size r)%word (if lim <? start r + size r then start r + size r else lim) Hwf
      ltac:(zbool_cases)) as [Hl Hall].
    split; [revert Hl; zbool_cases |].
    intros r' [->|Hr']%elem_of_cons Ht'; [| by apply Hall].
    revert Hl. zbool_cases.
  - specialize (IH t lim Hwf Hlim) as [Hl Hall]. split; [done |].
    intros r' [->|Hr']%elem_of_cons Ht'; [done | by apply Hall].
Qed.

Lemma mark_used_ok s lo hi :
  acct_ok s -> 0 <= lo <= hi -> hi <= _mem_max_blocks s ->
  acct_ok (mark_used lo hi s) /\ marks_exactly s (mark_used lo hi s) lo (hi - lo).
Proof.
  intros Hs Hlo Hhi. unfold mark_used.
  match goal with |- acct_ok (for_range _ _ ?f _) /\ _ =>
    enough (acct_ok (for_range lo hi f s) /\ marks_exactly s (for_range lo hi f s) lo (hi - lo))
      by done;
    apply (for_range_ind (fun k s' => acct_ok s' /\ marks_exactly s s' lo (k - lo))) end.
  - lia.
  - split; [done |]. split; [done |]. intros b Hb. zbool_cases.
  - intros k s' Hk (Hok & Hmax & Hm).
    destruct (mmap_test k (_mem_memory_map s') =? 0) eqn:Ht.
    + assert (used s' k = false) as Hu by (unfold used, bit_used; by rewrite Ht).
      split; [apply (acct_ok_set s' k); [done | lia | done] |]. split; [done |].
      intros b Hb. unfold used at 1. simpl. rewrite bit_used_set by lia.
      change (bit_used (_mem_memory_map s') b) with (used s' b). rewrite Hm by done. zbool_cases.
    + assert (used s' k = true) as Hu by (unfold used, bit_used; by rewrite Ht).
      split; [done |]. split; [done |]. intros b Hb. rewrite Hm by done.
      destruct (decide (b = k)) as [->|]; [| zbool_cases].
      rewrite Hm in Hu by lia. revert Hu. zbool_cases.
Qed.

(** The map as [memman_init] first fills it. *)
Lemma fill_map_spec m0 n i :
  0 <= n -> word_at (for_range 0 n (fun i m => <[i := all_ones]> m) m0) i =
    if (0 <=? i) && (i <? n) then all_ones else word_at m0 i.
Proof.
  intros Hn. apply (for_range_ind (fun k m => word_at m i =
    if (0 <=? i) && (i <? k) then all_ones else word_at m0 i)); [done | |].
  - zbool_cases.
  - intros k m Hk IH. rewrite word_at_insert. case_decide; [subst; zbool_cases |].
    rewrite IH. zbool_cases.
Qed.

Lemma fill_map_acct total max next m0 :
  map_wf m0 -> 0 <= max < 2 ^ 52 ->
  let s := Memman total max max
    (for_range 0 (max / MEM_MAP_WORD_SIZE + 1) (fun i m => <[i := all_ones]> m) m0) next in
  acct_ok s /\ forall b, 0 <= b < 64 * (max / 64 + 1) -> used s b = true.
Proof.
  intros Hm Hmax. cbv zeta. unfold MEM_MAP_WORD_SIZE.
  assert (0 <= max / 64) by (apply Z.div_pos; lia).
  set (s := Memman _ _ _ _ _).
  assert (forall b, 0 <= b < 64 * (max / 64 + 1) -> used s b = true) as Hall.
  { intros b Hb. apply (all_ones_used _ (b / 64)); simpl.
    - rewrite fill_map_spec by lia. replace (0 <=? b / 64) with true; [| symmetry; apply Z.leb_le; apply Z.div_pos; lia].
      replace (b / 64 <? max / 64 + 1) with true; [done |].
      symmetry. apply Z.ltb_lt. apply Z.div_lt_upper_bound; lia.
    - apply Z.div_pos; lia.
    - div_lia. }
  split; [split; simpl | done].
  - intros i. rewrite fill_map_spec by lia. cases_if; [done | apply Hm].
  - done.
  - intros b Hb. apply Hall. lia.
  - symmetry. apply count_range_true; [lia |]. intros b Hb. apply Hall.
    div_lia.
Qed.

(** The accounting that [memman_init] leaves. *)
Lemma memman_init_frames_run (kernel_start kernel_end : Z) (memory_map : list memory_region)
  (m0 : gmap Z Z)
  (Hm0 : map_wf m0) (Hmap : Forall region_wf memory_map)
  (Hroom : let max := (analyze_memory_map memory_map).2 / MEM_BLOCK_SIZE in
           blocks_used_by_kernel kernel_start kernel_end max + 0x200 <= max) :
  let s := (memman_init_frames kernel_start kernel_end memory_map m0).1 in
  let blocks := blocks_used_by_kernel kernel_start kernel_end (_mem_max_blocks s) in
  frames_ok s /\
  _mem_max_blocks s = (analyze_memory_map memory_map).2 / MEM_BLOCK_SIZE /\
  _kernel_next_block s = (0xc0000 + blocks)%word /\
  forall b, 0 <= b < _mem_max_blocks s -> used s b = false ->
    256 <= b /\ ~ (0x200 <= b < 0x200 + blocks) /\
    exists r, r ∈ memory_map /\ region_block r b.
Proof.
  pose proof (analyze_memory_map_spec memory_map Hmap) as [Hlim Hends].
  unfold memman_init_frames. destruct (analyze_memory_map memory_map) as [total limit]. simpl in *.
  set (max := limit / MEM_BLOCK_SIZE) in *.
  assert (0 <= max < 2 ^ 52) as Hmax
    by (unfold max, MEM_BLOCK_SIZE; div_lia).
  pose proof (uint64_bounds (kernel_end / 4096 + 1 + max / MEM_BLOCKS_PER_BYTE / MEM_BLOCK_SIZE + 1 - kernel_start / 4096)).
  assert (0 <= blocks_used_by_kernel kernel_start kernel_end max) as Hb0
    by apply uint64_bounds.
  destruct (fill_map_acct total max 0 m0 Hm0 Hmax) as [H1 Hu1].
  set (s1 := Memman total max max _ 0) in *.
  destruct (init_regions_ok memory_map s1 H1 Hmap) as (H2 & Hm2 & Hfree).
  { intros r Hr Ht. specialize (Hends r Hr Ht). simpl. unfold max, MEM_BLOCK_SIZE.
    rewrite Forall_forall in Hmap. destruct (Hmap r Hr) as (? & ? & ?).
    div_lia. }
  set (s2 := foldl _ s1 memory_map) in *. simpl in Hm2.
  destruct (mark_used_ok s2 0 256) as (H3 & Hm3 & Hu3); [done | lia | lia |].
  set (s3 := mark_used 0 256 s2) in *.
  set (blocks := blocks_used_by_kernel kernel_start kernel_end max) in *.
  rewrite (uint64_id (blocks + 512)) by lia.
  destruct (mark_used_ok s3 0x200 (blocks + 0x200)) as (H4 & Hm4 & Hu4); [done | lia | lia |].
  set (s4 := mark_used 0x200 (blocks + 0x200) s3) in *.
  assert (_mem_max_blocks s4 = max) as -> by congruence. fold blocks.
  assert (forall b, 0 <= b -> used s4 b =
    (((0x200 <=? b) && (b <? 0x200 + blocks)) || (((0 <=? b) && (b <? 256)) || used s2 b))%bool) as Hu.
  { intros b Hb. rewrite Hu4, Hu3 by done.
    by replace (0x200 + (blocks + 0x200 - 0x200)) with (0x200 + blocks) by lia. }
  split_and!; [split; [by destruct H4 as [? ? ? ?] |] | done | done |].
  - change (used s4 0 = true). by rewrite Hu by lia.
  - intros b Hb Hf.
    change (used s4 b = false) in Hf. rewrite Hu in Hf by lia.
    apply orb_false_elim in Hf as [Hk Hf]. apply orb_false_elim in Hf as [Hlow Hf].
    split_and!; [revert Hlow; zbool_cases | revert Hk; zbool_cases |].
    destruct (Hfree b ltac:(lia) Hf) as [Hs1|?]; [| done].
    rewrite Hu1 in Hs1; [done | div_lia].
Qed.

(** On a sane firmware map and a machine that holds the kernel,
    [memman_init] leaves an accounted state in which block 0 is taken, and every
    block it leaves free belongs to an available region, lies above the first
    megabyte, and is not part of the kernel image or of the bitmap. *)
Theorem memman_init_frames_spec (kernel_start kernel_end : Z) (memory_map : list memory_region)
  (m0 : gmap Z Z)
  (Hm0 : map_wf m0) (Hmap : Forall region_wf memory_map)
  (Hroom : let max := (analyze_memory_map memory_map).2 / MEM_BLOCK_SIZE in
           blocks_used_by_kernel kernel_start kernel_end max + 0x200 <= max) :
  let s := (memman_init_frames kernel_start kernel_end memory_map m0).1 in
  let blocks := blocks_used_by_kernel kernel_start kernel_end (_mem_max_blocks s) in
  frames_ok s /\
  _kernel_next_block s = (0xc0000 + blocks)%word /\
  forall b, 0 <= b < _mem_max_blocks s -> used s b = false ->
    256 <= b /\ ~ (0x200 <= b < 0x200 + blocks) /\
    exists r, r ∈ memory_map /\ region_block r b.
Proof.
  by destruct (memman_init_frames_run kernel_start kernel_end memory_map m0 Hm0 Hmap Hroom) as (? & _ & ? & ?).
Qed.

(** * Concrete runs *)

(** 128 managed blocks of which block 0 is used; the word behind them is full. *)
Definition demo_memman : memman :=
  Memman 524288 1 128 (<[0 := 1]> (<[2 := all_ones]> ∅)) 0xc0010.

Lemma demo_word i :
  word_at (_mem_memory_map demo_memman) i =
    if decide (0 = i) then 1 else if decide (2 = i) then all_ones else 0.
Proof. simpl. rewrite !word_at_insert. by repeat case_decide. Qed.

Lemma demo_memman_ok : frames_ok demo_memman.
Proof.
  split; [split | reflexivity].
  - intros i. rewrite demo_word. by repeat case_decide.
  - done.
  - intros b Hb. apply (all_ones_used _ 2); [reflexivity | done |].
    change (128 <= b < 192) in Hb. lia.
  - vm_compute. reflexivity.
Qed.

Lemma mem_alloc_block_spec_witness :
  fst (mem_alloc_block demo_memman) = 4096 /\
  let '(p, s') := mem_alloc_block demo_memman in
  frames_ok s' /\
  alloc_result 1 demo_memman
    (forall b, 0 <= b < 64 * (_mem_max_blocks demo_memman / 64) -> used demo_memman b = true) p s'.
Proof. split; [vm_compute; reflexivity | exact (mem_alloc_block_spec demo_memman demo_memman_ok)]. Defined.

Lemma mem_alloc_blocks_spec_witness :
  option_map fst (mem_alloc_blocks 70 demo_memman) = Some 4096 /\
  exists p s', mem_alloc_blocks 70 demo_memman = Some (p, s') /\ frames_ok s' /\
    alloc_result 70 demo_memman
      (70 = 0 \/ mem_free_block_count demo_memman < 70 \/
       no_run_below (_mem_memory_map demo_memman) 70 (64 * (_mem_max_blocks demo_memman / 64))) p s'.
Proof.
  split; [vm_compute; reflexivity |].
  apply (mem_alloc_blocks_spec demo_memman 70 demo_memman_ok). lia.
Defined.

(** Blocks 1 and 2 taken from [demo_memman]. *)
Definition demo_taken : memman := snd (default (0, demo_memman) (mem_alloc_blocks 2 demo_memman)).

Lemma demo_taken_ok : frames_ok demo_taken.
Proof.
  destruct (mem_alloc_blocks_run demo_memman 2 demo_memman_ok ltac:(lia)) as (p & s' & H & Hok & _).
  unfold demo_taken. by rewrite H.
Qed.

Lemma mem_free_blocks_spec_witness :
  let s' := mem_free_blocks (1 * MEM_BLOCK_SIZE + 0) 2 demo_taken in
  frames_ok s' /\ unmarks_exactly demo_taken s' 1 2 /\
  (2 = 1 -> mem_free_block (1 * MEM_BLOCK_SIZE + 0) demo_taken = s').
Proof.
  apply (mem_free_blocks_spec demo_taken 1 0 2 demo_taken_ok).
  - lia.
  - unfold MEM_BLOCK_SIZE. lia.
  - lia.
  - vm_compute. done.
  - intros b Hb. assert (b = 1 \/ b = 2) as [-> | ->] by lia; vm_compute; reflexivity.
Defined.

Lemma mem_alloc_free_roundtrip_witness :
  memman_equiv (mem_free_blocks 4096 2 demo_taken) demo_memman.
Proof.
  apply (mem_alloc_free_roundtrip demo_memman 2 4096 demo_taken demo_memman_ok); [lia | | lia].
  vm_compute. reflexivity.
Defined.

Lemma debug_memmap_agrees_witness :
  debug_memmap_free demo_memman = 127 /\
  debug_memmap_free demo_memman = mem_free_block_count demo_memman.
Proof.
  split; [vm_compute; reflexivity | exact (debug_memmap_agrees demo_memman (proj1 demo_memman_ok))].
Defined.

(** A region of four blocks whose third one is free already: the fourth one,
    used before, stays used. *)
Definition demo_overlap : memman := mem_free_block (2 * MEM_BLOCK_SIZE) 
  (snd (default (0, demo_memman) (mem_alloc_blocks 3 demo_memman))).

Lemma demo_overlap_ok : frames_ok demo_overlap.
Proof.
  destruct (mem_alloc_blocks_run demo_memman 3 demo_memman_ok ltac:(lia)) as (p & s' & H & Hok & _).
  unfold demo_overlap. rewrite H. simpl.
  assert (s' = snd (default (0, demo_memman) (mem_alloc_blocks 3 demo_memman))) as -> by (by rewrite H).
  destruct (mem_free_blocks_spec (snd (default (0, demo_memman) (mem_alloc_blocks 3 demo_memman))) 2 0 1)
    as (Hok' & _ & Heq); [by rewrite H | lia | unfold MEM_BLOCK_SIZE; lia | lia | vm_compute; done | |].
  - intros b Hb. replace b with 2 by lia. vm_compute. reflexivity.
  - rewrite Z.add_0_r in *. by rewrite Heq.
Qed.

Lemma mem_init_region_spec_witness :
  let s' := mem_init_region 0 (4 * MEM_BLOCK_SIZE) demo_overlap in
  (used s' 3 = true) /\ acct_ok s' /\ unmarks_exactly demo_overlap s' 0 2.
Proof.
  split; [vm_compute; reflexivity |].
  apply (mem_init_region_spec demo_overlap 0 (4 * MEM_BLOCK_SIZE) 2 (proj1 demo_overlap_ok)).
  - lia.
  - vm_compute. split; discriminate.
  - vm_compute. discriminate.
  - intros b Hb. change (0 <= b < 2) in Hb.
    assert (b = 0 \/ b = 1) as [-> | ->] by lia; vm_compute; reflexivity.
  - right. vm_compute. reflexivity.
Defined.

(** Eight megabytes, with the hole of the video memory. *)
Definition demo_map : list memory_region :=
  [MemoryRegion 0 0x9f000 1 1; MemoryRegion 0xf0000 0x10000 2 1; MemoryRegion 0x100000 0x700000 1 1].

Lemma memman_init_frames_spec_witness :
  let s := (memman_init_frames 0xc0000000 0xc0010000 demo_map ∅).1 in
  let blocks := blocks_used_by_kernel 0xc0000000 0xc0010000 (_mem_max_blocks s) in
  frames_ok s /\
  _kernel_next_block s = (0xc0000 + blocks)%word /\
  forall b, 0 <= b < _mem_max_blocks s -> used s b = false ->
    256 <= b /\ ~ (0x200 <= b < 0x200 + blocks) /\
    exists r, r ∈ demo_map /\ region_block r b.
Proof.
  apply (memman_init_frames_spec 0xc0000000 0xc0010000 demo_map ∅).
  - intros i. done.
  - repeat (constructor; [unfold region_wf; simpl; lia |]). constructor.
  - vm_compute. discriminate.
Defined.
