(* ===== verification/Allocator.v ===== *)
(** What the kernel's components expect of [kmalloc] and [kfree]
    (kernel/kheap.h): a class of allocators over an abstract heap state, so that
    the components' theorems hold for every heap that keeps the promise, and one
    concrete allocator to run examples on. *)

From S2P Require Import Prelude Words.
#[local] Open Scope Z_scope.

(** [live h] are the addresses handed out and not given back. A call of
    [kmalloc] may not return (the heap can run out of memory it can map). *)
Class Allocator (H : Type) := {
  kmalloc : Z -> H -> option (Z * H);
  kfree : Z -> H -> H;
  heap_ok : H -> Prop;
  live : H -> gset Z;

  kmalloc_spec sz h p h' :
    heap_ok h -> 0 < sz -> kmalloc sz h = Some (p, h') ->
    heap_ok h' /\ 0 < p < 2 ^ 64 /\ (p ∉ live h) /\ live h' = {[p]} ∪ live h;
  kfree_null h : heap_ok h -> kfree 0 h = h;
  kfree_spec p h :
    heap_ok h -> p ∈ live h -> heap_ok (kfree p h) /\ live (kfree p h) = live h ∖ {[p]}
}.

#[global] Hint Mode Allocator ! : typeclass_instances.

(** An allocator that never reuses an address. *)
Record bump := Bump { bump_next : Z; bump_live : gset Z }.

Definition bump_kmalloc (sz : Z) (h : bump) : option (Z * bump) :=
  if (0 <? sz) && (bump_next h + sz <? 2 ^ 64)
  then Some (bump_next h, Bump (bump_next h + sz) ({[bump_next h]} ∪ bump_live h))
  else None.

Definition bump_kfree (p : Z) (h : bump) : bump :=
  Bump (bump_next h) (bump_live h ∖ {[p]}).

Definition bump_ok (h : bump) : Prop :=
  0 < bump_next h /\ forall p, p ∈ bump_live h -> 0 < p < bump_next h.

#[export] Instance bump_allocator : Allocator bump.
Proof.
  refine {| kmalloc := bump_kmalloc; kfree := bump_kfree; heap_ok := bump_ok; live := bump_live |}.
  - intros sz [n l] p h' [Hn Hl] Hsz. unfold bump_kmalloc. simpl in *.
    destruct (_ && _)%bool eqn:E; [| done]. bsimpl. intros ?. simplify_eq. simpl.
    assert (p ∉ l) by (intros Hq; specialize (Hl _ Hq); lia).
    split_and!; [split; simpl; [lia |] | lia | lia | done | done].
    intros q [->%elem_of_singleton | Hq]%elem_of_union; [lia |]. specialize (Hl q Hq). lia.
  - intros [n l] [Hn Hl]. unfold bump_kfree. simpl in *. f_equal.
    apply difference_disjoint_L. apply disjoint_singleton_r. intros H0.
    specialize (Hl 0 H0). lia.
  - intros p [n l] [Hn Hl] Hp. split; [split; simpl; [done |] | done].
    intros q Hq%elem_of_difference. apply Hl, Hq.
Defined.

(** For clients that write to what they were given: the blocks have sizes, lie in
    one area and do not overlap. *)
Class SizedAllocator (H : Type) `{Allocator H} := {
  area : Z * Z;
  extent : H -> Z -> Z;
  kmalloc_extent sz h p h' :
    heap_ok h -> 0 < sz -> kmalloc sz h = Some (p, h') ->
    fst area <= p /\ p + sz <= snd area /\ extent h' p = sz /\
    (forall q, q ∈ live h -> extent h' q = extent h q /\ (p + sz <= q \/ q + extent h q <= p));
  kfree_extent p q h : heap_ok h -> p ∈ live h -> q <> p -> extent (kfree p h) q = extent h q
}.

(** Requests that will be served: [n] of them, each of at most [request_max] bytes, with
    any of the blocks given back between. *)
Class HeapBudget (H : Type) `{Allocator H} := {
  request_max : Z;
  budget : nat -> H -> Prop;
  request_max_sector : 512 <= request_max;
  budget_pred n h : budget (S n) h -> budget n h;
  budget_kmalloc n h sz :
    heap_ok h -> budget (S n) h -> 0 < sz <= request_max -> exists p h', kmalloc sz h = Some (p, h') /\ budget n h';
  budget_kfree n h p : heap_ok h -> p ∈ live h -> budget n h -> budget n (kfree p h)
}.

Lemma budget_le {H : Type} `{HeapBudget H} (j n : nat) (h : H) : budget (j + n) h -> budget n h.
Proof. induction j as [|j IH]; [done |]. intros Hb. by apply IH, budget_pred. Qed.

(** An allocator that remembers the sizes. *)
Record sized_bump := SizedBump { sb_next : Z; sb_blocks : gmap Z Z }.

Definition sized_ok (h : sized_bump) : Prop :=
  0xC0100000 <= sb_next h /\
  forall p n, sb_blocks h !! p = Some n -> 0xC0100000 <= p /\ 0 < n /\ p + n <= sb_next h.

#[export] Instance sized_bump_allocator : Allocator sized_bump.
Proof.
  refine {|
    kmalloc sz h := if (0 <? sz) && (sb_next h + sz <? 0xC0200000)
                    then Some (sb_next h, SizedBump (sb_next h + sz) (<[sb_next h := sz]> (sb_blocks h))) else None;
    kfree p h := SizedBump (sb_next h) (delete p (sb_blocks h));
    heap_ok := sized_ok;
    live h := dom (sb_blocks h)
  |}.
  - intros sz [n b] p h' [Hn Hb] Hsz. simpl in *.
    destruct (_ && _)%bool eqn:E; [| done]. bsimpl. intros ?. simplify_eq. simpl.
    split_and!; [split; simpl; [lia |] | lia | lia | | by rewrite dom_insert_L].
    + intros q k. rewrite lookup_insert. case_decide.
      * intros [= ->]. lia.
      * intros Hq. specialize (Hb q k Hq). lia.
    + rewrite not_elem_of_dom. destruct (b !! p) as [k|] eqn:Ek; [| done]. specialize (Hb p k Ek). lia.
  - intros [n b] [Hn Hb]. simpl in *. f_equal. apply delete_id.
    destruct (b !! 0) as [k|] eqn:Ek; [| done]. specialize (Hb 0 k Ek). lia.
  - intros p [n b] [Hn Hb] Hp. simpl in *. split; [split; simpl; [done |] | by rewrite dom_delete_L].
    intros q k [Hne Hq]%lookup_delete_Some. by apply Hb.
Defined.

#[export] Instance sized_bump_sized : SizedAllocator sized_bump.
Proof.
  refine {| area := (0xC0100000, 0xC0200000); extent h q := default 0 (sb_blocks h !! q) |}.
  - intros sz [n b] p h' [Hn Hb] Hsz. simpl in *.
    destruct (_ && _)%bool eqn:E; [| done]. bsimpl. intros ?. simplify_eq. simpl.
    split_and!; [lia | lia | by rewrite lookup_insert_eq |].
    intros q [k Hk]%elem_of_dom. specialize (Hb q k Hk). rewrite lookup_insert_ne, Hk by lia. simpl. lia.
  - intros p q [n b] _ _ Hne. simpl. by rewrite lookup_delete_ne by done.
Defined.

#[export] Instance sized_bump_budget : HeapBudget sized_bump.
Proof.
  refine {| request_max := 0x1000; budget n h := sb_next h + 0x1000 * Z.of_nat n < 0xC0200000 |}.
  - done.
  - intros n h Hb. lia.
  - intros n h sz Hh Hb Hsz. simpl. destruct (_ && _)%bool eqn:E; [| bsimpl; lia].
    eexists _, _. split; [reflexivity |]. simpl. lia.
  - done.
Defined.

(** What the heap expects of the memory manager (kernel/memman.h): pages mapped at
    the end of the kernel's address space. [None]: the call does not return. *)
Class KernelPages (P : Type) := {
  alloc_kernel_page : Z -> P -> option (Z * P);
  free_kernel_page : Z -> Z -> P -> P
}.

#[global] Hint Mode KernelPages ! : typeclass_instances.

(** Consecutive pages, as long as they last. *)
Record page_bump := PageBump { page_next : Z }.

#[export] Instance bump_pages : KernelPages page_bump := {|
  alloc_kernel_page n p := Some (page_next p * 4096, PageBump (page_next p + n));
  free_kernel_page _ _ p := p
|}.
