(* ===== verification/TaskControl.v ===== *)
(** What the locks and the keyboard expect of the scheduler: a task has a status
    under its process id, and [change_task_status] sets it and nothing else. *)

From S2P Require Import Prelude Words.
#[local] Open Scope Z_scope.

Class TaskControl (T : Type) := {
  tc_change : Z -> Z -> T -> option T;
  tc_ok : T -> Prop;
  tc_status : T -> Z -> Z -> Prop;

  tc_status_fun t p x y : tc_ok t -> tc_status t p x -> tc_status t p y -> x = y;
  tc_change_spec p st t :
    tc_ok t -> 0 <= st < 256 ->
    exists t', tc_change p st t = Some t' /\ tc_ok t' /\
      (forall x, tc_status t p x -> tc_status t' p st) /\
      (forall q x, q <> p -> tc_status t q x -> tc_status t' q x)
}.

#[global] Hint Mode TaskControl ! : typeclass_instances.

Lemma tc_ok_change {T : Type} `{TaskControl T} (p st : Z) (t t' : T) :
  tc_ok t -> 0 <= st < 256 -> tc_change p st t = Some t' -> tc_ok t'.
Proof.
  intros Ht Hst E. destruct (tc_change_spec p st t Ht Hst) as (? & E' & ? & _). congruence.
Qed.

(** The bare table of statuses. *)
Definition table_change (p st : Z) (t : gmap Z Z) : option (gmap Z Z) :=
  Some (match t !! p with Some _ => <[p := st]> t | None => t end).

#[export] Instance table_control : TaskControl (gmap Z Z).
Proof.
  refine {| tc_change := table_change; tc_ok := fun _ => True;
            tc_status := fun t p x => t !! p = Some x |}.
  - intros. congruence.
  - intros p st t _ _. eexists. split_and!; [done | done | |].
    + intros x ->. by rewrite lookup_insert_eq.
    + intros q x Hq Hx. destruct (t !! p); [by rewrite lookup_insert_ne | done].
Defined.
