(* ===== verification/Interrupts.v ===== *)
(** Interrupt dispatch (kernel/isr.c), the frame its stubs build
    (kernel/interrupt.asm), and the system calls on both sides of the gate
    (kernel/syscall.c, user/syscall.c). *)

From S2P Require Import Prelude Words Console.
#[local] Open Scope Z_scope.

(** * The interrupt frame *)

(** [registers_t], in memory order. *)
Record registers_t := Registers {
  ds : Z;
  r9 : Z; r8 : Z; rsp : Z; rbp : Z; rdi : Z; rsi : Z; rdx : Z; rcx : Z; rbx : Z; rax : Z;
  int_no : Z; err_code : Z;
  rip : Z; cs : Z; rflags : Z; userrsp : Z; ss : Z
}.

Definition set_rax (v : Z) (regs : registers_t) : registers_t :=
  Registers (ds regs) (r9 regs) (r8 regs) (rsp regs) (rbp regs) (rdi regs) (rsi regs)
    (rdx regs) (rcx regs) (rbx regs) v (int_no regs) (err_code regs)
    (rip regs) (cs regs) (rflags regs) (userrsp regs) (ss regs).

(** The processor's registers when the interrupt comes; [cpu_ds] is the word that the stub
    pushes for [ds] (Stubs.v). *)
Record cpu := Cpu {
  cpu_rax : Z; cpu_rbx : Z; cpu_rcx : Z; cpu_rdx : Z; cpu_rsi : Z; cpu_rdi : Z; cpu_rbp : Z;
  cpu_r8 : Z; cpu_r9 : Z; cpu_ds : Z;
  cpu_rip : Z; cpu_cs : Z; cpu_rflags : Z; cpu_rsp : Z; cpu_ss : Z
}.

(** The stubs that push a zero where the processor pushes no error code, as the
    macros of interrupt.asm are applied. *)
Definition stub_pushes_zero (n : Z) : bool := negb ((10 <=? n) && (n <=? 14)).

(** The stack after the processor and the stub [isr<n>] pushed their words, top
    first. [errors] is the error code the processor pushes, for the exceptions
    that have one; [sp] the stack pointer that [push rsp] stores. *)
Definition isr_stack (c : cpu) (errors : list Z) (n sp : Z) : list Z :=
  let hw := errors ++ [cpu_rip c; cpu_cs c; cpu_rflags c; cpu_rsp c; cpu_ss c] in
  let stub := n :: (if stub_pushes_zero n then 0 :: hw else hw) in
  [cpu_ds c; cpu_r9 c; cpu_r8 c; sp; cpu_rbp c; cpu_rdi c; cpu_rsi c; cpu_rdx c; cpu_rcx c;
   cpu_rbx c; cpu_rax c] ++ stub.

(** The parameter [regs] of [isr_handler]: the top of the stack as the struct. *)
Definition read_frame (stack : list Z) : option registers_t :=
  match stack with
  | [a0; a1; a2; a3; a4; a5; a6; a7; a8; a9; a10; a11; a12; a13; a14; a15; a16; a17] =>
      Some (Registers a0 a1 a2 a3 a4 a5 a6 a7 a8 a9 a10 a11 a12 a13 a14 a15 a16 a17)
  | _ => None
  end.

(** * Dispatch *)

Definition MAX_HANDLERS : Z := 255.

(** The functions the kernel registers. *)
Inductive isr_t :=
  | page_fault_handler
  | gpf_handler
  | keyboard_handler
  | syscall_handler_isr
  | switch_task_isr.

#[export] Instance isr_t_eq_dec : EqDecision isr_t.
Proof. solve_decision. Defined.

(** [handlers]: the non-null entries of the array. *)
Abbreviation handler_table := (gmap Z isr_t).

(** An index outside the array is undefined behaviour: [None]. *)
Definition register_handler (int_no : Z) (handler : isr_t) (handlers : handler_table) : option handler_table :=
  if (0 <=? int_no) && (int_no <? MAX_HANDLERS) then Some (<[int_no := handler]> handlers) else None.

Inductive isr_effect :=
  | Write_apicr (offset val : Z)
  | Call_handler (handler : isr_t) (regs : registers_t)
  | Print (o : out).

Definition isr_handler (handlers : handler_table) (regs : registers_t) : option (list isr_effect) :=
  let ack := if 0x20 <=? int_no regs then [Write_apicr 0xb0 0] else [] in
  if (0 <=? int_no regs) && (int_no regs <? MAX_HANDLERS) then
    Some (ack ++
      match handlers !! int_no regs with
      | Some handler => [Call_handler handler regs]
      | None => Print <$> [Puts "[ISR] INT "; Puthex (int_no regs); Puts ", error code ";
                           Puthex (err_code regs); Putsln ""]
      end)
  else None.

(** What [gpf_handler] prints before it loops for ever. *)
Definition gpf_output (regs : registers_t) : list out :=
  [Puts "GPF: error code "; Puthex (err_code regs); Putsln ""].

(** * System calls *)

Inductive syscall_fn :=
  | sys_puts | sys_puthex | sys_putint | sys_kmalloc | sys_kfree | sys_readline
  | sys_fork | sys_exec | sys_exit | sys_sleep.

#[export] Instance syscall_fn_eq_dec : EqDecision syscall_fn.
Proof. solve_decision. Defined.

Definition SYSCALL_NUM : Z := 10.
Definition syscalls : list syscall_fn :=
  [sys_puts; sys_puthex; sys_putint; sys_kmalloc; sys_kfree; sys_readline;
   sys_fork; sys_exec; sys_exit; sys_sleep].

Definition syscalls_init (handlers : handler_table) : option handler_table :=
  register_handler 0x80 syscall_handler_isr handlers.

(** A call as the inline assembly makes it: the function in r11 and the six
    argument registers. *)
Record call_frame := CallFrame {
  callee : syscall_fn;
  arg_rdi : Z; arg_rsi : Z; arg_rdx : Z; arg_rcx : Z; arg_r8 : Z; arg_r9 : Z
}.

(** The seven pushes, and the pops in the order r11, r9, r8, rcx, rdx, rsi, rdi. *)
Definition syscall_pushes (regs : registers_t) (location : syscall_fn) : list (Z + syscall_fn) :=
  foldl (fun stack w => w :: stack) []
    [inl (rdi regs); inl (rsi regs); inl (rdx regs); inl (rcx regs); inl (r8 regs);
     inl (r9 regs); inr location].

Definition syscall_pops (stack : list (Z + syscall_fn)) : option call_frame :=
  match stack with
  | [inr f; inl v9; inl v8; inl vcx; inl vdx; inl vsi; inl vdi] =>
      Some (CallFrame f vdi vsi vdx vcx v8 v9)
  | _ => None
  end.

Inductive syscall_outcome :=
  | Ignored
  | Called (frame : call_frame)
  | Wild_call.  (** an index outside [syscalls] passed the guard *)

(** [syscall_handler] up to the call. [rax] is an [int64_t], so the guard is a
    signed comparison. *)
Definition syscall_handler (regs : registers_t) : syscall_outcome :=
  if SYSCALL_NUM <=? rax regs then Ignored
  else if rax regs <? 0 then Wild_call
  else match syscalls !! Z.to_nat (rax regs) with
       | Some location =>
           match syscall_pops (syscall_pushes regs location) with
           | Some f => Called f
           | None => Wild_call
           end
       | None => Wild_call
       end.

(** [regs->rax = ret]. *)
Definition syscall_return (ret : Z) (regs : registers_t) : registers_t := set_rax (int64_t ret) regs.

(** All of [syscall_handler]: the frame that it leaves, where [call] is what the function of
    the kernel returns. [None] is a call outside the table. *)
Definition syscall_handler_frame (call : call_frame -> Z) (regs : registers_t) : option registers_t :=
  match syscall_handler regs with
  | Ignored => Some regs
  | Called f => Some (syscall_return (call f) regs)
  | Wild_call => None
  end.

(** The user's stubs: the number each [DEFN_SYSCALL] of user/syscall.c puts in rax. *)
Definition user_stub_number (f : syscall_fn) : Z :=
  match f with
  | sys_puts => 0 | sys_puthex => 1 | sys_putint => 2 | sys_kmalloc => 3 | sys_kfree => 4
  | sys_readline => 5 | sys_fork => 6 | sys_exec => 7 | sys_exit => 8 | sys_sleep => 9
  end.

(** The stubs that are made by [DEFN_SYSCALL1] and put their argument in rdi. *)
Definition user_stub_argument (f : syscall_fn) : bool :=
  match f with sys_fork | sys_exit | sys_sleep => false | _ => true end.

(** * Theorems *)

(** The stub of a vector whose error-code convention matches the
    processor's builds exactly the [registers_t] of the interrupted context. *)
Theorem isr_frame_spec (c : cpu) (errors : list Z) (n sp : Z)
  (Hconv : length errors = if stub_pushes_zero n then 0%nat else 1%nat) :
  read_frame (isr_stack c errors n sp) =
    Some (Registers (cpu_ds c) (cpu_r9 c) (cpu_r8 c) sp (cpu_rbp c) (cpu_rdi c) (cpu_rsi c)
      (cpu_rdx c) (cpu_rcx c) (cpu_rbx c) (cpu_rax c) n (default 0 (head errors))
      (cpu_rip c) (cpu_cs c) (cpu_rflags c) (cpu_rsp c) (cpu_ss c)).
Proof.
  unfold isr_stack. destruct (stub_pushes_zero n).
  - by destruct errors.
  - by destruct errors as [|e [|]].
Qed.

(** C39: [syscall_handler] ignores numbers from [SYSCALL_NUM] up, serves those of
    the table with the six argument registers in place, and lets every negative
    number through to an access outside the table. *)
Theorem syscall_handler_spec (regs : registers_t) :
  match syscall_handler regs with
  | Ignored => SYSCALL_NUM <= rax regs
  | Called f => 0 <= rax regs < SYSCALL_NUM /\ syscalls !! Z.to_nat (rax regs) = Some (callee f) /\
      f = CallFrame (callee f) (rdi regs) (rsi regs) (rdx regs) (rcx regs) (r8 regs) (r9 regs)
  | Wild_call => rax regs < 0
  end.
Proof.
  unfold syscall_handler, SYSCALL_NUM. destruct (Z.leb_spec 10 (rax regs)); [done |].
  destruct (Z.ltb_spec (rax regs) 0); [done |].
  destruct (syscalls !! Z.to_nat (rax regs)) as [f|] eqn:E.
  - simpl. split_and!; [lia | lia | done | done].
  - apply lookup_ge_None in E. simpl in E. lia.
Qed.

(** A registered handler is what later interrupts of its vector call, and
    registration leaves every other vector as it was. *)
Theorem register_handler_dispatch (handlers handlers' : handler_table) (n : Z) (h : isr_t)
  (regs : registers_t) (Hreg : register_handler n h handlers = Some handlers') :
  (int_no regs = n -> exists pre, isr_handler handlers' regs = Some (pre ++ [Call_handler h regs]) /\
     pre = if 0x20 <=? n then [Write_apicr 0xb0 0] else []) /\
  (int_no regs <> n -> isr_handler handlers' regs = isr_handler handlers regs).
Proof.
  unfold register_handler in Hreg. destruct (_ && _)%bool eqn:E; [| done]. simplify_eq.
  split.
  - intros <-. eexists. split; [| done]. unfold isr_handler. by rewrite E, lookup_insert_eq.
  - intros Hne. unfold isr_handler. by rewrite lookup_insert_ne by done.
Qed.

Definition demo_cpu : cpu := Cpu 1 2 3 4 5 6 7 8 9 10 11 12 13 14 15.

Lemma isr_frame_spec_witness :
  read_frame (isr_stack demo_cpu [42] 13 99) =
    Some (Registers 10 9 8 99 7 6 5 4 3 2 1 13 42 11 12 13 14 15).
Proof. exact (isr_frame_spec demo_cpu [42] 13 99 eq_refl). Defined.

Definition demo_regs (n : Z) : registers_t := Registers 0 0 0 0 0 0 0 0 0 0 0 n 0 0 0 0 0 0.

Lemma register_handler_dispatch_witness :
  (int_no (demo_regs 0x21) = 0x21 -> exists pre,
     isr_handler (<[0x21 := keyboard_handler]> ∅) (demo_regs 0x21) =
       Some (pre ++ [Call_handler keyboard_handler (demo_regs 0x21)]) /\
     pre = if 0x20 <=? 0x21 then [Write_apicr 0xb0 0] else []) /\
  (int_no (demo_regs 0x21) <> 0x21 ->
     isr_handler (<[0x21 := keyboard_handler]> ∅) (demo_regs 0x21) = isr_handler ∅ (demo_regs 0x21)).
Proof.
  exact (register_handler_dispatch ∅ _ 0x21 keyboard_handler (demo_regs 0x21) eq_refl).
Defined.
