(* ===== verification/Scheduler.v ===== *)
(** The scheduler (kernel/scheduler.c): the list of tasks threaded through the
    [next] pointers, the round robin of [switch_task], and task states. *)

From S2P Require Import Prelude Words Allocator TaskControl Interrupts.
#[local] Open Scope Z_scope.

(** * State *)

(** [struct task] of kernel/scheduler.h. *)
Record task := Task {
  pid : Z;
  t_rsp : Z; t_rbp : Z;
  t_rip : Z;
  pml4 : Z;
  status : Z;  (* 0 - free, otherwise not scheduled *)
  next : Z
}.

Definition sizeof_task : Z := 49.

Definition set_pid (v : Z) (t : task) := Task v (t_rsp t) (t_rbp t) (t_rip t) (pml4 t) (status t) (next t).
Definition set_status (v : Z) (t : task) := Task (pid t) (t_rsp t) (t_rbp t) (t_rip t) (pml4 t) v (next t).
Definition set_next (v : Z) (t : task) := Task (pid t) (t_rsp t) (t_rbp t) (t_rip t) (pml4 t) (status t) v.
Definition set_context (rip rsp rbp : Z) (t : task) :=
  Task (pid t) rsp rbp rip (pml4 t) (status t) (next t).

(** The static variables of scheduler.c, the task structs by address, and the
    processor's interrupt flag that [cli] and [sti] change. *)
Record sched := Sched {
  current_task : Z;
  task_list : Z;
  next_pid : Z;
  tasks : gmap Z task;
  interrupts : bool
}.

Definition upd_tasks (f : gmap Z task -> gmap Z task) (s : sched) : sched :=
  Sched (current_task s) (task_list s) (next_pid s) (f (tasks s)) (interrupts s).
Definition set_current (a : Z) (s : sched) : sched :=
  Sched a (task_list s) (next_pid s) (tasks s) (interrupts s).
Definition set_interrupts (b : bool) (s : sched) : sched :=
  Sched (current_task s) (task_list s) (next_pid s) (tasks s) b.
Definition upd_next_pid (f : Z -> Z) (s : sched) : sched :=
  Sched (current_task s) (task_list s) (f (next_pid s)) (tasks s) (interrupts s).

(** * Operations *)

(** A pointer that is not the address of a task is a fault: [None]. Loops over
    the list take fuel; [list_fuel] rounds are enough on a list that ends. *)
Definition list_fuel (s : sched) : nat := S (size (tasks s)).

(** [scheduler_init]: [cr3] is what [get_current_pml4] reads. [kmalloc]'s memory
    is the new task struct, every field of which is written. *)
Definition scheduler_init {H} `{Allocator H} (cr3 : Z) (h : H) (handlers : handler_table) (s : sched)
    : option (H * handler_table * sched) :=
  '(a, h) ← kmalloc sizeof_task h;
  handlers ← register_handler 0x20 switch_task_isr handlers;
  Some (h, handlers,
        Sched a a (next_pid s + 1)%word
          (<[a := Task (next_pid s) 0 0 0 cr3 0 0]> (tasks s)) true).

(** [while (tmp->next) tmp = tmp->next;] *)
Definition last_step (ts : gmap Z task) (tmp : Z) : Z + option Z :=
  match ts !! tmp with
  | None => inr None
  | Some t => if next t =? 0 then inr (Some tmp) else inl (next t)
  end.

Definition add_task (new_task : Z) (s : sched) : option sched :=
  t ← tasks s !! new_task;
  let s := upd_next_pid (fun n => (n + 1)%word)
             (upd_tasks <[new_task := set_status 0 (set_pid (next_pid s) t)]> s) in
  tmp ← mjoin (iter_fuel (list_fuel s) (last_step (tasks s)) (task_list s));
  Some (upd_tasks (alter (set_next new_task) tmp) s).

(** [current_task = current_task->next ? current_task->next : task_list]. *)
Definition next_task (s : sched) (a : Z) : option Z :=
  t ← tasks s !! a;
  Some (if next t =? 0 then task_list s else next t).

(** The [do] loop of [switch_task]; [inr None] is a fault. *)
Definition robin_step (s : sched) (cur : Z) : Z + option Z :=
  match next_task s cur with
  | None => inr None
  | Some a =>
      match tasks s !! a with
      | None => inr None
      | Some t => if status t =? 0 then inr (Some a) else inl a
      end
  end.

(** What the processor does when [switch_task] ends. *)
Inductive switch_outcome :=
  | Return
  | Fault                                  (** at a pointer that is no task *)
  | Jump (rip rsp rbp cr3 : Z).

(** [rip] is the value [read_rip] returns, [rsp] and [rbp] the registers. The result [None] says
    that the loop is not done after [fuel] rounds, and nothing else. *)
Definition switch_task (fuel : nat) (rsp rbp rip : Z) (s : sched) : option (switch_outcome * sched) :=
  if current_task s =? 0 then Some (Return, s)
  else if rip =? 0x12345 then Some (Return, s)
  else
    let s := upd_tasks (alter (set_context rip rsp rbp) (current_task s)) s in
    r ← iter_fuel fuel (robin_step s) (current_task s);
    match (a ← r; pair a <$> tasks s !! a) with
    | None => Some (Fault, s)
    | Some (a, t) => Some (Jump (t_rip t) (t_rsp t) (t_rbp t) (pml4 t), set_interrupts true (set_current a s))
    end.

Definition get_current_task (s : sched) : Z := current_task s.

Definition get_current_pid (s : sched) : option Z := pid <$> tasks s !! current_task s.

(** The loop of [change_task_status]: the pointer and the structs. *)
Definition status_step (p st : Z) (r : Z * gmap Z task) : (Z * gmap Z task) + option (gmap Z task) :=
  let '(tmp, ts) := r in
  if tmp =? 0 then inr (Some ts)
  else match ts !! tmp with
       | None => inr None
       | Some t => inl (next t, if pid t =? p then <[tmp := set_status st t]> ts else ts)
       end.

Definition change_task_status (p st : Z) (s : sched) : option sched :=
  ts ← mjoin (iter_fuel (S (list_fuel s)) (status_step p (uint8_t st)) (task_list s, tasks s));
  Some (upd_tasks (fun _ => ts) s).

(** * The list *)

(** From the pointer [p], the [next] pointers run through [l] to null. *)
Fixpoint chain (ts : gmap Z task) (p : Z) (l : list Z) : Prop :=
  match l with
  | [] => p = 0
  | a :: l => p = a /\ a <> 0 /\ exists t, ts !! a = Some t /\ chain ts (next t) l
  end.

(** The scheduler's invariant, with the addresses of the tasks in list order. *)
Record sched_ok (s : sched) (l : list Z) : Prop := {
  so_chain : chain (tasks s) (task_list s) l;
  so_nodup : NoDup l;
  so_current : current_task s ∈ l;
  so_pids : NoDup ((fun a => pid <$> tasks s !! a) <$> l);
  so_bound : forall a t, a ∈ l -> tasks s !! a = Some t -> 0 <= pid t < next_pid s
}.

(** The order in which the loop looks for a task, from [cur]. *)
Definition rotation (l : list Z) (cur : Z) (l' : list Z) : Prop :=
  exists l1 l2, l = l1 ++ cur :: l2 /\ l' = l2 ++ l1 ++ [cur].

Definition runnable (s : sched) (a : Z) : Prop :=
  exists t, tasks s !! a = Some t /\ status t = 0.

Section chain.
Implicit Types (ts : gmap Z task) (a p : Z) (l : list Z).

Lemma chain_split ts p l1 a l2 :
  chain ts p (l1 ++ a :: l2) ->
  a <> 0 /\ exists t, ts !! a = Some t /\ chain ts (next t) l2.
Proof.
  revert p; induction l1 as [|b l1 IH]; intros p; simpl.
  - intros (-> & ? & ?). done.
  - intros (_ & _ & t & _ & Hc). by apply (IH (next t)).
Qed.

Lemma chain_elem ts p l a :
  chain ts p l -> a ∈ l -> a <> 0 /\ exists t, ts !! a = Some t.
Proof.
  intros Hc (l1 & l2 & ->)%list_elem_of_split.
  destruct (chain_split _ _ _ _ _ Hc) as (? & t & ? & _). eauto.
Qed.

Lemma chain_head ts p a l : chain ts p (a :: l) -> p = a.
Proof. by intros [? _]. Qed.

(** Only the [next] fields matter. *)
Lemma chain_ext ts ts' p l :
  (forall a, a ∈ l -> next <$> ts' !! a = next <$> ts !! a) -> chain ts p l -> chain ts' p l.
Proof.
  revert p; induction l as [|a l IH]; intros p Hext; simpl; [done |].
  intros (-> & ? & t & Ht & Hc). split_and!; [done | done |].
  specialize (Hext a ltac:(apply list_elem_of_here)) as Ha. rewrite Ht in Ha.
  destruct (ts' !! a) as [t'|]; [| done]. exists t'. split; [done |].
  injection Ha as ->. apply IH; [| done]. intros b Hb. apply Hext. by apply list_elem_of_further.
Qed.

(** An address at the end of the list whose struct ends it. *)
Lemma chain_snoc ts p l z a t :
  chain ts p (l ++ [z]) -> NoDup (l ++ [z]) -> a ∉ l ++ [z] -> a <> 0 ->
  ts !! a = Some t -> next t = 0 ->
  chain (alter (set_next a) z ts) p ((l ++ [z]) ++ [a]).
Proof.
  revert p; induction l as [|b l IH]; intros p Hc Hnd Hin Ha Ht Hn; simpl in *.
  - destruct Hc as (-> & ? & tz & Htz & _). split_and!; [done | done |].
    exists (set_next a tz). rewrite lookup_alter_eq, Htz. split; [done |].
    simpl. split_and!; [done | done |]. exists t.
    rewrite lookup_alter_ne by (intros ->; apply Hin; by apply list_elem_of_here). done.
  - destruct Hc as (-> & ? & tb & Htb & Hc). apply NoDup_cons in Hnd as [Hb Hnd].
    split_and!; [done | done |]. exists tb.
    rewrite lookup_alter_ne by (intros ->; apply Hb; apply elem_of_app; right; by apply list_elem_of_here).
    split; [done |]. apply IH; [done | done | | done | done | done].
    intros ?. apply Hin. by apply list_elem_of_further.
Qed.

Lemma chain_length ts p l : chain ts p l -> NoDup l -> (length l <= size ts)%nat.
Proof.
  intros Hc Hnd. rewrite <- size_dom, <- (size_list_to_set (C := gset Z) l) by done.
  apply subseteq_size. intros a Ha%elem_of_list_to_set.
  destruct (chain_elem _ _ _ _ Hc Ha) as (_ & t & Ht). apply elem_of_dom. eauto.
Qed.

(** The walk of [add_task] ends at the last task. *)
Lemma last_loop ts p l z fuel :
  chain ts p (l ++ [z]) -> (length l < fuel)%nat ->
  iter_fuel fuel (last_step ts) p = Some (Some z).
Proof.
  revert p fuel; induction l as [|b l IH]; intros p fuel Hc Hf; (destruct fuel as [|fuel]; [simpl in Hf; lia |]); simpl in *.
  - destruct Hc as (-> & ? & t & Ht & Hn). unfold last_step. rewrite Ht.
    simpl in Hn. by rewrite Hn.
  - destruct Hc as (-> & ? & t & Ht & Hc). unfold last_step at 1. rewrite Ht.
    assert (next t <> 0).
    { destruct l as [|c l]; simpl in Hc; destruct Hc as (-> & ? & _); done. }
    destruct (Z.eqb_spec (next t) 0); [done |]. apply IH; [done | lia].
Qed.
End chain.

(** * The round robin *)

Section rotation.
Implicit Types (l pre post : list Z) (a b cur : Z).

Lemma rotation_exists l cur : cur ∈ l -> exists l', rotation l cur l'.
Proof. intros (l1 & l2 & ->)%list_elem_of_split. eexists _, l1, l2. done. Qed.

Lemma rotation_elem l cur l' a : rotation l cur l' -> a ∈ l <-> a ∈ l'.
Proof.
  intros (l1 & l2 & -> & ->).
  rewrite !elem_of_app, elem_of_cons, list_elem_of_singleton. tauto.
Qed.

Lemma rotation_length l cur l' : rotation l cur l' -> length l' = length l.
Proof. intros (l1 & l2 & -> & ->). rewrite !length_app. simpl. lia. Qed.

(** Moving on to a task of the rotation rotates it. *)
Lemma rotation_move l cur pre a post :
  rotation l cur (pre ++ a :: post) -> rotation l a (post ++ pre ++ [a]).
Proof.
  intros (l1 & l2 & -> & He). apply app_eq_app in He as (k & [[-> H2]|[-> H2]]).
  - (* the target comes before [cur] in the list, or is [cur] *)
    destruct (decide (post = [])) as [->|Hpost].
    + apply app_inj_tail in H2 as [-> ->]. exists k, l2. by rewrite <- !app_assoc.
    + destruct (exists_last Hpost) as (post' & z & ->).
      rewrite app_comm_cons, app_assoc in H2. apply app_inj_tail in H2 as [-> ->].
      exists k, (post' ++ z :: l2). by rewrite <- !app_assoc.
  - (* it comes after [cur], or the list starts with it *)
    destruct k as [|c k]; simplify_eq/=.
    + destruct l1 as [|b l1]; simplify_eq/=.
      * exists [], pre. by rewrite app_nil_r.
      * exists [], (l1 ++ cur :: pre). by rewrite <- !app_assoc, app_nil_r.
    + exists (l1 ++ cur :: pre), k. by rewrite <- !app_assoc.
Qed.
End rotation.

Section robin.
Context (s : sched) (l : list Z).
Context (Hchain : chain (tasks s) (task_list s) l).

Lemma next_task_rotation cur b r : rotation l cur (b :: r) -> next_task s cur = Some b.
Proof.
  intros (l1 & l2 & Hl & He). rewrite Hl in Hchain.
  destruct (chain_split _ _ _ _ _ Hchain) as (Hne & t & Ht & Hc).
  unfold next_task. rewrite Ht. simpl. f_equal. destruct l2 as [|c l2]; simplify_eq/=.
  - rewrite Hc. simpl.
    destruct l1 as [|d l1]; simplify_eq/=; by destruct Hchain as [? _].
  - destruct Hc as (Hn & Hnz & _). destruct (Z.eqb_spec (next t) 0); congruence.
Qed.

Lemma robin_step_rotation cur b r :
  rotation l cur (b :: r) ->
  (runnable s b -> robin_step s cur = inr (Some b)) /\
  (~ runnable s b -> robin_step s cur = inl b).
Proof.
  intros Hrot. unfold robin_step. rewrite (next_task_rotation cur b r Hrot).
  assert (b ∈ l) as Hb by (apply (rotation_elem _ _ _ _ Hrot); apply list_elem_of_here).
  destruct (chain_elem _ _ _ _ Hchain Hb) as (_ & t & Ht). rewrite Ht.
  unfold runnable. rewrite Ht. split.
  - intros (t' & ? & Hst). simplify_eq. by rewrite Hst.
  - intros Hn. destruct (Z.eqb_spec (status t) 0); [| done]. exfalso. eauto.
Qed.

(** The loop stops at the first runnable task of the rotation. *)
Lemma robin_loop cur pre a post fuel :
  rotation l cur (pre ++ a :: post) -> (forall b, b ∈ pre -> ~ runnable s b) -> runnable s a ->
  (length pre < fuel)%nat -> iter_fuel fuel (robin_step s) cur = Some (Some a).
Proof.
  revert cur post fuel; induction pre as [|b pre IH]; intros cur post fuel Hrot Hpre Ha Hf;
    (destruct fuel as [|fuel]; [simpl in Hf; lia |]); simpl in *.
  - destruct (robin_step_rotation cur a post Hrot) as [H _]. by rewrite H.
  - destruct (robin_step_rotation cur b _ Hrot) as [_ H].
    rewrite H by (apply Hpre, list_elem_of_here).
    apply (IH b (post ++ [b])); [| | done | lia].
    + pose proof (rotation_move l cur [] b _ Hrot) as Hm. simpl in Hm.
      by rewrite <- app_assoc in Hm.
    + intros c Hc. apply Hpre. by apply list_elem_of_further.
Qed.

(** With every task blocked it goes round for ever. *)
Lemma robin_diverges cur fuel :
  cur ∈ l -> (forall b, b ∈ l -> ~ runnable s b) -> iter_fuel fuel (robin_step s) cur = None.
Proof.
  intros Hcur Hall. apply (iter_fuel_diverges _ (.∈ l)); [| done].
  intros c (l' & Hrot)%rotation_exists. destruct l' as [|b r].
  { destruct Hrot as (l1 & l2 & _ & He). by destruct l2, l1. }
  assert (b ∈ l) as Hb by (apply (rotation_elem _ _ _ _ Hrot); apply list_elem_of_here).
  destruct (robin_step_rotation c b r Hrot) as [_ H]. exists b. by rewrite H by auto.
Qed.
End robin.

(** * Theorems *)

(** A change of the structs that keeps [pid] and [next] keeps the invariant. *)
Lemma sched_ok_same s ts l :
  sched_ok s l ->
  (forall a, a ∈ l -> next <$> ts !! a = next <$> tasks s !! a /\ pid <$> ts !! a = pid <$> tasks s !! a) ->
  sched_ok (upd_tasks (fun _ => ts) s) l.
Proof.
  intros [Hc Hnd Hcur Hp Hb] Hsame. split; simpl.
  - eapply chain_ext; [| done]. intros a Ha. by apply Hsame.
  - done.
  - done.
  - enough ((fun a => pid <$> ts !! a) <$> l = (fun a => pid <$> tasks s !! a) <$> l) as -> by done.
    apply list_fmap_ext. intros i a Ha. apply Hsame. by eapply list_elem_of_lookup_2.
  - intros a t Ha Ht. destruct (Hsame a Ha) as [_ Hpid]. rewrite Ht in Hpid.
    destruct (tasks s !! a) as [t'|] eqn:E; [| done]. injection Hpid as ->. by apply (Hb a).
Qed.

Lemma sched_ok_current s l : sched_ok s l -> current_task s <> 0.
Proof. intros Hs. by destruct (chain_elem _ _ _ _ (so_chain s l Hs) (so_current s l Hs)). Qed.

(** [switch_task] first saves the context, which [next], [pid] and [status]
    survive. *)
Definition save_context (rip rsp rbp : Z) (s : sched) : sched :=
  upd_tasks (alter (set_context rip rsp rbp) (current_task s)) s.

Lemma lookup_save_context {A} (f : task -> A) rip rsp rbp s a :
  (forall t, f (set_context rip rsp rbp t) = f t) ->
  f <$> tasks (save_context rip rsp rbp s) !! a = f <$> tasks s !! a.
Proof.
  intros Hf. simpl. rewrite lookup_alter. case_decide; [subst | done].
  rewrite <- option_fmap_compose. destruct (tasks s !! _); [| done]. simpl. by rewrite Hf.
Qed.

Lemma save_context_ok rip rsp rbp s l : sched_ok s l -> sched_ok (save_context rip rsp rbp s) l.
Proof.
  intros Hs. apply (sched_ok_same s); [done |]. intros a _.
  split; by apply (lookup_save_context (A := Z)).
Qed.

Lemma runnable_status s a : runnable s a <-> status <$> tasks s !! a = Some 0.
Proof.
  unfold runnable. destruct (tasks s !! a) as [t|]; simpl.
  - split; [intros (? & ? & ?); simplify_eq; congruence | intros [= ?]; eauto].
  - split; [by intros (? & ? & ?) | done].
Qed.

Lemma runnable_save_context rip rsp rbp s a :
  runnable (save_context rip rsp rbp s) a <-> runnable s a.
Proof. rewrite !runnable_status. by rewrite (lookup_save_context status) by done. Qed.

Lemma set_current_ok s l a : sched_ok s l -> a ∈ l -> sched_ok (set_interrupts true (set_current a s)) l.
Proof. intros [] Ha. by split. Qed.

(** The run of [switch_task] up to the task it resumes. *)
Lemma switch_task_run (s : sched) (l pre post : list Z) (a : Z) (fuel : nat) (rsp rbp rip : Z)
  (Hs : sched_ok s l) (Hrip : rip <> 0x12345)
  (Hrot : rotation l (current_task s) (pre ++ a :: post))
  (Hpre : forall b, b ∈ pre -> ~ runnable s b) (Ha : runnable s a)
  (Hfuel : (length pre < fuel)%nat) :
  exists t s',
    switch_task fuel rsp rbp rip s = Some (Jump (t_rip t) (t_rsp t) (t_rbp t) (pml4 t), s') /\
    tasks s' !! a = Some t /\ current_task s' = a /\ interrupts s' = true /\
    tasks s' = alter (set_context rip rsp rbp) (current_task s) (tasks s) /\
    task_list s' = task_list s /\ sched_ok s' l.
Proof.
  assert (a ∈ l) as Hal.
  { apply (rotation_elem _ _ _ _ Hrot). rewrite elem_of_app, elem_of_cons. auto. }
  unfold switch_task. destruct (Z.eqb_spec (current_task s) 0) as [H0|_].
  { by destruct (sched_ok_current s l Hs). }
  destruct (Z.eqb_spec rip 0x12345); [done |]. fold (save_context rip rsp rbp s).
  set (s1 := save_context rip rsp rbp s).
  assert (sched_ok s1 l) as Hs1 by (by apply save_context_ok).
  change (current_task s1) with (current_task s).
  rewrite (robin_loop s1 l (so_chain s1 l Hs1) (current_task s) pre a post fuel); [| done | | | done].
  - simpl. destruct (chain_elem _ _ _ _ (so_chain s1 l Hs1) Hal) as (_ & t & Ht).
    simpl in Ht. rewrite Ht. simpl. eexists t, _. split_and!; [done | done | done | done | done | done |].
    by apply set_current_ok.
  - intros b Hb. unfold s1. rewrite runnable_save_context. by apply Hpre.
  - unfold s1. by rewrite runnable_save_context.
Qed.

(** C16: [switch_task] saves the running task's context and resumes the first
    runnable task after it in list order, wrapping round; it needs no more
    rounds than tasks it passes over, enables interrupts, and keeps the list. *)
Theorem switch_task_spec (s : sched) (l pre post : list Z) (a : Z) (fuel : nat) (rsp rbp rip : Z)
  (Hs : sched_ok s l) (Hrip : rip <> 0x12345)
  (Hrot : rotation l (current_task s) (pre ++ a :: post))
  (Hpre : forall b, b ∈ pre -> ~ runnable s b) (Ha : runnable s a)
  (Hfuel : (length pre < fuel)%nat) :
  exists t s',
    switch_task fuel rsp rbp rip s = Some (Jump (t_rip t) (t_rsp t) (t_rbp t) (pml4 t), s') /\
    tasks s' !! a = Some t /\ current_task s' = a /\ interrupts s' = true /\
    tasks s' = alter (set_context rip rsp rbp) (current_task s) (tasks s) /\
    task_list s' = task_list s /\ sched_ok s' l.
Proof. exact (switch_task_run s l pre post a fuel rsp rbp rip Hs Hrip Hrot Hpre Ha Hfuel). Qed.

(** C38: when no task is runnable the loop of [switch_task] goes on for ever: it is not done
    after any number of rounds, and it does not fault ([Fault] is a result of its own). It has no
    idle task to fall back on. *)
Theorem switch_task_all_blocked (s : sched) (l : list Z) (fuel : nat) (rsp rbp rip : Z)
  (Hs : sched_ok s l) (Hrip : rip <> 0x12345) (Hall : forall b, b ∈ l -> ~ runnable s b) :
  switch_task fuel rsp rbp rip s = None.
Proof.
  unfold switch_task. destruct (Z.eqb_spec (current_task s) 0) as [H0|_].
  { by destruct (sched_ok_current s l Hs). }
  destruct (Z.eqb_spec rip 0x12345); [done |]. fold (save_context rip rsp rbp s).
  assert (sched_ok (save_context rip rsp rbp s) l) as Hs1 by (by apply save_context_ok).
  rewrite (robin_diverges _ l (so_chain _ l Hs1)); [done | apply Hs |].
  intros b Hb. rewrite runnable_save_context. by apply Hall.
Qed.

(** Successive timer interrupts, each with the context it interrupts; a fault ends the run
    with [None]. *)
Fixpoint run_switches (fuel : nat) (ctxs : list (Z * Z * Z)) (s : sched) : option sched :=
  match ctxs with
  | [] => Some s
  | (rsp, rbp, rip) :: ctxs =>
      '(o, s) ← switch_task fuel rsp rbp rip s;
      if o is Fault then None else run_switches fuel ctxs s
  end.

(** The first runnable task of a list that has one. *)
Lemma first_runnable s (l : list Z) b :
  b ∈ l -> runnable s b ->
  exists pre a post, l = pre ++ a :: post /\ (forall c, c ∈ pre -> ~ runnable s c) /\ runnable s a.
Proof.
  induction l as [|c l IH]; [by intros ?%elem_of_nil |]. intros Hb Hrun.
  assert (Decision (runnable s c)) as [Hc|Hc].
  { unfold Decision. destruct (tasks s !! c) as [t|] eqn:E; [destruct (decide (status t = 0)) |].
    - left. by exists t.
    - right. intros (t' & ? & ?). simplify_eq.
    - right. intros (t' & ? & ?). simplify_eq. }
  - exists [], c, l. split_and!; [done | by intros ? ?%elem_of_nil | done].
  - apply elem_of_cons in Hb as [->|Hb]; [done |].
    destruct (IH Hb Hrun) as (pre & a & post & -> & Hpre & Ha).
    exists (c :: pre), a, post. split_and!; [done | | done].
    intros d [->|Hd]%elem_of_cons; auto.
Qed.

(** C25: no runnable task starves: among as many timer interrupts as there are
    tasks, one resumes it. *)
Theorem switch_task_fair (s : sched) (l : list Z) (b : Z) (fuel : nat) (ctxs : list (Z * Z * Z))
  (Hs : sched_ok s l) (Hb : b ∈ l) (Hrun : runnable s b) (Hfuel : (length l <= fuel)%nat)
  (Hctxs : length ctxs = length l) (Hrips : forall c, c ∈ ctxs -> c.2 <> 0x12345) :
  exists k s', (0 < k <= length l)%nat /\ run_switches fuel (take k ctxs) s = Some s' /\
    current_task s' = b /\ sched_ok s' l.
Proof.
  destruct (rotation_exists l (current_task s) (so_current s l Hs)) as (l' & Hrot).
  pose proof (rotation_length _ _ _ Hrot) as Hlen.
  apply (rotation_elem _ _ _ _ Hrot) in Hb as (pre & post & ->)%list_elem_of_split.
  enough (exists k s', (0 < k <= S (length pre))%nat /\
    run_switches fuel (take k ctxs) s = Some s' /\ current_task s' = b /\ sched_ok s' l)
    as (k & s' & Hk & H).
  { exists k, s'. rewrite length_app in Hlen. simpl in Hlen. split; [lia | done]. }
  assert (S (length pre) <= length ctxs)%nat as Hle.
  { rewrite length_app in Hlen. simpl in Hlen. lia. }
  assert (length pre < fuel)%nat as Hf by lia. clear Hlen Hctxs Hfuel.
  remember (length pre) as n eqn:Hn. revert s pre post ctxs Hn Hs Hrun Hrips Hrot Hle Hf.
  induction n as [n IH] using lt_wf_ind. intros s pre post ctxs -> Hs Hrun Hrips Hrot Hle Hf.
  destruct ctxs as [|[[rsp rbp] rip] ctxs]; [simpl in Hle; lia |].
  destruct (first_runnable s (pre ++ [b]) b) as (p1 & a & p2 & Hp & Hp1 & Ha); [| done |].
  { apply elem_of_app. right. apply list_elem_of_here. }
  assert (pre ++ b :: post = p1 ++ a :: (p2 ++ post)) as Hp'.
  { change (b :: post) with ([b] ++ post). rewrite app_assoc, Hp, <- app_assoc. done. }
  assert (length p1 <= length pre)%nat as Hlp.
  { apply (f_equal length) in Hp. rewrite !length_app in Hp. simpl in Hp. lia. }
  rewrite Hp' in Hrot.
  destruct (switch_task_run s l p1 (p2 ++ post) a fuel rsp rbp rip) as (t & s1 & Hsw & _ & Hcur & _ & Hts & _ & Hs1);
    [done | apply (Hrips (rsp, rbp, rip)), list_elem_of_here | done | done | done | lia |].
  destruct p2 as [|c p2' _] using rev_ind.
  - apply app_inj_tail in Hp as [<- <-]. exists 1%nat, s1. simpl. rewrite Hsw. simpl.
    split_and!; [lia | lia | done | done | done].
  - rewrite app_comm_cons, app_assoc in Hp. apply app_inj_tail in Hp as [-> <-].
    assert (runnable s1 b) as Hrun1.
    { rewrite runnable_status, Hts. rewrite runnable_status in Hrun.
      by rewrite <- Hrun, <- (lookup_save_context status rip rsp rbp s b). }
    assert (length (p1 ++ a :: p2') = S (length p1 + length p2')) as Hl
      by (rewrite length_app; simpl; lia).
    destruct (IH (length p2') ltac:(lia) s1 p2' (post ++ p1 ++ [a]) ctxs) as (k & s2 & Hk & Hrs & Hc2 & Hok2);
      [done | done | done | | | | lia |].
    + intros x Hx. apply Hrips. by apply list_elem_of_further.
    + rewrite Hcur. apply rotation_move in Hrot. rewrite <- !app_assoc in Hrot. done.
    + simpl in Hle. lia.
    + exists (S k), s2. simpl. rewrite Hsw. simpl. split_and!; [lia | lia | done | done | done].
Qed.

(** [add_task] on a struct that ends its list. *)
Lemma add_task_walk s l z a t :
  sched_ok s (l ++ [z]) -> a ∉ l ++ [z] -> tasks s !! a = Some t ->
  let ts := <[a := set_status 0 (set_pid (next_pid s) t)]> (tasks s) in
  chain ts (task_list s) (l ++ [z]) /\ (length l < S (size ts))%nat.
Proof.
  intros Hs Ha Ht. cbv zeta.
  assert (chain (<[a := set_status 0 (set_pid (next_pid s) t)]> (tasks s)) (task_list s) (l ++ [z])) as Hc.
  { eapply chain_ext; [| apply Hs]. intros b Hb.
    by rewrite lookup_insert_ne by (intros ->; done). }
  split; [done |].
  pose proof (chain_length _ _ _ Hc (so_nodup _ _ Hs)) as Hlen.
  rewrite length_app in Hlen. simpl in Hlen. lia.
Qed.

(** The walk to the end of the list and the new struct. *)
Lemma add_task_run (s : sched) (l : list Z) (a : Z) (t : task)
  (Hs : sched_ok s l) (Ha : a <> 0) (Hnew : a ∉ l)
  (Ht : tasks s !! a = Some t) (Hend : next t = 0)
  (Hpid : 0 <= next_pid s < 2 ^ 64 - 1) :
  exists s', add_task a s = Some s' /\ sched_ok s' (l ++ [a]) /\
    tasks s' !! a = Some (set_status 0 (set_pid (next_pid s) t)) /\
    (forall b u, b ∈ l -> tasks s !! b = Some u -> pid u <> next_pid s) /\
    next_pid s' = next_pid s + 1 /\ current_task s' = current_task s.
Proof.
  destruct l as [|z l _] using rev_ind.
  { destruct Hs as [_ _ H _ _]. by apply elem_of_nil in H. }
  destruct (add_task_walk s l z a t Hs Hnew Ht) as [Hc Hlen].
  set (t' := set_status 0 (set_pid (next_pid s) t)) in *.
  assert (forall b u, b ∈ l ++ [z] -> tasks s !! b = Some u -> pid u <> next_pid s) as Hfresh.
  { intros b u Hb Hu. pose proof (so_bound s _ Hs b u Hb Hu). lia. }
  assert (a <> z) as Haz by (intros ->; apply Hnew, elem_of_app; right; apply list_elem_of_here).
  unfold add_task. rewrite Ht. cbn [mbind option_bind].
  fold t'. cbn [tasks task_list upd_next_pid upd_tasks].
  rewrite (last_loop _ _ _ _ _ Hc) by (unfold list_fuel; simpl; lia). simpl.
  eexists. split; [done |].
  assert (uint64_t (next_pid s + 1) = next_pid s + 1) as Hw by (apply uint64_id; lia).
  assert (forall b, b ∈ (l ++ [z]) ++ [a] ->
    pid <$> (alter (set_next a) z (<[a := t']> (tasks s)) !! b) =
    (if decide (b = a) then Some (next_pid s) else pid <$> tasks s !! b)) as Hpids.
  { intros b _. destruct (decide (b = a)) as [->|].
    - by rewrite lookup_alter_ne, lookup_insert_eq by done.
    - rewrite lookup_alter. case_decide; [subst |]; rewrite lookup_insert_ne by done; [| done].
      by destruct (tasks s !! b). }
  split_and!; [split; simpl | | done | done | done].
  - eapply chain_snoc; [done | apply Hs | done | done | apply lookup_insert_eq | done].
  - apply NoDup_app. split_and!; [apply Hs | | apply NoDup_singleton].
    intros b Hb ->%list_elem_of_singleton. done.
  - apply elem_of_app. left. apply Hs.
  - rewrite fmap_app. simpl. apply NoDup_app. rewrite Hpids, decide_True;
      [| done | apply elem_of_app; right; apply list_elem_of_here].
    split_and!; [| | apply NoDup_singleton].
    + enough ((fun b => pid <$> alter (set_next a) z (<[a := t']> (tasks s)) !! b) <$> (l ++ [z]) =
        (fun b => pid <$> tasks s !! b) <$> (l ++ [z])) as -> by apply Hs.
      apply list_fmap_ext. intros i b Hb%list_elem_of_lookup_2.
      rewrite Hpids by (apply elem_of_app; by left). rewrite decide_False; [done |]. by intros ->.
    + intros o (b & -> & Hb)%list_elem_of_fmap Ho%list_elem_of_singleton.
      rewrite Hpids in Ho by (apply elem_of_app; by left).
      rewrite decide_False in Ho by (by intros ->).
      destruct (tasks s !! b) as [u|] eqn:Hu; [| done]. injection Ho as Ho.
      by apply (Hfresh b u).
  - intros b u Hb Hu. rewrite Hw. specialize (Hpids b Hb). rewrite Hu in Hpids.
    case_decide; [injection Hpids as ->; lia |].
    destruct (tasks s !! b) as [u'|] eqn:E; [| done]. injection Hpids as ->.
    apply elem_of_app in Hb as [Hb| ->%list_elem_of_singleton]; [| done].
    pose proof (so_bound s _ Hs b u' Hb E). lia.
  - simpl. rewrite lookup_alter_ne by done. apply lookup_insert_eq.
Qed.

(** [add_task] gives the new task the next process id, which no task of the
    list has, makes it runnable and appends it to the list. *)
Theorem add_task_spec (s : sched) (l : list Z) (a : Z) (t : task)
  (Hs : sched_ok s l) (Ha : a <> 0) (Hnew : a ∉ l)
  (Ht : tasks s !! a = Some t) (Hend : next t = 0)
  (Hpid : 0 <= next_pid s < 2 ^ 64 - 1) :
  exists s', add_task a s = Some s' /\ sched_ok s' (l ++ [a]) /\
    tasks s' !! a = Some (set_status 0 (set_pid (next_pid s) t)) /\
    (forall b u, b ∈ l -> tasks s !! b = Some u -> pid u <> next_pid s) /\
    next_pid s' = next_pid s + 1 /\ current_task s' = current_task s.
Proof. exact (add_task_run s l a t Hs Ha Hnew Ht Hend Hpid). Qed.

(** The structs after the loop of [change_task_status] ran through [l]. *)
Definition apply_status (p st : Z) (l : list Z) (ts : gmap Z task) : gmap Z task :=
  foldl (fun ts a => alter (fun t => if pid t =? p then set_status st t else t) a ts) ts l.

Lemma apply_status_lookup p st l ts b :
  NoDup l -> apply_status p st l ts !! b =
    if decide (b ∈ l) then (fun t => if pid t =? p then set_status st t else t) <$> ts !! b
    else ts !! b.
Proof.
  revert ts; induction l as [|a l IH]; intros ts Hnd.
  { rewrite decide_False; [done | apply not_elem_of_nil]. }
  apply NoDup_cons in Hnd as [Ha Hnd].
  change (apply_status p st (a :: l) ts) with
    (apply_status p st l (alter (fun t => if pid t =? p then set_status st t else t) a ts)).
  rewrite IH by done. rewrite lookup_alter.
  destruct (decide (a = b)) as [->|Hne].
  - rewrite decide_False by done. by rewrite decide_True by apply list_elem_of_here.
  - destruct (decide (b ∈ l)) as [Hb|Hb].
    + by rewrite decide_True by (by apply list_elem_of_further).
    + rewrite decide_False; [done |]. intros [->|]%elem_of_cons; done.
Qed.

Lemma status_loop p st l ts q fuel :
  chain ts q l -> NoDup l -> (length l < fuel)%nat ->
  iter_fuel fuel (status_step p st) (q, ts) = Some (Some (apply_status p st l ts)).
Proof.
  revert q ts fuel; induction l as [|a l IH]; intros q ts fuel Hc Hnd Hf;
    (destruct fuel as [|fuel]; [simpl in Hf; lia |]); simpl in Hc.
  - subst q. done.
  - destruct Hc as (-> & Ha & t & Ht & Hc). apply NoDup_cons in Hnd as [Hal Hnd].
    assert (alter (fun t => if pid t =? p then set_status st t else t) a ts
      = (if pid t =? p then <[a := set_status st t]> ts else ts)) as Halter.
    { apply map_eq. intros b. rewrite lookup_alter. destruct (decide (a = b)) as [->|].
      - rewrite Ht. simpl. case_match; [by rewrite lookup_insert_eq | done].
      - case_match; [by rewrite lookup_insert_ne | done]. }
    simpl. destruct (Z.eqb_spec a 0); [done |]. rewrite Ht, <- Halter.
    rewrite IH; [done | | done | simpl in Hf; lia].
    eapply chain_ext; [| done]. intros b Hb. rewrite lookup_alter_ne; [done |]. by intros ->.
Qed.

(** [change_task_status] ends, sets the status of the listed task with that
    process id, and changes nothing else. *)
Theorem change_task_status_spec (s : sched) (l : list Z) (p st : Z)
  (Hs : sched_ok s l) (Hst : 0 <= st < 256) :
  exists s', change_task_status p st s = Some s' /\ sched_ok s' l /\
    current_task s' = current_task s /\ next_pid s' = next_pid s /\
    forall a, tasks s' !! a =
      if decide (a ∈ l) then (fun t => if pid t =? p then set_status st t else t) <$> tasks s !! a
      else tasks s !! a.
Proof.
  unfold change_task_status.
  replace (uint8_t st) with st by (symmetry; by apply (uwrap_id 8)).
  pose proof (chain_length _ _ _ (so_chain s l Hs) (so_nodup s l Hs)).
  rewrite (status_loop p st l) by (apply Hs || (unfold list_fuel; lia)). simpl.
  eexists. split; [done |].
  assert (forall a, apply_status p st l (tasks s) !! a =
    if decide (a ∈ l) then (fun t => if pid t =? p then set_status st t else t) <$> tasks s !! a
    else tasks s !! a) as Hl by (intros; apply apply_status_lookup, Hs).
  split_and!; [| done | done | done].
  apply sched_ok_same; [done |]. intros a Ha. rewrite Hl, decide_True by done.
  destruct (tasks s !! a) as [t|]; [| done]. simpl. by case_match.
Qed.

(** * The scheduler as the keeper of statuses *)

Lemma chain_det ts p l1 l2 : chain ts p l1 -> chain ts p l2 -> l1 = l2.
Proof.
  revert p l2; induction l1 as [|a l1 IH]; intros p [|b l2]; simpl.
  - done.
  - intros -> (<- & ? & _). done.
  - intros (-> & ? & _) ?. done.
  - intros (-> & _ & t & Ht & Hc) (-> & _ & t' & Ht' & Hc'). simplify_eq.
    f_equal. by eapply IH.
Qed.

Lemma pids_inj s l a b t u :
  sched_ok s l -> a ∈ l -> b ∈ l -> tasks s !! a = Some t -> tasks s !! b = Some u ->
  pid t = pid u -> a = b.
Proof.
  intros Hs (i & Hi)%list_elem_of_lookup (j & Hj)%list_elem_of_lookup Ht Hu Heq.
  assert (i = j) as ->; [| congruence].
  eapply (NoDup_lookup _ _ _ (pid <$> tasks s !! a) (so_pids s l Hs)).
  - by rewrite list_lookup_fmap, Hi.
  - rewrite list_lookup_fmap, Hj. simpl. rewrite Ht, Hu. simpl. by rewrite Heq.
Qed.

(** The listed task with process id [p] has status [x]. *)
Definition task_status (s : sched) (p x : Z) : Prop :=
  exists l a t, sched_ok s l /\ a ∈ l /\ tasks s !! a = Some t /\ pid t = p /\ status t = x.

#[export] Instance sched_control : TaskControl sched.
Proof.
  refine {| tc_change := change_task_status; tc_ok := fun s => exists l, sched_ok s l;
            tc_status := task_status |}.
  - intros s p x y _ (l & a & t & Hl & Ha & Ht & Hp & <-) (l' & a' & t' & Hl' & Ha' & Ht' & Hp' & <-).
    assert (l' = l) as -> by (eapply chain_det; [apply Hl' | apply Hl]).
    assert (a = a') as -> by (eapply pids_inj; eauto; congruence). congruence.
  - intros p st s [l Hl] Hst.
    destruct (change_task_status_spec s l p st Hl Hst) as (s' & Hch & Hok & _ & _ & Hts).
    exists s'. split_and!; [done | by exists l | |].
    + intros x (l' & a & t & Hl' & Ha & Ht & Hp & _).
      assert (l' = l) as -> by (eapply chain_det; [apply Hl' | apply Hl]).
      exists l, a, (set_status st t). split_and!; [done | done | | done | done].
      rewrite Hts, decide_True, Ht by done. simpl. by rewrite Hp, Z.eqb_refl.
    + intros q x Hq (l' & a & t & Hl' & Ha & Ht & Hp & Hx).
      assert (l' = l) as -> by (eapply chain_det; [apply Hl' | apply Hl]).
      exists l, a, t. split_and!; [done | done | | done | done].
      rewrite Hts, decide_True, Ht by done. simpl.
      by destruct (Z.eqb_spec (pid t) p); [congruence |].
Defined.

(** * Concrete runs *)

(** Three tasks at 16, 80 and 144; the first runs, the second is blocked. *)
Definition demo_task (p st nx : Z) : task := Task p (1000 + p) (2000 + p) (3000 + p) 4096 st nx.
Definition demo_sched : sched :=
  Sched 16 16 3 (<[16 := demo_task 0 0 80]> (<[80 := demo_task 1 1 144]>
    (<[144 := demo_task 2 0 0]> (<[208 := demo_task 9 9 0]> ∅)))) true.

Lemma demo_sched_ok : sched_ok demo_sched [16; 80; 144].
Proof.
  split; simpl.
  - split_and!; [done | done |]. eexists; split; [reflexivity |].
    split_and!; [done | done |]. eexists; split; [reflexivity |].
    split_and!; [done | done |]. eexists; split; [reflexivity | done].
  - apply (bool_decide_unpack _). vm_compute. done.
  - apply list_elem_of_here.
  - apply (bool_decide_unpack _). vm_compute. done.
  - intros a t Ha. repeat (apply elem_of_cons in Ha as [->|Ha];
      [intros Ht; vm_compute in Ht; injection Ht as <-; simpl; lia |]).
    by apply elem_of_nil in Ha.
Qed.

Lemma switch_task_spec_witness :
  exists t s',
    switch_task 5 7 8 9 demo_sched = Some (Jump (t_rip t) (t_rsp t) (t_rbp t) (pml4 t), s') /\
    tasks s' !! 144 = Some t /\ current_task s' = 144 /\ interrupts s' = true /\
    tasks s' = alter (set_context 9 7 8) (current_task demo_sched) (tasks demo_sched) /\
    task_list s' = task_list demo_sched /\ sched_ok s' [16; 80; 144].
Proof.
  apply (switch_task_spec demo_sched [16; 80; 144] [80] [16] 144 5 7 8 9 demo_sched_ok).
  - lia.
  - exists [], [80; 144]. done.
  - intros b ->%list_elem_of_singleton (t & Ht & Hst). vm_compute in Ht. simplify_eq.
  - eexists. split; reflexivity.
  - simpl. lia.
Defined.

(** The same tasks, all blocked. *)
Definition demo_blocked : sched :=
  Sched 16 16 3 (<[16 := demo_task 0 1 80]> (<[80 := demo_task 1 2 0]> ∅)) true.

Lemma demo_blocked_ok : sched_ok demo_blocked [16; 80].
Proof.
  split; simpl.
  - split_and!; [done | done |]. eexists; split; [reflexivity |].
    split_and!; [done | done |]. eexists; split; [reflexivity | done].
  - apply (bool_decide_unpack _). vm_compute. done.
  - apply list_elem_of_here.
  - apply (bool_decide_unpack _). vm_compute. done.
  - intros a t Ha. repeat (apply elem_of_cons in Ha as [->|Ha];
      [intros Ht; vm_compute in Ht; injection Ht as <-; simpl; lia |]).
    by apply elem_of_nil in Ha.
Qed.

Lemma switch_task_all_blocked_witness : switch_task 1000 7 8 9 demo_blocked = None.
Proof.
  apply (switch_task_all_blocked demo_blocked [16; 80] 1000 7 8 9 demo_blocked_ok); [lia |].
  intros b Hb (t & Ht & Hst).
  repeat (apply elem_of_cons in Hb as [->|Hb]; [vm_compute in Ht; by simplify_eq |]).
  by apply elem_of_nil in Hb.
Defined.

Lemma switch_task_fair_witness :
  exists k s', (0 < k <= 3)%nat /\
    run_switches 3 (take k [(1, 2, 3); (4, 5, 6); (7, 8, 9)]) demo_sched = Some s' /\
    current_task s' = 144 /\ sched_ok s' [16; 80; 144].
Proof.
  apply (switch_task_fair demo_sched [16; 80; 144] 144 3 [(1, 2, 3); (4, 5, 6); (7, 8, 9)] demo_sched_ok).
  - by repeat (apply list_elem_of_here || apply list_elem_of_further).
  - eexists. split; reflexivity.
  - simpl. lia.
  - reflexivity.
  - intros c Hc. repeat (apply elem_of_cons in Hc as [->|Hc]; [simpl; lia |]).
    by apply elem_of_nil in Hc.
Defined.

Lemma add_task_spec_witness :
  exists s', add_task 208 demo_sched = Some s' /\ sched_ok s' ([16; 80; 144] ++ [208]) /\
    tasks s' !! 208 = Some (set_status 0 (set_pid (next_pid demo_sched) (demo_task 9 9 0))) /\
    (forall b u, b ∈ [16; 80; 144] -> tasks demo_sched !! b = Some u -> pid u <> next_pid demo_sched) /\
    next_pid s' = next_pid demo_sched + 1 /\ current_task s' = current_task demo_sched.
Proof.
  apply (add_task_spec demo_sched [16; 80; 144] 208 (demo_task 9 9 0) demo_sched_ok).
  - lia.
  - apply (bool_decide_unpack _). vm_compute. done.
  - reflexivity.
  - reflexivity.
  - simpl. lia.
Defined.

Lemma change_task_status_spec_witness :
  exists s', change_task_status 2 1 demo_sched = Some s' /\ sched_ok s' [16; 80; 144] /\
    current_task s' = current_task demo_sched /\ next_pid s' = next_pid demo_sched /\
    forall a, tasks s' !! a =
      if decide (a ∈ [16; 80; 144])
      then (fun t => if pid t =? 2 then set_status 1 t else t) <$> tasks demo_sched !! a
      else tasks demo_sched !! a.
Proof. apply (change_task_status_spec demo_sched [16; 80; 144] 2 1 demo_sched_ok). lia. Defined.
