(* ===== verification/Locking.v ===== *)
(** The blocking locks (kernel/b_locking.c, kernel/spin_lock.asm): the queue of
    waiting processes behind each lock, and the critical sections of [lock] and
    [unlock] that the spin lock [master_lock] protects. The heap and the
    scheduler come through their interfaces. *)

From stdpp Require Export functions.
From S2P Require Import Prelude Words Allocator TaskControl.
#[local] Open Scope Z_scope.

(** * State *)

Definition LOCKING_MAX : Z := 0x10.
Definition sizeof_lock : Z := 16.

(** [struct lock]: a process waiting for a lock or holding it. *)
Record lock_node := LockNode { l_pid : Z; l_next : Z }.

(** [struct lock_queue]. *)
Record lock_queue := LockQueue { head : Z; tail : Z }.

(** The static variables of b_locking.c, and the [struct lock]s by address. An
    entry of [locks] that was never written is zero. *)
Record lockstate := Lockstate {
  locks : gmap Z lock_queue;
  nodes : gmap Z lock_node;
  master_lock : Z;
  next_lockid : Z
}.

Definition queue_of (s : lockstate) (lockid : Z) : lock_queue :=
  default (LockQueue 0 0) (locks s !! lockid).

Definition set_queue (lockid : Z) (q : lock_queue) (s : lockstate) : lockstate :=
  Lockstate (<[lockid := q]> (locks s)) (nodes s) (master_lock s) (next_lockid s).
Definition upd_nodes (f : gmap Z lock_node -> gmap Z lock_node) (s : lockstate) : lockstate :=
  Lockstate (locks s) (f (nodes s)) (master_lock s) (next_lockid s).
Definition set_master (v : Z) (s : lockstate) : lockstate :=
  Lockstate (locks s) (nodes s) v (next_lockid s).

(** * Operations *)

Definition in_range (lockid : Z) : bool := (0 <=? lockid) && (lockid <? LOCKING_MAX).

(** [register_lock] does not check [LOCKING_MAX]; past it the store goes outside
    the array: [None]. *)
Definition register_lock (s : lockstate) : option (Z * lockstate) :=
  if in_range (next_lockid s) then
    let s' := set_queue (next_lockid s) (LockQueue 0 0) s in
    Some (next_lockid s,
          Lockstate (locks s') (nodes s') (master_lock s') (next_lockid s + 1)%word)
  else None.

(** One exchange of [spin_lock]: whether it leaves the loop. *)
Definition spin_try (s : lockstate) : bool * lockstate := (master_lock s =? 0, set_master 1 s).

Inductive lock_result :=
  | Acquired
  | Enqueued.

Section operations.
Context {H T : Type} `{Allocator H} `{TaskControl T}.

(** [lock] from the first [spin_lock] to the [master_lock = 0] that ends it;
    [me] is [get_current_pid()]. *)
Definition lock_body (lockid me : Z) (h : H) (s : lockstate) : option (lock_result * H * lockstate) :=
  if negb (in_range lockid) then None
  else
    let q := queue_of s lockid in
    if head q =? 0 then
      '(lck, h) ← kmalloc sizeof_lock h;
      Some (Acquired, h,
            set_master 0 (set_queue lockid (LockQueue lck lck)
              (upd_nodes <[lck := LockNode me 0]> s)))
    else
      hd ← nodes s !! head q;
      if l_pid hd =? me then Some (Acquired, h, set_master 0 s)
      else
        '(lck, h) ← kmalloc sizeof_lock h;
        let s := upd_nodes <[lck := LockNode me 0]> s in
        tl ← nodes s !! tail q;
        Some (Enqueued, h,
              set_master 0 (set_queue lockid (LockQueue (head q) lck)
                (upd_nodes <[tail q := LockNode (l_pid tl) lck]> s))).

(** One round of the waiting loop between [spin_lock] and [master_lock = 0]:
    whether it is our time. *)
Definition wait_body (lockid me : Z) (s : lockstate) : option (bool * lockstate) :=
  if negb (in_range lockid) then None
  else
    hd ← nodes s !! head (queue_of s lockid);
    Some (l_pid hd =? me, set_master 0 s).

Definition get_lock_owner (lockid : Z) (s : lockstate) : option Z :=
  if in_range lockid then l_pid <$> nodes s !! head (queue_of s lockid) else None.

(** [kfree] of a [struct lock]. A node that is freed leaves [nodes], so that
    reading it afterwards is a fault. *)
Definition free_node (a : Z) (h : H) (s : lockstate) : H * lockstate :=
  (kfree a h, upd_nodes (delete a) s).

(** [unlock] from [spin_lock] to [master_lock = 0], and the pointer that it frees
    after that: [Some] in the first two branches, which call [kfree] when the spin
    lock is open again, [None] in the third, which calls it before. *)
Definition unlock_body (lockid me : Z) (h : H) (t : T) (s : lockstate) :
    option (option Z * H * T * lockstate) :=
  if negb (in_range lockid) then None
  else
    let q := queue_of s lockid in
    let tmp := head q in
    if tmp =? 0 then Some (Some tmp, h, t, set_master 0 s)
    else if head q =? tail q then
      Some (Some tmp, h, t, set_master 0 (set_queue lockid (LockQueue 0 0) s))
    else
      hd ← nodes s !! tmp;
      let '(h, s) :=
        if l_pid hd =? me
        then free_node tmp h (set_queue lockid (LockQueue (l_next hd) (tail q)) s)
        else (h, s) in
      nd ← nodes s !! head (queue_of s lockid);
      t ← tc_change (l_pid nd) 0 t;
      Some (None, h, t, set_master 0 s).
End operations.

(** * The queues *)

(** From the pointer [p], the nodes hold the given addresses and processes. *)
Fixpoint qchain (ns : gmap Z lock_node) (p : Z) (l : list (Z * Z)) : Prop :=
  match l with
  | [] => p = 0
  | (a, x) :: l =>
      p = a /\ a <> 0 /\ exists n, ns !! a = Some n /\ l_pid n = x /\ qchain ns (l_next n) l
  end.

Definition queue_at (s : lockstate) (lockid : Z) (l : list (Z * Z)) : Prop :=
  qchain (nodes s) (head (queue_of s lockid)) l /\
  tail (queue_of s lockid) = default 0 (last l.*1) /\ NoDup l.*1.

(** All queues at once: [Q] gives each lock its nodes and their processes. *)
Record locks_ok {H} `{Allocator H} (h : H) (s : lockstate) (Q : Z -> list (Z * Z)) : Prop := {
  lo_heap : heap_ok h;
  lo_queue : forall i, in_range i = true -> queue_at s i (Q i);
  lo_live : forall i a, in_range i = true -> a ∈ (Q i).*1 -> a ∈ live h;
  lo_disjoint : forall i j a, in_range i = true -> in_range j = true ->
    a ∈ (Q i).*1 -> a ∈ (Q j).*1 -> i = j
}.

(** What [lock] does to the queue of its lock, and whether the caller has it. *)
Definition spec_lock (me node : Z) (l : list (Z * Z)) : lock_result * list (Z * Z) :=
  match l with
  | [] => (Acquired, [(node, me)])
  | (_, x) :: _ => if x =? me then (Acquired, l) else (Enqueued, l ++ [(node, me)])
  end.

(** A node that is allocated and in no queue any more. *)
Definition detached {H} `{Allocator H} (h : H) (Q : Z -> list (Z * Z)) (a : Z) : Prop :=
  a ∈ live h /\ forall i, in_range i = true -> a ∉ (Q i).*1.

(** What [unlock] does to the queue, and the process it wakes. *)
Definition spec_unlock (me : Z) (l : list (Z * Z)) : option Z * list (Z * Z) :=
  match l with
  | [] => (None, [])
  | [_] => (None, [])
  | (a, x) :: (b, y) :: l' => if x =? me then (Some y, (b, y) :: l') else (Some x, l)
  end.

(** The pointer [unlock] frees after it has opened the spin lock. *)
Definition spec_pending (l : list (Z * Z)) : option Z :=
  match l with
  | [] => Some 0
  | [(a, _)] => Some a
  | _ => None
  end.

Section qchain.
Implicit Types (ns : gmap Z lock_node) (l : list (Z * Z)).

Lemma qchain_ext ns ns' p l :
  (forall a, a ∈ l.*1 -> ns' !! a = ns !! a) -> qchain ns p l -> qchain ns' p l.
Proof.
  revert p; induction l as [|[a x] l IH]; intros p Hext; simpl; [done |].
  intros (-> & ? & n & Hn & ? & Hc). split_and!; [done | done |]. exists n.
  rewrite Hext by apply list_elem_of_here. split_and!; [done | done |].
  apply IH; [| done]. intros b Hb. apply Hext. by apply list_elem_of_further.
Qed.

Lemma qchain_elem ns p l a : qchain ns p l -> a ∈ l.*1 -> a <> 0 /\ is_Some (ns !! a).
Proof.
  revert p; induction l as [|[b x] l IH]; intros p; simpl; [by intros _ ?%elem_of_nil |].
  intros (-> & ? & n & Hn & ? & Hc) [->|Ha]%elem_of_cons; [eauto | by eapply IH].
Qed.

(** A node linked behind the last one. *)
Lemma qchain_snoc ns p l z x n a me :
  qchain ns p (l ++ [(z, x)]) -> NoDup (l ++ [(z, x)]).*1 ->
  a <> 0 -> a ∉ (l ++ [(z, x)]).*1 -> ns !! z = Some n ->
  qchain (<[z := LockNode (l_pid n) a]> (<[a := LockNode me 0]> ns)) p ((l ++ [(z, x)]) ++ [(a, me)]).
Proof.
  revert p; induction l as [|[b y] l IH]; intros p Hc Hnd Ha Hin Hz; simpl in *.
  - destruct Hc as (-> & ? & n' & Hn' & <- & _). simplify_eq. split_and!; [done | done |].
    eexists. rewrite lookup_insert_eq. split_and!; [done | done | done | done |].
    exists (LockNode me 0). rewrite lookup_insert_ne by (intros ->; apply Hin, list_elem_of_here).
    by rewrite lookup_insert_eq.
  - destruct Hc as (-> & ? & m & Hm & <- & Hc). apply NoDup_cons in Hnd as [Hb Hnd].
    apply not_elem_of_cons in Hin as [Hab Hin].
    split_and!; [done | done |]. exists m.
    assert (z <> b).
    { intros ->. apply Hb. rewrite fmap_app. apply elem_of_app. right. apply list_elem_of_here. }
    rewrite !lookup_insert_ne by congruence. split_and!; [done | done |]. by apply IH.
Qed.
End qchain.

Section locks.
Context {H T : Type} `{Allocator H} `{TaskControl T}.
Implicit Types (h : H) (s : lockstate) (Q : Z -> list (Z * Z)).

Lemma queue_of_set s i q j :
  queue_of (set_queue i q s) j = if decide (i = j) then q else queue_of s j.
Proof. unfold queue_of. simpl. rewrite lookup_insert. by case_decide. Qed.

(** A step on lock [i] that leaves the other queues' nodes alone. *)
Lemma locks_ok_step h h' s s' Q i l :
  locks_ok h s Q -> in_range i = true -> heap_ok h' ->
  queue_at s' i l ->
  (forall j, j <> i -> queue_of s' j = queue_of s j) ->
  (forall j a, j <> i -> in_range j = true -> a ∈ (Q j).*1 -> nodes s' !! a = nodes s !! a) ->
  (forall a, a ∈ l.*1 -> a ∈ live h' /\ (a ∈ (Q i).*1 \/ a ∉ live h)) ->
  (forall j a, j <> i -> in_range j = true -> a ∈ (Q j).*1 -> a ∈ live h') ->
  locks_ok h' s' (<[i := l]> Q).
Proof.
  intros Hs Hi Hh Hq Hqo Hns Hl Hlive. split.
  - done.
  - intros j Hj. destruct (decide (j = i)) as [->|Hne]; [by rewrite fn_lookup_insert |].
    rewrite fn_lookup_insert_ne by done. destruct (lo_queue _ _ _ Hs j Hj) as (Hc & Ht & Hnd).
    unfold queue_at. rewrite Hqo by done. split_and!; [| done | done].
    eapply qchain_ext; [| done]. intros a Ha. by apply (Hns j).
  - intros j a Hj. destruct (decide (j = i)) as [->|Hne].
    + rewrite fn_lookup_insert. intros Ha. by apply Hl.
    + rewrite fn_lookup_insert_ne by done. by apply Hlive.
  - assert (forall j a, j <> i -> in_range j = true -> a ∈ l.*1 -> a ∈ (Q j).*1 -> False) as Hx.
    { intros j a Hne Hj Ha Haj. destruct (Hl a Ha) as [_ [Hai|Hn]].
      - apply Hne. by apply (lo_disjoint _ _ _ Hs j i a).
      - apply Hn. by apply (lo_live _ _ _ Hs j a). }
    intros j k a Hj Hk. destruct (decide (j = i)) as [->|], (decide (k = i)) as [->|];
      rewrite ?fn_lookup_insert, ?fn_lookup_insert_ne by done; intros Ha Hb.
    + done.
    + exfalso. by eapply (Hx k).
    + exfalso. by eapply (Hx j).
    + by apply (lo_disjoint _ _ _ Hs j k a).
Qed.

Lemma locks_ok_master h s Q v : locks_ok h s Q -> locks_ok h (set_master v s) Q.
Proof. intros []. by split. Qed.

Lemma locks_ok_same h s Q i : locks_ok h s Q -> locks_ok h s (<[i := Q i]> Q).
Proof.
  assert (forall j, <[i := Q i]> Q j = Q j) as E.
  { intros j. destruct (decide (i = j)) as [<-|]; [apply fn_lookup_insert | by apply fn_lookup_insert_ne]. }
  intros [Hh Hq Hl Hd]. split; [done | | |].
  - intros j Hj. rewrite E. by apply Hq.
  - intros j a. rewrite E. apply Hl.
  - intros j k a. rewrite !E. apply Hd.
Qed.

Lemma last_fst (l : list (Z * Z)) z x : default 0 (last (l ++ [(z, x)]).*1) = z.
Proof. rewrite fmap_app. cbn [fmap list_fmap fst]. by rewrite last_snoc. Qed.

Lemma elem_last_fst (l : list (Z * Z)) z x : z ∈ (l ++ [(z, x)]).*1.
Proof. rewrite fmap_app. apply elem_of_app. right. apply list_elem_of_here. Qed.

Section alloc.
Context (h h1 : H) (s : lockstate) (Q : Z -> list (Z * Z)) (lockid me p : Z).
Context (Hok : locks_ok h s Q) (Hid : in_range lockid = true).
Context (Halloc : kmalloc sizeof_lock h = Some (p, h1)).

Lemma alloc_facts : heap_ok h1 /\ p <> 0 /\ (p ∉ live h) /\ live h1 = {[p]} ∪ live h.
Proof.
  destruct (kmalloc_spec sizeof_lock h p h1 (lo_heap _ _ _ Hok) (eq_refl : 0 < sizeof_lock) Halloc)
    as (? & ? & ? & ?). split_and!; [done | lia | done | done].
Qed.

Lemma alloc_fresh j a : in_range j = true -> a ∈ (Q j).*1 -> a <> p /\ a ∈ live h1.
Proof.
  intros Hj Ha. destruct alloc_facts as (_ & _ & Hp & Hl).
  pose proof (lo_live _ _ _ Hok j a Hj Ha). split; [congruence |].
  rewrite Hl. by apply elem_of_union_r.
Qed.

Lemma lock_free_ok :
  Q lockid = [] ->
  locks_ok h1 (set_queue lockid (LockQueue p p) (upd_nodes <[p := LockNode me 0]> s))
    (<[lockid := [(p, me)]]> Q).
Proof.
  intros HQ. destruct alloc_facts as (Hh & Hp & Hfresh & Hl).
  eapply (locks_ok_step h h1 s); [done | done | done | | | | |].
  - unfold queue_at. rewrite queue_of_set, decide_True by done. simpl.
    split_and!; [done | lia | | done | apply NoDup_singleton].
    exists (LockNode me 0). by rewrite lookup_insert_eq.
  - intros j Hj. rewrite queue_of_set, decide_False; [done | congruence].
  - intros j b Hj Hr Hb. simpl. rewrite lookup_insert_ne; [done |].
    intros <-. by apply (alloc_fresh j p Hr Hb).
  - intros b ->%list_elem_of_singleton. split; [rewrite Hl; by apply elem_of_union_l, elem_of_singleton | by right].
  - intros j b _ Hr Hb. by apply (alloc_fresh j b).
Qed.

Lemma lock_enqueue_ok l z x n :
  Q lockid = l ++ [(z, x)] -> nodes s !! z = Some n ->
  locks_ok h1
    (set_queue lockid (LockQueue (head (queue_of s lockid)) p)
      (upd_nodes <[z := LockNode (l_pid n) p]> (upd_nodes <[p := LockNode me 0]> s)))
    (<[lockid := Q lockid ++ [(p, me)]]> Q).
Proof.
  intros HQ Hn. destruct alloc_facts as (Hh & Hp & Hfresh & Hl).
  destruct (lo_queue _ _ _ Hok lockid Hid) as (Hc & Ht & Hnd).
  assert (z ∈ (Q lockid).*1) as Hz by (rewrite HQ; apply elem_last_fst).
  assert (p ∉ (Q lockid).*1) as Hpn by (intros Hin; by apply (alloc_fresh lockid p Hid Hin)).
  eapply (locks_ok_step h h1 s); [done | done | done | | | | |].
  - unfold queue_at. rewrite queue_of_set, decide_True by done.
    cbn [head tail nodes set_queue upd_nodes]. rewrite last_fst. split_and!; [| done |].
    + rewrite HQ in *. by apply (qchain_snoc _ _ _ _ x).
    + rewrite fmap_app. apply NoDup_app. split_and!; [done | | apply NoDup_singleton].
      intros b Hb ->%list_elem_of_singleton. done.
  - intros j Hj. rewrite queue_of_set, decide_False; [done | congruence].
  - intros j b Hj Hr Hb. simpl. rewrite !lookup_insert_ne; [done | |].
    + intros <-. by apply (alloc_fresh j p Hr Hb).
    + intros <-. apply Hj. by apply (lo_disjoint _ _ _ Hok j lockid z).
  - intros b. rewrite fmap_app. intros [Hb | ->%list_elem_of_singleton]%elem_of_app.
    + split; [by apply (alloc_fresh lockid) | by left].
    + split; [rewrite Hl; by apply elem_of_union_l, elem_of_singleton | by right].
  - intros j b _ Hr Hb. by apply (alloc_fresh j b).
Qed.
End alloc.

Lemma lock_body_run (lockid me p : Z) (h h1 : H) (s : lockstate) (Q : Z -> list (Z * Z))
  (Hok : locks_ok h s Q) (Hid : in_range lockid = true)
  (Halloc : kmalloc sizeof_lock h = Some (p, h1)) :
  exists h' s',
    lock_body lockid me h s = Some ((spec_lock me p (Q lockid)).1, h', s') /\
    locks_ok h' s' (<[lockid := (spec_lock me p (Q lockid)).2]> Q) /\ master_lock s' = 0 /\
    (h' = h /\ (spec_lock me p (Q lockid)).2 = Q lockid \/ h' = h1).
Proof.
  destruct (lo_queue _ _ _ Hok lockid Hid) as (Hc & Ht & Hnd).
  unfold lock_body. rewrite Hid. simpl.
  destruct (Q lockid) as [|[a x] l] eqn:HQ; simpl in Hc.
  - rewrite Hc. simpl. rewrite Halloc. simpl. eexists _, _. split_and!; [done | | done | by right].
    apply locks_ok_master. by eapply lock_free_ok.
  - destruct Hc as (Hhd & Ha & n & Hn & Hx & Hc). rewrite Hhd.
    destruct (Z.eqb_spec a 0); [done |]. rewrite Hn. simpl. rewrite Hx.
    destruct (Z.eqb_spec x me) as [->|Hne].
    + eexists _, _. split_and!; [done | | done | by left]. simpl. rewrite <- HQ.
      by apply locks_ok_master, locks_ok_same.
    + rewrite Halloc. cbn [mbind option_bind]. simpl in Ht.
      destruct (exists_last (l := (a, x) :: l)) as (l0 & [z y] & El); [done |].
      change (tail (queue_of s lockid) = default 0 (last ((a, x) :: l).*1)) in Ht.
      rewrite El, last_fst in Ht. rewrite Ht.
      assert (z ∈ (Q lockid).*1) as Hz by (rewrite HQ, El; apply elem_last_fst).
      destruct (alloc_fresh h h1 s Q p Hok Halloc lockid z Hid Hz) as [Hzp _].
      destruct (lo_queue _ _ _ Hok lockid Hid) as (Hc0 & _).
      destruct (qchain_elem _ _ _ z Hc0 Hz) as (_ & nz & Hnz).
      cbn [nodes upd_nodes]. rewrite lookup_insert_ne, Hnz by congruence. simpl.
      eexists _, _. split_and!; [done | | done | by right]. apply locks_ok_master.
      pose proof (lock_enqueue_ok h h1 s Q lockid me p Hok Hid Halloc l0 z y nz) as G.
      rewrite Hhd, HQ in G. by apply G.
Qed.

(** The head of a queue leaves it; its node stays allocated. *)
Lemma locks_unlink h s Q lockid a x l :
  locks_ok h s Q -> in_range lockid = true -> Q lockid = (a, x) :: l ->
  exists n, nodes s !! a = Some n /\ l_pid n = x /\
    locks_ok h (set_queue lockid (LockQueue (l_next n) (default 0 (last l.*1))) s)
      (<[lockid := l]> Q) /\
    detached h (<[lockid := l]> Q) a.
Proof.
  intros Hok Hid HQ. destruct (lo_queue _ _ _ Hok lockid Hid) as (Hc & Ht & Hnd).
  rewrite HQ in Hc, Ht, Hnd. destruct Hc as (Hhd & Ha & n & Hn & Hx & Hc).
  apply NoDup_cons in Hnd as [Hal Hnd]. exists n. split_and!; [done | done | |].
  - assert (forall b, b ∈ l.*1 -> b ∈ (Q lockid).*1) as Hsub
      by (intros b Hb; rewrite HQ; by apply list_elem_of_further).
    eapply (locks_ok_step h h s); [done | done | apply Hok | | | | |].
    + unfold queue_at. rewrite queue_of_set, decide_True by done. by split_and!.
    + intros j Hj. rewrite queue_of_set, decide_False; [done | congruence].
    + done.
    + intros b Hb. split; [apply (lo_live _ _ _ Hok lockid) | left]; auto.
    + intros j b _. apply Hok.
  - assert (a ∈ (Q lockid).*1) as HaQ by (rewrite HQ; apply list_elem_of_here).
    split; [by apply (lo_live _ _ _ Hok lockid) |]. intros i Hi.
    destruct (decide (i = lockid)) as [->|Hne]; [by rewrite fn_lookup_insert |].
    rewrite fn_lookup_insert_ne by done. intros Hb. apply Hne.
    by apply (lo_disjoint _ _ _ Hok i lockid a).
Qed.

(** A node that is in no queue goes back to the heap. *)
Lemma locks_free h s Q a :
  locks_ok h s Q -> detached h Q a ->
  locks_ok (free_node a h s).1 (free_node a h s).2 Q /\
  forall b, b <> a -> detached h Q b -> detached (free_node a h s).1 Q b.
Proof.
  intros Hok [Ha Hout]. destruct (kfree_spec a h (lo_heap _ _ _ Hok) Ha) as [Hh Hl].
  assert (forall b, b <> a -> b ∈ live h -> b ∈ live (kfree a h)) as Hlive.
  { intros b Hne Hb. rewrite Hl. apply elem_of_difference. by rewrite elem_of_singleton. }
  assert (forall i b, in_range i = true -> b ∈ (Q i).*1 -> b <> a) as Hne.
  { intros i b Hi Hb ->. by apply (Hout i). }
  split; [split; simpl; [done | | |] |].
  - intros i Hi. destruct (lo_queue _ _ _ Hok i Hi) as (Hc & Ht & Hnd).
    split_and!; [| done | done]. eapply qchain_ext; [| done].
    intros b Hb. apply lookup_delete_ne. intros <-. by apply (Hne i a).
  - intros i b Hi Hb. apply Hlive; [by apply (Hne i) | by apply (lo_live _ _ _ Hok i)].
  - apply Hok.
  - intros b Hb [Hbl Hbo]. split; [by apply Hlive | done].
Qed.

(** [kfree(0)] does nothing. *)
Lemma locks_free_null h s Q b :
  locks_ok h s Q ->
  locks_ok (free_node 0 h s).1 (free_node 0 h s).2 Q /\
  (detached h Q b -> detached (free_node 0 h s).1 Q b).
Proof.
  intros Hok. unfold free_node. simpl. rewrite kfree_null by apply Hok. split; [| done].
  split; simpl; [apply Hok | | apply Hok | apply Hok].
  intros i Hi. destruct (lo_queue _ _ _ Hok i Hi) as (Hc & Ht & Hnd).
  split_and!; [| done | done]. eapply qchain_ext; [| done].
  intros a Ha. apply lookup_delete_ne. intros <-. by destruct (qchain_elem _ _ _ 0 Hc Ha).
Qed.

Lemma detached_sub h Q lockid l a :
  (forall b, b ∈ l.*1 -> b ∈ (Q lockid).*1) -> in_range lockid = true ->
  detached h Q a -> detached h (<[lockid := l]> Q) a.
Proof.
  intros Hsub Hid [Ha Hout]. split; [done |]. intros i Hi.
  destruct (decide (i = lockid)) as [->|Hne];
    [rewrite fn_lookup_insert | rewrite fn_lookup_insert_ne by done; by apply Hout].
  intros Hb%Hsub. by apply (Hout lockid).
Qed.

(** Two pointers of a queue are equal exactly when it has one element. *)
Lemma queue_single s i a x b y l :
  queue_at s i ((a, x) :: (b, y) :: l) -> head (queue_of s i) <> tail (queue_of s i).
Proof.
  intros (Hc & Ht & Hnd). destruct Hc as (-> & _). rewrite Ht. intros E.
  apply NoDup_cons in Hnd as [Ha _]. apply Ha.
  destruct (last ((b, y) :: l).*1) as [z|] eqn:El; [| by apply last_None in El].
  rewrite fmap_cons, last_cons, El in E. simpl in E. subst. by apply last_Some_elem_of.
Qed.

(** What holds after the critical section of [unlock]: the queue, the pointer that
    is still to be freed, the statuses, and the nodes of other processes that are
    still to be freed. *)
Definition unlocked (lockid me : Z) h (t : T) Q (out : option Z) h' (t' : T) (s' : lockstate) : Prop :=
  let Q' := <[lockid := (spec_unlock me (Q lockid)).2]> Q in
  locks_ok h' s' Q' /\ master_lock s' = 0 /\ tc_ok t' /\
  out = spec_pending (Q lockid) /\
  (forall a, out = Some a -> h' = h /\ (a <> 0 -> detached h' Q' a)) /\
  (forall a, detached h Q a -> detached h' Q' a) /\
  match (spec_unlock me (Q lockid)).1 with
  | None => t' = t
  | Some y =>
      (forall st, tc_status t y st -> tc_status t' y 0) /\
      (forall q st, q <> y -> tc_status t q st -> tc_status t' q st)
  end.

Section unlock.
Context (lockid me : Z) (h : H) (t : T) (s : lockstate) (Q : Z -> list (Z * Z)).
Context (Hok : locks_ok h s Q) (Hid : in_range lockid = true) (Htc : tc_ok t).

Lemma unlock_one a x :
  Q lockid = [(a, x)] ->
  exists s', unlock_body lockid me h t s = Some (Some a, h, t, s') /\
    unlocked lockid me h t Q (Some a) h t s'.
Proof.
  intros HQ. destruct (lo_queue _ _ _ Hok lockid Hid) as (Hc & Ht & _).
  rewrite HQ in Hc, Ht. destruct Hc as (Hhd & Ha & n & Hn & _ & Hnx). simpl in Ht, Hnx.
  destruct (locks_unlink h s Q lockid a x [] Hok Hid HQ) as (n' & Hn' & _ & Hpop & Hdet).
  rewrite Hn in Hn'. injection Hn' as <-. simpl in Hpop. rewrite Hnx in Hpop.
  unfold unlock_body. rewrite Hid. cbv zeta. rewrite Ht, Hhd. cbn [negb].
  destruct (Z.eqb_spec a 0); [done |]. rewrite Z.eqb_refl.
  eexists. split; [done |]. unfold unlocked. rewrite HQ. cbn [spec_unlock spec_pending fst snd].
  split_and!; try done.
  - by apply locks_ok_master.
  - intros b [= <-]. done.
  - intros b. apply detached_sub; [| done]. intros c. by rewrite HQ, elem_of_nil.
Qed.

Lemma unlock_many a x b y l :
  Q lockid = (a, x) :: (b, y) :: l ->
  exists h' t' s', unlock_body lockid me h t s = Some (None, h', t', s') /\
    unlocked lockid me h t Q None h' t' s'.
Proof.
  intros HQ. pose proof (lo_queue _ _ _ Hok lockid Hid) as Hq. rewrite HQ in Hq.
  pose proof Hq as ((Hhd & Ha & _) & Ht & _).
  destruct (locks_unlink h s Q lockid a x _ Hok Hid HQ) as (n & Hn & Hx & Hpop & Hdet).
  pose proof (queue_single _ _ _ _ _ _ _ Hq) as Hne. rewrite Hhd in Hne.
  unfold unlock_body, unlocked. rewrite Hid, Hhd, HQ. cbn [negb].
  destruct (Z.eqb_spec a 0); [done |].
  destruct (Z.eqb_spec a (tail (queue_of s lockid))); [done |].
  rewrite Hn. cbn [mbind option_bind spec_unlock spec_pending]. rewrite Hx.
  destruct (Z.eqb_spec x me) as [->|Hxme].
  - destruct (locks_free _ _ _ a Hpop Hdet) as [Hfree Hothers].
    pose proof (lo_queue _ _ _ Hfree lockid Hid) as Hq'. rewrite fn_lookup_insert in Hq'.
    destruct Hq' as ((Hhd' & _ & m & Hm & Hy & _) & _).
    assert (default 0 (last ((b, y) :: l).*1) = tail (queue_of s lockid)) as Etl by (by rewrite Ht).
    rewrite Etl in *. unfold free_node in *. simpl fst in *. simpl snd in *. rewrite Hhd', Hm. cbn [mbind option_bind].
    rewrite Hy. destruct (tc_change_spec y 0 t Htc ltac:(lia)) as (t' & -> & Htc' & Hst & Hoth).
    cbn [mbind option_bind fst snd]. eexists _, _, _. split_and!; try done.
    + by apply locks_ok_master.
    + intros c Hc. apply Hothers.
      * intros ->. apply (proj2 Hc lockid Hid). rewrite HQ. apply list_elem_of_here.
      * apply detached_sub; [| done | done]. intros d. rewrite HQ. apply list_elem_of_further.
  - rewrite Hhd, Hn. cbn [mbind option_bind]. rewrite Hx.
    destruct (tc_change_spec x 0 t Htc ltac:(lia)) as (t' & -> & Htc' & Hst & Hoth).
    cbn [mbind option_bind fst snd]. eexists _, _, _. split_and!; try done.
    + rewrite <- HQ. by apply locks_ok_master, locks_ok_same.
    + intros c. apply detached_sub; [| done]. intros d. by rewrite HQ.
Qed.

Lemma unlock_body_run :
  exists out h' t' s',
    unlock_body lockid me h t s = Some (out, h', t', s') /\
    unlocked lockid me h t Q out h' t' s'.
Proof.
  destruct (Q lockid) as [|[a x] [|[b y] l]] eqn:HQ.
  - destruct (lo_queue _ _ _ Hok lockid Hid) as (Hc & _). rewrite HQ in Hc. simpl in Hc.
    unfold unlock_body. rewrite Hid, Hc. simpl. eexists _, _, _, _. split; [done |].
    unfold unlocked. rewrite HQ. simpl. rewrite <- HQ. split_and!; try done.
    + by apply locks_ok_master, locks_ok_same.
    + by intros a [= <-].
    + intros a. by apply detached_sub.
  - destruct (unlock_one a x HQ) as (s' & ? & ?). by eexists _, _, _, _.
  - destruct (unlock_many a x b y l HQ) as (h' & t' & s' & ? & ?). by eexists _, _, _, _.
Qed.
End unlock.

(** A new node is none of those that are still to be freed. *)
Lemma detached_alloc h h1 s Q lockid p me a :
  locks_ok h s Q -> kmalloc sizeof_lock h = Some (p, h1) -> in_range lockid = true ->
  detached h Q a -> detached h1 (<[lockid := (spec_lock me p (Q lockid)).2]> Q) a.
Proof.
  intros Hok Halloc Hid [Ha Hout]. destruct (alloc_facts h h1 s Q p Hok Halloc) as (_ & _ & Hp & Hl).
  split; [rewrite Hl; by apply elem_of_union_r |]. intros i Hi.
  destruct (decide (i = lockid)) as [->|Hne];
    [rewrite fn_lookup_insert | rewrite fn_lookup_insert_ne by done; by apply Hout].
  pose proof (Hout lockid Hid) as Hn. unfold spec_lock.
  destruct (Q lockid) as [|[b x] l]; cbn [snd].
  - intros ->%list_elem_of_singleton. done.
  - case_match; cbn [snd]; [done |]. rewrite fmap_app.
    intros [Hb | ->%list_elem_of_singleton]%elem_of_app; done.
Qed.

(** Whenever the critical section of [lock] returns. *)
Lemma lock_body_result h s Q lockid me r h' s' :
  locks_ok h s Q -> in_range lockid = true -> lock_body lockid me h s = Some (r, h', s') ->
  exists p, r = (spec_lock me p (Q lockid)).1 /\
    locks_ok h' s' (<[lockid := (spec_lock me p (Q lockid)).2]> Q) /\ master_lock s' = 0 /\
    forall a, detached h Q a -> detached h' (<[lockid := (spec_lock me p (Q lockid)).2]> Q) a.
Proof.
  intros Hok Hid Hb. destruct (kmalloc sizeof_lock h) as [[p h1]|] eqn:Halloc.
  - exists p. destruct (lock_body_run lockid me p h h1 s Q Hok Hid Halloc) as (? & ? & E & ? & ? & Hh).
    rewrite Hb in E. simplify_eq. split_and!; [done | done | done |]. intros a.
    destruct Hh as [[-> ->] | ->]; [by apply detached_sub | by eapply detached_alloc].
  - exists 0. destruct (lo_queue _ _ _ Hok lockid Hid) as (Hc & _). revert Hb.
    unfold lock_body. rewrite Hid. cbn [negb]. destruct (Q lockid) as [|[a x] l] eqn:HQ; simpl in Hc.
    + rewrite Hc. simpl. by rewrite Halloc.
    + destruct Hc as (-> & Ha & n & Hn & Hx & _). destruct (Z.eqb_spec a 0); [done |].
      rewrite Hn. simpl. rewrite Hx. destruct (Z.eqb_spec x me); [| by rewrite Halloc].
      intros. simplify_eq. simpl. rewrite <- HQ. split_and!; [done | | done |].
      * by apply locks_ok_master, locks_ok_same.
      * intros b. by apply detached_sub.
Qed.

(** Through a lock the caller holds already. *)
Lemma lock_body_reenter h s Q lockid me a l :
  locks_ok h s Q -> in_range lockid = true -> Q lockid = (a, me) :: l ->
  lock_body lockid me h s = Some (Acquired, h, set_master 0 s).
Proof.
  intros Hok Hid HQ. destruct (lo_queue _ _ _ Hok lockid Hid) as (Hc & _). rewrite HQ in Hc.
  destruct Hc as (Hhd & Ha & n & Hn & Hx & _). unfold lock_body. rewrite Hid, Hhd. cbn [negb].
  destruct (Z.eqb_spec a 0); [done |]. rewrite Hn. simpl. by rewrite Hx, Z.eqb_refl.
Qed.

(** The critical section of [lock] does to its queue what [spec_lock] says
    (take a free lock, pass through one the caller holds, else join the end of
    the queue), keeps every other queue, and releases [master_lock]. *)
Theorem lock_body_spec (lockid me p : Z) (h h1 : H) (s : lockstate) (Q : Z -> list (Z * Z))
  (Hok : locks_ok h s Q) (Hid : in_range lockid = true)
  (Halloc : kmalloc sizeof_lock h = Some (p, h1)) :
  exists h' s',
    lock_body lockid me h s = Some ((spec_lock me p (Q lockid)).1, h', s') /\
    locks_ok h' s' (<[lockid := (spec_lock me p (Q lockid)).2]> Q) /\ master_lock s' = 0.
Proof.
  destruct (lock_body_run lockid me p h h1 s Q Hok Hid Halloc) as (h' & s' & ? & ? & ? & _).
  by exists h', s'.
Qed.

(** The critical section of [unlock] does to its queue what [spec_unlock]
    says: nothing on a free lock; a single waiter is removed whoever it is; of
    several, the head is removed when it is the caller; and the process that is
    then the head is made ready. The other queues and the statuses of the other
    processes stay, and [master_lock] is released. A single node that was removed
    is still allocated then, and the [kfree] that follows leaves the queues as
    they are. *)
Theorem unlock_body_spec (lockid me : Z) (h : H) (t : T) (s : lockstate) (Q : Z -> list (Z * Z))
  (Hok : locks_ok h s Q) (Hid : in_range lockid = true) (Htc : tc_ok t) :
  exists out h' t' s',
    unlock_body lockid me h t s = Some (out, h', t', s') /\
    out = spec_pending (Q lockid) /\
    locks_ok h' s' (<[lockid := (spec_unlock me (Q lockid)).2]> Q) /\ master_lock s' = 0 /\
    tc_ok t' /\
    match (spec_unlock me (Q lockid)).1 with
    | None => t' = t
    | Some y =>
        (forall st, tc_status t y st -> tc_status t' y 0) /\
        (forall q st, q <> y -> tc_status t q st -> tc_status t' q st)
    end /\
    match out with
    | Some a =>
        let '(h'', s'') := free_node a h' s' in
        locks_ok h'' s'' (<[lockid := (spec_unlock me (Q lockid)).2]> Q)
    | None => True
    end.
Proof.
  destruct (unlock_body_run lockid me h t s Q Hok Hid Htc)
    as (out & h' & t' & s' & E & Hk & Hm & Ht & Hout & Hpend & _ & Hst).
  exists out, h', t', s'. split_and!; [done | done | done | done | done | done |].
  destruct out as [a|]; [| done]. destruct (Hpend a eq_refl) as [_ Hdet].
  destruct (decide (a = 0)) as [->|Ha].
  - by apply (locks_free_null _ _ _ 0).
  - apply locks_free; [done | by apply Hdet].
Qed.

(** [register_lock] hands out the indices of [locks] in order, each with an
    empty queue, and only while there are indices left is the store inside the
    array. *)
Theorem register_lock_spec h s Q (Hok : locks_ok h s Q) (Hnext : 0 <= next_lockid s < 2 ^ 64 - 1) :
  match register_lock s with
  | Some (id, s') =>
      id = next_lockid s /\ 0 <= id < LOCKING_MAX /\ next_lockid s' = id + 1 /\
      queue_of s' id = LockQueue 0 0 /\
      (forall j, j <> id -> queue_of s' j = queue_of s j) /\
      (Q id = [] -> locks_ok h s' Q)
  | None => LOCKING_MAX <= next_lockid s
  end.
Proof.
  unfold register_lock, in_range. cases_if; [|destruct (Z.leb_spec 0 (next_lockid s)); simpl in E; bsimpl; lia].
  simpl. split_and!; try done.
  - apply uint64_id. unfold is_word. lia.
  - unfold queue_of. simpl. by rewrite lookup_insert_eq.
  - intros j Hj. unfold queue_of. simpl. by rewrite lookup_insert_ne.
  - intros HQ. destruct Hok as [Hh Hq Hl Hd]. split; [done | | done | done].
    intros i Hi. specialize (Hq i Hi). unfold queue_at, queue_of in *. simpl.
    rewrite lookup_insert. case_decide as Hc; [|done]. subst. rewrite HQ. simpl.
    split_and!; [done | done | constructor].
Qed.

(** The locks do not count: a process that takes a free lock twice, as
    [puts] around [putchar] does, gives it up with its first [unlock], while it
    is still inside the outer critical section. *)
Theorem nested_unlock_releases (lockid me p : Z) (h h1 : H) (t : T) (s : lockstate)
  (Q : Z -> list (Z * Z)) (Hok : locks_ok h s Q) (Hid : in_range lockid = true) (Htc : tc_ok t)
  (Halloc : kmalloc sizeof_lock h = Some (p, h1)) (Hfree : Q lockid = []) :
  exists s1 s2 s3,
    lock_body lockid me h s = Some (Acquired, h1, s1) /\
    lock_body lockid me h1 s1 = Some (Acquired, h1, s2) /\
    unlock_body lockid me h1 t s2 = Some (Some p, h1, t, s3) /\
    queue_of s3 lockid = LockQueue 0 0 /\
    exists Q3, locks_ok h1 s3 Q3 /\ Q3 lockid = [].
Proof.
  destruct (lock_body_run lockid me p h h1 s Q Hok Hid Halloc) as (h2 & s1 & E1 & Hok1 & _ & Hh).
  rewrite Hfree in E1, Hok1, Hh. simpl in E1, Hok1, Hh. destruct Hh as [[_ [=]] | ->].
  pose proof (lock_body_reenter _ _ _ lockid me p [] Hok1 Hid (fn_lookup_insert _ _ _)) as E2.
  pose proof (locks_ok_master _ _ _ 0 Hok1) as Hok2.
  destruct (unlock_one lockid me h1 t _ _ Hok2 Hid Htc p me (fn_lookup_insert _ _ _))
    as (s3 & E3 & Hok3 & _).
  rewrite fn_lookup_insert in Hok3. simpl in Hok3.
  exists s1, (set_master 0 s1), s3. split_and!; [done | done | done | |].
  - destruct (lo_queue _ _ _ Hok3 lockid Hid) as (Hc & Htl & _). rewrite fn_lookup_insert in Hc, Htl.
    simpl in Hc, Htl. destruct (queue_of s3 lockid). simpl in *. congruence.
  - eexists. split; [exact Hok3 | apply fn_lookup_insert].
Qed.
End locks.

(** * Concrete states *)

Definition no_queue : Z -> list (Z * Z) := fun _ => [].
Definition demo_heap : bump := Bump 0x1000 ∅.
Definition demo_locks : lockstate := Lockstate ∅ ∅ 1 1.

Lemma demo_locks_ok : locks_ok demo_heap demo_locks no_queue.
Proof.
  split; simpl.
  - split; simpl; [lia | set_solver].
  - intros i _. unfold queue_at, queue_of. simpl. split_and!; [done | done | constructor].
  - intros i a _ ?%elem_of_nil. done.
  - intros i j a _ _ ?%elem_of_nil. done.
Qed.

Lemma lock_body_spec_witness :
  exists h' s', lock_body 3 7 demo_heap demo_locks = Some (Acquired, h', s') /\
    locks_ok h' s' (<[3 := [(0x1000, 7)]]> no_queue) /\ master_lock s' = 0.
Proof.
  exact (lock_body_spec 3 7 0x1000 demo_heap _ demo_locks no_queue
    demo_locks_ok eq_refl eq_refl).
Defined.

(** Lock 3 held by 7, with 8 waiting. *)
Definition demo_queue : list (Z * Z) := [(0x1000, 7); (0x1010, 8)].
Definition demo_held : lockstate :=
  Lockstate {[3 := LockQueue 0x1000 0x1010]}
    (list_to_map [(0x1000, LockNode 7 0x1010); (0x1010, LockNode 8 0)]) 1 4.

Lemma demo_held_ok :
  locks_ok (Bump 0x1020 {[0x1000; 0x1010]}) demo_held (<[3 := demo_queue]> no_queue).
Proof.
  assert (forall i, i <> 3 -> (<[3 := demo_queue]> no_queue) i = []) as E.
  { intros i Hi. by rewrite fn_lookup_insert_ne. }
  split; simpl.
  - split; simpl; [lia | set_solver by lia].
  - intros i _. destruct (decide (i = 3)) as [->|Hi].
    + rewrite fn_lookup_insert. split_and!; [| done |].
      * simpl. split_and!; [done | done |]. exists (LockNode 7 0x1010). split_and!; [done | done | done | done |].
        by exists (LockNode 8 0).
      * apply (bool_decide_unpack _). by vm_compute.
    + rewrite E by done. unfold queue_at, queue_of. simpl. rewrite lookup_singleton_ne by congruence.
      split_and!; [done | done | constructor].
  - intros i a _. destruct (decide (i = 3)) as [->|Hi]; [rewrite fn_lookup_insert | rewrite E by done].
    + simpl. rewrite elem_of_cons, list_elem_of_singleton. set_solver.
    + by intros ?%elem_of_nil.
  - intros i j a _ _. destruct (decide (i = 3)) as [->|Hi], (decide (j = 3)) as [->|Hj];
      rewrite ?(E i), ?(E j) by done; rewrite ?fn_lookup_insert; try done; by intros ? ?%elem_of_nil || intros ?%elem_of_nil.
Qed.

Definition demo_tasks : gmap Z Z := {[7 := 0; 8 := 1]}.

Lemma demo_tasks_ok : tc_ok demo_tasks.
Proof. done. Qed.

Lemma unlock_body_spec_witness :
  exists h' t' s',
    unlock_body 3 7 (Bump 0x1020 {[0x1000; 0x1010]}) demo_tasks demo_held
      = Some (None, h', t', s') /\ queue_at s' 3 [(0x1010, 8)] /\ tc_status t' 8 0.
Proof.
  destruct (unlock_body_spec 3 7 _ demo_tasks _ _ demo_held_ok eq_refl demo_tasks_ok)
    as (out & h' & t' & s' & E & Eo & Hok & _ & _ & Ht & _).
  rewrite fn_lookup_insert in Eo. simpl in Eo. subst out.
  exists h', t', s'. split_and!; [exact E | |].
  - pose proof (lo_queue _ _ _ Hok 3 eq_refl) as Hq. by rewrite !fn_lookup_insert in Hq.
  - rewrite fn_lookup_insert in Ht. destruct Ht as [Ht _]. by apply (Ht 1).
Defined.

Lemma register_lock_spec_witness :
  exists s', register_lock demo_locks = Some (1, s') /\ next_lockid s' = 2.
Proof.
  pose proof (register_lock_spec demo_heap demo_locks _ demo_locks_ok ltac:(simpl; lia)) as Hs.
  destruct (register_lock demo_locks) as [[id s']|] eqn:E; [| done].
  destruct Hs as (Hid & _ & Hn & _). exists s'. simpl in Hid. by subst.
Defined.

Lemma nested_unlock_releases_witness :
  exists s1 s2 s3,
    lock_body 3 7 demo_heap demo_locks = Some (Acquired, Bump 0x1010 {[0x1000]}, s1) /\
    lock_body 3 7 (Bump 0x1010 {[0x1000]}) s1 = Some (Acquired, Bump 0x1010 {[0x1000]}, s2) /\
    unlock_body 3 7 (Bump 0x1010 {[0x1000]}) demo_tasks s2
      = Some (Some 0x1000, Bump 0x1010 {[0x1000]}, demo_tasks, s3) /\
    queue_of s3 3 = LockQueue 0 0.
Proof.
  destruct (nested_unlock_releases 3 7 0x1000 demo_heap (Bump 0x1010 {[0x1000]}) demo_tasks
    demo_locks _ demo_locks_ok eq_refl demo_tasks_ok eq_refl eq_refl) as (s1 & s2 & s3 & E1 & E2 & E3 & Eq & _).
  by exists s1, s2, s3.
Defined.
