(* ===== verification/LockProtocol.v ===== *)
(** [lock] and [unlock] (kernel/b_locking.c) as the processes run them: every
    process is somewhere in the code of the two functions, the timer may pass the
    processor to any ready process between two steps, and only the code between
    [spin_lock] and [master_lock = 0] is one step. The locks of Locking.v, the
    heap and the scheduler are the shared state. A process that holds the lock may
    call [lock] again, as [puts] does around [putchar], and the [kfree] that
    [unlock] calls when [master_lock] is open again is a step of its own. Each call
    of the heap and of the scheduler is one step. *)

From S2P Require Import Prelude Words Allocator TaskControl Locking.
From stdpp Require Import relations.
#[local] Open Scope Z_scope.

(** Where a process is. The flags and [Critical] are ghosts: they say whether a
    call of [lock] has returned to the process since its last [unlock]. *)
Inductive pc :=
  | Idle                    (* outside the two functions, not holding the lock *)
  | LockSpin (held : bool)  (* lock: the first spin_lock *)
  | LockBody (held : bool)  (* lock: up to the first master_lock = 0 *)
  | WaitSpin                (* lock: spin_lock of the waiting loop *)
  | WaitBody                (* lock: the test of the head *)
  | Blocking                (* lock: about to call change_task_status(pid, 1) *)
  | Yielding                (* lock: at int 0x20 *)
  | Critical                (* lock has returned *)
  | UnlockSpin (held : bool)  (* unlock: spin_lock *)
  | UnlockBody (held : bool)  (* unlock: up to master_lock = 0 *)
  | Freeing (a : Z).        (* unlock: kfree after master_lock = 0 *)

#[global] Instance pc_eq_dec : EqDecision pc.
Proof. solve_decision. Defined.

(** What a process outside the two functions calls next. *)
Inductive call := CallLock | CallUnlock.

#[global] Instance call_eq_dec : EqDecision call.
Proof. solve_decision. Defined.

Record psys (H T : Type) := Psys {
  ps_heap : H;
  ps_locks : lockstate;
  ps_tasks : T;
  ps_pc : Z -> pc
}.
Arguments Psys {H T}.
Arguments ps_heap {H T}.
Arguments ps_locks {H T}.
Arguments ps_tasks {H T}.
Arguments ps_pc {H T}.

Section protocol.
Context {H T : Type} `{Allocator H} `{TaskControl T}.
Context (lockid : Z).
Implicit Types (s : psys H T).

Definition goto (p : Z) (c : pc) s : psys H T :=
  Psys (ps_heap s) (ps_locks s) (ps_tasks s) (<[p := c]> (ps_pc s)).

Definition with_locks (k : lockstate) s : psys H T := Psys (ps_heap s) k (ps_tasks s) (ps_pc s).

(** A call of [lock] or [unlock]; both start with [if (lockid == -1) return;]. *)
Definition enter (held : bool) (c : call) : pc :=
  match c with
  | CallLock => if lockid =? -1 then Critical else LockSpin held
  | CallUnlock => if lockid =? -1 then Idle else UnlockSpin held
  end.

Definition spin (p : Z) (stay leave : pc) s : psys H T :=
  let '(got, k) := spin_try (ps_locks s) in goto p (if got then leave else stay) (with_locks k s).

(** The next step of process [p], whose next call is [c] when it is outside the
    two functions; [None] when it does not return. *)
Definition pstep (c : call) (p : Z) s : option (psys H T) :=
  match ps_pc s p with
  | Idle => Some (goto p (enter false c) s)
  | Critical => Some (goto p (enter true c) s)
  | LockSpin b => Some (spin p (LockSpin b) (LockBody b) s)
  | LockBody _ =>
      '(r, h, k) ← lock_body lockid p (ps_heap s) (ps_locks s);
      Some (goto p (match r with Acquired => Critical | Enqueued => WaitSpin end)
              (Psys h k (ps_tasks s) (ps_pc s)))
  | WaitSpin => Some (spin p WaitSpin WaitBody s)
  | WaitBody =>
      '(mine, k) ← wait_body lockid p (ps_locks s);
      Some (goto p (if mine : bool then Critical else Blocking) (with_locks k s))
  | Blocking =>
      t ← tc_change p 1 (ps_tasks s);
      Some (goto p Yielding (Psys (ps_heap s) (ps_locks s) t (ps_pc s)))
  | Yielding => Some (goto p WaitSpin s)
  | UnlockSpin b => Some (spin p (UnlockSpin b) (UnlockBody b) s)
  | UnlockBody _ =>
      '(out, h, t, k) ← unlock_body lockid p (ps_heap s) (ps_tasks s) (ps_locks s);
      Some (goto p (match out with Some a => Freeing a | None => Idle end)
              (Psys h k t (ps_pc s)))
  | Freeing a =>
      let '(h, k) := free_node a (ps_heap s) (ps_locks s) in
      Some (goto p Idle (Psys h k (ps_tasks s) (ps_pc s)))
  end.

(** A ready process takes a step, whatever it calls. *)
Inductive call_step : relation (psys H T) :=
  | CallStep p c s s' : tc_status (ps_tasks s) p 0 -> pstep c p s = Some s' -> call_step s s'.

(** The steps of processes that unlock only what they hold: [unlock] is called
    once after each [lock], or once after several. *)
Inductive step : relation (psys H T) :=
  | Step p c s s' : tc_status (ps_tasks s) p 0 -> (ps_pc s p = Idle -> c = CallLock) ->
      pstep c p s = Some s' -> step s s'.

(** The rest of the kernel sets statuses (the keyboard's readers, [exit]). *)
Inductive env : relation (psys H T) :=
  | Env p st t s : 0 <= st < 256 -> tc_change p st (ps_tasks s) = Some t ->
      env s (Psys (ps_heap s) (ps_locks s) t (ps_pc s)).

Definition any_step : relation (psys H T) := fun s s' => step s s' \/ env s s'.

(** The lock exists, nobody holds it and nobody is in its code. *)
Definition initial s : Prop :=
  exists Q, locks_ok (ps_heap s) (ps_locks s) Q /\ Q lockid = [] /\
    master_lock (ps_locks s) = 0 /\ tc_ok (ps_tasks s) /\ forall p, ps_pc s p = Idle.

(** * The invariant *)

Definition in_body (c : pc) : bool :=
  match c with LockBody _ | WaitBody | UnlockBody _ => true | _ => false end.
Definition in_queue (c : pc) : bool :=
  match c with
  | LockSpin b | LockBody b | UnlockSpin b | UnlockBody b => b
  | WaitSpin | WaitBody | Blocking | Yielding | Critical => true
  | Idle | Freeing _ => false
  end.
Definition holds (c : pc) : bool :=
  match c with
  | Critical => true
  | LockSpin b | LockBody b | UnlockSpin b | UnlockBody b => b
  | _ => false
  end.

(** [unlock] is only entered by the holder. *)
Definition paired (c : pc) : bool :=
  match c with UnlockSpin b | UnlockBody b => b | _ => true end.

(** The node that a process is about to free. *)
Definition pending (c : pc) : option Z :=
  match c with Freeing a => if a =? 0 then None else Some a | _ => None end.

Record inv_with (Q : Z -> list (Z * Z)) s : Prop := {
  iv_locks : locks_ok (ps_heap s) (ps_locks s) Q;
  iv_tasks : tc_ok (ps_tasks s);
  iv_master : forall p, in_body (ps_pc s p) = true -> master_lock (ps_locks s) <> 0;
  iv_body : forall p q, in_body (ps_pc s p) = true -> in_body (ps_pc s q) = true -> p = q;
  iv_nodup : NoDup (Q lockid).*2;
  iv_queue : forall p, in_queue (ps_pc s p) = true <-> p ∈ (Q lockid).*2;
  iv_holds : forall p, holds (ps_pc s p) = true -> (Q lockid).*2 !! 0%nat = Some p;
  iv_paired : forall p, paired (ps_pc s p) = true;
  iv_pending : forall p a, pending (ps_pc s p) = Some a -> detached (ps_heap s) Q a;
  iv_once : forall p q a, pending (ps_pc s p) = Some a -> pending (ps_pc s q) = Some a -> p = q
}.

Definition inv s : Prop := exists Q, inv_with Q s.

Lemma pc_insert {A} (f : pc -> A) (m : Z -> pc) p c q :
  f (<[p := c]> m q) = if decide (p = q) then f c else f (m q).
Proof.
  case_decide as E; [by rewrite E, fn_lookup_insert | by rewrite fn_lookup_insert_ne].
Qed.

(** One process moves to [c]; the other processes keep their place. *)
Lemma inv_move Q Q' s p c h' k' t' :
  inv_with Q s ->
  locks_ok h' k' Q' -> tc_ok t' -> NoDup (Q' lockid).*2 ->
  (forall q, (in_body c = true /\ q = p) \/ (q <> p /\ in_body (ps_pc s q) = true) ->
     master_lock k' <> 0) ->
  (in_body c = true -> forall q, q <> p -> in_body (ps_pc s q) = false) ->
  (in_queue c = true <-> p ∈ (Q' lockid).*2) ->
  (forall q, q <> p -> q ∈ (Q' lockid).*2 <-> q ∈ (Q lockid).*2) ->
  (holds c = true -> (Q' lockid).*2 !! 0%nat = Some p) ->
  (forall q, q <> p -> holds (ps_pc s q) = true -> (Q' lockid).*2 !! 0%nat = Some q) ->
  paired c = true ->
  (forall a, pending c = Some a -> detached h' Q' a) ->
  (forall q a, q <> p -> pending (ps_pc s q) = Some a -> detached h' Q' a /\ pending c <> Some a) ->
  inv_with Q' (Psys h' k' t' (<[p := c]> (ps_pc s))).
Proof.
  intros Hs Hk Ht Hnd Hm Hb Hq Hq' Hh Hh' Hpr Hpe Hpe'. split; simpl; try done.
  - intros q. rewrite pc_insert. case_decide; intros; apply (Hm q); auto.
  - intros q r. rewrite !pc_insert. do 2 case_decide; intros E1 E2; subst; try done.
    + rewrite Hb in E2; [done | done | congruence].
    + rewrite Hb in E1; [done | done | congruence].
    + by apply (iv_body _ _ Hs).
  - intros q. rewrite pc_insert. case_decide; [by subst |]. rewrite Hq' by done. by apply Hs.
  - intros q. rewrite pc_insert. case_decide; [by subst |]. by apply Hh'.
  - intros q. rewrite pc_insert. case_decide; [done | apply Hs].
  - intros q a. rewrite pc_insert. case_decide; [apply Hpe |]. intros Ha. by apply (Hpe' q).
  - intros q r a. rewrite !pc_insert. do 2 case_decide; intros E1 E2; subst; try done.
    + by destruct (Hpe' r a ltac:(done) E2).
    + by destruct (Hpe' q a ltac:(done) E1).
    + by apply (iv_once _ _ Hs _ _ a).
Qed.

(** A move that touches none of the shared state. *)
Lemma inv_goto Q s p c t' :
  inv_with Q s -> tc_ok t' -> in_body c = false -> paired c = true -> pending c = None ->
  in_queue c = in_queue (ps_pc s p) -> holds c = holds (ps_pc s p) ->
  inv_with Q (Psys (ps_heap s) (ps_locks s) t' (<[p := c]> (ps_pc s))).
Proof.
  intros Hs Ht Hb Hpr Hpe Hq Hh. apply (inv_move Q); try done; try apply Hs.
  - intros q [[? ?] | [_ E]]; [congruence | by apply (iv_master _ _ Hs q)].
  - congruence.
  - rewrite Hq. apply Hs.
  - rewrite Hh. apply Hs.
  - intros q _. apply Hs.
  - congruence.
  - intros q a _ Ha. split; [by apply (iv_pending _ _ Hs q) | congruence].
Qed.

Lemma inv_spin Q s p stay leave :
  inv_with Q s -> in_body (ps_pc s p) = false -> in_body stay = false ->
  paired stay = true -> paired leave = true -> pending stay = None -> pending leave = None ->
  in_queue stay = in_queue (ps_pc s p) -> in_queue leave = in_queue (ps_pc s p) ->
  holds stay = holds (ps_pc s p) -> holds leave = holds (ps_pc s p) ->
  inv_with Q (spin p stay leave s).
Proof.
  intros Hs Hb Hstay Hr1 Hr2 Hn1 Hn2 Hq1 Hq2 Hh1 Hh2. unfold spin, goto, with_locks. simpl.
  apply (inv_move Q); try apply Hs; simpl; try done.
  - by apply locks_ok_master, Hs.
  - destruct (Z.eqb_spec (master_lock (ps_locks s)) 0) as [E|]; [| congruence].
    intros _ q _. destruct (in_body (ps_pc s q)) eqn:Eq; [| done].
    by destruct (iv_master _ _ Hs q Eq).
  - case_match; rewrite ?Hq1, ?Hq2; apply Hs.
  - case_match; rewrite ?Hh1, ?Hh2; apply Hs.
  - intros q _. apply Hs.
  - by case_match.
  - intros a. case_match; congruence.
  - intros q a _ Ha. split; [by apply (iv_pending _ _ Hs q) | case_match; congruence].
Qed.

(** Inside a critical section nobody else is, so that releasing [master_lock]
    is safe. *)
Lemma inv_release Q Q' s p c h' k' t' :
  inv_with Q s -> in_body (ps_pc s p) = true -> in_body c = false ->
  locks_ok h' k' Q' -> tc_ok t' -> NoDup (Q' lockid).*2 ->
  (in_queue c = true <-> p ∈ (Q' lockid).*2) ->
  (forall q, q <> p -> q ∈ (Q' lockid).*2 <-> q ∈ (Q lockid).*2) ->
  (holds c = true -> (Q' lockid).*2 !! 0%nat = Some p) ->
  (forall q, q <> p -> holds (ps_pc s q) = true -> (Q' lockid).*2 !! 0%nat = Some q) ->
  paired c = true ->
  (forall a, pending c = Some a -> detached h' Q' a) ->
  (forall a, detached (ps_heap s) Q a -> detached h' Q' a /\ pending c <> Some a) ->
  inv_with Q' (Psys h' k' t' (<[p := c]> (ps_pc s))).
Proof.
  intros Hs Hp Hc Hk Ht Hnd Hq Hq' Hh Hh' Hpr Hpe Hpe'. apply (inv_move Q); try done.
  - intros q [[? ?] | [Hne E]]; [congruence |]. destruct Hne. by apply (iv_body _ _ Hs).
  - congruence.
  - intros q a _ Ha. by apply Hpe', (iv_pending _ _ Hs q).
Qed.

(** The [kfree] of [unlock] after [master_lock = 0]. *)
Lemma inv_free Q s p a :
  inv_with Q s -> ps_pc s p = Freeing a ->
  let '(h, k) := free_node a (ps_heap s) (ps_locks s) in
  inv_with Q (Psys h k (ps_tasks s) (<[p := Idle]> (ps_pc s))).
Proof.
  intros Hs Hp. pose proof (iv_locks _ _ Hs) as Hk.
  assert (locks_ok (free_node a (ps_heap s) (ps_locks s)).1 (free_node a (ps_heap s) (ps_locks s)).2 Q /\
    forall q b, q <> p -> pending (ps_pc s q) = Some b ->
      detached (free_node a (ps_heap s) (ps_locks s)).1 Q b) as [Hk' Hd].
  { destruct (decide (a = 0)) as [->|Ha].
    - split; [by apply (locks_free_null _ _ _ 0) |]. intros q b _ Hb.
      by apply locks_free_null, (iv_pending _ _ Hs q).
    - assert (pending (ps_pc s p) = Some a) as Hpa
        by (rewrite Hp; simpl; by destruct (Z.eqb_spec a 0)).
      destruct (locks_free _ _ _ a Hk (iv_pending _ _ Hs p a Hpa)) as [? Hd]. split; [done |].
      intros q b Hq Hb. apply Hd; [| by apply (iv_pending _ _ Hs q)]. intros ->.
      apply Hq. by apply (iv_once _ _ Hs _ _ a). }
  destruct (free_node a (ps_heap s) (ps_locks s)) as [h k] eqn:Ef. simpl in *.
  assert (master_lock k = master_lock (ps_locks s)) as Em by (unfold free_node in Ef; by simplify_eq).
  apply (inv_move Q); try done; try apply Hs.
  - intros q [[? ?] | [_ E]]; [done |]. rewrite Em. by apply (iv_master _ _ Hs q).
  - simpl. split; [done |]. intros Hin%(iv_queue _ _ Hs). by rewrite Hp in Hin.
  - intros q _. apply Hs.
  - intros q b Hq Hb. split; [by apply (Hd q) | done].
Qed.

Context (Hid : in_range lockid = true).

Lemma enter_spin b c :
  enter b c = match c with CallLock => LockSpin b | CallUnlock => UnlockSpin b end.
Proof.
  unfold enter. revert Hid. unfold in_range. destruct (Z.eqb_spec lockid (-1)) as [->|]; done.
Qed.

Lemma inv_lock_body Q s p held r h k :
  inv_with Q s -> ps_pc s p = LockBody held ->
  lock_body lockid p (ps_heap s) (ps_locks s) = Some (r, h, k) ->
  exists a, r = (spec_lock p a (Q lockid)).1 /\
    inv_with (<[lockid := (spec_lock p a (Q lockid)).2]> Q) (Psys h k (ps_tasks s)
      (<[p := match r with Acquired => Critical | Enqueued => WaitSpin end]> (ps_pc s))).
Proof.
  intros Hs Hp Hb. pose proof (iv_locks _ _ Hs) as Hl.
  destruct (lock_body_result _ _ _ _ _ _ _ _ Hl Hid Hb) as (a & -> & Hk & Hm & Hd).
  exists a. split; [done |].
  eapply (inv_release Q); [done | by rewrite Hp | by case_match | exact Hk | apply Hs | | | | | |
    by case_match | by intros ?; case_match | intros b Hdet; split; [by apply Hd | by case_match]];
    rewrite ?fn_lookup_insert.
  - pose proof (iv_nodup _ _ Hs) as Hnd. unfold spec_lock.
    destruct (Q lockid) as [|[b x] l] eqn:HQ; simpl; [apply NoDup_singleton |].
    destruct (Z.eqb_spec x p) as [->|Hne]; simpl; [done |]. rewrite fmap_app. simpl.
    change (x :: (l.*2 ++ [p])) with ((x :: l.*2) ++ [p]).
    apply NoDup_app. split_and!; [done | | apply NoDup_singleton].
    intros q Hq ->%list_elem_of_singleton.
    assert (in_queue (ps_pc s p) = true) as Hpq by (apply (iv_queue _ _ Hs); by rewrite HQ).
    rewrite Hp in Hpq. simpl in Hpq. subst held.
    pose proof (iv_holds _ _ Hs p ltac:(by rewrite Hp)) as Hh. rewrite HQ in Hh. by simplify_eq/=.
  - unfold spec_lock. destruct (Q lockid) as [|[b x] l] eqn:HQ; simpl.
    + split; [intros _; apply list_elem_of_here | done].
    + destruct (Z.eqb_spec x p) as [->|Hne]; simpl.
      * split; [intros _; apply list_elem_of_here | done].
      * split; [intros _ | done]. rewrite fmap_app, elem_of_cons, elem_of_app. right. right.
        apply list_elem_of_here.
  - intros q Hq. unfold spec_lock. destruct (Q lockid) as [|[b x] l] eqn:HQ; simpl.
    + rewrite list_elem_of_singleton. split; [done | by intros ?%elem_of_nil].
    + destruct (Z.eqb_spec x p) as [->|Hne]; simpl; [done |].
      rewrite fmap_app, !elem_of_cons, elem_of_app. simpl. rewrite list_elem_of_singleton. naive_solver.
  - unfold spec_lock. destruct (Q lockid) as [|[b x] l] eqn:HQ; simpl; [done |].
    by destruct (Z.eqb_spec x p) as [->|Hne].
  - intros q Hq Hh%(iv_holds _ _ Hs). unfold spec_lock.
    destruct (Q lockid) as [|[b x] l] eqn:HQ; simpl; [done |]. by case_match.
Qed.

Lemma inv_wait_body Q s p mine k :
  inv_with Q s -> ps_pc s p = WaitBody ->
  wait_body lockid p (ps_locks s) = Some (mine, k) ->
  (mine = true -> (Q lockid).*2 !! 0%nat = Some p) /\
  inv_with Q (Psys (ps_heap s) k (ps_tasks s)
    (<[p := if mine then Critical else Blocking]> (ps_pc s))).
Proof.
  intros Hs Hp Hb. assert (p ∈ (Q lockid).*2) as Hin by (apply (iv_queue _ _ Hs); by rewrite Hp).
  destruct (lo_queue _ _ _ (iv_locks _ _ Hs) _ Hid) as (Hc & _).
  unfold wait_body in Hb. rewrite Hid in Hb. cbn [negb] in Hb.
  destruct (Q lockid) as [|[a x] l] eqn:HQ; [by apply elem_of_nil in Hin |].
  destruct Hc as (E & Ha & n & Hn & Hx & _). rewrite E, Hn in Hb. simpl in Hb. simplify_eq.
  split; [intros ?%Z.eqb_eq; simpl; by f_equal |].
  apply (inv_release Q); try apply Hs; try done.
  - by rewrite Hp.
  - by case_match.
  - by apply locks_ok_master, Hs.
  - rewrite HQ. by case_match.
  - rewrite HQ. simpl. destruct (Z.eqb_spec (l_pid n) p); [congruence | done].
  - intros q _. apply Hs.
  - by case_match.
  - intros b. by case_match.
  - intros b Hd. split; [done | by case_match].
Qed.

Lemma inv_unlock_body Q s p held out h t k :
  inv_with Q s -> ps_pc s p = UnlockBody held ->
  unlock_body lockid p (ps_heap s) (ps_tasks s) (ps_locks s) = Some (out, h, t, k) ->
  exists Q', inv_with Q' (Psys h k t
    (<[p := match out with Some a => Freeing a | None => Idle end]> (ps_pc s))).
Proof.
  intros Hs Hp Hb.
  destruct (unlock_body_run lockid p _ _ _ Q (iv_locks _ _ Hs) Hid (iv_tasks _ _ Hs))
    as (out' & h' & t' & k' & E & Hk & _ & Ht & Eout & Hpend & Hdet & _). rewrite Hb in E. simplify_eq.
  assert (held = true) as -> by (pose proof (iv_paired _ _ Hs p) as E; by rewrite Hp in E).
  assert ((Q lockid).*2 !! 0%nat = Some p) as Hhd by (apply (iv_holds _ _ Hs); by rewrite Hp).
  pose proof (iv_nodup _ _ Hs) as Hnd.
  assert (forall q, q <> p -> holds (ps_pc s q) = true -> False) as Hoth.
  { intros q Hq Hh%(iv_holds _ _ Hs). congruence. }
  exists (<[lockid := (spec_unlock p (Q lockid)).2]> Q).
  apply (inv_release Q); try done; try (by rewrite Hp); try (by case_match).
  1-4: rewrite ?fn_lookup_insert; destruct (Q lockid) as [|[a x] [|[b y] l]] eqn:HQ; simpl in *;
    simplify_eq; rewrite ?Z.eqb_refl; simpl; try done.
  - constructor.
  - by apply NoDup_cons in Hnd as [_ ?].
  - split; [done | by intros ?%elem_of_nil].
  - apply NoDup_cons in Hnd as [? _]. done.
  - intros q Hq. rewrite list_elem_of_singleton. split; [by intros ?%elem_of_nil | done].
  - intros q Hq. rewrite (elem_of_cons _ q p). naive_solver.
  - intros q Hq Hh. by destruct (Hoth q Hq Hh).
  - intros q Hq Hh. by destruct (Hoth q Hq Hh).
  - intros c. destruct (spec_pending (Q lockid)) as [b|]; simpl; [| done].
    destruct (Z.eqb_spec b 0); [done |]. intros [= <-]. by apply Hpend.
  - intros c Hc. split; [by apply Hdet |].
    destruct (Q lockid) as [|[a x] [|[b y] l]] eqn:HQ; simpl; [done | | done].
    case_match; [done |]. intros [= ->]. apply (proj2 Hc lockid Hid).
    rewrite HQ. apply list_elem_of_here.
Qed.

Lemma inv_enter Q s p c b :
  inv_with Q s -> in_body (ps_pc s p) = false -> in_queue (ps_pc s p) = b ->
  holds (ps_pc s p) = b -> (b = false -> c = CallLock) -> inv_with Q (goto p (enter b c) s).
Proof.
  intros Hs Hb Hq Hh Hc. rewrite enter_spin. apply (inv_goto Q s p); try apply Hs; try done;
    destruct c; simpl; try done. by destruct b; [| specialize (Hc eq_refl)].
Qed.

Lemma inv_step s s' : inv s -> any_step s s' -> inv s'.
Proof.
  intros [Q Hs] [Hstep | Henv];
    [destruct Hstep as [p c s s' _ Hc Hp] | destruct Henv as [p st t s Hst Ht]].
  - unfold pstep in Hp. pose proof (iv_paired _ _ Hs p) as Hpr.
    destruct (ps_pc s p) eqn:Epc;
      try (injection Hp as <-; exists Q; by (apply inv_spin; rewrite ?Epc));
      try (injection Hp as <-; exists Q; by (apply inv_goto; rewrite ?Epc; try apply Hs)).
    + injection Hp as <-. exists Q. apply inv_enter; rewrite ?Epc; auto.
    + apply bind_Some in Hp as ([[r h] k] & Hb & Hp). simplify_eq.
      destruct (inv_lock_body _ _ _ _ _ _ _ Hs Epc Hb) as (a & _ & ?). by eexists.
    + apply bind_Some in Hp as ([mine k] & Hb & Hp). simplify_eq. exists Q.
      by destruct (inv_wait_body _ _ _ _ _ Hs Epc Hb).
    + apply bind_Some in Hp as (t & Hb & Hp). simplify_eq. exists Q.
      apply (inv_goto Q s p Yielding t); rewrite ?Epc; try done.
      eapply tc_ok_change; [apply Hs | | exact Hb]. lia.
    + injection Hp as <-. exists Q. by apply inv_enter; rewrite ?Epc.
    + apply bind_Some in Hp as ([[[out h] t] k] & Hb & Hp). simplify_eq.
      exact (inv_unlock_body Q s p held out h t k Hs Epc Hb).
    + pose proof (inv_free Q s p a Hs Epc) as Hf.
      destruct (free_node a (ps_heap s) (ps_locks s)) as [h k]. simplify_eq. by exists Q.
  - exists Q. destruct Hs. split; simpl; try done. by apply (tc_ok_change p st (ps_tasks s)).
Qed.

Lemma inv_initial s : initial s -> inv s.
Proof.
  intros (Q & Hk & HQ & Hm & Ht & Hpc). exists Q. split; rewrite ?HQ; try done; simpl.
  - intros p. by rewrite Hpc.
  - intros p q. by rewrite Hpc.
  - constructor.
  - intros p. rewrite Hpc. split; [done | by intros ?%elem_of_nil].
  - intros p. by rewrite Hpc.
  - intros p. by rewrite Hpc.
  - intros p a. by rewrite Hpc.
  - intros p q a. by rewrite Hpc.
Qed.

Lemma inv_reachable s s' : inv s -> rtc any_step s s' -> inv s'.
Proof. intros Hs Hr. induction Hr; [done |]. eauto using inv_step. Qed.
End protocol.

(** * A wake-up that comes too early

    A process that found it is not its turn leaves [master_lock] (line 80) before
    it blocks itself (line 83). An [unlock] between the two finds it ready, hands
    it the lock and makes it ready again; then it blocks. *)
Section lost.
Context {H T : Type} `{Allocator H} `{TaskControl T}.
Context (lockid : Z) (Hid : in_range lockid = true).
Implicit Types (s : psys H T).

(** [p] is next in line, and asleep. *)
Definition lost (p : Z) s : Prop :=
  exists Q, inv_with lockid Q s /\ (Q lockid).*2 !! 0%nat = Some p /\
    ps_pc s p = Yielding /\ tc_status (ps_tasks s) p 1.

Lemma lost_holds p s q : lost p s -> holds (ps_pc s q) = false.
Proof.
  intros (Q & Hs & Hhd & Hp & _). destruct (holds (ps_pc s q)) eqn:E; [| done].
  pose proof (iv_holds _ _ _ Hs q E). assert (q = p) as -> by congruence. by rewrite Hp in E.
Qed.

Lemma lost_spin p s q stay leave :
  lost p s -> q <> p -> in_body (ps_pc s q) = false -> in_body stay = false ->
  paired stay = true -> paired leave = true -> pending stay = None -> pending leave = None ->
  in_queue stay = in_queue (ps_pc s q) -> in_queue leave = in_queue (ps_pc s q) ->
  holds stay = holds (ps_pc s q) -> holds leave = holds (ps_pc s q) ->
  lost p (spin q stay leave s).
Proof.
  intros (Q & Hs & Hhd & Hp & Hst) Hne **. exists Q. split_and!; [by apply inv_spin | done | | done].
  simpl. by rewrite fn_lookup_insert_ne.
Qed.

Lemma lost_goto p s q c t' :
  lost p s -> q <> p -> tc_ok t' -> tc_status t' p 1 -> in_body c = false ->
  paired c = true -> pending c = None ->
  in_queue c = in_queue (ps_pc s q) -> holds c = holds (ps_pc s q) ->
  lost p (Psys (ps_heap s) (ps_locks s) t' (<[q := c]> (ps_pc s))).
Proof.
  intros (Q & Hs & Hhd & Hp & Hst) Hne **. exists Q. split_and!; [by apply inv_goto | done | | done].
  simpl. by rewrite fn_lookup_insert_ne.
Qed.

Lemma lost_step p s s' : lost p s -> step lockid s s' -> lost p s'.
Proof.
  intros Hl Hstep. destruct Hstep as [q c ? s' Hq Hc Hq'].
  pose proof Hl as (Q & Hs & Hhd & Hp & Hst). pose proof (iv_tasks _ _ _ Hs) as Ht.
  assert (q <> p) as Hne.
  { intros ->. pose proof (tc_status_fun _ _ _ _ Ht Hq Hst). done. }
  pose proof (lost_holds p s q Hl) as Hh. pose proof (iv_paired _ _ _ Hs q) as Hpr.
  unfold pstep in Hq'.
  destruct (ps_pc s q) eqn:Epc; simpl in Hh, Hpr; try congruence;
    try (injection Hq' as <-; by (apply lost_spin; rewrite ?Epc));
    try (injection Hq' as <-; by (apply lost_goto; rewrite ?Epc)).
  - injection Hq' as <-. rewrite (Hc eq_refl), (enter_spin lockid Hid). apply lost_goto; rewrite ?Epc; done.
  - apply bind_Some in Hq' as ([[r h] k] & Hb & Hq'). simplify_eq.
    destruct (inv_lock_body _ Hid _ _ _ _ _ _ _ Hs Epc Hb) as (a & -> & Hs').
    eexists. split_and!; [exact Hs' | | simpl; by rewrite fn_lookup_insert_ne | done].
    rewrite fn_lookup_insert. destruct (Q lockid) as [|[b x] l] eqn:HQ; [done |].
    simpl in *. case_match; by simplify_eq.
  - apply bind_Some in Hq' as ([mine k] & Hb & Hq'). simplify_eq.
    destruct (inv_wait_body _ Hid _ _ _ _ _ Hs Epc Hb) as [Hmine Hs'].
    exists Q. split_and!; [done | done | simpl; by rewrite fn_lookup_insert_ne | done].
  - apply bind_Some in Hq' as (t & Hb & Hq'). simplify_eq.
    destruct (tc_change_spec q 1 _ Ht ltac:(lia)) as (t' & E & Ht' & _ & Hoth).
    rewrite Hb in E. simplify_eq. apply (lost_goto p s q Yielding); rewrite ?Epc; try done. by apply Hoth.
  - pose proof (inv_free _ _ _ _ _ Hs Epc) as Hf.
    destruct (free_node a (ps_heap s) (ps_locks s)) as [h k]. simplify_eq.
    exists Q. split_and!; [done | done | simpl; by rewrite fn_lookup_insert_ne | done].
Qed.

Lemma lost_forever p s s' : lost p s -> rtc (step lockid) s s' -> lost p s'.
Proof. intros Hs Hr. induction Hr; [done |]. eauto using lost_step. Qed.
End lost.

(** * Runs *)

(** Runs of the protocol on the bare heap and the bare table, as lists of the
    process that runs and of what it calls when it is outside. *)
Definition demo_sys : psys bump (gmap Z Z) :=
  Psys demo_heap (Lockstate ∅ ∅ 0 1) (list_to_map [(1, 0); (2, 0); (3, 0)]) (fun _ => Idle).

(** A step of a run; with [strict], one of [step]. *)
Definition run_step (strict : bool) (s : option (psys bump (gmap Z Z))) (pc : Z * call) :
    option (psys bump (gmap Z Z)) :=
  s ← s;
  if bool_decide (ps_tasks s !! pc.1 = Some 0) &&
     (negb strict || bool_decide (ps_pc s pc.1 = Idle -> pc.2 = CallLock))
  then pstep 0 pc.2 pc.1 s else None.

Definition run (strict : bool) (ps : list (Z * call)) (s : psys bump (gmap Z Z)) :
    option (psys bump (gmap Z Z)) :=
  fold_left (run_step strict) ps (Some s).

Lemma run_None strict ps : fold_left (run_step strict) ps None = None.
Proof. by induction ps. Qed.

Lemma run_cons strict pc ps s s' :
  run strict (pc :: ps) s = Some s' ->
  exists s1, ps_tasks s !! pc.1 = Some 0 /\ (strict = true -> ps_pc s pc.1 = Idle -> pc.2 = CallLock) /\
    pstep 0 pc.2 pc.1 s = Some s1 /\ run strict ps s1 = Some s'.
Proof.
  unfold run. simpl. unfold run_step at 2. cbn [mbind option_bind].
  destruct (bool_decide (ps_tasks s !! pc.1 = Some 0)) eqn:E1; [| by rewrite run_None].
  destruct (negb strict || _) eqn:E2; [| by rewrite run_None]. simpl.
  destruct (pstep 0 pc.2 pc.1 s) as [s1|]; [| by rewrite run_None]. intros Hr. exists s1.
  apply bool_decide_eq_true in E1. split_and!; [done | | done | done].
  intros ->. by apply bool_decide_eq_true in E2.
Qed.

(** What can be decided of the end of a run. *)
Lemma run_check strict ps s (P : psys bump (gmap Z Z) -> Prop) `{forall s', Decision (P s')} :
  match run strict ps s with Some s' => bool_decide (P s') | None => false end = true ->
  exists s', run strict ps s = Some s' /\ P s'.
Proof. destruct (run strict ps s) as [s'|]; [| done]. intros HP%bool_decide_eq_true. by exists s'. Qed.

Lemma run_sound ps s s' : run true ps s = Some s' -> rtc (step 0) s s'.
Proof.
  revert s; induction ps as [|[p c] ps IH]; intros s; [intros [= ->]; constructor |].
  intros (s1 & Ht & Hc & Hp & Hr)%run_cons. apply (rtc_l _ _ s1); [| by apply IH].
  by apply (Step 0 p c); [| apply Hc |].
Qed.

Lemma run_calls_sound ps s s' : run false ps s = Some s' -> rtc (call_step 0) s s'.
Proof.
  revert s; induction ps as [|[p c] ps IH]; intros s; [intros [= ->]; constructor |].
  intros (s1 & Ht & _ & Hp & Hr)%run_cons. apply (rtc_l _ _ s1); [| by apply IH].
  by apply (CallStep 0 p c).
Qed.

Lemma demo_initial : initial 0 demo_sys.
Proof.
  exists (fun _ => []). split_and!; try done.
  destruct demo_locks_ok as [Hh Hq Hl Hd]. by split.
Qed.

Lemma demo_reachable ps s : run true ps demo_sys = Some s -> rtc (any_step 0) demo_sys s.
Proof. intros Hr%run_sound. eapply rtc_subrel; [| exact Hr]. intros ? ? ?. by left. Qed.

(** [n] steps of process [p] whose next call is [c]. *)
Definition steps (n : nat) (p : Z) (c : call) : list (Z * call) := replicate n (p, c).

(** Process 1 takes the lock, 2 queues and finds it is not its turn, 1 unlocks, and
    only then 2 blocks itself. *)
Definition lost_schedule : list (Z * call) :=
  steps 3 1 CallLock ++ steps 5 2 CallLock ++ steps 3 1 CallUnlock ++ steps 1 2 CallLock.

(** Complete calls of a lock nobody waits for: [lock] takes three steps, [unlock]
    of the only node four. *)
Definition whole (p : Z) (c : call) : list (Z * call) :=
  match c with CallLock => steps 3 p c | CallUnlock => steps 4 p c end.

(** 1 calls [lock] twice and [unlock] once, as [puts] does with [putchar]; then 2
    calls [lock]; 1 calls the outer [unlock]; 3 calls [lock]. *)
Definition inner_schedule : list (Z * call) :=
  whole 1 CallLock ++ whole 1 CallLock ++ whole 1 CallUnlock ++ whole 2 CallLock.
Definition outer_schedule : list (Z * call) := whole 1 CallUnlock ++ whole 3 CallLock.

Section claims.
Context {H T : Type} `{Allocator H} `{TaskControl T}.
Implicit Types (s : psys H T).

(** C3: mutual exclusion between processes that unlock only what they hold: however
    they are interleaved, however often a holder calls [lock] again, and whatever
    the rest of the kernel does to their statuses, two processes are never between
    a return of [lock] and the end of the critical section of their next [unlock]
    at once. A second [unlock] after a nested [lock] is outside the relation
    [step]: [nested_locks_break_exclusion] shows what it does. *)
Theorem mutual_exclusion (lockid : Z) (s0 s : psys H T) (p q : Z)
  (Hid : in_range lockid = true) (Hinit : initial lockid s0)
  (Hreach : rtc (any_step lockid) s0 s)
  (Hp : holds (ps_pc s p) = true) (Hq : holds (ps_pc s q) = true) :
  p = q.
Proof.
  destruct (inv_reachable _ Hid _ _ (inv_initial _ _ Hinit) Hreach) as [Q Hs].
  apply (iv_holds _ _ _ Hs) in Hp, Hq. congruence.
Qed.

(** C31: [master_lock] protects the queues, for processes that unlock only what
    they hold (nested calls of [lock] included): at most one process is between
    [spin_lock] and [master_lock = 0], and while one is, the lock is taken; the
    queue of every lock stays a well-formed list of live allocations, with the
    processes that wait or hold; and a node that a process is to free after
    [master_lock = 0] is still allocated, is in no queue, and is freed by nobody
    else. *)
Theorem master_lock_excludes (lockid : Z) (s0 s : psys H T) (p q : Z)
  (Hid : in_range lockid = true) (Hinit : initial lockid s0)
  (Hreach : rtc (any_step lockid) s0 s)
  (Hp : in_body (ps_pc s p) = true) :
  master_lock (ps_locks s) <> 0 /\ (in_body (ps_pc s q) = true -> q = p) /\
  exists Q, locks_ok (ps_heap s) (ps_locks s) Q /\ NoDup (Q lockid).*2 /\
    (forall r, in_queue (ps_pc s r) = true <-> r ∈ (Q lockid).*2) /\
    forall r a, ps_pc s r = Freeing a -> a <> 0 ->
      detached (ps_heap s) Q a /\ forall r', ps_pc s r' = Freeing a -> r' = r.
Proof.
  destruct (inv_reachable _ Hid _ _ (inv_initial _ _ Hinit) Hreach) as [Q Hs].
  split_and!; [by eapply iv_master | intros Hq; by eapply iv_body |].
  exists Q. split_and!; [apply Hs | apply Hs | apply Hs |]. intros r a Hr Ha.
  assert (forall r', ps_pc s r' = Freeing a -> pending (ps_pc s r') = Some a) as Hpe.
  { intros r' ->. simpl. by destruct (Z.eqb_spec a 0). }
  split; [by apply (iv_pending _ _ _ Hs r), Hpe |].
  intros r' Hr'. apply (iv_once _ _ _ Hs _ _ a); auto.
Qed.
End claims.

(** C35: nested use breaks mutual exclusion: process 1 calls [lock] twice and
    [unlock] once, 2 gets the lock although 1 is still inside its outer pair; then
    the outer [unlock] of 1 takes away the node of 2, and 3 gets the lock beside
    2. *)
Theorem nested_locks_break_exclusion :
  exists s0 s1 s2 : psys bump (gmap Z Z),
    initial 0 s0 /\
    run false inner_schedule s0 = Some s1 /\ rtc (call_step 0) s0 s1 /\
    ps_pc s1 2 = Critical /\ get_lock_owner 0 (ps_locks s1) = Some 2 /\
    run false outer_schedule s1 = Some s2 /\ rtc (call_step 0) s1 s2 /\
    ps_pc s2 2 = Critical /\ ps_pc s2 3 = Critical /\ get_lock_owner 0 (ps_locks s2) = Some 3.
Proof.
  destruct (run_check false inner_schedule demo_sys
    (fun s => ps_pc s 2 = Critical /\ get_lock_owner 0 (ps_locks s) = Some 2)) as (s1 & E1 & H1);
    [by vm_compute |].
  destruct (run_check false (inner_schedule ++ outer_schedule) demo_sys
    (fun s => ps_pc s 2 = Critical /\ ps_pc s 3 = Critical /\ get_lock_owner 0 (ps_locks s) = Some 3))
    as (s2 & E & H2); [by vm_compute |].
  assert (run false outer_schedule s1 = Some s2) as E2.
  { unfold run in *. by rewrite fold_left_app, E1 in E. }
  exists demo_sys, s1, s2. pose proof (run_calls_sound _ _ _ E1). pose proof (run_calls_sound _ _ _ E2).
  pose proof demo_initial. tauto.
Qed.

(** The [kfree] of [unlock] is not protected: 1 can be about to free its node,
    after [master_lock = 0], while 2 is in the critical section of [lock] and about
    to call [kmalloc] (the lock is free), although everybody unlocks only what it
    holds. *)
Theorem kfree_races_kmalloc :
  exists s0 s : psys bump (gmap Z Z),
    initial 0 s0 /\ rtc (step 0) s0 s /\
    ps_pc s 1 = Freeing 0x1000 /\ 0x1000 ∈ live (ps_heap s) /\
    tc_status (ps_tasks s) 1 0 /\ tc_status (ps_tasks s) 2 0 /\
    in_body (ps_pc s 2) = true /\
    exists s', pstep 0 CallLock 2 s = Some s' /\ live (ps_heap s') <> live (ps_heap s).
Proof.
  destruct (run_check true (whole 1 CallLock ++ steps 3 1 CallUnlock ++ steps 2 2 CallLock) demo_sys
    (fun s => ps_pc s 1 = Freeing 0x1000 /\ 0x1000 ∈ live (ps_heap s) /\
       ps_tasks s !! 1 = Some 0 /\ ps_tasks s !! 2 = Some 0 /\ in_body (ps_pc s 2) = true /\
       (match pstep 0 CallLock 2 s with
        | Some s' => bool_decide (live (ps_heap s') <> live (ps_heap s))
        | None => false
        end) = true)) as (s & E & Hs); [by vm_compute |].
  exists demo_sys, s. pose proof (run_sound _ _ _ E). pose proof demo_initial.
  destruct Hs as (? & ? & ? & ? & ? & Hs). split_and!; try done.
  destruct (pstep 0 CallLock 2 s) as [s'|]; [| done]. exists s'.
  by apply bool_decide_eq_true in Hs.
Qed.

(** C36: a wake-up can be lost: processes 1 and 2 can reach a state where 1 has
    unlocked, 2 is the head of the queue and blocked, and from which, whatever
    they do, 2 is never made ready and the lock is never taken again. *)
Theorem lost_wakeup :
  exists s0 s : psys bump (gmap Z Z),
    initial 0 s0 /\ rtc (step 0) s0 s /\ ps_pc s 1 = Idle /\ get_lock_owner 0 (ps_locks s) = Some 2 /\
    forall s', rtc (step 0) s s' ->
      ps_pc s' 2 = Yielding /\ tc_status (ps_tasks s') 2 1 /\
      forall q, holds (ps_pc s' q) = false.
Proof.
  destruct (run true lost_schedule demo_sys) as [s|] eqn:Er; [| by vm_compute in Er].
  exists demo_sys, s. pose proof (run_sound _ _ _ Er) as Hr.
  split_and!; [apply demo_initial | done | by vm_compute in Er; simplify_eq | by vm_compute in Er; simplify_eq |].
  assert (lost 0 2 s) as Hl.
  { assert (inv 0 s) as [Q Hs].
    { apply (inv_reachable 0 eq_refl demo_sys); [by apply inv_initial, demo_initial |].
      eapply rtc_subrel; [| exact Hr]. intros ? ? ?. by left. }
    exists Q. split; [done |].
    destruct (lo_queue _ _ _ (iv_locks _ _ _ Hs) 0 eq_refl) as (Hc & _).
    assert (2 ∈ (Q 0).*2) as Hin by (apply (iv_queue _ _ _ Hs); by vm_compute in Er; simplify_eq).
    destruct (Q 0) as [|[a x] l]; [by apply elem_of_nil in Hin |].
    destruct Hc as (Ea & _ & n & Hn & <- & _).
    vm_compute in Er; simplify_eq. split_and!; [| done | done].
    vm_compute in Hn. simplify_eq. done. }
  intros s' Hs'. pose proof (lost_forever 0 eq_refl 2 s s' Hl Hs') as Hl'.
  split_and!; [by destruct Hl' as (? & _ & _ & ? & _) | by destruct Hl' as (? & _ & _ & _ & ?) |].
  intros q. by eapply lost_holds.
Qed.

(** 1 is in the critical section, with a second call of [lock], and 2 waits. *)
Definition relock_schedule : list (Z * call) :=
  whole 1 CallLock ++ steps 1 1 CallLock ++ steps 3 2 CallLock ++ steps 2 1 CallLock.

Lemma mutual_exclusion_witness :
  exists s, run true relock_schedule demo_sys = Some s /\ ps_pc s 1 = Critical /\
    forall p, holds (ps_pc s p) = true -> p = 1.
Proof.
  destruct (run true relock_schedule demo_sys) as [s|] eqn:Er; [| by vm_compute in Er].
  exists s. split_and!; [done | by vm_compute in Er; simplify_eq |]. intros p Hp.
  apply (mutual_exclusion 0 demo_sys s p 1 eq_refl demo_initial (demo_reachable _ _ Er) Hp).
  by vm_compute in Er; simplify_eq.
Defined.

(** 1 is to free its node, 2 is between [spin_lock] and [master_lock = 0], 3 spins. *)
Definition freeing_schedule : list (Z * call) :=
  whole 1 CallLock ++ steps 3 1 CallUnlock ++ steps 2 2 CallLock ++ steps 2 3 CallLock.

Lemma master_lock_excludes_witness :
  exists s, run true freeing_schedule demo_sys = Some s /\ master_lock (ps_locks s) <> 0 /\
    in_body (ps_pc s 3) = false /\ ps_pc s 1 = Freeing 0x1000.
Proof.
  destruct (run true freeing_schedule demo_sys) as [s|] eqn:Er; [| by vm_compute in Er].
  exists s. split; [done |].
  assert (in_body (ps_pc s 2) = true) as H2 by (by vm_compute in Er; simplify_eq).
  destruct (master_lock_excludes 0 demo_sys s 2 3 eq_refl demo_initial (demo_reachable _ _ Er) H2)
    as (Hm & H3 & _).
  split_and!; [done | | by vm_compute in Er; simplify_eq].
  destruct (in_body (ps_pc s 3)) eqn:E; [| done]. by specialize (H3 eq_refl).
Defined.
