(* ===== verification/Memory.v ===== *)
(** Byte-addressed memory: what a C program reads and writes through a pointer.
    A byte that was never written holds 0, as in the zero-filled memory of a loader; only
    the end of a string that was never terminated ([text] of CLib.v) depends on it. *)

From S2P Require Import Prelude Words.
#[local] Open Scope Z_scope.

Abbreviation mem := (gmap Z Z).

Definition load8 (m : mem) (a : Z) : Z := default 0 (m !! a) mod 256.
Definition store8 (a v : Z) (m : mem) : mem := <[a := v mod 256]> m.

(** [n] bytes in little-endian order. *)
Fixpoint load (n : nat) (m : mem) (a : Z) : Z :=
  match n with
  | O => 0
  | S n => load8 m a + 256 * load n m (a + 1)
  end.

Fixpoint store (n : nat) (a v : Z) (m : mem) : mem :=
  match n with
  | O => m
  | S n => store8 a v (store n (a + 1) (v / 256) m)
  end.

Abbreviation load32 := (load 4).
Abbreviation load64 := (load 8).
Abbreviation store32 := (store 4).
Abbreviation store64 := (store 8).

(** [m'] differs from [m] at most in [lo, hi). *)
Definition same_outside (lo hi : Z) (m m' : mem) : Prop :=
  forall a, ~ (lo <= a < hi) -> load8 m' a = load8 m a.

(** [m'] and [m] have the same bytes in [lo, hi). *)
Definition same_inside (lo hi : Z) (m m' : mem) : Prop :=
  forall a, lo <= a < hi -> load8 m' a = load8 m a.

Section memory.
Implicit Types (m : mem) (n : nat) (a b v : Z).

Lemma load8_bounds m a : 0 <= load8 m a < 256.
Proof. unfold load8. by apply Z.mod_pos_bound. Qed.

Lemma load8_store8 m a b v :
  load8 (store8 a v m) b = if decide (a = b) then v mod 256 else load8 m b.
Proof.
  unfold load8, store8. rewrite lookup_insert. case_decide; [| done].
  simpl. by rewrite Z.mod_mod.
Qed.

Lemma load8_store8_eq m a v : load8 (store8 a v m) a = v mod 256.
Proof. by rewrite load8_store8, decide_True. Qed.

Lemma load8_store8_ne m a b v : a <> b -> load8 (store8 a v m) b = load8 m b.
Proof. intros. by rewrite load8_store8, decide_False. Qed.

Lemma load8_store m n a b v :
  ~ (a <= b < a + Z.of_nat n) -> load8 (store n a v m) b = load8 m b.
Proof.
  revert a v; induction n as [|n IH]; intros a v Hb; simpl; [done |].
  rewrite load8_store8_ne by lia. apply IH. lia.
Qed.

Lemma load_ext m m' n a :
  (forall b, a <= b < a + Z.of_nat n -> load8 m' b = load8 m b) -> load n m' a = load n m a.
Proof.
  revert a; induction n as [|n IH]; intros a Hext; simpl; [done |].
  rewrite Hext by lia. rewrite IH; [done |]. intros. apply Hext. lia.
Qed.

Lemma load_store_other m n k a b v :
  a + Z.of_nat n <= b \/ b + Z.of_nat k <= a -> load k (store n a v m) b = load k m b.
Proof. intros Hd. apply load_ext. intros c Hc. apply load8_store. lia. Qed.

Lemma load_store8_other m k a b v :
  ~ (b <= a < b + Z.of_nat k) -> load k (store8 a v m) b = load k m b.
Proof. intros Hd. apply load_ext. intros c Hc. apply load8_store8_ne. lia. Qed.

Lemma load_bounds m n a : 0 <= load n m a < 2 ^ (8 * Z.of_nat n).
Proof.
  revert a; induction n as [|n IH]; intros a; [simpl; lia |].
  cbn [load]. specialize (IH (a + 1)). pose proof (load8_bounds m a).
  replace (8 * Z.of_nat (S n)) with (8 + 8 * Z.of_nat n) by lia.
  rewrite Z.pow_add_r by lia. change (2 ^ 8) with 256. nia.
Qed.

Lemma load_store_mod m n a v : load n (store n a v m) a = v mod 2 ^ (8 * Z.of_nat n).
Proof.
  revert a v; induction n as [|n IH]; intros a v; [simpl; by rewrite Z.mod_1_r |].
  cbn [load store]. rewrite load8_store8_eq.
  rewrite (load_ext (store n (a + 1) (v / 256) m)), IH.
  - replace (8 * Z.of_nat (S n)) with (8 + 8 * Z.of_nat n) by lia.
    rewrite Z.pow_add_r by lia. change (2 ^ 8) with 256.
    rewrite Z.rem_mul_r by lia. done.
  - intros b Hb. apply load8_store8_ne. lia.
Qed.

Lemma load_store_same m n a v :
  0 <= v < 2 ^ (8 * Z.of_nat n) -> load n (store n a v m) a = v.
Proof. intros. rewrite load_store_mod. by apply Z.mod_small. Qed.

(** A load in two parts. *)
Lemma load_add m n k a :
  load (n + k) m a = load n m a + 2 ^ (8 * Z.of_nat n) * load k m (a + Z.of_nat n).
Proof.
  revert a; induction n as [|n IH]; intros a.
  - rewrite Nat.add_0_l, Z.add_0_r. simpl load at 2. change (2 ^ (8 * Z.of_nat 0)) with 1. lia.
  - cbn [Nat.add load]. rewrite IH. replace (a + 1 + Z.of_nat n) with (a + Z.of_nat (S n)) by lia.
    replace (8 * Z.of_nat (S n)) with (8 + 8 * Z.of_nat n) by lia. rewrite Z.pow_add_r by lia.
    change (2 ^ 8) with 256. lia.
Qed.

(** A double word by its words. *)
Lemma load_words m a : load 4 m a = load 2 m a + 65536 * load 2 m (a + 2).
Proof. change 4%nat with (2 + 2)%nat. by rewrite load_add. Qed.

(** The low word of a double word that was stored. *)
Lemma load_store_low m a v : 0 <= v < 65536 -> load 2 (store 4 a v m) a = v.
Proof.
  intros Hv. pose proof (load_store_same m 4 a v) as E. change (2 ^ (8 * Z.of_nat 4)) with (2 ^ 32) in E. rewrite load_words in E.
  pose proof (load_bounds (store 4 a v m) 2 a) as B1. pose proof (load_bounds (store 4 a v m) 2 (a + 2)) as B2.
  change (2 ^ (8 * Z.of_nat 2)) with 65536 in *. lia.
Qed.

Lemma store_outside m n a v : same_outside a (a + Z.of_nat n) m (store n a v m).
Proof. intros b Hb. by apply load8_store. Qed.

Lemma same_outside_refl lo hi m : same_outside lo hi m m.
Proof. done. Qed.

Lemma same_outside_trans lo hi m1 m2 m3 :
  same_outside lo hi m1 m2 -> same_outside lo hi m2 m3 -> same_outside lo hi m1 m3.
Proof. intros H1 H2 a Ha. by rewrite H2, H1. Qed.

Lemma same_outside_mono lo hi lo' hi' m m' :
  same_outside lo hi m m' -> lo' <= lo -> hi <= hi' -> same_outside lo' hi' m m'.
Proof. intros Hs ? ? a Ha. apply Hs. lia. Qed.

Lemma same_outside_store lo hi m0 m n a v :
  same_outside lo hi m0 m -> lo <= a -> a + Z.of_nat n <= hi ->
  same_outside lo hi m0 (store n a v m).
Proof.
  intros Hs ? ? b Hb. rewrite load8_store by lia. by apply Hs.
Qed.

Lemma same_outside_load lo hi m m' n a :
  same_outside lo hi m m' -> a + Z.of_nat n <= lo \/ hi <= a -> load n m' a = load n m a.
Proof. intros Hs Ha. apply load_ext. intros b Hb. apply Hs. lia. Qed.

Lemma same_inside_load lo hi m m' n a :
  same_inside lo hi m m' -> lo <= a -> a + Z.of_nat n <= hi -> load n m' a = load n m a.
Proof. intros Hs ? ?. apply load_ext. intros b Hb. apply Hs. lia. Qed.
End memory.

#[export] Hint Resolve same_outside_refl : kernel.

#[global] Arguments load : simpl never.
#[global] Arguments store : simpl never.
