(* ===== verification/Stubs.v ===== *)
(** The entry and the exit of an interrupt (kernel/interrupt.asm) as programs for the
    processor: what the stubs put on the stack is the frame that Interrupts.v starts from,
    and what the interrupted program finds in its registers afterwards. *)

From S2P Require Import Prelude Words Console Memory Interrupts.
#[local] Open Scope Z_scope.

(** * The processor *)

Inductive greg := RAX | RBX | RCX | RDX | RSI | RDI | RBP | RSP | R8 | R9 | R10 | R11 | R12 | R13 | R14 | R15.

#[export] Instance greg_eq_dec : EqDecision greg.
Proof. solve_decision. Defined.

Definition reg_no (r : greg) : positive :=
  match r with
  | RAX => 1 | RBX => 2 | RCX => 3 | RDX => 4 | RSI => 5 | RDI => 6 | RBP => 7 | RSP => 8
  | R8 => 9 | R9 => 10 | R10 => 11 | R11 => 12 | R12 => 13 | R13 => 14 | R14 => 15 | R15 => 16
  end.

Inductive sreg := DS | ES | FS | GS.

Definition sreg_no (s : sreg) : positive := match s with DS => 1 | ES => 2 | FS => 3 | GS => 4 end.

Record mach := Mach {
  gr : greg -> Z;
  sr : sreg -> Z;
  m_rip : Z; m_cs : Z; m_rflags : Z; m_ss : Z;
  m_mem : mem
}.

Definition set_gr (r : greg) (v : Z) (c : mach) : mach :=
  Mach (fun x => if (reg_no x =? reg_no r)%positive then v else gr c x) (sr c) (m_rip c) (m_cs c) (m_rflags c) (m_ss c) (m_mem c).
Definition set_sr (s : sreg) (v : Z) (c : mach) : mach :=
  Mach (gr c) (fun x => if (sreg_no x =? sreg_no s)%positive then v else sr c x) (m_rip c) (m_cs c) (m_rflags c) (m_ss c) (m_mem c).
Definition set_ctl (rip cs rflags ss : Z) (c : mach) : mach := Mach (gr c) (sr c) rip cs rflags ss (m_mem c).
Definition set_mem (m : mem) (c : mach) : mach := Mach (gr c) (sr c) (m_rip c) (m_cs c) (m_rflags c) (m_ss c) m.

(** The low 16 bits of a register. *)
Definition with_ax (w v : Z) : Z := v - v mod 2 ^ 16 + w mod 2 ^ 16.

Definition push (v : Z) (c : mach) : mach :=
  let sp := (gr c RSP - 8)%word in set_mem (store 8 sp v (m_mem c)) (set_gr RSP sp c).

Definition top_word (c : mach) : Z := load 8 (m_mem c) (gr c RSP).
Definition pop (c : mach) : mach := set_gr RSP (gr c RSP + 8)%word c.

(** The instructions of the stubs; [Pop] of [rsp] leaves the word that was popped. *)
Inductive instr :=
  | Cli
  | Sti
  | Push (r : greg)
  | Push_imm (v : Z)
  | Pop (r : greg)
  | Mov_ax_sreg (s : sreg)
  | Mov_sreg_ax (s : sreg)
  | Mov_ax (v : Z)
  | Add_rsp (v : Z).

Definition exec_instr (c : mach) (i : instr) : mach :=
  match i with
  | Cli => set_ctl (m_rip c) (m_cs c) (Z.clearbit (m_rflags c) 9) (m_ss c) c
  | Sti => set_ctl (m_rip c) (m_cs c) (Z.setbit (m_rflags c) 9) (m_ss c) c
  | Push r => push (gr c r) c
  | Push_imm v => push v c
  | Pop r => set_gr r (top_word c) (pop c)
  | Mov_ax_sreg s => set_gr RAX (with_ax (sr c s) (gr c RAX)) c
  | Mov_sreg_ax s => set_sr s (gr c RAX mod 2 ^ 16) c
  | Mov_ax v => set_gr RAX (with_ax v (gr c RAX)) c
  | Add_rsp v => set_gr RSP (gr c RSP + v)%word c
  end.

Definition exec_all (l : list instr) (c : mach) : mach := foldl exec_instr c l.

(** What the processor does when an interrupt comes: the stack of ring 0 from [rsp0] or,
    within ring 0, the current one, aligned to 16 bytes; then the five words and the error
    code, if the exception has one. The gates are interrupt gates to the code segment 8, so
    interrupts are off (bit 9 of the flags; bits 8, 14 and 16 are cleared too). *)
Definition interrupt (rsp0 target : Z) (errors : list Z) (c : mach) : mach :=
  let sp := (if Z.land (m_cs c) 3 =? 0 then gr c RSP else rsp0) / 16 * 16 in
  let c' := foldl (fun c' v => push v c') (set_gr RSP sp c) ([m_ss c; gr c RSP; m_rflags c; m_cs c; m_rip c] ++ errors) in
  set_ctl target 8 (Z.ldiff (m_rflags c) (2 ^ 9 + 2 ^ 8 + 2 ^ 14 + 2 ^ 16)) (if Z.land (m_cs c) 3 =? 0 then m_ss c else 0) c'.

(** [iretq]. *)
Definition iretq (c : mach) : mach :=
  let word k := load 8 (m_mem c) (gr c RSP + 8 * k) in
  set_ctl (word 0) (word 1) (word 2) (word 4) (set_gr RSP (word 3) c).

(** * The stubs *)

(** The macros [ISR_NOERRCODE] and [ISR_ERRCODE], as they are applied. *)
Definition isr_stub (n : Z) : list instr :=
  if stub_pushes_zero n then [Cli; Push_imm 0; Push_imm n] else [Cli; Push_imm n].

(** The vectors whose gates lead to a stub of their own, as interrupt.asm makes them. *)
Definition has_stub (n : Z) : bool := ((0 <=? n) && (n <=? 33)) || (n =? 128).

(** The exceptions with which the processor pushes an error code: double fault, the four
    segment exceptions from 10 on, page fault, alignment check, and those that later
    processors added (control protection, VMM communication, security). *)
Definition cpu_pushes_error (n : Z) : bool := bool_decide (n ∈ [8; 10; 11; 12; 13; 14; 17; 21; 29; 30]).

(** The exceptions among them for which the stub pushes a zero too. *)
Definition mismatched : list Z := [8; 17; 21; 29; 30].

(** [isr_common] up to the call of [isr_handler]. *)
Definition isr_common : list instr :=
  [Push RAX; Push RBX; Push RCX; Push RDX; Push RSI; Push RDI; Push RBP; Push RSP; Push R8; Push R9;
   Mov_ax_sreg DS; Push RAX;
   Mov_ax 0x10; Mov_sreg_ax DS; Mov_sreg_ax ES; Mov_sreg_ax FS; Mov_sreg_ax GS].

(** And from its return to [iretq]. *)
Definition isr_return : list instr :=
  [Pop RAX; Mov_sreg_ax DS; Mov_sreg_ax ES; Mov_sreg_ax FS; Mov_sreg_ax GS;
   Pop R9; Pop R8; Pop RSP; Pop RBP; Pop RDI; Pop RSI; Pop RDX; Pop RCX; Pop RBX; Pop RAX;
   Add_rsp 16; Sti].

Definition isr_enter (rsp0 target : Z) (errors : list Z) (n : Z) (c : mach) : mach :=
  exec_all isr_common (exec_all (isr_stub n) (interrupt rsp0 target errors c)).

Definition isr_leave (c : mach) : mach := iretq (exec_all isr_return c).

(** The frame at [sp], as [isr_handler] reads it: every field is an [int64_t]. *)
Definition frame_word (c : mach) (sp k : Z) : Z := load 8 (m_mem c) (sp + 8 * k).

Definition frame_at (c : mach) (sp : Z) : registers_t :=
  let w k := int64_t (frame_word c sp k) in
  Registers (w 0) (w 1) (w 2) (w 3) (w 4) (w 5) (w 6) (w 7) (w 8) (w 9) (w 10) (w 11) (w 12) (w 13) (w 14) (w 15) (w 16) (w 17).

(** The interrupted context of Interrupts.v. *)
Definition context (c : mach) : cpu :=
  let w v := int64_t v in
  Cpu (w (gr c RAX)) (w (gr c RBX)) (w (gr c RCX)) (w (gr c RDX)) (w (gr c RSI)) (w (gr c RDI)) (w (gr c RBP))
    (w (gr c R8)) (w (gr c R9)) (w (with_ax (sr c DS) (gr c RAX))) (w (m_rip c)) (w (m_cs c)) (w (m_rflags c))
    (w (gr c RSP)) (w (m_ss c)).

(** * Proofs *)

(** The registers hold words of their width. *)
Record mach_ok (c : mach) : Prop := {
  mo_gr : forall r, 0 <= gr c r < 2 ^ 64;
  mo_sr : forall s, 0 <= sr c s < 2 ^ 16;
  mo_rip : 0 <= m_rip c < 2 ^ 64;
  mo_cs : 0 <= m_cs c < 2 ^ 16;
  mo_rflags : 0 <= m_rflags c < 2 ^ 64;
  mo_ss : 0 <= m_ss c < 2 ^ 16
}.

(** ** The stack *)

(** The words [l] on the stack below [top], the last pushed first. *)
Record stacked (top : Z) (l : list Z) (c : mach) : Prop := {
  st_rsp : gr c RSP = top - 8 * Z.of_nat (length l);
  st_words : forall (k : nat) v, l !! k = Some v -> frame_word c (gr c RSP) (Z.of_nat k) = v
}.

Lemma stacked_push top l v c :
  stacked top l c -> 8 * Z.of_nat (S (length l)) <= top < 2 ^ 64 -> 0 <= v < 2 ^ 64 -> stacked top (v :: l) (push v c).
Proof.
  intros [Hr Hw] Htop Hv. unfold push. assert ((gr c RSP - 8)%word = gr c RSP - 8) as Esp by (apply uint64_id; simpl in Htop; lia).
  rewrite Esp. split; cbn -[Z.mul Z.of_nat Z.add Z.sub load store]; [simpl length; lia |].
  intros k w Hk. unfold frame_word. cbn -[Z.mul Z.of_nat Z.add Z.sub load store].
  destruct k as [| k]; cbn [lookup list_lookup] in Hk.
  - simplify_eq. replace (gr c RSP - 8 + 8 * Z.of_nat 0) with (gr c RSP - 8) by lia. by apply load_store_same.
  - replace (gr c RSP - 8 + 8 * Z.of_nat (S k)) with (gr c RSP + 8 * Z.of_nat k) by lia.
    rewrite load_store_other by lia. by apply Hw.
Qed.

(** A register other than [rsp], the segment registers and the flags are the same. *)
Record same_context (c c' : mach) : Prop := {
  sc_gr : forall r, r <> RSP -> gr c' r = gr c r;
  sc_sr : forall s, sr c' s = sr c s;
  sc_rflags : m_rflags c' = m_rflags c
}.

#[export] Instance same_context_preorder : PreOrder same_context.
Proof.
  split; [by intros c; split |]. intros c1 c2 c3 [G1 S1 C1] [G2 S2 C2].
  split; [intros r Hr; by rewrite G2, G1 | intros s; by rewrite S2 | by rewrite C2].
Qed.

Lemma gr_set_ne r x v c : r <> x -> gr (set_gr x v c) r = gr c r.
Proof. intros Hr. destruct r, x; (done || reflexivity). Qed.

Lemma gr_set_eq r v c : gr (set_gr r v c) r = v.
Proof. cbn. by rewrite Pos.eqb_refl. Qed.

Lemma push_same v c : same_context c (push v c).
Proof. split; [| done | done]. intros r Hr. exact (gr_set_ne r RSP (gr c RSP - 8)%word c Hr). Qed.

Lemma stacked_same top l c c' : gr c' RSP = gr c RSP -> m_mem c' = m_mem c -> stacked top l c -> stacked top l c'.
Proof. intros Er Em [Hr Hw]. split; [by rewrite Er |]. unfold frame_word. rewrite Er, Em. exact Hw. Qed.

Lemma exec_all_app l1 l2 c : exec_all (l1 ++ l2) c = exec_all l2 (exec_all l1 c).
Proof. apply foldl_app. Qed.

(** Several pushes. *)
Lemma pushes_run top rs : forall l c,
  RSP ∉ rs -> stacked top l c -> 8 * Z.of_nat (length rs + length l) <= top < 2 ^ 64 ->
  (forall r, r ∈ rs -> 0 <= gr c r < 2 ^ 64) ->
  let c' := exec_all (Push <$> rs) c in stacked top (rev (gr c <$> rs) ++ l) c' /\ same_context c c'.
Proof.
  induction rs as [| r rs IH]; intros l c Hrs Hst Htop Hg; [done |].
  apply not_elem_of_cons in Hrs as [Hr Hrs]. simpl in Htop. pose proof (push_same (gr c r) c) as Hsame.
  assert (stacked top (gr c r :: l) (push (gr c r) c)) as Hst'
    by (apply stacked_push; [done | lia | apply Hg, list_elem_of_here]).
  destruct (IH (gr c r :: l) (push (gr c r) c) Hrs Hst') as [Hst2 Hsame2]; [simpl; lia | |].
  - intros x Hx. rewrite (sc_gr _ _ Hsame) by (intros ->; done). by apply Hg, list_elem_of_further.
  - assert (rev (gr (push (gr c r) c) <$> rs) ++ gr c r :: l = rev (gr c <$> r :: rs) ++ l) as <-; [| by split; [| etransitivity]].
    simpl. rewrite <- app_assoc. simpl. do 2 f_equal. apply list_fmap_ext. intros i x Hx.
    apply (sc_gr _ _ Hsame). intros ->. apply Hrs. by eapply list_elem_of_lookup_2.
Qed.

(** Several pops. *)
Lemma pops_run rs : forall c,
  RSP ∉ rs -> NoDup rs -> 0 <= gr c RSP -> gr c RSP + 8 * Z.of_nat (length rs) < 2 ^ 64 ->
  let c' := exec_all (Pop <$> rs) c in
  gr c' RSP = gr c RSP + 8 * Z.of_nat (length rs) /\
  (forall (k : nat) r, rs !! k = Some r -> gr c' r = frame_word c (gr c RSP) (Z.of_nat k)) /\
  (forall r, r ∉ rs -> r <> RSP -> gr c' r = gr c r) /\ m_mem c' = m_mem c /\ sr c' = sr c.
Proof.
  induction rs as [| r rs IH]; intros c Hrs Hnd H0 Hlim; [simpl; split_and!; (lia || done) |].
  apply not_elem_of_cons in Hrs as [Hr Hrs]. apply NoDup_cons in Hnd as [Hnr Hnd]. simpl length in *.
  set (c1 := exec_instr c (Pop r)).
  assert (gr c1 RSP = gr c RSP + 8) as E1.
  { unfold c1. cbn [exec_instr]. rewrite gr_set_ne by done. unfold pop. rewrite gr_set_eq. apply uint64_id. lia. }
  assert (gr c1 r = frame_word c (gr c RSP) 0) as Er.
  { unfold c1. cbn [exec_instr]. rewrite gr_set_eq. unfold top_word, frame_word. f_equal. lia. }
  assert (forall x, x <> r -> x <> RSP -> gr c1 x = gr c x) as Eo.
  { intros x Hx Hxs. unfold c1. cbn [exec_instr]. rewrite gr_set_ne by done. unfold pop. by rewrite gr_set_ne. }
  destruct (IH c1 Hrs Hnd) as (R1 & R2 & R3 & R4 & R5); [lia | lia |].
  cbn [fmap list_fmap exec_all foldl]. fold c1. change (foldl exec_instr c1 _) with (exec_all (Pop <$> rs) c1).
  split; [lia |]. split; [| split; [| by rewrite R4, R5]].
  - intros k x Hk. destruct k as [| k]; simpl in Hk; [simplify_eq; by rewrite R3 |].
    rewrite (R2 k x Hk). unfold frame_word. rewrite E1. change (m_mem c1) with (m_mem c). f_equal. lia.
  - intros x Hx Hxs. apply not_elem_of_cons in Hx as [Hxr Hx]. rewrite R3 by done. by apply Eo.
Qed.

Lemma push_values top vs : forall l c,
  stacked top l c -> 8 * Z.of_nat (length vs + length l) <= top < 2 ^ 64 -> Forall (fun v => 0 <= v < 2 ^ 64) vs ->
  let c' := foldl (fun c v => push v c) c vs in stacked top (rev vs ++ l) c' /\ same_context c c'.
Proof.
  induction vs as [| v vs IH]; intros l c Hst Htop Hvs; [done |]. apply Forall_cons in Hvs as [Hv Hvs]. simpl in Htop.
  assert (stacked top (v :: l) (push v c)) as Hst' by (apply stacked_push; [done | lia | done]).
  destruct (IH (v :: l) (push v c) Hst') as [Hst2 Hsame]; [simpl; lia | done |].
  simpl. rewrite <- app_assoc. split; [exact Hst2 | by etransitivity; [apply (push_same v) |]].
Qed.

(** ** The frame *)

Lemma with_ax_bounds w v : 0 <= v < 2 ^ 64 -> 0 <= with_ax w v < 2 ^ 64.
Proof. unfold with_ax. intros Hv. change (2 ^ 16) with 65536 in *. change (2 ^ 64) with 18446744073709551616 in *. div_lia. Qed.

Lemma with_ax_mod w v : with_ax w v mod 2 ^ 16 = w mod 2 ^ 16.
Proof. unfold with_ax. change (2 ^ 16) with 65536. div_lia. Qed.

Definition ring0_stack (rsp0 : Z) (c : mach) : Z := (if Z.land (m_cs c) 3 =? 0 then gr c RSP else rsp0) / 16 * 16.

(** The words of the processor and of the stub, the last first. *)
Definition hw_words (errors : list Z) (c : mach) : list Z := errors ++ [m_rip c; m_cs c; m_rflags c; gr c RSP; m_ss c].
Definition stub_words (n : Z) (errors : list Z) (c : mach) : list Z :=
  n :: (if stub_pushes_zero n then 0 :: hw_words errors c else hw_words errors c).
Definition frame_words (sp0 n : Z) (errors : list Z) (c : mach) : list Z :=
  [with_ax (sr c DS) (gr c RAX); gr c R9; gr c R8; sp0 - 8 * Z.of_nat (7 + length (stub_words n errors c));
   gr c RBP; gr c RDI; gr c RSI; gr c RDX; gr c RCX; gr c RBX; gr c RAX] ++ stub_words n errors c.

Section enter.
Context (rsp0 target n : Z) (errors : list Z) (c : mach).
Context (Hok : mach_ok c) (Hn : 0 <= n < 256) (Herrors : Forall (fun e => 0 <= e < 2 ^ 64) errors).
Context (Hlen : (length errors <= 1)%nat) (Hrsp0 : 0 <= rsp0 < 2 ^ 64).
Let sp0 := ring0_stack rsp0 c.
Context (Hroom : 160 <= sp0).

Lemma ring0_stack_limit : sp0 < 2 ^ 64.
Proof. unfold sp0, ring0_stack. pose proof (mo_gr c Hok RSP). destruct (Z.land (m_cs c) 3 =? 0); div_lia. Qed.

Lemma interrupt_run :
  let c1 := interrupt rsp0 target errors c in
  stacked sp0 (hw_words errors c) c1 /\ (forall r, r <> RSP -> gr c1 r = gr c r) /\ sr c1 DS = sr c DS.
Proof.
  pose proof ring0_stack_limit as Hlim. destruct Hok as [Og Os Oi Oc Of Oss].
  assert (stacked sp0 [] (set_gr RSP sp0 c)) as H0.
  { split; [rewrite gr_set_eq; simpl; lia |]. intros k v Hk. by rewrite lookup_nil in Hk. }
  destruct (push_values sp0 ([m_ss c; gr c RSP; m_rflags c; m_cs c; m_rip c] ++ errors) [] _ H0) as [Hst Hsame].
  - rewrite length_app. simpl. lia.
  - apply Forall_app. split; [repeat (constructor; [first [apply Og | lia] |]); constructor | done].
  - cbv zeta. unfold interrupt. fold (ring0_stack rsp0 c). fold sp0. set (c1 := foldl _ _ _) in *. split; [| split].
    + apply (stacked_same _ _ c1); [done | done |]. unfold hw_words.
      replace (errors ++ [m_rip c; m_cs c; m_rflags c; gr c RSP; m_ss c])
        with (rev ([m_ss c; gr c RSP; m_rflags c; m_cs c; m_rip c] ++ errors) ++ []); [exact Hst |].
      rewrite rev_app_distr, app_nil_r. by destruct errors as [| e [| e' l]]; [| | simpl in Hlen; lia].
    + intros r Hr. change (gr (set_ctl _ _ _ _ c1) r) with (gr c1 r). by rewrite (sc_gr _ _ Hsame), gr_set_ne.
    + exact (sc_sr _ _ Hsame DS).
Qed.

Lemma stub_run c1 :
  stacked sp0 (hw_words errors c) c1 ->
  let c2 := exec_all (isr_stub n) c1 in
  stacked sp0 (stub_words n errors c) c2 /\ (forall r, r <> RSP -> gr c2 r = gr c1 r) /\ sr c2 DS = sr c1 DS /\
  Z.testbit (m_rflags c2) 9 = false.
Proof.
  intros Hst. pose proof ring0_stack_limit as Hlim.
  assert (length (hw_words errors c) = length errors + 5)%nat as El by (unfold hw_words; by rewrite length_app).
  assert (stacked sp0 (hw_words errors c) (exec_instr c1 Cli)) as H0 by (by apply (stacked_same _ _ c1)).
  assert (forall vs, Forall (fun v => 0 <= v < 2 ^ 64) vs -> (length vs <= 2)%nat ->
    let c2 := foldl (fun c v => push v c) (exec_instr c1 Cli) vs in
    stacked sp0 (rev vs ++ hw_words errors c) c2 /\ (forall r, r <> RSP -> gr c2 r = gr c1 r) /\ sr c2 DS = sr c1 DS /\
      Z.testbit (m_rflags c2) 9 = false) as Hgen.
  { intros vs Hvs Hl. destruct (push_values sp0 vs _ _ H0) as [H1 H2]; [lia | done |].
    split; [exact H1 |]. split; [intros r Hr; by rewrite (sc_gr _ _ H2) |]. split; [exact (sc_sr _ _ H2 DS) |].
    rewrite (sc_rflags _ _ H2). apply Z.clearbit_eq. }
  unfold isr_stub, stub_words. cbv zeta. destruct (stub_pushes_zero n).
  - apply (Hgen [0; n]); [by rewrite !Forall_cons; split_and!; (lia || constructor) | simpl; lia].
  - apply (Hgen [n]); [by rewrite !Forall_cons; split_and!; (lia || constructor) | simpl; lia].
Qed.

(** The descriptor of ring 0 in the segment registers. *)
Lemma kernel_segments_run c7 :
  let h := exec_all [Mov_ax 0x10; Mov_sreg_ax DS; Mov_sreg_ax ES; Mov_sreg_ax FS; Mov_sreg_ax GS] c7 in
  gr h RSP = gr c7 RSP /\ m_mem h = m_mem c7 /\ (forall r, r <> RAX -> gr h r = gr c7 r) /\
  (forall s, sr h s = 0x10) /\ m_rflags h = m_rflags c7.
Proof.
  split_and!; [done | done | intros r Hr; by apply (gr_set_ne r RAX) | | done].
  intros s. transitivity (with_ax 0x10 (gr c7 RAX) mod 2 ^ 16); [by destruct s | exact (with_ax_mod 0x10 _)].
Qed.

Lemma isr_common_split :
  isr_common = (Push <$> [RAX; RBX; RCX; RDX; RSI; RDI; RBP]) ++ [Push RSP] ++ (Push <$> [R8; R9])
    ++ [Mov_ax_sreg DS] ++ [Push RAX] ++ [Mov_ax 0x10; Mov_sreg_ax DS; Mov_sreg_ax ES; Mov_sreg_ax FS; Mov_sreg_ax GS].
Proof. reflexivity. Qed.

Lemma exec_push r x : exec_all [Push r] x = push (gr x r) x.
Proof. reflexivity. Qed.

Lemma exec_mov_ax s x : exec_all [Mov_ax_sreg s] x = set_gr RAX (with_ax (sr x s) (gr x RAX)) x.
Proof. reflexivity. Qed.

(** [isr_common] behind the seven words [l] that the processor and the stub pushed. *)
Lemma common_run (l : list Z) (c2 : mach) :
  stacked sp0 l c2 -> length l = 7%nat -> (forall r, r <> RSP -> 0 <= gr c2 r < 2 ^ 64) ->
  let h := exec_all isr_common c2 in
  stacked sp0 ([with_ax (sr c2 DS) (gr c2 RAX); gr c2 R9; gr c2 R8; sp0 - 112;
     gr c2 RBP; gr c2 RDI; gr c2 RSI; gr c2 RDX; gr c2 RCX; gr c2 RBX; gr c2 RAX] ++ l) h /\
  (forall r, r <> RSP -> r <> RAX -> gr h r = gr c2 r) /\ (forall s, sr h s = 0x10) /\ m_rflags h = m_rflags c2.
Proof.
  intros Hst2 El Hw. pose proof ring0_stack_limit as Hlim.
  cbv zeta. rewrite isr_common_split, !exec_all_app.
  destruct (pushes_run sp0 [RAX; RBX; RCX; RDX; RSI; RDI; RBP] l c2) as [Hst3 Hsame3].
  { by apply (bool_decide_unpack _). }
  { exact Hst2. }
  { rewrite El. simpl. lia. }
  { intros r Hr. apply Hw. intros ->. revert Hr; by apply (bool_decide_unpack (_ ∉ _)). }
  generalize dependent (exec_all (Push <$> [RAX; RBX; RCX; RDX; RSI; RDI; RBP]) c2). intros c3 Hst3 Hsame3.
  change (rev (gr c2 <$> [RAX; RBX; RCX; RDX; RSI; RDI; RBP]) ++ l)
    with ([gr c2 RBP; gr c2 RDI; gr c2 RSI; gr c2 RDX; gr c2 RCX; gr c2 RBX; gr c2 RAX] ++ l) in Hst3.
  assert (gr c3 RSP = sp0 - 112) as Esp by (rewrite (st_rsp _ _ _ Hst3), length_app, El; simpl; lia).
  pose proof (stacked_push _ _ (gr c3 RSP) _ Hst3) as Hst4. rewrite length_app, El in Hst4.
  specialize (Hst4 ltac:(simpl; lia) ltac:(lia)). pose proof (push_same (gr c3 RSP) c3) as Hsame4.
  rewrite (exec_push RSP). generalize dependent (push (gr c3 RSP) c3). intros c4 Hst4 Hsame4. rewrite Esp in Hst4.
  assert (same_context c2 c4) as H24 by (etransitivity; eassumption).
  assert (RSP ∉ [R8; R9]) as Hn2 by (by apply (bool_decide_unpack _)).
  destruct (pushes_run sp0 [R8; R9] _ c4 Hn2 Hst4) as [Hst5 Hsame5].
  { cbn [length]. rewrite length_app, El. simpl. lia. }
  { intros r Hr. assert (r <> RSP) as Hne by (intros ->; revert Hr; by apply (bool_decide_unpack (_ ∉ _))).
    rewrite (sc_gr _ _ H24 r Hne). by apply Hw. }
  generalize dependent (exec_all (Push <$> [R8; R9]) c4). intros c5 Hst5 Hsame5.
  assert (same_context c2 c5) as H25 by (etransitivity; eassumption).
  assert (rev (gr c4 <$> [R8; R9]) = [gr c2 R9; gr c2 R8]) as E45
    by (change ([gr c4 R9; gr c4 R8] = [gr c2 R9; gr c2 R8]); by rewrite !(sc_gr _ _ H24) by done).
  rewrite E45 in Hst5. clear Hsame3 Hst3 Hsame4 Hst4 Hsame5 E45.
  set (ax := with_ax (sr c2 DS) (gr c2 RAX)).
  rewrite exec_mov_ax, (sc_sr _ _ H25), (sc_gr _ _ H25) by done. fold ax. set (c6 := set_gr RAX ax c5).
  assert (stacked sp0 (ax :: [gr c2 R9; gr c2 R8] ++ (sp0 - 112) ::
    [gr c2 RBP; gr c2 RDI; gr c2 RSI; gr c2 RDX; gr c2 RCX; gr c2 RBX; gr c2 RAX] ++ l) (push ax c6)) as Hst7.
  { apply stacked_push; [exact (stacked_same _ _ c5 c6 eq_refl eq_refl Hst5) | | by apply with_ax_bounds, Hw].
    cbn [length]. rewrite length_app. cbn [length]. rewrite length_app, El. simpl. lia. }
  rewrite (exec_push RAX). assert (gr c6 RAX = ax) as -> by apply gr_set_eq. set (c7 := push ax c6) in *.
  destruct (kernel_segments_run c7) as (S1 & S2 & S3 & S4 & S5).
  split; [exact (stacked_same _ _ c7 _ S1 S2 Hst7) |]. split; [| split; [exact S4 |]].
  - intros r Hr Hr'. rewrite S3 by done. unfold c7. rewrite (sc_gr _ _ (push_same ax c6)) by done. unfold c6.
    rewrite gr_set_ne by done. apply (sc_gr _ _ H25 r Hr).
  - rewrite S5. apply (sc_rflags _ _ H25).
Qed.

(** All of the entry. *)
Lemma isr_enter_run (Hconv : length errors = if stub_pushes_zero n then 0%nat else 1%nat) :
  let h := isr_enter rsp0 target errors n c in
  stacked sp0 (frame_words sp0 n errors c) h /\ length (frame_words sp0 n errors c) = 18%nat /\
  (forall r, r <> RSP -> r <> RAX -> gr h r = gr c r) /\ (forall s, sr h s = 0x10) /\ Z.testbit (m_rflags h) 9 = false.
Proof.
  destruct interrupt_run as (Hst1 & Hg1 & Hs1). destruct (stub_run _ Hst1) as (Hst2 & Hg2 & Hs2 & Hf).
  cbv zeta. unfold isr_enter. set (c2 := exec_all (isr_stub n) (interrupt rsp0 target errors c)) in *.
  assert (forall r, r <> RSP -> gr c2 r = gr c r) as Hg by (intros r Hr; by rewrite Hg2, Hg1).
  assert (length (stub_words n errors c) = 7%nat) as El.
  { unfold stub_words, hw_words. destruct (stub_pushes_zero n); simpl; rewrite length_app, Hconv; done. }
  destruct (common_run _ c2 Hst2 El) as (Hst & Hgr & Hsr & Hfl); [intros r Hr; rewrite Hg by done; apply (mo_gr c Hok) |].
  rewrite !Hg, Hs2, Hs1 in Hst by done.
  split; [| split; [| split; [| split]]].
  - unfold frame_words. rewrite El. exact Hst.
  - unfold frame_words. by rewrite length_app, El.
  - intros r Hr Hr'. by rewrite Hgr, Hg.
  - exact Hsr.
  - by rewrite Hfl.
Qed.
End enter.

(** ** The way back *)

Lemma isr_return_split :
  isr_return = (Pop <$> [RAX]) ++ [Mov_sreg_ax DS; Mov_sreg_ax ES; Mov_sreg_ax FS; Mov_sreg_ax GS]
    ++ (Pop <$> [R9; R8]) ++ [Pop RSP] ++ (Pop <$> [RBP; RDI; RSI; RDX; RCX; RBX; RAX]) ++ [Add_rsp 16; Sti].
Proof. reflexivity. Qed.

Lemma interrupted_segments_run c :
  let h := exec_all [Mov_sreg_ax DS; Mov_sreg_ax ES; Mov_sreg_ax FS; Mov_sreg_ax GS] c in
  gr h = gr c /\ m_mem h = m_mem c /\ forall s, sr h s = gr c RAX mod 2 ^ 16.
Proof. split_and!; [done | done | intros s; by destruct s]. Qed.

Lemma pop_rsp_run c :
  let h := exec_all [Pop RSP] c in
  gr h RSP = frame_word c (gr c RSP) 0 /\ (forall r, r <> RSP -> gr h r = gr c r) /\ m_mem h = m_mem c /\ sr h = sr c.
Proof.
  split_and!; [cbn; unfold top_word, frame_word; f_equal; lia | intros r Hr | done | done].
  cbn [exec_all foldl exec_instr]. rewrite gr_set_ne by done. unfold pop. by rewrite gr_set_ne.
Qed.

(** Where the frame holds the registers that are popped after [rsp]. *)
Definition later_pops : list greg := [RBP; RDI; RSI; RDX; RCX; RBX; RAX].

(** The registers that are neither pushed nor popped. *)
Definition unsaved : list greg := [R10; R11; R12; R13; R14; R15].

Lemma unsaved_apart x : x ∈ unsaved -> (x ∉ RSP :: later_pops) /\ (x ∉ [R9; R8]) /\ (x ∉ [RAX]) /\ x <> RSP.
Proof.
  intros Hx. destruct x; try (exfalso; revert Hx; by apply (bool_decide_unpack (_ ∉ _)));
    split_and!; (done || by apply (bool_decide_unpack (_ ∉ _))).
Qed.

(** What the interrupted program gets from any frame whose word for [rsp] is still the
    stack pointer of the push. *)
Lemma isr_leave_run c s :
  gr c RSP = s -> 0 <= s -> s + 144 < 2 ^ 64 -> frame_word c s 3 = s + 32 ->
  let r := isr_leave c in
  (forall (k : nat) x, later_pops !! k = Some x -> gr r x = frame_word c s (4 + Z.of_nat k)) /\
  gr r R9 = frame_word c s 1 /\ gr r R8 = frame_word c s 2 /\ gr r RSP = frame_word c s 16 /\
  (m_rip r, m_cs r, m_rflags r, m_ss r) = (frame_word c s 13, frame_word c s 14, frame_word c s 15, frame_word c s 17) /\
  (forall x, x ∈ unsaved -> gr r x = gr c x) /\
  (forall x, sr r x = frame_word c s 0 mod 2 ^ 16) /\ m_mem r = m_mem c.
Proof.
  intros Es H0 Hlim Hrsp. unfold isr_leave. rewrite isr_return_split, !exec_all_app. unfold frame_word in *.
  destruct (pops_run [RAX] c) as (P1 & P2 & P3 & P4 & P5); [by apply (bool_decide_unpack _).. | lia | simpl; lia |].
  generalize dependent (exec_all (Pop <$> [RAX]) c). intros c1 P1 P2 P3 P4 P5.
  destruct (interrupted_segments_run c1) as (S1 & S2 & S3).
  generalize dependent (exec_all [Mov_sreg_ax DS; Mov_sreg_ax ES; Mov_sreg_ax FS; Mov_sreg_ax GS] c1). intros c2 S1 S2 S3.
  assert (gr c2 RSP = s + 8) as E2 by (rewrite S1, P1, Es; simpl; lia).
  destruct (pops_run [R9; R8] c2) as (Q1 & Q2 & Q3 & Q4 & Q5); [by apply (bool_decide_unpack _).. | lia | simpl; lia |].
  generalize dependent (exec_all (Pop <$> [R9; R8]) c2). intros c3 Q1 Q2 Q3 Q4 Q5.
  assert (gr c3 RSP = s + 24) as E3 by (rewrite Q1, E2; simpl; lia).
  destruct (pop_rsp_run c3) as (R1 & R2 & R3 & R4).
  generalize dependent (exec_all [Pop RSP] c3). intros c4 R1 R2 R3 R4.
  assert (m_mem c4 = m_mem c) as Em4 by congruence.
  assert (gr c4 RSP = s + 32) as E4.
  { rewrite R1. unfold frame_word. rewrite E3, Q4, S2, P4. rewrite <- Hrsp. f_equal. lia. }
  fold later_pops. destruct (pops_run later_pops c4) as (T1 & T2 & T3 & T4 & T5); [by apply (bool_decide_unpack _).. | lia | simpl; lia |].
  generalize dependent (exec_all (Pop <$> later_pops) c4). intros c5 T1 T2 T3 T4 T5.
  assert (gr c5 RSP = s + 88) as E5 by (rewrite T1, E4; simpl; lia).
  set (c6 := exec_all [Add_rsp 16; Sti] c5).
  assert (gr c6 RSP = s + 104) as E6 by (change (gr c6 RSP) with (gr c5 RSP + 16)%word; rewrite E5; rewrite uint64_id; lia).
  assert (forall k, load 8 (m_mem c6) (gr c6 RSP + 8 * k) = load 8 (m_mem c) (s + 8 * (13 + k))) as Ew.
  { intros k. change (m_mem c6) with (m_mem c5). rewrite E6, T4, Em4. f_equal. lia. }
  assert (forall x, x <> RSP -> gr (iretq c6) x = gr c5 x) as Eg.
  { intros x Hx. unfold iretq. change (gr (set_gr RSP (load 8 (m_mem c6) (gr c6 RSP + 8 * 3)) c6) x = gr c5 x).
    rewrite gr_set_ne by done. by apply (gr_set_ne x RSP). }
  assert (forall x, x ∉ RSP :: later_pops -> gr (iretq c6) x = gr c3 x) as Ek.
  { intros x [Hx Hx']%not_elem_of_cons. by rewrite Eg, T3, R2. }
  assert (forall (k : nat) x, [R9; R8] !! k = Some x -> gr (iretq c6) x = load 8 (m_mem c) (s + 8 * (1 + Z.of_nat k))) as Eq.
  { intros k x Hk. rewrite Ek by (destruct k as [| [| k]]; simplify_eq/=; by apply (bool_decide_unpack (_ ∉ _))).
    rewrite (Q2 k x Hk). unfold frame_word. rewrite E2, S2, P4. f_equal. lia. }
  split_and!.
  - intros k x Hk. rewrite Eg by (intros ->; apply list_elem_of_lookup_2 in Hk; revert Hk; by apply (bool_decide_unpack (_ ∉ _))).
    rewrite (T2 k x Hk). unfold frame_word. rewrite E4, Em4. f_equal. lia.
  - exact (Eq 0%nat R9 eq_refl).
  - exact (Eq 1%nat R8 eq_refl).
  - exact (Ew 3).
  - pose proof (Ew 0) as W0. pose proof (Ew 1) as W1. pose proof (Ew 2) as W2. pose proof (Ew 4) as W4.
    cbn in W0, W1, W2, W4 |- *. by rewrite W0, W1, W2, W4.
  - intros x (X1 & X2 & X3 & X4)%unsaved_apart. rewrite Ek, Q3 by done. rewrite S1. by apply P3.
  - intros x. change (sr (iretq c6) x) with (sr c5 x). rewrite T5, R4, Q5, S3, (P2 0%nat RAX eq_refl). unfold frame_word. by rewrite Es.
  - change (m_mem (iretq c6)) with (m_mem c5). by rewrite T4.
Qed.


(** ** The frame as a structure *)

Lemma stacked_frame top l c :
  stacked top l c -> length l = 18%nat -> read_frame (int64_t <$> l) = Some (frame_at c (gr c RSP)).
Proof.
  intros [_ Hw] Hl. assert (l = frame_word c (gr c RSP) <$> seqZ 0 18) as ->; [| reflexivity].
  apply (list_eq_same_length _ _ 18); [by rewrite length_fmap, length_seqZ | done |].
  intros k x y Hk Hx Hy. rewrite list_lookup_fmap, lookup_seqZ_lt in Hy by lia. simplify_eq/=.
  symmetry. by apply Hw.
Qed.

(** The frame of Interrupts.v. *)
Lemma frame_words_stack sp0 n errors c :
  0 <= n < 256 -> length (stub_words n errors c) = 7%nat ->
  int64_t <$> frame_words sp0 n errors c = isr_stack (context c) (int64_t <$> errors) n (int64_t (sp0 - 112)).
Proof.
  intros Hn El. unfold frame_words, isr_stack. rewrite El, fmap_app. unfold stub_words, hw_words.
  assert (int64_t n = n) as En by (apply swrap_id; lia).
  by destruct (stub_pushes_zero n); rewrite !fmap_cons, ?fmap_app, En.
Qed.

Lemma frame_tail sp0 n errors c :
  length errors = (if stub_pushes_zero n then 0%nat else 1%nat) ->
  let l := frame_words sp0 n errors c in
  l !! 13%nat = Some (m_rip c) /\ l !! 14%nat = Some (m_cs c) /\ l !! 15%nat = Some (m_rflags c) /\
  l !! 16%nat = Some (gr c RSP) /\ l !! 17%nat = Some (m_ss c).
Proof.
  intros Hconv. unfold frame_words, stub_words, hw_words. destruct (stub_pushes_zero n).
  - by destruct errors.
  - by destruct errors as [| e [| e' l]].
Qed.

(** ** An interrupt from its coming to its end *)

(** The stubs of all vectors but the mismatched ones push a zero exactly when the processor
    pushes no error code. *)
Lemma stub_table n : has_stub n = true -> n ∉ mismatched -> stub_pushes_zero n = negb (cpu_pushes_error n).
Proof.
  intros Hn. assert (n ∈ seqZ 0 34 ++ [128]) as Hin.
  { apply elem_of_app. unfold has_stub in Hn. apply orb_true_iff in Hn as [Hn|Hn%Z.eqb_eq].
    - apply andb_true_iff in Hn as [?%Z.leb_le ?%Z.leb_le]. left. apply elem_of_seqZ. lia.
    - right. by apply list_elem_of_singleton. }
  assert (Forall (fun n => n ∉ mismatched -> stub_pushes_zero n = negb (cpu_pushes_error n)) (seqZ 0 34 ++ [128])) as Hall
    by (apply (bool_decide_unpack _); vm_compute; exact I).
  exact (proj1 (Forall_forall _ _) Hall n Hin).
Qed.

(** All vectors whose stub agrees with the processor. *)
Lemma isr_round_trip_run (rsp0 target n : Z) (errors : list Z) (c : mach)
  (Hok : mach_ok c) (Hn : 0 <= n < 256) (Herrors : Forall (fun e => 0 <= e < 2 ^ 64) errors)
  (Hconv : length errors = if stub_pushes_zero n then 0%nat else 1%nat)
  (Hrsp0 : 0 <= rsp0 < 2 ^ 64) (Hroom : 160 <= ring0_stack rsp0 c) :
  let h := isr_enter rsp0 target errors n c in
  let s := gr h RSP in
  read_frame (isr_stack (context c) (int64_t <$> errors) n (int64_t (s + 32))) = Some (frame_at h s) /\
  Z.testbit (m_rflags h) 9 = false /\ (forall x, sr h x = 0x10) /\
  forall c', gr c' RSP = s -> (forall k, 0 <= k < 18 -> k <> 10 -> frame_word c' s k = frame_word h s k) ->
    let r := isr_leave c' in
    gr r RAX = frame_word c' s 10 /\ (forall x, x <> RAX -> x ∉ unsaved -> gr r x = gr c x) /\
    (m_rip r, m_cs r, m_rflags r, m_ss r) = (m_rip c, m_cs c, m_rflags c, m_ss c) /\
    (forall x, x ∈ unsaved -> gr r x = gr c' x) /\ (forall x, sr r x = sr c DS) /\ m_mem r = m_mem c'.
Proof.
  assert (length errors <= 1)%nat as Hlen by (rewrite Hconv; by destruct (stub_pushes_zero n); lia).
  destruct (isr_enter_run rsp0 target n errors c Hok Hn Herrors Hlen Hrsp0 Hroom Hconv) as (Hst & H18 & _ & Hseg & Hif).
  assert (ring0_stack rsp0 c < 2 ^ 64) as Hlim by (by eapply ring0_stack_limit).
  set (h := isr_enter rsp0 target errors n c) in *. set (sp0 := ring0_stack rsp0 c) in *. cbv zeta.
  assert (gr h RSP = sp0 - 144) as Es by (rewrite (st_rsp _ _ _ Hst), H18; lia).
  assert (length (stub_words n errors c) = 7%nat) as E7 by (change (11 + length (stub_words n errors c) = 18)%nat in H18; lia).
  split_and!; [| exact Hif | exact Hseg |].
  { rewrite <- (stacked_frame _ _ _ Hst H18), frame_words_stack by done. do 4 f_equal. lia. }
  intros c' Esp Hframe. set (s := gr h RSP) in *.
  assert (forall k v, 0 <= k -> k <> 10 -> frame_words sp0 n errors c !! Z.to_nat k = Some v -> frame_word c' s k = v) as Hw.
  { intros k v H0 Hne Hk. pose proof (lookup_lt_Some _ _ _ Hk). rewrite Hframe by lia.
    rewrite <- (Z2Nat.id k H0). by apply (st_words _ _ _ Hst). }
  assert (s = sp0 - 144) as Es' by exact Es.
  destruct (isr_leave_run c' s Esp) as (L1 & L2 & L3 & L4 & L5 & L6 & L7 & L8); [lia | lia | |].
  { rewrite (Hw 3 _ ltac:(done) ltac:(done) eq_refl), E7, Es'. lia. }
  set (r := isr_leave c') in *.
  assert (frame_words sp0 n errors c !! 13%nat = Some (m_rip c) /\ frame_words sp0 n errors c !! 14%nat = Some (m_cs c) /\
    frame_words sp0 n errors c !! 15%nat = Some (m_rflags c) /\ frame_words sp0 n errors c !! 16%nat = Some (gr c RSP) /\
    frame_words sp0 n errors c !! 17%nat = Some (m_ss c)) as (W13 & W14 & W15 & W16 & W17) by (by apply frame_tail).
  split_and!.
  - exact (L1 6%nat RAX eq_refl).
  - intros x Hx Hu. destruct x; try done; try (exfalso; apply Hu; by apply (bool_decide_unpack (_ ∈ _))).
    + rewrite (L1 5%nat RBX eq_refl). by apply (Hw 9).
    + rewrite (L1 4%nat RCX eq_refl). by apply (Hw 8).
    + rewrite (L1 3%nat RDX eq_refl). by apply (Hw 7).
    + rewrite (L1 2%nat RSI eq_refl). by apply (Hw 6).
    + rewrite (L1 1%nat RDI eq_refl). by apply (Hw 5).
    + rewrite (L1 0%nat RBP eq_refl). by apply (Hw 4).
    + rewrite L4. by apply (Hw 16).
    + rewrite L3. by apply (Hw 2).
    + rewrite L2. by apply (Hw 1).
  - rewrite L5. by rewrite (Hw 13 _ ltac:(done) ltac:(done) W13), (Hw 14 _ ltac:(done) ltac:(done) W14), (Hw 15 _ ltac:(done) ltac:(done) W15), (Hw 17 _ ltac:(done) ltac:(done) W17).
  - exact L6.
  - intros x. rewrite L7, (Hw 0 _ ltac:(done) ltac:(done) eq_refl), with_ax_mod. apply Z.mod_small, (mo_sr c Hok).
  - exact L8.
Qed.

(** C21: on every vector that has a stub, except for 8, 17, 21, 29 and 30, whose stubs push a
    zero although the processor pushes an error code ([error_code_misread]): the stubs build
    the frame that Interrupts.v starts from and call the handler with
    interrupts off and the segments of ring 0. After a handler that gives back the stack
    pointer and leaves the frame, but for the result in [rax], alone, the interrupted program
    goes on with its registers, flags and stack, except for [r10] to [r15], which are
    what the handler left, and [es], [fs] and [gs], which become [ds]. *)
Theorem isr_round_trip (rsp0 target n : Z) (errors : list Z) (c : mach)
  (Hok : mach_ok c) (Hn : has_stub n = true) (Hmatch : n ∉ mismatched)
  (Herrors : Forall (fun e => 0 <= e < 2 ^ 64) errors)
  (Hlen : length errors = if cpu_pushes_error n then 1%nat else 0%nat)
  (Hrsp0 : 0 <= rsp0 < 2 ^ 64) (Hroom : 160 <= ring0_stack rsp0 c) :
  let h := isr_enter rsp0 target errors n c in
  let s := gr h RSP in
  read_frame (isr_stack (context c) (int64_t <$> errors) n (int64_t (s + 32))) = Some (frame_at h s) /\
  Z.testbit (m_rflags h) 9 = false /\ (forall x, sr h x = 0x10) /\
  forall c', gr c' RSP = s -> (forall k, 0 <= k < 18 -> k <> 10 -> frame_word c' s k = frame_word h s k) ->
    let r := isr_leave c' in
    gr r RAX = frame_word c' s 10 /\ (forall x, x <> RAX -> x ∉ unsaved -> gr r x = gr c x) /\
    (m_rip r, m_cs r, m_rflags r, m_ss r) = (m_rip c, m_cs c, m_rflags c, m_ss c) /\
    (forall x, x ∈ unsaved -> gr r x = gr c' x) /\ (forall x, sr r x = sr c DS) /\ m_mem r = m_mem c'.
Proof.
  apply isr_round_trip_run; try done.
  - unfold has_stub in Hn. apply orb_true_iff in Hn as [Hn|Hn%Z.eqb_eq]; [| lia].
    apply andb_true_iff in Hn as [?%Z.leb_le ?%Z.leb_le]. lia.
  - rewrite stub_table by done. rewrite Hlen. by destruct (cpu_pushes_error n).
Qed.

(** ** A system call from its stub to the return *)

(** The registers at the stub's [int $0x80] (user/syscall.h): the number in rax and, for the
    one-argument stubs, the argument in rdi. *)
Definition user_stub (f : syscall_fn) (p1 : Z) (c : mach) : mach :=
  let c := if user_stub_argument f then set_gr RDI p1 c else c in set_gr RAX (user_stub_number f) c.

Lemma user_stub_ok f p1 c : mach_ok c -> 0 <= p1 < 2 ^ 64 -> mach_ok (user_stub f p1 c).
Proof.
  intros [Hg Hs Hi Hc Hf Hss] Hp. split; try (by destruct f).
  intros r. unfold user_stub. destruct (greg_eq_dec r RAX) as [->|Hr].
  - rewrite gr_set_eq. destruct f; cbn; lia.
  - rewrite gr_set_ne by done. destruct (user_stub_argument f); [| done].
    destruct (greg_eq_dec r RDI) as [->|Hr']; [by rewrite gr_set_eq | by rewrite gr_set_ne].
Qed.

Lemma load8_word m a : 0 <= load 8 m a < 2 ^ 64.
Proof. exact (load_bounds m 8 a). Qed.

(** Two words that are the same [int64_t] are the same. *)
Lemma int64_t_inj a b : 0 <= a < 2 ^ 64 -> 0 <= b < 2 ^ 64 -> int64_t a = int64_t b -> a = b.
Proof.
  intros Ha Hb E. rewrite <- (uint64_id a Ha), <- (uint64_id b Hb).
  pose proof (f_equal (uwrap 64) E) as E'. unfold int64_t in E'. by rewrite !uwrap_swrap in E' by lia.
Qed.

(** The words of a frame. *)
Definition frame_fields (r : registers_t) : list Z :=
  [ds r; r9 r; r8 r; rsp r; rbp r; rdi r; rsi r; rdx r; rcx r; rbx r; rax r; int_no r; err_code r; rip r; cs r; rflags r;
   userrsp r; ss r].

Lemma frame_fields_at c s : frame_fields (frame_at c s) = (fun k => int64_t (frame_word c s k)) <$> seqZ 0 18.
Proof. reflexivity. Qed.

Lemma frame_fields_return ret r : frame_fields (syscall_return ret r) = <[10%nat := int64_t ret]> (frame_fields r).
Proof. reflexivity. Qed.

(** A frame in memory that is another one with a result in its [rax]. *)
Lemma frame_result c' h s ret :
  0 <= ret < 2 ^ 64 -> frame_at c' s = syscall_return ret (frame_at h s) ->
  frame_word c' s 10 = ret /\ forall k, 0 <= k < 18 -> k <> 10 -> frame_word c' s k = frame_word h s k.
Proof.
  intros Hret E. apply (f_equal frame_fields) in E. rewrite frame_fields_return, !frame_fields_at in E.
  assert (forall k : nat, (k < 18)%nat -> forall v, (<[10%nat := int64_t ret]> ((fun k => int64_t (frame_word h s k)) <$> seqZ 0 18)) !! k = Some v ->
    int64_t (frame_word c' s (Z.of_nat k)) = v) as Hk.
  { intros k Hk v. rewrite <- E, list_lookup_fmap, lookup_seqZ_lt by lia. simpl. by intros [= <-]. }
  split.
  - apply int64_t_inj; [apply load8_word | done |]. apply (Hk 10%nat); [lia |].
    apply list_lookup_insert_eq. rewrite length_fmap, length_seqZ. lia.
  - intros k Hk0 Hne. apply int64_t_inj; [apply load8_word.. |]. rewrite <- (Z2Nat.id k) by lia.
    apply Hk; [lia |]. rewrite list_lookup_insert_ne by lia. rewrite list_lookup_fmap, lookup_seqZ_lt by lia. done.
Qed.

(** What the handler does with the frame of a stub. *)
Lemma syscall_frame handlers handlers' f call regs :
  syscalls_init handlers = Some handlers' -> rax regs = user_stub_number f -> int_no regs = 0x80 ->
  exists frame,
    isr_handler handlers' regs = Some [Write_apicr 0xb0 0; Call_handler syscall_handler_isr regs] /\
    syscall_handler regs = Called frame /\ callee frame = f /\ arg_rdi frame = rdi regs /\
    syscall_handler_frame call regs = Some (syscall_return (call frame) regs).
Proof.
  intros Hinit Hrax Hint.
  assert (exists frame, syscall_handler regs = Called frame /\ callee frame = f /\ arg_rdi frame = rdi regs)
    as (frame & Hcalled & Hf & Hrdi).
  { unfold syscall_handler, syscall_pushes. rewrite Hrax. destruct f; cbn; by eexists. }
  exists frame. split; [| split; [exact Hcalled | split; [exact Hf | split; [exact Hrdi |]]]].
  - unfold isr_handler. rewrite Hint. unfold syscalls_init, register_handler in Hinit. simpl in Hinit. simplify_eq.
    cbn. by rewrite lookup_insert_eq.
  - unfold syscall_handler_frame. by rewrite Hcalled.
Qed.

Lemma user_stub_registers f p1 c :
  gr (user_stub f p1 c) RAX = user_stub_number f /\ (user_stub_argument f = true -> gr (user_stub f p1 c) RDI = p1) /\
  (forall x, x <> RAX -> x <> RDI -> gr (user_stub f p1 c) x = gr c x) /\
  (m_rip (user_stub f p1 c), m_cs (user_stub f p1 c), m_rflags (user_stub f p1 c), m_ss (user_stub f p1 c)) =
    (m_rip c, m_cs c, m_rflags c, m_ss c).
Proof.
  unfold user_stub. split; [apply gr_set_eq |]. split; [| split; [| by destruct f]].
  - intros ->. by rewrite gr_set_ne, gr_set_eq.
  - intros x Hx Hx'. rewrite gr_set_ne by done. destruct (user_stub_argument f); [by rewrite gr_set_ne | done].
Qed.

(** C20: a system call made through a user stub arrives, through the interrupt
    frame, the dispatcher and the table, at the kernel function of the same name
    with the stub's argument in rdi, after the interrupt is acknowledged; and when the frame
    on the stack is the one that [syscall_handler] leaves, the program goes on behind its
    [int] with what the function returned in rax, on its own stack. *)
Theorem syscall_end_to_end (handlers handlers' : handler_table) (f : syscall_fn) (call : call_frame -> Z)
  (p1 rsp0 target : Z) (c : mach)
  (Hok : mach_ok c) (Hinit : syscalls_init handlers = Some handlers') (Hp1 : 0 <= p1 < 2 ^ 64)
  (Hcall : forall fr, 0 <= call fr < 2 ^ 64) (Hrsp0 : 0 <= rsp0 < 2 ^ 64) (Hroom : 160 <= ring0_stack rsp0 c) :
  let u := user_stub f p1 c in
  let h := isr_enter rsp0 target [] 0x80 u in
  let regs := frame_at h (gr h RSP) in
  exists frame regs',
    isr_handler handlers' regs = Some [Write_apicr 0xb0 0; Call_handler syscall_handler_isr regs] /\
    syscall_handler regs = Called frame /\ callee frame = f /\
    (user_stub_argument f = true -> arg_rdi frame = int64_t p1) /\
    syscall_handler_frame call regs = Some regs' /\
    forall c', gr c' RSP = gr h RSP -> frame_at c' (gr h RSP) = regs' ->
      let r := isr_leave c' in
      gr r RAX = call frame /\ (m_rip r, m_cs r, m_rflags r, m_ss r) = (m_rip c, m_cs c, m_rflags c, m_ss c) /\
      gr r RSP = gr c RSP /\ (forall x, x <> RAX -> x <> RDI -> x ∉ unsaved -> gr r x = gr c x).
Proof.
  intros u h regs. pose proof (user_stub_ok f p1 c Hok Hp1) as Hu. fold u in Hu.
  destruct (user_stub_registers f p1 c) as (Hax & Hdi & Hothers & Hctl). fold u in Hax, Hdi, Hothers, Hctl.
  assert (160 <= ring0_stack rsp0 u) as Hroom'.
  { assert (m_cs u = m_cs c) as Ecs by exact (f_equal (fun w => w.1.1.2) Hctl).
    unfold ring0_stack in *. by rewrite (Hothers RSP), Ecs by done. }
  destruct (isr_round_trip_run rsp0 target 0x80 [] u Hu ltac:(lia) ltac:(constructor) eq_refl Hrsp0 Hroom')
    as (Hframe & _ & _ & Hleave). fold h in Hframe, Hleave. fold regs in Hframe.
  rewrite isr_frame_spec in Hframe by done. apply (inj Some) in Hframe.
  assert (int64_t (user_stub_number f) = user_stub_number f) as En by (by destruct f).
  destruct (syscall_frame handlers handlers' f call regs Hinit) as (frame & Hisr & Hcalled & Hf & Hrdi & Hret).
  - rewrite <- Hframe. unfold context. cbn [rax cpu_rax]. by rewrite Hax.
  - by rewrite <- Hframe.
  - exists frame, (syscall_return (call frame) regs). do 3 (split; [done |]). split; [| split; [exact Hret |]].
    + intros Ha. rewrite Hrdi, <- Hframe. unfold context. cbn [rdi cpu_rdi]. by rewrite Hdi.
    + intros c' Hsp Hc'. destruct (frame_result c' h (gr h RSP) (call frame) (Hcall frame) Hc') as [H10 Hwords].
      destruct (Hleave c' Hsp Hwords) as (R1 & R2 & R3 & _). cbv zeta.
      split; [by rewrite R1 |]. split; [by rewrite R3 |]. split.
      * rewrite R2; [by apply Hothers | done | by apply (bool_decide_unpack (_ ∉ _))].
      * intros x Hx Hx' Hun. rewrite R2 by done. by apply Hothers.
Qed.

(** ** Exceptions with an error code but without its stub *)

(** For vectors 8 and 17, and 21, 29 and 30 of later processors, the processor pushes an
    error code, but their stubs push a zero for one: the zero is taken for the error code, and the error code for the address at which the
    interrupted program goes on. *)
Lemma error_code_misread (rsp0 target n e : Z) (c : mach) :
  mach_ok c -> n ∈ mismatched -> 0 <= e < 2 ^ 64 -> 0 <= rsp0 < 2 ^ 64 -> 160 <= ring0_stack rsp0 c ->
  stacked (ring0_stack rsp0 c) [n; 0; e; m_rip c; m_cs c; m_rflags c; gr c RSP; m_ss c]
    (exec_all (isr_stub n) (interrupt rsp0 target [e] c)).
Proof.
  intros Hok Hn He Hrsp0 Hroom. assert (Forall (fun e => 0 <= e < 2 ^ 64) [e]) as Hes by (by constructor).
  assert (stub_words n [e] c = [n; 0; e; m_rip c; m_cs c; m_rflags c; gr c RSP; m_ss c]) as <- 
    by (by repeat (apply elem_of_cons in Hn as [->|Hn]; [done |]); apply elem_of_nil in Hn).
  assert (0 <= n < 256) as Hn' by (by repeat (apply elem_of_cons in Hn as [->|Hn]; [lia |]); apply elem_of_nil in Hn). pose proof (le_n 1) as Hlen.
  destruct (interrupt_run rsp0 target n [e] c Hok Hn' Hes Hlen Hrsp0 Hroom) as (H1 & _).
  by eapply stub_run.
Qed.

(** A program in ring 3, a system call, and a handler that answers 5 and uses [r10]. *)
Definition demo_mach : mach := Mach (fun _ => 0x4000) (fun _ => 0x23) 0x400100 0x1b 0x202 0x23 ∅.

Definition demo_handler (c : mach) : mach := set_gr R10 7 (set_mem (store 8 (gr c RSP + 80) 5 (m_mem c)) c).

Lemma demo_mach_ok : mach_ok demo_mach.
Proof. split; intros; cbn; lia. Qed.

Lemma isr_round_trip_witness :
  let r := isr_leave (demo_handler (isr_enter 0xbffff000 0xc0100000 [] 0x80 demo_mach)) in
  gr r RAX = 5 /\ gr r RBX = 0x4000 /\ gr r R10 = 7 /\ m_rip r = 0x400100 /\ m_cs r = 0x1b.
Proof.
  destruct (isr_round_trip 0xbffff000 0xc0100000 0x80 [] demo_mach demo_mach_ok) as (_ & _ & _ & Hleave);
    [reflexivity | by apply (bool_decide_unpack (_ ∉ _)) | constructor | reflexivity | lia | vm_compute; discriminate |].
  revert Hleave. generalize (isr_enter 0xbffff000 0xc0100000 [] 0x80 demo_mach). intros h Hleave.
  destruct (Hleave (demo_handler h)) as (R1 & R2 & R3 & R4 & _); [reflexivity | |].
  - intros k Hk Hne. unfold frame_word, demo_handler. cbn [set_gr set_mem m_mem].
    change (gr (set_gr _ _ _) RSP) with (gr h RSP). apply load_store_other. lia.
  - cbv zeta. revert R1 R2 R3 R4. generalize (isr_leave (demo_handler h)). intros r R1 R2 R3 R4. split_and!.
    + rewrite R1. unfold frame_word, demo_handler. cbn [set_gr set_mem m_mem]. by apply load_store_same.
    + rewrite R2; [done | done | by apply (bool_decide_unpack (_ ∉ _))].
    + rewrite R4; [reflexivity | by apply (bool_decide_unpack (_ ∈ _))].
    + exact (f_equal (fun w => w.1.1.1) R3).
    + exact (f_equal (fun w => w.1.1.2) R3).
Defined.

(** The store of the result to the frame. *)
Lemma frame_at_store h s v :
  0 <= v < 2 ^ 64 -> frame_at (set_mem (store 8 (s + 80) v (m_mem h)) h) s = syscall_return v (frame_at h s).
Proof.
  intros Hv. unfold frame_at, syscall_return, set_rax, frame_word, set_mem. cbn [m_mem ds r9 r8 rsp rbp rdi rsi rdx rcx rbx int_no err_code rip cs rflags userrsp ss].
  replace (s + 8 * 10) with (s + 80) by lia. rewrite load_store_same by done.
  by rewrite !load_store_other by lia.
Qed.

(** [kmalloc(77)] by way of the gate, answered with 0xC0123450. *)
Lemma syscall_end_to_end_witness :
  let h := isr_enter 0xbffff000 0xc0100000 [] 0x80 (user_stub sys_kmalloc 77 demo_mach) in
  let r := isr_leave (set_mem (store 8 (gr h RSP + 80) 0xC0123450 (m_mem h)) h) in
  syscall_handler (frame_at h (gr h RSP)) = Called (CallFrame sys_kmalloc 77 0x4000 0x4000 0x4000 0x4000 0x4000) /\
  gr r RAX = 0xC0123450 /\ m_rip r = 0x400100.
Proof.
  destruct (syscall_end_to_end ∅ _ sys_kmalloc (fun _ => 0xC0123450) 77 0xbffff000 0xc0100000 demo_mach demo_mach_ok eq_refl)
    as (frame & regs' & _ & Hcalled & _ & _ & Hret & Hleave); [lia | intros; lia | lia | vm_compute; discriminate |].
  cbv zeta in *. assert (frame = CallFrame sys_kmalloc 77 0x4000 0x4000 0x4000 0x4000 0x4000) as ->.
  { clear -Hcalled. vm_compute in Hcalled. by injection Hcalled as <-. }
  revert Hcalled Hret Hleave. generalize (isr_enter 0xbffff000 0xc0100000 [] 0x80 (user_stub sys_kmalloc 77 demo_mach)).
  intros h Hcalled Hret Hleave. unfold syscall_handler_frame in Hret. rewrite Hcalled in Hret. injection Hret as <-.
  destruct (Hleave (set_mem (store 8 (gr h RSP + 80) 0xC0123450 (m_mem h)) h)) as (R1 & R2 & _);
    [done | by apply frame_at_store |].
  split; [exact Hcalled |]. cbv zeta in R1, R2 |- *. revert R1 R2.
  generalize (isr_leave (set_mem (store 8 (gr h RSP + 80) 0xC0123450 (m_mem h)) h)). intros r R1 R2.
  split; [exact R1 | exact (f_equal (fun w => w.1.1.1) R2)].
Defined.
