(* ===== verification/CLib.v ===== *)
(** The freestanding C library (lib/string.c, lib/stdlib.c) over the memory of
    Memory.v. The loops count in an [int] and compare it with a [size_t]: from
    [2 ^ 31] on the counter overflows, and the functions below have no result. *)

From S2P Require Import Prelude Words Console Memory.
#[local] Open Scope Z_scope.

(** * Definitions *)

(** The counters that do not overflow. *)
Definition int_count (n : Z) : bool := n <? 2 ^ 31.

(** ** stdlib.c *)

Definition memset (destaddr c n : Z) (m : mem) : option mem :=
  if int_count n then Some (for_range 0 n (fun i => store8 (destaddr + i) c) m) else None.

(** One round of the copying loops. *)
Definition copy_byte (dest src i : Z) (m : mem) : mem := store8 (dest + i) (load8 m (src + i)) m.

Definition memcpy (destaddr srcaddr n : Z) (m : mem) : option mem :=
  if int_count n then Some (for_range 0 n (copy_byte destaddr srcaddr) m) else None.

(** The second loop counts down from [n - 1]. *)
Definition memmove (destaddr srcaddr n : Z) (m : mem) : option mem :=
  if int_count n then
    Some (if destaddr <? srcaddr then for_range 0 n (copy_byte destaddr srcaddr) m
          else if srcaddr <? destaddr
          then for_range 0 n (fun j => copy_byte destaddr srcaddr (n - 1 - j)) m
          else m)
  else None.

(** ** string.c *)

(** [while (str[len++]);] *)
Definition strlen_step (m : mem) (str len : Z) : Z + Z :=
  if load8 m (str + len) =? 0 then inr (len + 1) else inl (len + 1).

Definition strlen (fuel : nat) (m : mem) (str : Z) : option Z := iter_fuel fuel (strlen_step m str) 0.

Definition strncmp (m : mem) (str str2 n : Z) : option Z :=
  if int_count n then
    Some (default 1 (for_first 0 n (fun i =>
      let a := load8 m (str + i) in
      let b := load8 m (str2 + i) in
      if (a =? 0) && (b =? 0) then Some 1
      else if (a =? 0) || (b =? 0) then Some 0
      else if negb (a =? b) then Some 0
      else None)))
  else None.

Definition strcmp_step (m : mem) (str str2 i : Z) : Z + Z :=
  let a := load8 m (str + i) in
  let b := load8 m (str2 + i) in
  if a =? b then
    if (a =? 0) && (b =? 0) then inr 1
    else if (a =? 0) || (b =? 0) then inr 0
    else inl (i + 1)
  else inr 0.

Definition strcmp (fuel : nat) (m : mem) (str str2 : Z) : option Z :=
  iter_fuel fuel (strcmp_step m str str2) 0.

(** The first loop of [strncpy], [n] rounds from [i] on: where it stops. *)
Fixpoint strncpy_copy (n : nat) (dest src i : Z) (m : mem) : Z * mem :=
  match n with
  | O => (i, m)
  | S n =>
      if load8 m (src + i) =? 0 then (i, m)
      else strncpy_copy n dest src (i + 1) (copy_byte dest src i m)
  end.

Definition strncpy (dest src n : Z) (m : mem) : option mem :=
  if int_count n then
    let '(i, m) := strncpy_copy (Z.to_nat n) dest src 0 m in
    Some (for_range i n (fun i => store8 (dest + i) 0) m)
  else None.

(** * Strings in memory *)

(** The characters [l], none of them 0, and a terminating 0. *)
Record cstr (m : mem) (s : Z) (l : list Z) : Prop := {
  cs_char : forall k, 0 <= k < Z.of_nat (length l) ->
    load8 m (s + k) = nth (Z.to_nat k) l 0 /\ nth (Z.to_nat k) l 0 <> 0;
  cs_end : load8 m (s + Z.of_nat (length l)) = 0
}.

(** The string that memory holds at [a], as [puts] reads it: the bytes up to the first
    zero, which is not behind more bytes than were ever written. *)
Fixpoint chars_at (n : nat) (m : mem) (a : Z) : list Z :=
  match n with
  | O => []
  | S n => if load8 m a =? 0 then [] else load8 m a :: chars_at n m (a + 1)
  end.

Definition text (m : mem) (a : Z) : string :=
  String.string_of_list_ascii ((fun c => Ascii.ascii_of_N (Z.to_N c)) <$> chars_at (S (base.size m)) m a).

(** * Proofs *)

Lemma memset_result dest c n m :
  0 <= n < 2 ^ 31 ->
  exists m', memset dest c n m = Some m' /\
    (forall i, 0 <= i < n -> load8 m' (dest + i) = c mod 256) /\ same_outside dest (dest + n) m m'.
Proof.
  intros Hn. unfold memset, int_count. rewrite (proj2 (Z.ltb_lt n (2 ^ 31))) by lia.
  eexists. split; [done |].
  apply (for_range_ind (fun k m' =>
    (forall i, 0 <= i < k -> load8 m' (dest + i) = c mod 256) /\ same_outside dest (dest + n) m m'));
    [lia | split; [lia | done] |].
  intros k m' Hk [Hin Hout]. split.
  - intros i Hi. rewrite load8_store8. case_decide; [done |]. apply Hin. lia.
  - intros a Ha. rewrite load8_store8_ne by lia. by apply Hout.
Qed.

(** A copying loop that goes up writes below what it still has to read. *)
Lemma copy_up dest src n m :
  0 <= n -> dest <= src ->
  let m' := for_range 0 n (copy_byte dest src) m in
  (forall i, 0 <= i < n -> load8 m' (dest + i) = load8 m (src + i)) /\
  same_outside dest (dest + n) m m'.
Proof.
  intros Hn Hd. simpl.
  enough ((forall i, 0 <= i < n -> load8 (for_range 0 n (copy_byte dest src) m) (dest + i) = load8 m (src + i)) /\
    same_outside dest (dest + n) m (for_range 0 n (copy_byte dest src) m)) by done.
  apply (for_range_ind (fun k m' =>
    (forall i, 0 <= i < k -> load8 m' (dest + i) = load8 m (src + i)) /\ same_outside dest (dest + k) m m'));
    [lia | split; [lia | done] |].
  intros k m' Hk [Hin Hout]. unfold copy_byte. split.
  - intros i Hi. rewrite load8_store8. case_decide.
    + rewrite Z.mod_small by apply load8_bounds. rewrite Hout by lia. f_equal. lia.
    + apply Hin. lia.
  - intros a Ha. rewrite load8_store8_ne by lia. apply Hout. lia.
Qed.

(** One that goes down writes above. *)
Lemma copy_down dest src n m :
  0 <= n -> src <= dest ->
  let m' := for_range 0 n (fun j => copy_byte dest src (n - 1 - j)) m in
  (forall i, 0 <= i < n -> load8 m' (dest + i) = load8 m (src + i)) /\
  same_outside dest (dest + n) m m'.
Proof.
  intros Hn Hd. cbn zeta.
  set (m' := for_range 0 n (fun j => copy_byte dest src (n - 1 - j)) m).
  assert ((forall i, n - n <= i < n -> load8 m' (dest + i) = load8 m (src + i)) /\
    same_outside (dest + (n - n)) (dest + n) m m') as [Hin Hout].
  { apply (for_range_ind (fun k m' =>
      (forall i, n - k <= i < n -> load8 m' (dest + i) = load8 m (src + i)) /\
      same_outside (dest + (n - k)) (dest + n) m m')); [lia | split; [lia | done] |].
    intros k m1 Hk [Hin Hout]. unfold copy_byte. split.
    - intros i Hi. rewrite load8_store8. case_decide.
      + rewrite Z.mod_small by apply load8_bounds. rewrite Hout by lia. f_equal. lia.
      + apply Hin. lia.
    - intros a Ha. rewrite load8_store8_ne by lia. apply Hout. lia. }
  split; [intros; apply Hin; lia |]. eapply same_outside_mono; [exact Hout | lia | lia].
Qed.

(** [memmove] copies the block whichever way the two blocks overlap, and
    writes nothing else. *)
Theorem memmove_spec (dest src n : Z) (m : mem) (Hn : 0 <= n < 2 ^ 31) :
  exists m', memmove dest src n m = Some m' /\
    (forall i, 0 <= i < n -> load8 m' (dest + i) = load8 m (src + i)) /\
    same_outside dest (dest + n) m m'.
Proof.
  unfold memmove, int_count. rewrite (proj2 (Z.ltb_lt n (2 ^ 31))) by lia.
  eexists. split; [done |]. destruct (Z.ltb_spec dest src); [apply copy_up; lia |].
  destruct (Z.ltb_spec src dest); [apply copy_down; lia |].
  assert (dest = src) as -> by lia. done.
Qed.

Lemma memcpy_result dest src n m :
  0 <= n < 2 ^ 31 -> dest <= src \/ src + n <= dest ->
  exists m', memcpy dest src n m = Some m' /\
    (forall i, 0 <= i < n -> load8 m' (dest + i) = load8 m (src + i)) /\
    same_outside dest (dest + n) m m'.
Proof.
  intros Hn Hd. unfold memcpy, int_count. rewrite (proj2 (Z.ltb_lt n (2 ^ 31))) by lia.
  eexists. split; [done |]. destruct Hd as [Hd|Hd]; [apply copy_up; lia |].
  apply (for_range_ind (fun k m' =>
    (forall i, 0 <= i < k -> load8 m' (dest + i) = load8 m (src + i)) /\ same_outside dest (dest + n) m m'));
    [lia | split; [lia | done] |].
  intros k m' Hk [Hin Hout]. unfold copy_byte. split.
  - intros i Hi. rewrite load8_store8. case_decide.
    + rewrite Z.mod_small by apply load8_bounds. rewrite Hout by lia. f_equal. lia.
    + apply Hin. lia.
  - intros a Ha. rewrite load8_store8_ne by lia. apply Hout. lia.
Qed.

Lemma nth_take_lt (l : list Z) (i n : nat) : (i < n)%nat -> nth i (take n l) 0 = nth i l 0.
Proof. intros. by rewrite !nth_lookup, lookup_take_lt. Qed.

(** When a round of the comparison goes on. *)
Lemma compare_goes_on (a b : Z) :
  (if (a =? 0) && (b =? 0) then Some 1 else if (a =? 0) || (b =? 0) then Some 0
   else if negb (a =? b) then Some 0 else None) = None -> a = b /\ a <> 0.
Proof.
  destruct (Z.eqb_spec a 0), (Z.eqb_spec b 0), (Z.eqb_spec a b); simpl; done.
Qed.

Section strings.
Context (m : mem).
Implicit Types (l : list Z) (s k : Z).

Lemma cstr_char s l k : cstr m s l -> 0 <= k -> k < Z.of_nat (length l) -> load8 m (s + k) <> 0.
Proof. intros Hs ? ?. destruct (cs_char _ _ _ Hs k) as [-> ?]; [lia | done]. Qed.

(** A string by computation. *)
Lemma cstr_check s l :
  forallb (fun j : nat => (load8 m (s + Z.of_nat j) =? nth j l 0) && negb (nth j l 0 =? 0)) (seq 0 (length l)) = true ->
  load8 m (s + Z.of_nat (length l)) = 0 -> cstr m s l.
Proof.
  rewrite forallb_forall. intros Hall Hend. split; [| done]. intros k Hk.
  specialize (Hall (Z.to_nat k)). rewrite Z2Nat.id in Hall by lia.
  destruct (andb_prop _ _ (Hall ltac:(apply in_seq; lia))) as [E Hn].
  apply Z.eqb_eq in E. apply negb_true_iff, Z.eqb_neq in Hn. done.
Qed.

(** The bytes are the C string at the address. *)
Lemma chars_at_prefix : forall n a k, 0 <= k < Z.of_nat (length (chars_at n m a)) ->
  load8 m (a + k) <> 0 /\ chars_at n m a !! Z.to_nat k = Some (load8 m (a + k)).
Proof.
  induction n as [| n IH]; intros a k Hk; simpl in *; [lia |].
  destruct (Z.eqb_spec (load8 m a) 0) as [E0 | E0]; simpl in *; [lia |].
  destruct (decide (k = 0)) as [-> | Hk0]; [by rewrite Z.add_0_r |].
  destruct (IH (a + 1) (k - 1)) as [Hn Hl]; [lia |]. replace (a + 1 + (k - 1)) with (a + k) in * by lia.
  split; [done |]. replace (Z.to_nat k) with (S (Z.to_nat (k - 1))) by lia. exact Hl.
Qed.

Lemma chars_at_end : forall n a, (length (chars_at n m a) < n)%nat -> load8 m (a + Z.of_nat (length (chars_at n m a))) = 0.
Proof.
  induction n as [| n IH]; intros a Hn; simpl in *; [lia |].
  destruct (Z.eqb_spec (load8 m a) 0) as [E0 | E0]; simpl in *; [by rewrite Z.add_0_r |].
  rewrite <- (IH (a + 1)) by lia. f_equal. lia.
Qed.

(** Bytes that are not zero are addresses of [m]. *)
Lemma chars_at_length n a : (length (chars_at n m a) <= base.size m)%nat.
Proof.
  set (l := (fun k => a + k) <$> seqZ 0 (Z.of_nat (length (chars_at n m a)))).
  assert (NoDup l) as Hnd by (apply NoDup_fmap_2; [intros x y; lia | apply NoDup_seqZ]).
  assert (list_to_set l ⊆ dom m) as Hsub.
  { intros x. rewrite elem_of_list_to_set. unfold l. intros (k & -> & Hk)%list_elem_of_fmap.
    apply elem_of_seqZ in Hk. destruct (chars_at_prefix n a k) as [Hne _]; [lia |].
    apply elem_of_dom. destruct (m !! (a + k)) as [v |] eqn:E; [by exists v |].
    exfalso. apply Hne. unfold load8. by rewrite E. }
  apply subseteq_size in Hsub. rewrite size_list_to_set, size_dom in Hsub by done.
  unfold l in Hsub. rewrite length_fmap, length_seqZ in Hsub. lia.
Qed.

Lemma text_cstr a : cstr m a (chars_at (S (base.size m)) m a).
Proof.
  pose proof (chars_at_length (S (base.size m)) a) as Hl. split; [| apply chars_at_end; lia].
  intros k Hk. destruct (chars_at_prefix _ a k Hk) as [Hne E].
  by rewrite (nth_lookup_Some _ _ 0 _ E).
Qed.

(** What a string holds at an index up to its terminator, as one function. *)
Lemma cstr_load s l k :
  cstr m s l -> 0 <= k <= Z.of_nat (length l) -> load8 m (s + k) = nth (Z.to_nat k) l 0.
Proof.
  intros Hs Hk. destruct (decide (k = Z.of_nat (length l))) as [->|].
  - rewrite (cs_end _ _ _ Hs), nth_overflow; [done | lia].
  - apply Hs. lia.
Qed.

Lemma strlen_result s l fuel :
  cstr m s l -> (length l < fuel)%nat -> strlen fuel m s = Some (Z.of_nat (length l) + 1).
Proof.
  intros Hs Hf.
  destruct (iter_fuel_total (strlen_step m s) (fun k => 0 <= k <= Z.of_nat (length l))
    (fun r => r = Z.of_nat (length l) + 1) (fun k => Z.of_nat (length l) - k) 0 fuel) as (r & Hr & ->);
    [| lia | lia | lia | done].
  intros k Hk. unfold strlen_step. destruct (Z.eqb_spec (load8 m (s + k)) 0) as [E|E].
  - destruct (decide (k = Z.of_nat (length l))) as [->|]; [done |].
    destruct (cstr_char s l k Hs); [lia | lia | done].
  - assert (k <> Z.of_nat (length l)); [| lia]. intros ->. by rewrite (cs_end _ _ _ Hs) in E.
Qed.

Section compare.
Context (s1 s2 : Z) (l1 l2 : list Z) (H1 : cstr m s1 l1) (H2 : cstr m s2 l2).

(** At an index where both strings go on, and they agree up to it. *)
Lemma cstr_agree_length k :
  (forall i, 0 <= i < k -> load8 m (s1 + i) = load8 m (s2 + i) /\ load8 m (s1 + i) <> 0) ->
  0 <= k -> k <= Z.of_nat (length l1) /\ k <= Z.of_nat (length l2).
Proof.
  intros Hag Hk. split.
  - destruct (decide (k <= Z.of_nat (length l1))); [done |].
    destruct (Hag (Z.of_nat (length l1))) as [_ E]; [lia |]. by rewrite (cs_end _ _ _ H1) in E.
  - destruct (decide (k <= Z.of_nat (length l2))); [done |].
    destruct (Hag (Z.of_nat (length l2))) as [E E']; [lia |]. rewrite E in E'.
    by rewrite (cs_end _ _ _ H2) in E'.
Qed.

Lemma cstr_agree_take k :
  (forall i, 0 <= i < k -> load8 m (s1 + i) = load8 m (s2 + i) /\ load8 m (s1 + i) <> 0) ->
  0 <= k -> take (Z.to_nat k) l1 = take (Z.to_nat k) l2.
Proof.
  intros Hag Hk. destruct (cstr_agree_length k Hag Hk) as [Hk1 Hk2].
  apply (nth_ext _ _ 0 0); [rewrite !length_take; lia |].
  intros n Hn. rewrite length_take in Hn. rewrite !nth_take_lt by lia.
  destruct (Hag (Z.of_nat n)) as [E _]; [lia |].
  rewrite (cstr_load s1 l1), (cstr_load s2 l2) in E by (done || lia). by rewrite Nat2Z.id in E.
Qed.

(** A difference at [k], where one string may have ended. *)
Lemma cstr_differ k n :
  (forall i, 0 <= i < k -> load8 m (s1 + i) = load8 m (s2 + i) /\ load8 m (s1 + i) <> 0) ->
  0 <= k < n -> load8 m (s1 + k) <> load8 m (s2 + k) ->
  take (Z.to_nat n) l1 <> take (Z.to_nat n) l2.
Proof.
  intros Hag Hk Hne E. destruct (cstr_agree_length k Hag) as [Hk1 Hk2]; [lia |].
  apply Hne. rewrite (cstr_load s1 l1), (cstr_load s2 l2) by (done || lia).
  rewrite <- (nth_take_lt l1 _ (Z.to_nat n)), E by lia. apply nth_take_lt. lia.
Qed.

(** Both end at [k]. *)
Lemma cstr_both_end k :
  (forall i, 0 <= i < k -> load8 m (s1 + i) = load8 m (s2 + i) /\ load8 m (s1 + i) <> 0) ->
  0 <= k -> load8 m (s1 + k) = 0 -> load8 m (s2 + k) = 0 -> l1 = l2.
Proof.
  intros Hag Hk E1 E2. destruct (cstr_agree_length k Hag Hk) as [Hk1 Hk2].
  assert (forall s l, cstr m s l -> k <= Z.of_nat (length l) -> load8 m (s + k) = 0 -> take (Z.to_nat k) l = l) as Hend.
  { intros s l Hs Hl E. apply take_ge. destruct (decide (k = Z.of_nat (length l))); [lia |].
    destruct (cstr_char s l k Hs); [lia | lia | done]. }
  rewrite <- (Hend s1 l1), <- (Hend s2 l2) by done. by apply cstr_agree_take.
Qed.

Lemma strncmp_result n :
  0 <= n < 2 ^ 31 ->
  strncmp m s1 s2 n =
    Some (if decide (take (Z.to_nat n) l1 = take (Z.to_nat n) l2) then 1 else 0).
Proof.
  intros Hn. unfold strncmp, int_count. rewrite (proj2 (Z.ltb_lt n (2 ^ 31))) by lia. f_equal.
  match goal with |- default 1 ?e = _ => destruct e as [r|] eqn:Ef end; simpl.
  - apply for_first_Some in Ef as (k & Hk & Hf & Hbefore).
    assert (forall i, 0 <= i < k -> load8 m (s1 + i) = load8 m (s2 + i) /\ load8 m (s1 + i) <> 0) as Hag.
    { intros i Hi. apply compare_goes_on, (Hbefore i Hi). }
    revert Hf. simpl.
    destruct (Z.eqb_spec (load8 m (s1 + k)) 0) as [E1|E1], (Z.eqb_spec (load8 m (s2 + k)) 0) as [E2|E2];
      simpl; [| | |destruct (Z.eqb_spec (load8 m (s1 + k)) (load8 m (s2 + k))); simpl];
      intros; simplify_eq.
    + by rewrite decide_True by (by rewrite (cstr_both_end k Hag ltac:(lia) E1 E2)).
    + rewrite decide_False; [done |]. apply (cstr_differ k n Hag); [lia | congruence].
    + rewrite decide_False; [done |]. apply (cstr_differ k n Hag); [lia | congruence].
    + rewrite decide_False; [done |]. by apply (cstr_differ k n Hag).
  - rewrite decide_True; [done |]. apply cstr_agree_take; [| lia].
    rewrite for_first_None in Ef. intros i Hi. apply compare_goes_on, (Ef i Hi).
Qed.
Lemma strcmp_result fuel :
  (length l1 < fuel)%nat ->
  strcmp fuel m s1 s2 = Some (if decide (l1 = l2) then 1 else 0).
Proof.
  intros Hf. unfold strcmp.
  pose (agree k := 0 <= k /\ forall i, 0 <= i < k -> load8 m (s1 + i) = load8 m (s2 + i) /\ load8 m (s1 + i) <> 0).
  destruct (iter_fuel_total (strcmp_step m s1 s2) agree
    (fun r => r = if decide (l1 = l2) then 1 else 0) (fun k => Z.of_nat (length l1) - k) 0 fuel)
    as (r & Hr & ->); [| split; lia | lia | lia | done].
  intros k [Hk Hag]. unfold strcmp_step.
  destruct (cstr_agree_length k Hag Hk) as [Hk1 Hk2].
  destruct (Z.eqb_spec (load8 m (s1 + k)) (load8 m (s2 + k))) as [E|E].
  - rewrite <- E. destruct (Z.eqb_spec (load8 m (s1 + k)) 0) as [E0|E0]; simpl.
    + rewrite decide_True; [done |]. apply (cstr_both_end k Hag Hk E0). congruence.
    + split; [split; [lia |] |].
      * intros i Hi. destruct (decide (i = k)) as [->|]; [done |]. apply Hag. lia.
      * assert (k <> Z.of_nat (length l1)); [| lia]. intros ->. by rewrite (cs_end _ _ _ H1) in E0.
  - rewrite decide_False; [done |]. intros ->. apply E.
    by rewrite (cstr_load s1 l2), (cstr_load s2 l2) by (done || lia).
Qed.
End compare.
End strings.

(** On terminated strings [strcmp] and [strncmp] return 1 for equal and 0 for
    different strings (of which [strncmp] looks at the first [n] characters), and
    [strlen] returns the length with the terminator counted. *)
Theorem string_functions_spec (m : mem) (s1 s2 : Z) (l1 l2 : list Z) (fuel : nat) (n : Z)
  (H1 : cstr m s1 l1) (H2 : cstr m s2 l2) (Hfuel : (length l1 < fuel)%nat) (Hn : 0 <= n < 2 ^ 31) :
  strcmp fuel m s1 s2 = Some (if decide (l1 = l2) then 1 else 0) /\
  strncmp m s1 s2 n = Some (if decide (take (Z.to_nat n) l1 = take (Z.to_nat n) l2) then 1 else 0) /\
  strlen fuel m s1 = Some (Z.of_nat (length l1) + 1).
Proof.
  split_and!; [by apply strcmp_result | by apply strncmp_result | by apply strlen_result].
Qed.

(** The copying loop of [strncpy] between strings that do not overlap. *)
Lemma strncpy_copy_spec dest src l n i m m0 :
  cstr m0 src l -> dest + i + Z.of_nat n <= src \/ src + Z.of_nat (length l) + 1 <= dest ->
  0 <= i <= Z.of_nat (length l) ->
  same_outside dest (dest + i) m0 m ->
  (forall k, 0 <= k < i -> load8 m (dest + k) = nth (Z.to_nat k) l 0) ->
  exists m', strncpy_copy n dest src i m = (Z.min (i + Z.of_nat n) (Z.of_nat (length l)), m') /\
    same_outside dest (dest + Z.min (i + Z.of_nat n) (Z.of_nat (length l))) m0 m' /\
    forall k, 0 <= k < Z.min (i + Z.of_nat n) (Z.of_nat (length l)) ->
      load8 m' (dest + k) = nth (Z.to_nat k) l 0.
Proof.
  intros Hs. revert i m; induction n as [|n IH]; intros i m Hd Hi Hout Hin; simpl.
  - exists m. replace (Z.min (i + Z.of_nat 0) (Z.of_nat (length l))) with i by lia. by split_and!.
  - assert (load8 m (src + i) = nth (Z.to_nat i) l 0) as E.
    { rewrite Hout by lia. by apply cstr_load. }
    destruct (decide (i = Z.of_nat (length l))) as [Ei|Ei].
    + assert (load8 m (src + i) = 0) as -> by (rewrite E, nth_overflow; [done | lia]). simpl.
      replace (Z.min (i + Z.of_nat (S n)) (Z.of_nat (length l))) with i by lia. exists m. by split_and!.
    + destruct (Z.eqb_spec (load8 m (src + i)) 0) as [E0|_].
      { destruct (cstr_char m0 src l i Hs); [lia | lia |]. rewrite Hout in E0 by lia. done. }
      replace (i + Z.of_nat (S n)) with (i + 1 + Z.of_nat n) by lia.
      apply IH; [lia | lia | |]; unfold copy_byte.
      * intros a Ha. rewrite load8_store8_ne by lia. apply Hout. lia.
      * intros k Hk. rewrite load8_store8. case_decide.
        -- rewrite Z.mod_small by apply load8_bounds. rewrite E. f_equal. lia.
        -- apply Hin. lia.
Qed.

Lemma strncpy_run (dest src n : Z) (l : list Z) (m : mem)
  (Hs : cstr m src l) (Hn : 0 <= n < 2 ^ 31)
  (Hd : dest + n <= src \/ src + Z.of_nat (length l) + 1 <= dest) :
  exists m', strncpy dest src n m = Some m' /\ same_outside dest (dest + n) m m' /\
    forall k, 0 <= k < n -> load8 m' (dest + k) = nth (Z.to_nat k) l 0.
Proof.
  unfold strncpy, int_count. rewrite (proj2 (Z.ltb_lt n (2 ^ 31))) by lia.
  destruct (strncpy_copy_spec dest src l (Z.to_nat n) 0 m m Hs) as (m1 & -> & Hout & Hin);
    [lia | lia | done | lia |].
  rewrite Z2Nat.id, Z.add_0_l in * by lia.
  eexists. split; [done |]. set (c := Z.min n (Z.of_nat (length l))) in *.
  apply (for_range_ind (fun i m' => same_outside dest (dest + n) m m' /\
    forall k, 0 <= k < i -> load8 m' (dest + k) = nth (Z.to_nat k) l 0)); [lia | |].
  - split; [eapply same_outside_mono; [exact Hout | lia | lia] | done].
  - intros i m' Hi [Hout' Hin']. split.
    + intros a Ha. rewrite load8_store8_ne by lia. by apply Hout'.
    + intros k Hk. rewrite load8_store8. case_decide; [| apply Hin'; lia].
      rewrite nth_overflow; [done | lia].
Qed.

(** [strncpy] writes exactly [n] bytes: the characters of the source, cut at
    [n], then zeros (so that a source of [n] characters or more leaves the copy
    unterminated). *)
Theorem strncpy_spec (dest src n : Z) (l : list Z) (m : mem)
  (Hs : cstr m src l) (Hn : 0 <= n < 2 ^ 31)
  (Hd : dest + n <= src \/ src + Z.of_nat (length l) + 1 <= dest) :
  exists m', strncpy dest src n m = Some m' /\ same_outside dest (dest + n) m m' /\
    forall k, 0 <= k < n -> load8 m' (dest + k) = nth (Z.to_nat k) l 0.
Proof. exact (strncpy_run dest src n l m Hs Hn Hd). Qed.

(** * Concrete inputs *)

(** "AB", "ABC" and a four-byte block. *)
Definition demo_mem : mem :=
  list_to_map [(100, 65); (101, 66); (102, 0); (200, 65); (201, 66); (202, 67); (203, 0)].

Lemma demo_cstr : cstr demo_mem 100 [65; 66] /\ cstr demo_mem 200 [65; 66; 67].
Proof.
  split; (split; [| done]); simpl; intros k Hk.
  - assert (k = 0 \/ k = 1) as [-> | ->] by lia; done.
  - assert (k = 0 \/ k = 1 \/ k = 2) as [-> | [-> | ->]] by lia; done.
Qed.

Lemma memmove_spec_witness :
  exists m', memmove 101 100 2 demo_mem = Some m' /\ load8 m' 101 = 65 /\ load8 m' 102 = 66.
Proof.
  destruct (memmove_spec 101 100 2 demo_mem ltac:(lia)) as (m' & E & Hc & _).
  exists m'. split_and!; [done | apply (Hc 0); lia | apply (Hc 1); lia].
Defined.

Lemma string_functions_spec_witness :
  strcmp 3 demo_mem 100 200 = Some 0 /\ strncmp demo_mem 100 200 2 = Some 1 /\
  strlen 3 demo_mem 100 = Some 3.
Proof.
  exact (string_functions_spec demo_mem 100 200 _ _ 3 2 (proj1 demo_cstr) (proj2 demo_cstr)
    ltac:(simpl; lia) ltac:(lia)).
Defined.

Lemma strncpy_spec_witness :
  exists m', strncpy 300 200 2 demo_mem = Some m' /\ load8 m' 300 = 65 /\ load8 m' 301 = 66.
Proof.
  destruct (strncpy_spec 300 200 2 _ demo_mem (proj2 demo_cstr) ltac:(lia) ltac:(simpl; lia))
    as (m' & E & _ & Hc).
  exists m'. split_and!; [done | apply (Hc 0); lia | apply (Hc 1); lia].
Defined.
