(* ===== verification/OrderedArray.v ===== *)
(** Ordered arrays (kernel/ordered_array.c): an [ordered_array_t] in memory, whose
    [array] is a block of 64-bit cells kept in the order of [less_than]. *)

From Stdlib Require Import Sorting.Sorted.
From S2P Require Import Prelude Words Memory CLib Allocator.
#[local] Open Scope Z_scope.

(** * Layout *)

(** The fields of the [ordered_array_t] at [p]. [less_than] (at [p + 24]) is a
    function pointer and is passed to the operations that call it. *)
Definition arr_array (m : mem) (p : Z) : Z := load64 m p.
Definition arr_size (m : mem) (p : Z) : Z := load64 m (p + 8).
Definition arr_max_size (m : mem) (p : Z) : Z := load64 m (p + 16).
Definition sizeof_ordered_array : Z := 32.

Definition arr_cell (m : mem) (p i : Z) : Z := load64 m (arr_array m p + 8 * i).
Definition set_arr_cell (p i v : Z) (m : mem) : mem := store64 (arr_array m p + 8 * i) v m.
Definition set_arr_size (p v : Z) (m : mem) : mem := store64 (p + 8) v m.

(** * Operations *)

Definition standard_lessthan_predicate (a b : Z) : bool := a <? b.

(** [*p = place_ordered_array(addr, max_size, less_than)]: the callers store the
    returned structure at once. *)
Definition place_ordered_array (p addr max_size less_than : Z) (m : mem) : option mem :=
  m ← memset addr 0 (max_size * 8)%word m;
  Some (store64 (p + 24) less_than (store64 (p + 16) max_size (store64 (p + 8) 0 (store64 p addr m)))).

(** [*p = create_ordered_array(max_size, less_than)]: the same in a block of its own. Nobody calls it,
    nor [destroy_ordered_array], which does nothing: the block would never be given back. *)
Definition create_ordered_array {H : Type} `{Allocator H} (p max_size less_than : Z) (h : H) (m : mem) : option (H * mem) :=
  '(array, h) ← kmalloc (max_size * 8)%word h;
  m ← place_ordered_array p array max_size less_than m;
  Some (h, m).

Definition destroy_ordered_array (p : Z) (m : mem) : mem := m.

Definition lookup_ordered_array (i p : Z) (m : mem) : Z :=
  if i <? arr_size m p then arr_cell m p i else 0.

(** The index at which the search loop of [insert_ordered_array] stops. *)
Definition insert_position (less_than : mem -> Z -> Z -> bool) (item p : Z) (m : mem) : Z :=
  default (arr_size m p) (for_first 0 (arr_size m p) (fun i =>
    if less_than m (arr_cell m p i) item then None else Some i)).

(** The cells from [i] on move up by one, and [array->size] grows. *)
Definition insert_ordered_array (less_than : mem -> Z -> Z -> bool) (item p : Z) (m : mem) : mem :=
  let i := insert_position less_than item p m in
  if i =? arr_size m p then
    set_arr_size p (arr_size m p + 1)%word (set_arr_cell p (arr_size m p) item m)
  else
    let tmp := arr_cell m p i in
    let '(_, m) :=
      for_range i (arr_size m p) (fun i '(tmp, m) =>
        (arr_cell m p (i + 1), set_arr_cell p (i + 1) tmp m))
        (tmp, set_arr_cell p i item m) in
    set_arr_size p (arr_size m p + 1)%word m.

(** The cell past the last is read, and [size] decreases, whatever [i] is. *)
Definition remove_ordered_array (i p : Z) (m : mem) : mem :=
  let m := for_range i (arr_size m p) (fun i m => set_arr_cell p i (arr_cell m p (i + 1)) m) m in
  set_arr_size p (arr_size m p - 1)%word m.

(** * What the array holds *)

Record entries (m : mem) (p : Z) (l : list Z) : Prop := {
  en_size : arr_size m p = Z.of_nat (length l);
  en_cell : forall i, 0 <= i < Z.of_nat (length l) -> arr_cell m p i = nth (Z.to_nat i) l 0
}.

(** Room for [n] cells, apart from the structure. *)
Definition arr_room (m : mem) (p n : Z) : Prop :=
  arr_array m p + 8 * n <= p \/ p + sizeof_ordered_array <= arr_array m p.

(** A placed array has no entries, whatever the cells held. *)
Lemma place_ordered_array_empty p addr n lt m :
  0 <= addr < 2 ^ 64 -> 0 <= n < 2 ^ 28 ->
  exists m', place_ordered_array p addr n lt m = Some m' /\ entries m' p [] /\ arr_array m' p = addr /\ arr_max_size m' p = n.
Proof.
  intros Ha Hn. unfold place_ordered_array. rewrite (uint64_id (n * 8)) by (unfold is_word; lia).
  destruct (memset_result addr 0 (n * 8) m ltac:(lia)) as (m1 & -> & _). cbn [mbind option_bind]. eexists. split; [reflexivity |].
  unfold arr_array, arr_max_size. split_and!.
  - split; [| simpl; lia]. unfold arr_size. rewrite !(load_store_other _ _ _ (_ + 24)), !(load_store_other _ _ _ (_ + 16)) by lia.
    by apply (load_store_same _ 8).
  - rewrite !(load_store_other _ _ _ (_ + 24)), !(load_store_other _ _ _ (_ + 16)), !(load_store_other _ _ _ (_ + 8)) by lia.
    by apply (load_store_same _ 8).
  - rewrite !(load_store_other _ _ _ (_ + 24)) by lia. apply (load_store_same _ 8). lia.
Qed.

(** A created array is empty, in a block that nobody had. *)
Lemma create_ordered_array_spec {H : Type} `{Allocator H} p n lt (h : H) m a h1 :
  heap_ok h -> 0 < n < 2 ^ 28 -> kmalloc (n * 8) h = Some (a, h1) ->
  exists m', create_ordered_array p n lt h m = Some (h1, m') /\ entries m' p [] /\ arr_array m' p = a /\
    heap_ok h1 /\ (a ∉ live h) /\ live h1 = {[a]} ∪ live h.
Proof.
  intros Hh Hn E. destruct (kmalloc_spec (n * 8) h a h1 Hh ltac:(lia) E) as (? & Ha & ? & ?).
  unfold create_ordered_array. rewrite (uint64_id (n * 8)) by (unfold is_word; lia). rewrite E. cbn [mbind option_bind].
  destruct (place_ordered_array_empty p a n lt m ltac:(lia) ltac:(lia)) as (m' & -> & ? & ? & _). cbn [mbind option_bind].
  eexists. by split_and!.
Qed.

(** The list that [insert_ordered_array] leaves. *)
Fixpoint insert_before (lt : Z -> Z -> bool) (item : Z) (l : list Z) : list Z :=
  match l with
  | [] => [item]
  | x :: l' => if lt x item then x :: insert_before lt item l' else item :: l
  end.

(** Nothing but the structure's [size] and the first [n] cells changes. *)
Definition array_frame (p n : Z) (m m' : mem) : Prop :=
  forall a, ~ (p + 8 <= a < p + 16) -> ~ (arr_array m p <= a < arr_array m p + 8 * n) ->
    load8 m' a = load8 m a.

Section proofs.
Implicit Types (m : mem) (p i n item : Z) (l : list Z).

Lemma arr_cell_bounds m p i : 0 <= arr_cell m p i < 2 ^ 64.
Proof. apply (load_bounds m 8). Qed.

Lemma arr_size_bounds m p : 0 <= arr_size m p < 2 ^ 64.
Proof. apply (load_bounds m 8). Qed.

Lemma arr_cell_word m p l i :
  entries m p l -> 0 <= i < Z.of_nat (length l) -> 0 <= nth (Z.to_nat i) l 0 < 2 ^ 64.
Proof. intros He Hi. rewrite <- (en_cell _ _ _ He) by done. apply arr_cell_bounds. Qed.

Section cells.
Context (m : mem) (p n : Z) (Hroom : arr_room m p n).

Lemma set_cell_array i v : 0 <= i < n -> arr_array (set_arr_cell p i v m) p = arr_array m p.
Proof.
  intros Hi. apply load_store_other. unfold arr_room, sizeof_ordered_array in Hroom. simpl. lia.
Qed.

Lemma set_cell_size i v : 0 <= i < n -> arr_size (set_arr_cell p i v m) p = arr_size m p.
Proof.
  intros Hi. apply load_store_other. unfold arr_room, sizeof_ordered_array in Hroom. simpl. lia.
Qed.

Lemma set_cell_cell i j v :
  0 <= i < n -> 0 <= v < 2 ^ 64 ->
  arr_cell (set_arr_cell p i v m) p j = if decide (i = j) then v else arr_cell m p j.
Proof.
  intros Hi Hv. unfold arr_cell at 1. rewrite set_cell_array by done. unfold set_arr_cell.
  case_decide as E; [subst; by apply load_store_same |].
  apply load_store_other. simpl. lia.
Qed.

Lemma set_cell_frame i v : 0 <= i < n -> array_frame p n m (set_arr_cell p i v m).
Proof. intros Hi a Ha Ha'. apply load8_store. simpl. lia. Qed.

Lemma set_size_array v : arr_array (set_arr_size p v m) p = arr_array m p.
Proof. apply load_store_other. simpl. lia. Qed.

Lemma set_size_size v : 0 <= v < 2 ^ 64 -> arr_size (set_arr_size p v m) p = v.
Proof. intros. by apply load_store_same. Qed.

Lemma set_size_cell v j : 0 <= j < n -> arr_cell (set_arr_size p v m) p j = arr_cell m p j.
Proof.
  intros Hj. unfold arr_cell. rewrite set_size_array. apply load_store_other.
  unfold arr_room, sizeof_ordered_array in Hroom. simpl. lia.
Qed.

Lemma set_size_frame v : array_frame p n m (set_arr_size p v m).
Proof. intros a Ha Ha'. apply load8_store. simpl. lia. Qed.
End cells.

Lemma array_frame_trans p n m1 m2 m3 :
  array_frame p n m1 m2 -> arr_array m2 p = arr_array m1 p -> array_frame p n m2 m3 ->
  array_frame p n m1 m3.
Proof. intros H1 E H2 a Ha Ha'. rewrite H2, H1; [done | done | done | done | by rewrite E]. Qed.

(** What every round of a shifting loop keeps, with the cells as [f] says. *)
Record shifted (m0 m : mem) p n (f : Z -> Z) : Prop := {
  sh_array : arr_array m p = arr_array m0 p;
  sh_size : arr_size m p = arr_size m0 p;
  sh_cell : forall j, 0 <= j < n -> arr_cell m p j = f j;
  sh_frame : array_frame p n m0 m
}.

Lemma shifted_room m0 m p n f : shifted m0 m p n f -> arr_room m0 p n -> arr_room m p n.
Proof. intros Hs. unfold arr_room. by rewrite (sh_array _ _ _ _ _ Hs). Qed.

Lemma shifted_refl m p n : shifted m m p n (arr_cell m p).
Proof. by split. Qed.

Lemma shifted_ext m0 m p n f g :
  shifted m0 m p n f -> (forall j, 0 <= j < n -> f j = g j) -> shifted m0 m p n g.
Proof. intros [? ? Hc ?] E. split; try done. intros j Hj. by rewrite Hc, E. Qed.

Lemma shifted_set m0 m p n f i v :
  arr_room m0 p n -> shifted m0 m p n f -> 0 <= i < n -> 0 <= v < 2 ^ 64 ->
  shifted m0 (set_arr_cell p i v m) p n (fun j => if decide (i = j) then v else f j).
Proof.
  intros Hr Hs Hi Hv. pose proof (shifted_room _ _ _ _ _ Hs Hr) as Hr'. destruct Hs as [Ha Hsz Hc Hf].
  split.
  - by rewrite (set_cell_array _ _ n).
  - by rewrite (set_cell_size _ _ n).
  - intros j Hj. rewrite (set_cell_cell _ _ n) by done. case_decide; [done | by apply Hc].
  - eapply array_frame_trans; [exact Hf | done | by apply set_cell_frame].
Qed.

Lemma shifted_finish m0 m p n f l v :
  arr_room m0 p n -> shifted m0 m p n f ->
  v = Z.of_nat (length l) -> Z.of_nat (length l) <= n -> v < 2 ^ 64 ->
  (forall i, 0 <= i < Z.of_nat (length l) -> f i = nth (Z.to_nat i) l 0) ->
  entries (set_arr_size p v m) p l /\ array_frame p n m0 (set_arr_size p v m) /\
  arr_array (set_arr_size p v m) p = arr_array m0 p.
Proof.
  intros Hr Hs -> Hn Hw Hl. pose proof (shifted_room _ _ _ _ _ Hs Hr) as Hr'.
  destruct Hs as [Ha Hsz Hc Hf]. split_and!.
  - split; [apply set_size_size; lia |]. intros i Hi.
    rewrite (set_size_cell _ _ n), Hc by (done || lia). by apply Hl.
  - eapply array_frame_trans; [exact Hf | done | by apply set_size_frame].
  - by rewrite set_size_array.
Qed.

(** The loop of the insertion. *)
Lemma insert_loop m p n i item :
  arr_room m p n -> 0 <= i < arr_size m p -> arr_size m p < n -> 0 <= item < 2 ^ 64 ->
  let '(_, m') :=
    for_range i (arr_size m p) (fun i '(tmp, m) => (arr_cell m p (i + 1), set_arr_cell p (i + 1) tmp m))
      (arr_cell m p i, set_arr_cell p i item m) in
  shifted m m' p n (fun j =>
    if j <? i then arr_cell m p j else if j =? i then item
    else if j <=? arr_size m p then arr_cell m p (j - 1) else arr_cell m p j).
Proof.
  intros Hr Hi Hn Hitem. set (N := arr_size m p) in *.
  pose (g k j := if j <? i then arr_cell m p j else if j =? i then item
                 else if j <=? k then arr_cell m p (j - 1) else arr_cell m p j).
  assert (let '(tmp, m') := for_range i N
      (fun i '(tmp, m) => (arr_cell m p (i + 1), set_arr_cell p (i + 1) tmp m))
      (arr_cell m p i, set_arr_cell p i item m) in
    tmp = arr_cell m p N /\ shifted m m' p n (g N)) as Hend;
    [| revert Hend; destruct (for_range i N _ _); by intros [_ ?]].
  apply (for_range_ind (fun k '(tmp, m') => tmp = arr_cell m p k /\ shifted m m' p n (g k))); [lia | |].
  - split; [done |]. eapply shifted_ext; [apply shifted_set; [done | apply shifted_refl | lia | done] |].
    intros j Hj. unfold g. simpl. zbool_cases; by case_decide; try lia.
  - intros k [tmp m'] Hk [-> Hs]. split.
    + rewrite (sh_cell _ _ _ _ _ Hs) by lia. unfold g. zbool_cases.
    + eapply shifted_ext; [apply shifted_set; [done | exact Hs | lia | apply arr_cell_bounds] |].
      intros j Hj. unfold g. simpl. case_decide; zbool_cases; f_equal; lia.
Qed.

Lemma insert_position_spec (lt : mem -> Z -> Z -> bool) m p l item :
  entries m p l ->
  exists i : nat, insert_position lt item p m = Z.of_nat i /\ (i <= length l)%nat /\
    insert_before (lt m) item l = take i l ++ item :: drop i l.
Proof.
  intros He. unfold insert_position. rewrite (en_size _ _ _ He).
  assert (forall k (Hk : 0 <= k <= Z.of_nat (length l)),
    (forall i, 0 <= i < k -> lt m (nth (Z.to_nat i) l 0) item = true) ->
    (k = Z.of_nat (length l) \/ lt m (nth (Z.to_nat k) l 0) item = false) ->
    insert_before (lt m) item l = take (Z.to_nat k) l ++ item :: drop (Z.to_nat k) l) as Hspec.
  { clear He. induction l as [|x l IH]; intros k Hk Hlt Hend; simpl in *.
    - by replace k with 0 by lia.
    - destruct (decide (k = 0)) as [->|].
      + destruct Hend as [?|Hend]; [lia |]. simpl in Hend. by rewrite Hend.
      + pose proof (Hlt 0 ltac:(lia)) as H0. simpl in H0. rewrite H0.
        replace (Z.to_nat k) with (S (Z.to_nat (k - 1))) by lia. simpl. f_equal.
        apply IH; [lia | |].
        * intros i Hi. specialize (Hlt (i + 1) ltac:(lia)).
          by replace (Z.to_nat (i + 1)) with (S (Z.to_nat i)) in Hlt by lia.
        * destruct Hend as [?|Hend]; [left; lia | right].
          by replace (Z.to_nat k) with (S (Z.to_nat (k - 1))) in Hend by lia. }
  match goal with |- context [default _ ?e] => destruct e as [r|] eqn:Ef end; simpl.
  - apply for_first_Some in Ef as (k & Hk & Hf & Hb). exists (Z.to_nat k).
    rewrite (en_cell _ _ _ He) in Hf by done.
    destruct (lt m (nth (Z.to_nat k) l 0) item) eqn:E; [done |]. simplify_eq.
    split_and!; [lia | lia |]. apply Hspec; [lia | | by right].
    intros i Hi. specialize (Hb i Hi). simpl in Hb. rewrite (en_cell _ _ _ He) in Hb by lia.
    by destruct (lt m (nth (Z.to_nat i) l 0) item).
  - exists (length l). split_and!; [done | lia |]. rewrite for_first_None in Ef.
    rewrite <- (Nat2Z.id (length l)). apply Hspec; [lia | | by left].
    intros i Hi. specialize (Ef i Hi). simpl in Ef. rewrite (en_cell _ _ _ He) in Ef by lia.
    by destruct (lt m (nth (Z.to_nat i) l 0) item).
Qed.

Lemma nth_insert_at l (i : nat) item k :
  (i <= length l)%nat -> 0 <= k ->
  nth (Z.to_nat k) (take i l ++ item :: drop i l) 0 =
    (if k <? Z.of_nat i then nth (Z.to_nat k) l 0 else if k =? Z.of_nat i then item
     else nth (Z.to_nat (k - 1)) l 0).
Proof.
  intros Hi Hk. rewrite !nth_lookup.
  destruct (Z.ltb_spec k (Z.of_nat i)).
  - rewrite lookup_app_l by (rewrite length_take; lia). by rewrite lookup_take_lt by lia.
  - rewrite lookup_app_r by (rewrite length_take; lia). rewrite length_take, Nat.min_l by lia.
    destruct (Z.eqb_spec k (Z.of_nat i)).
    + by replace (Z.to_nat k - i)%nat with O by lia.
    + replace (Z.to_nat k - i)%nat with (S (Z.to_nat (k - 1) - i)) by lia. simpl.
      rewrite lookup_drop. by replace (i + (Z.to_nat (k - 1) - i))%nat with (Z.to_nat (k - 1)) by lia.
Qed.

Lemma length_insert_at l (i : nat) item :
  (i <= length l)%nat -> length (take i l ++ item :: drop i l) = S (length l).
Proof. intros. rewrite length_app, length_take. simpl. rewrite length_drop. lia. Qed.

Lemma insert_result (lt : mem -> Z -> Z -> bool) m p n l item :
  entries m p l -> arr_room m p n -> Z.of_nat (length l) + 1 <= n -> Z.of_nat (length l) + 1 < 2 ^ 64 ->
  0 <= item < 2 ^ 64 ->
  let m' := insert_ordered_array lt item p m in
  entries m' p (insert_before (lt m) item l) /\ array_frame p n m m' /\ arr_array m' p = arr_array m p.
Proof.
  intros He Hr Hn Hw Hitem. simpl. unfold insert_ordered_array.
  destruct (insert_position_spec lt m p l item He) as (i & -> & Hi & ->).
  pose proof (en_size _ _ _ He) as Hsz. rewrite !Hsz.
  assert ((Z.of_nat (length l) + 1)%word = Z.of_nat (length l) + 1) as Eadd by (apply uint64_id; unfold is_word; lia).
  rewrite Eadd. clear Eadd.
  destruct (Z.eqb_spec (Z.of_nat i) (Z.of_nat (length l))) as [Ei|Ei].
  - eapply (shifted_finish m _ p n); [done | apply shifted_set; [done | apply shifted_refl | lia | done] | | | |].
    + rewrite length_insert_at by done. lia.
    + rewrite length_insert_at by done. lia.
    + lia.
    + rewrite length_insert_at by done. intros k Hk. rewrite nth_insert_at by lia. simpl.
      case_decide; zbool_cases. apply He. lia.
  - pose proof (insert_loop m p n (Z.of_nat i) item Hr ltac:(lia) ltac:(lia) Hitem) as Hl.
    rewrite Hsz in Hl. destruct (for_range _ _ _ _) as [tmp m1].
    rewrite (sh_size _ _ _ _ _ Hl), Hsz.
    assert ((Z.of_nat (length l) + 1)%word = Z.of_nat (length l) + 1) as Eadd by (apply uint64_id; unfold is_word; lia).
    rewrite Eadd. eapply (shifted_finish m m1 p n); [done | exact Hl | | | |].
    + rewrite length_insert_at by done. lia.
    + rewrite length_insert_at by done. lia.
    + lia.
    + rewrite length_insert_at by done. intros k Hk. rewrite nth_insert_at by lia. simpl.
      zbool_cases; apply He; lia.
Qed.

(** The loop of the removal. *)
Lemma remove_loop m p n i :
  arr_room m p n -> 0 <= i < arr_size m p -> arr_size m p < n ->
  shifted m (for_range i (arr_size m p) (fun i m => set_arr_cell p i (arr_cell m p (i + 1)) m) m) p n
    (fun j => if (i <=? j) && (j <? arr_size m p) then arr_cell m p (j + 1) else arr_cell m p j).
Proof.
  intros Hr Hi Hn. set (N := arr_size m p) in *.
  apply (for_range_ind (fun k m' => shifted m m' p n
    (fun j => if (i <=? j) && (j <? k) then arr_cell m p (j + 1) else arr_cell m p j))); [lia | |].
  - eapply shifted_ext; [apply shifted_refl |]. intros j Hj. simpl. zbool_cases.
  - intros k m' Hk Hs. eapply shifted_ext;
      [apply shifted_set; [done | exact Hs | lia | apply arr_cell_bounds] |].
    intros j Hj. simpl. rewrite (sh_cell _ _ _ _ _ Hs) by lia.
    case_decide; zbool_cases; simpl; f_equal; lia.
Qed.

Lemma remove_result m p n l i :
  entries m p l -> arr_room m p n -> Z.of_nat (length l) < n -> 0 <= i < Z.of_nat (length l) ->
  let m' := remove_ordered_array i p m in
  entries m' p (delete (Z.to_nat i) l) /\ array_frame p n m m' /\ arr_array m' p = arr_array m p.
Proof.
  intros He Hr Hn Hi. simpl. unfold remove_ordered_array.
  pose proof (en_size _ _ _ He) as Hsz. pose proof (arr_size_bounds m p) as Hb.
  pose proof (remove_loop m p n i Hr ltac:(lia) ltac:(lia)) as Hl.
  set (m1 := for_range _ _ _ _) in *. rewrite (sh_size _ _ _ _ _ Hl), Hsz.
  assert (S (length (delete (Z.to_nat i) l)) = length l) as Hlen.
  { destruct (lookup_lt_is_Some_2 l (Z.to_nat i)) as [x Hx]; [lia |].
    rewrite length_delete by eauto. lia. }
  assert ((Z.of_nat (length l) - 1)%word = Z.of_nat (length l) - 1) as -> by (apply uint64_id; unfold is_word; lia).
  eapply (shifted_finish m m1 p n); [done | exact Hl | lia | lia | lia |].
  intros k Hk. simpl. rewrite Hsz. rewrite !nth_lookup.
  destruct (Z.leb_spec i k), (Z.ltb_spec k (Z.of_nat (length l))); simpl; try lia.
  - rewrite (en_cell _ _ _ He), nth_lookup by lia.
    rewrite list_lookup_delete_ge by lia. by replace (Z.to_nat (k + 1)) with (S (Z.to_nat k)) by lia.
  - rewrite (en_cell _ _ _ He), nth_lookup by lia. by rewrite list_lookup_delete_lt by lia.
Qed.

Lemma insert_before_perm (lt : Z -> Z -> bool) item l : insert_before lt item l ≡ₚ item :: l.
Proof.
  induction l as [|x l IH]; simpl; [done |]. case_match; [| done]. rewrite IH. apply Permutation_swap.
Qed.

(** In an array in order the item finds its place: no later entry is less than an
    earlier one. *)
Lemma insert_before_sorted (lt : Z -> Z -> bool) item l :
  (forall x y z, lt x y = false -> lt y z = false -> lt x z = false) ->
  (forall x y, lt x y = true -> lt y x = false) ->
  StronglySorted (fun x y => lt y x = false) l ->
  StronglySorted (fun x y => lt y x = false) (insert_before lt item l).
Proof.
  intros Htr Has. induction l as [|x l IH]; simpl; intros Hs; [repeat constructor |].
  apply StronglySorted_inv in Hs as [Hs Hx]. destruct (lt x item) eqn:E.
  - constructor; [by apply IH |]. apply Forall_forall. intros y Hy.
    rewrite insert_before_perm in Hy. apply elem_of_cons in Hy as [->|Hy]; [by apply Has |].
    rewrite Forall_forall in Hx. by apply Hx.
  - constructor; [by constructor |]. constructor; [done |].
    eapply Forall_impl; [exact Hx |]. intros y Hy. exact (Htr _ _ _ Hy E).
Qed.
End proofs.

(** [insert_ordered_array] puts the item before the first entry that is not
    less than it and keeps all others in order, so that a sorted array stays
    sorted, and writes only the array's cells and its [size]. *)
Theorem insert_ordered_array_spec (lt : mem -> Z -> Z -> bool) (m : mem) (p item : Z) (l : list Z)
  (He : entries m p l) (Hroom : arr_room m p (Z.of_nat (length l) + 1))
  (Hlen : Z.of_nat (length l) + 1 < 2 ^ 64) (Hitem : 0 <= item < 2 ^ 64) :
  let m' := insert_ordered_array lt item p m in
  exists l', entries m' p l' /\ l' ≡ₚ item :: l /\
    array_frame p (Z.of_nat (length l) + 1) m m' /\
    ((forall x y z, lt m x y = false -> lt m y z = false -> lt m x z = false) ->
     (forall x y, lt m x y = true -> lt m y x = false) ->
     StronglySorted (fun x y => lt m y x = false) l -> StronglySorted (fun x y => lt m y x = false) l').
Proof.
  destruct (insert_result lt m p _ l item He Hroom ltac:(lia) Hlen Hitem) as (He' & Hf & _).
  eexists. split_and!; [exact He' | apply insert_before_perm | exact Hf |].
  intros. by apply insert_before_sorted.
Qed.

(** [remove_ordered_array] takes out the entry at an index inside the array,
    keeps the others in their order, and writes only the array's cells and its
    [size]. *)
Theorem remove_ordered_array_spec (m : mem) (p i : Z) (l : list Z)
  (He : entries m p l) (Hroom : arr_room m p (Z.of_nat (length l) + 1))
  (Hi : 0 <= i < Z.of_nat (length l)) :
  let m' := remove_ordered_array i p m in
  entries m' p (delete (Z.to_nat i) l) /\ array_frame p (Z.of_nat (length l) + 1) m m'.
Proof.
  by destruct (remove_result m p _ l i He Hroom ltac:(lia) Hi) as (He' & Hf & _).
Qed.

(** * A concrete array of three entries *)

Definition demo_array : mem :=
  default ∅ (place_ordered_array 64 256 8 0 ∅).
Definition demo_filled : mem :=
  foldl (fun m x => insert_ordered_array (fun _ => standard_lessthan_predicate) x 64 m) demo_array [5; 9; 2].

Lemma demo_entries : entries demo_filled 64 [2; 5; 9].
Proof.
  split; [by vm_compute |]. simpl. intros i Hi.
  assert (i = 0 \/ i = 1 \/ i = 2) as [-> | [-> | ->]] by lia; by vm_compute.
Qed.

Lemma demo_room : arr_room demo_filled 64 4.
Proof. right. by vm_compute. Qed.

Lemma insert_ordered_array_spec_witness :
  exists l', entries (insert_ordered_array (fun _ => standard_lessthan_predicate) 7 64 demo_filled) 64 l' /\
    l' ≡ₚ [7; 2; 5; 9].
Proof.
  destruct (insert_ordered_array_spec (fun _ => standard_lessthan_predicate) demo_filled 64 7 [2; 5; 9]
    demo_entries demo_room ltac:(simpl; lia) ltac:(lia)) as (l' & He & Hp & _).
  by exists l'.
Defined.

Lemma remove_ordered_array_spec_witness :
  entries (remove_ordered_array 1 64 demo_filled) 64 [2; 9].
Proof.
  exact (proj1 (remove_ordered_array_spec demo_filled 64 1 [2; 5; 9] demo_entries demo_room ltac:(simpl; lia))).
Defined.
