(* ===== verification/KHeap.v ===== *)
(** The kernel heap (kernel/kheap.c): blocks between a header and a footer, tiled
    from [start_address] to [end_address], and an index of the holes among them. *)

From S2P Require Import Prelude Words Console Memory CLib OrderedArray Allocator.
#[local] Open Scope Z_scope.

(** * Layout *)

Definition KHEAP_INITIAL_SIZE : Z := 0x20000.
Definition HEAP_INDEX_SIZE : Z := 0x1000.
Definition HEAP_MAGIC : Z := 0xDEADBABA.
Definition HEAP_MIN_SIZE : Z := 0x10000.
Definition HEAP_BLOCK_SIZE : Z := 4096.

(** [header_t] at [h]: [magic], [is_hole], three bytes of padding, [size]. *)
Definition sizeof_header : Z := 16.
Definition hdr_magic (m : mem) (h : Z) : Z := load32 m h.
Definition hdr_is_hole (m : mem) (h : Z) : Z := load8 m (h + 4).
Definition hdr_size (m : mem) (h : Z) : Z := load64 m (h + 8).
Definition set_header (h is_hole size : Z) (m : mem) : mem :=
  store64 (h + 8) size (store8 (h + 4) is_hole (store32 h HEAP_MAGIC m)).
Definition set_is_hole (h v : Z) (m : mem) : mem := store8 (h + 4) v m.
Definition set_size (h v : Z) (m : mem) : mem := store64 (h + 8) v m.

(** [footer_t] at [f]: [magic], four bytes of padding, [header]. *)
Definition sizeof_footer : Z := 16.
Definition ftr_magic (m : mem) (f : Z) : Z := load32 m f.
Definition ftr_header (m : mem) (f : Z) : Z := load64 m (f + 8).
Definition set_ftr_header (f header : Z) (m : mem) : mem := store64 (f + 8) header m.
Definition set_footer (f header : Z) (m : mem) : mem := set_ftr_header f header (store32 f HEAP_MAGIC m).

(** [heap_t] at [heap]; its [index] comes first. *)
Definition sizeof_heap : Z := 64.
Definition start_address (m : mem) (heap : Z) : Z := load64 m (heap + 32).
Definition end_address (m : mem) (heap : Z) : Z := load64 m (heap + 40).
Definition max_address (m : mem) (heap : Z) : Z := load64 m (heap + 48).
Definition set_end_address (heap v : Z) (m : mem) : mem := store64 (heap + 40) v m.

(** The memory, the memory manager, [kheap], and what was printed. *)
Record hstate (P : Type) := HState {
  hs_mem : mem;
  hs_pages : P;
  kheap : Z;
  hs_out : list out
}.
Arguments HState {P}.
Arguments hs_mem {P}.
Arguments hs_pages {P}.
Arguments kheap {P}.
Arguments hs_out {P}.

Definition upd_mem {P} (f : mem -> mem) (s : hstate P) : hstate P :=
  HState (f (hs_mem s)) (hs_pages s) (kheap s) (hs_out s).
Definition set_pages {P} (p : P) (s : hstate P) : hstate P :=
  HState (hs_mem s) p (kheap s) (hs_out s).
Definition print {P} (b : bool) (str : string) (s : hstate P) : hstate P :=
  if b then HState (hs_mem s) (hs_pages s) (kheap s) (hs_out s ++ [Putsln str]) else s.

(** * Operations *)

Definition header_t_less_than (m : mem) (a b : Z) : bool := hdr_size m a <? hdr_size m b.

(** The next page boundary, as [expand], [contract] and [create_heap] compute it. *)
Definition page_round (v : Z) : Z :=
  if Z.land v 0xFFF =? 0 then v else (Z.land v 0xFFFFF000 + 0x1000)%word.

(** Whether the hole at [header] can take [size] bytes. *)
Definition hole_fits (size page_align : Z) (m : mem) (header : Z) : bool :=
  if 0 <? page_align then
    let offset := if Z.land (header + sizeof_header) 0xFFF =? 0 then 0
                  else HEAP_BLOCK_SIZE - (header + sizeof_header)%word mod HEAP_BLOCK_SIZE in
    (offset <? hdr_size m header) && (size <=? (hdr_size m header - offset)%word)
  else size <=? hdr_size m header.

(** [-1], as a [uint64_t], when there is none. *)
Definition find_smallest_hole (size page_align heap : Z) (m : mem) : Z :=
  default all_ones (for_first 0 (arr_size m heap) (fun iterator =>
    if hole_fits size page_align m (lookup_ordered_array iterator heap m) then Some iterator else None)).

(** A hole of its own in front of a page-aligned block: where the block starts and
    what is left of the hole. *)
Definition split_front (pos orig_size : Z) (m : mem) : Z * Z * mem :=
  let new_location := (pos + HEAP_BLOCK_SIZE - Z.land pos 0xFFF - sizeof_header)%word in
  let front := (HEAP_BLOCK_SIZE - Z.land pos 0xFFF - sizeof_header)%word in
  let m := set_footer (new_location - sizeof_footer)%word pos (set_header pos 1 front m) in
  (new_location, (orig_size - hdr_size m pos)%word, m).

(** [alloc] once a hole was found: line 299 to the end. *)
Definition alloc_take (iterator size new_size page_align heap : Z) (m : mem) : Z * mem :=
  let pos := lookup_ordered_array iterator heap m in
  let orig_size := hdr_size m pos in
  let rest := (orig_size - new_size)%word in
  let '(size, new_size) :=
    if rest <? sizeof_header + sizeof_footer then ((size + rest)%word, orig_size) else (size, new_size) in
  let '(pos, orig_size, m) :=
    if negb (page_align =? 0) && negb (Z.land (pos + sizeof_header) 0xFFF =? 0)
    then split_front pos orig_size m
    else (pos, orig_size, remove_ordered_array iterator heap m) in
  let m := set_footer (pos + sizeof_header + size)%word pos (set_header pos 0 new_size m) in
  let left := (orig_size - new_size)%word in
  let m :=
    if 0 <? left then
      let hole := (pos + sizeof_header + size + sizeof_footer)%word in
      let m := set_header hole 1 left m in
      let footer := (hole + orig_size - new_size - sizeof_footer)%word in
      let m := if footer <? end_address m heap then set_footer footer hole m else m in
      insert_ordered_array header_t_less_than hole heap m
    else m in
  ((pos + sizeof_header)%word, m).

(** The index and address of the hole with the highest address. *)
Definition endmost_header (heap : Z) (m : mem) : Z * Z :=
  for_range 0 (arr_size m heap) (fun iterator '(idx, value) =>
    let tmp := lookup_ordered_array iterator heap m in
    if value <? tmp then (iterator, tmp) else (idx, value)) (all_ones, 0).

(** What [alloc] does to the memory after [expand]. *)
Definition adjust_last (old_length old_end new_length heap : Z) (m : mem) : mem :=
  let '(idx, _) := endmost_header heap m in
  if idx =? all_ones then
    let m := set_header old_end 1 (new_length - old_length)%word m in
    let m := set_footer (old_end + hdr_size m old_end - sizeof_footer)%word old_end m in
    insert_ordered_array header_t_less_than old_end heap m
  else
    let header := lookup_ordered_array idx heap m in
    let m := set_size header (hdr_size m header + (new_length - old_length))%word m in
    set_footer (header + hdr_size m header - sizeof_footer)%word header m.

Section heap.
Context {P : Type} `{KernelPages P}.
(** The address of the function [header_t_less_than]. *)
Context (less_than_addr : Z).
Implicit Types (s : hstate P).

Definition expand (new_size heap : Z) s : option (hstate P) :=
  let old_size := (end_address (hs_mem s) heap - start_address (hs_mem s) heap)%word in
  let s := print (new_size <? old_size) "expand: new_size smaller than current size" s in
  let new_size := page_round new_size in
  let new_end := (start_address (hs_mem s) heap + new_size)%word in
  let s := print (max_address (hs_mem s) heap <? new_end) "expand: expanded address exceeds maximum" s in
  '(_, p) ← alloc_kernel_page ((new_size - old_size)%word / HEAP_BLOCK_SIZE) (hs_pages s);
  Some (upd_mem (set_end_address heap new_end) (set_pages p s)).

Definition contract (new_size heap : Z) s : Z * hstate P :=
  let old_size := (end_address (hs_mem s) heap - start_address (hs_mem s) heap)%word in
  let s := print true "contracting" s in
  let s := print (old_size <=? new_size) "contract: contracting, but new_size is larger than old_size" s in
  let new_size := page_round new_size in
  let new_size := if new_size <? HEAP_MIN_SIZE then HEAP_MIN_SIZE else new_size in
  let start := start_address (hs_mem s) heap in
  let p := free_kernel_page (start + new_size)%word ((old_size - new_size)%word / HEAP_BLOCK_SIZE) (hs_pages s) in
  (new_size, upd_mem (set_end_address heap (start + new_size)%word) (set_pages p s)).

Definition create_heap (start end_addr max supervisor readonly : Z) s : option (Z * hstate P) :=
  let heap := start in
  let s := print (negb (Z.land start 0xFFF =? 0)) "Start address not page-aligned" s in
  let s := print (negb (Z.land end_addr 0xFFF =? 0)) "End address not page-aligned" s in
  m ← place_ordered_array heap (start + sizeof_heap)%word HEAP_INDEX_SIZE less_than_addr (hs_mem s);
  let start := page_round (start + (8 * HEAP_INDEX_SIZE + sizeof_heap))%word in
  let m := store8 (heap + 57) readonly (store8 (heap + 56) supervisor
             (store64 (heap + 48) max (store64 (heap + 40) end_addr (store64 (heap + 32) start m)))) in
  let m := set_header start 1 (end_addr - start)%word m in
  Some (heap, upd_mem (fun _ => insert_ordered_array header_t_less_than start heap m) s).

(** [fuel] bounds the recursion after [expand]. *)
Fixpoint alloc (fuel : nat) (size page_align heap : Z) s : option (Z * hstate P) :=
  match fuel with
  | O => None
  | S fuel =>
      let new_size := (size + sizeof_header + sizeof_footer)%word in
      let iterator := find_smallest_hole new_size page_align heap (hs_mem s) in
      if iterator =? all_ones then
        let old_end := end_address (hs_mem s) heap in
        let old_length := (old_end - start_address (hs_mem s) heap)%word in
        s ← expand (old_length + new_size)%word heap s;
        let new_length := (end_address (hs_mem s) heap - start_address (hs_mem s) heap)%word in
        alloc fuel size page_align heap (upd_mem (adjust_last old_length old_end new_length heap) s)
      else
        let '(p, m) := alloc_take iterator size new_size page_align heap (hs_mem s) in
        Some (p, upd_mem (fun _ => m) s)
  end.

(** The index of the first entry [header], else the size. *)
Definition index_of (header heap : Z) (m : mem) : Z :=
  default (arr_size m heap) (for_first 0 (arr_size m heap) (fun i =>
    if lookup_ordered_array i heap m =? header then Some i else None)).

(** "Unify left": the header, whether it must be added to the index. *)
Definition unify_left (header footer : Z) (m : mem) : Z * bool * mem :=
  let test_footer := (header - sizeof_footer)%word in
  if (ftr_magic m test_footer =? HEAP_MAGIC) && (hdr_is_hole m (ftr_header m test_footer) =? 1) then
    let cache_size := hdr_size m header in
    let header := ftr_header m test_footer in
    let m := set_ftr_header footer header m in
    (header, false, set_size header (hdr_size m header + cache_size)%word m)
  else (header, true, m).

(** "Unify right": the footer. *)
Definition unify_right (header footer heap : Z) s : Z * hstate P :=
  let test_header := (footer + sizeof_footer)%word in
  let m := hs_mem s in
  if (hdr_magic m test_header =? HEAP_MAGIC) && negb (hdr_is_hole m test_header =? 0) then
    let s := upd_mem (set_size header (hdr_size m header + hdr_size m test_header)%word) s in
    let footer := (test_header + hdr_size (hs_mem s) test_header - sizeof_footer)%word in
    let i := index_of test_header heap (hs_mem s) in
    let s := print (arr_size (hs_mem s) heap <=? i) "free: iterator failed to find item to unify" s in
    (footer, upd_mem (remove_ordered_array i heap) s)
  else (footer, s).

(** The heap gives back its end. *)
Definition free_contract (header test_header heap : Z) s : hstate P :=
  let old_length := (end_address (hs_mem s) heap - start_address (hs_mem s) heap)%word in
  let '(new_length, s) := contract (header - start_address (hs_mem s) heap)%word heap s in
  let m := hs_mem s in
  if 0 <? (hdr_size m header - (old_length - new_length))%word then
    let m := set_size header (hdr_size m header - (old_length - new_length))%word m in
    upd_mem (fun _ => set_footer (header + hdr_size m header - sizeof_footer)%word header m) s
  else
    let iterator := index_of test_header heap m in
    if iterator <? arr_size m heap then upd_mem (remove_ordered_array iterator heap) s else s.

Definition free (p heap : Z) s : hstate P :=
  if p =? 0 then s
  else
    let header := (p - sizeof_header)%word in
    let footer := (header + hdr_size (hs_mem s) header - sizeof_footer)%word in
    let s := print (negb (hdr_magic (hs_mem s) header =? HEAP_MAGIC)) "free: header magic bad" s in
    let s := print (negb (ftr_magic (hs_mem s) footer =? HEAP_MAGIC)) "free: footer magic bad" s in
    let '(header, do_add, m) := unify_left header footer (set_is_hole header 1 (hs_mem s)) in
    let test_header := (footer + sizeof_footer)%word in
    let '(footer, s) := unify_right header footer heap (upd_mem (fun _ => m) s) in
    let s := if (footer + sizeof_footer)%word =? end_address (hs_mem s) heap
             then free_contract header test_header heap s else s in
    if do_add then upd_mem (insert_ordered_array header_t_less_than header heap) s else s.

(** ** The interface *)

Definition kheap_init s : option (hstate P) :=
  if (KHEAP_INITIAL_SIZE - HEAP_INDEX_SIZE * 8 + HEAP_BLOCK_SIZE)%Z <? HEAP_MIN_SIZE
  then Some (print true "[KHEAP] cannot initialize heap due to bad size constants." s)
  else
    '(kheap_start, p) ← alloc_kernel_page (KHEAP_INITIAL_SIZE / HEAP_BLOCK_SIZE) (hs_pages s);
    '(h, s) ← create_heap kheap_start (kheap_start + KHEAP_INITIAL_SIZE)%word 0xd0000000 0 0 (set_pages p s);
    Some (print true "[KHEAP] kernel heap initialized." (HState (hs_mem s) (hs_pages s) h (hs_out s))).

(** The page count that [kmalloc_int] passes on while there is no heap. *)
Definition early_pages (sz : Z) : Z :=
  if Z.land sz 0xFFF =? 0 then sz else Z.land sz 0xFFFFF000 / 0x1000.

Definition kmalloc_int (fuel : nat) (sz align : Z) s : option (Z * hstate P) :=
  if sz =? 0 then Some (0, s)
  else if negb (kheap s =? 0) then alloc fuel sz (uint8_t align) (kheap s) s
  else '(a, p) ← alloc_kernel_page (early_pages sz) (hs_pages s); Some (a, set_pages p s).

Definition kheap_kmalloc (fuel : nat) (sz : Z) s := kmalloc_int fuel sz 0 s.
Definition kmalloc_a (fuel : nat) (sz : Z) s := kmalloc_int fuel sz 1 s.
Definition kmalloc_p (fuel : nat) (sz : Z) s := kmalloc_int fuel sz 0 s.
Definition kmalloc_ap (fuel : nat) (sz : Z) s := kmalloc_int fuel sz 1 s.
Definition kheap_kfree (p : Z) s : hstate P := free p (kheap s) s.
End heap.
