(* ===== verification/HeapInv.v ===== *)
(** The heap's invariant (kernel/kheap.c): the blocks tile the heap, each between a
    header and a footer that agree, and the index holds the addresses of the holes.
    [alloc] with a hole that fits and [free] keep it. *)

From S2P Require Import Prelude Words Console Memory CLib OrderedArray Allocator KHeap.
#[local] Open Scope Z_scope.

(** * The invariant *)

Record blk := Blk { b_pos : Z; b_size : Z; b_free : bool }.

Definition b_end (b : blk) : Z := b_pos b + b_size b.

(** The blocks in the order of their addresses, without gaps from [lo] to [hi]. *)
Fixpoint tiles (lo hi : Z) (l : list blk) : Prop :=
  match l with
  | [] => lo = hi
  | b :: l => b_pos b = lo /\ 32 <= b_size b /\ tiles (b_end b) hi l
  end.

Definition blk_header (m : mem) (b : blk) : Prop :=
  hdr_magic m (b_pos b) = HEAP_MAGIC /\
  hdr_is_hole m (b_pos b) = (if b_free b then 1 else 0) /\
  hdr_size m (b_pos b) = b_size b.

Definition blk_footer (m : mem) (b : blk) : Prop :=
  ftr_magic m (b_end b - 16) = HEAP_MAGIC /\ ftr_header m (b_end b - 16) = b_pos b.

(** The hole at the end of the heap has no footer before the heap first grows. *)
Definition blk_ok (m : mem) (hi : Z) (b : blk) : Prop :=
  blk_header m b /\ (blk_footer m b \/ b_free b = true /\ b_end b = hi).

Definition holes (l : list blk) : list Z := b_pos <$> filter (fun b => b_free b = true) l.

(** [lo] and [hi] are [start_address] and [end_address]; the structure and its
    index lie below, and the word in front of the first block is no footer. *)
Record heap_inv (m : mem) (heap lo hi : Z) (l : list blk) : Prop := {
  hv_start : start_address m heap = lo;
  hv_end : end_address m heap = hi;
  hv_array : arr_array m heap = heap + sizeof_heap;
  hv_low : 0 < heap /\ heap + sizeof_heap + 8 * HEAP_INDEX_SIZE + 16 <= lo;
  hv_high : hi < 2 ^ 63;
  hv_guard : ftr_magic m (lo - 16) <> HEAP_MAGIC;
  hv_tiles : tiles lo hi l;
  hv_blocks : forall b, b ∈ l -> blk_ok m hi b;
  hv_room : Z.of_nat (length (holes l)) + 1 < HEAP_INDEX_SIZE;
  hv_index : exists idx, entries m heap idx /\ idx ≡ₚ holes l
}.

(** * Tiles *)

Section tiles.
Implicit Types (l : list blk) (b : blk) (lo hi : Z).

Lemma tiles_app lo hi l1 l2 :
  tiles lo hi (l1 ++ l2) <-> exists mid, tiles lo mid l1 /\ tiles mid hi l2.
Proof.
  revert lo; induction l1 as [|b l1 IH]; intros lo; simpl.
  - split; [intros; by exists lo | by intros (mid & -> & ?)].
  - rewrite IH. split.
    + intros (? & ? & mid & ? & ?). by exists mid.
    + intros (mid & (? & ? & ?) & ?). split_and!; [done | done |]. by exists mid.
Qed.

Lemma tiles_le lo hi l : tiles lo hi l -> lo <= hi.
Proof.
  revert lo; induction l as [|b l IH]; intros lo; simpl; [lia |].
  unfold b_end. intros (? & ? & Ht). apply IH in Ht. lia.
Qed.

Lemma tiles_elem lo hi l b :
  tiles lo hi l -> b ∈ l -> lo <= b_pos b /\ b_end b <= hi /\ 32 <= b_size b.
Proof.
  revert lo; induction l as [|c l IH]; intros lo; simpl; [by intros _ ?%elem_of_nil |].
  unfold b_end in *. intros (? & ? & Ht) [->|Hb]%elem_of_cons.
  - apply tiles_le in Ht. lia.
  - destruct (IH _ Ht Hb) as (? & ? & ?). lia.
Qed.

(** A block, what is before it and what is after it. *)
Lemma tiles_split lo hi l1 b l2 :
  tiles lo hi (l1 ++ b :: l2) ->
  tiles lo (b_pos b) l1 /\ 32 <= b_size b /\ tiles (b_end b) hi l2.
Proof. rewrite tiles_app. simpl. by intros (mid & ? & <- & ? & ?). Qed.

Lemma tiles_other lo hi l1 b l2 c :
  tiles lo hi (l1 ++ b :: l2) -> c ∈ l1 ++ l2 ->
  (lo <= b_pos c /\ b_end c <= b_pos b) \/ (b_end b <= b_pos c /\ b_end c <= hi).
Proof.
  intros (H1 & _ & H2)%tiles_split [Hc|Hc]%elem_of_app.
  - left. destruct (tiles_elem _ _ _ _ H1 Hc). lia.
  - right. destruct (tiles_elem _ _ _ _ H2 Hc). lia.
Qed.

(** Positions identify blocks. *)
Lemma tiles_pos_inj lo hi l b c :
  tiles lo hi l -> b ∈ l -> c ∈ l -> b_pos b = b_pos c -> b = c.
Proof.
  revert lo; induction l as [|d l IH]; intros lo; simpl; [by intros _ ?%elem_of_nil |].
  unfold b_end. intros (? & ? & Ht) [->|Hb]%elem_of_cons [->|Hc]%elem_of_cons E; [done | | |by eapply IH].
  - destruct (tiles_elem _ _ _ _ Ht Hc). lia.
  - destruct (tiles_elem _ _ _ _ Ht Hb). lia.
Qed.

Lemma holes_app l1 l2 : holes (l1 ++ l2) = holes l1 ++ holes l2.
Proof. unfold holes. by rewrite filter_app, fmap_app. Qed.

Lemma holes_cons b l : holes (b :: l) = if b_free b then b_pos b :: holes l else holes l.
Proof. unfold holes. rewrite filter_cons. by destruct (b_free b). Qed.

Lemma elem_of_holes l p : p ∈ holes l <-> exists b, b ∈ l /\ b_free b = true /\ b_pos b = p.
Proof.
  unfold holes. rewrite list_elem_of_fmap. split.
  - intros (b & -> & [? ?]%list_elem_of_filter). eauto.
  - intros (b & ? & ? & <-). exists b. split; [done |]. by apply list_elem_of_filter.
Qed.

Lemma NoDup_holes lo hi l : tiles lo hi l -> NoDup (holes l).
Proof.
  revert lo; induction l as [|b l IH]; intros lo; simpl; [constructor |].
  intros (Hb & Hs & Ht). rewrite holes_cons. destruct (b_free b); [| by eapply IH].
  constructor; [| by eapply IH]. rewrite elem_of_holes. intros (c & Hc & _ & E).
  destruct (tiles_elem _ _ _ _ Ht Hc). unfold b_end in *. lia.
Qed.
End tiles.

(** * Reading and writing headers and footers *)

Section fields.
Implicit Types (m : mem) (b : blk).

Lemma header_same m m' b :
  (forall a, b_pos b <= a < b_pos b + 16 -> load8 m' a = load8 m a) ->
  blk_header m b -> blk_header m' b.
Proof.
  intros Hs. unfold blk_header, hdr_magic, hdr_is_hole, hdr_size.
  rewrite (load_ext m m' 4), (load_ext m m' 8), Hs by (intros; try apply Hs; simpl in *; lia). done.
Qed.

Lemma footer_same m m' b :
  (forall a, b_end b - 16 <= a < b_end b -> load8 m' a = load8 m a) ->
  blk_footer m b -> blk_footer m' b.
Proof.
  intros Hs. unfold blk_footer, ftr_magic, ftr_header.
  rewrite (load_ext m m' 4), (load_ext m m' 8) by (intros; apply Hs; simpl in *; lia). done.
Qed.

Lemma blk_ok_same m m' hi b :
  32 <= b_size b -> (forall a, b_pos b <= a < b_end b -> load8 m' a = load8 m a) ->
  blk_ok m hi b -> blk_ok m' hi b.
Proof.
  unfold b_end. intros Hsz Hs [Hh Hf]. split.
  - eapply header_same; [| exact Hh]. intros. apply Hs. lia.
  - destruct Hf as [Hf|Hf]; [left | by right].
    eapply footer_same; [| exact Hf]. unfold b_end. intros. apply Hs. lia.
Qed.

Lemma set_header_ok m h f (sz : Z) :
  0 <= sz < 2 ^ 64 ->
  blk_header (set_header h (if f : bool then 1 else 0) sz m) (Blk h sz f).
Proof.
  intros Hsz. unfold blk_header, set_header, hdr_magic, hdr_is_hole, hdr_size. simpl b_pos. simpl b_size.
  split_and!.
  - rewrite load_store_other by (simpl; lia).
    rewrite (load_ext (store32 h HEAP_MAGIC m)) by (intros; apply load8_store8_ne; simpl in *; lia).
    by rewrite load_store_same.
  - rewrite load8_store by (simpl; lia). rewrite load8_store8_eq. by destruct f.
  - by rewrite load_store_same.
Qed.

Lemma set_header_outside m h v sz : same_outside h (h + 16) m (set_header h v sz m).
Proof.
  intros a Ha. unfold set_header. rewrite load8_store by (simpl; lia).
  rewrite load8_store8_ne by lia. apply load8_store. simpl. lia.
Qed.

Lemma set_footer_ok m f h sz fr :
  0 <= h < 2 ^ 64 -> f = h + sz - 16 -> blk_footer (set_footer f h m) (Blk h sz fr).
Proof.
  intros Hh ->. unfold blk_footer, set_footer, set_ftr_header, ftr_magic, ftr_header, b_end. simpl.
  split.
  - change (store 8) with store64. rewrite load_store_other by (simpl; lia). by apply load_store_same.
  - by apply load_store_same.
Qed.

Lemma set_footer_outside m f h : same_outside f (f + 16) m (set_footer f h m).
Proof.
  intros a Ha. unfold set_footer, set_ftr_header. rewrite !load8_store by (simpl; lia). done.
Qed.
End fields.

(** * Changing one stretch of the heap *)

(** Only [[p, q)], the index and its size change. *)
Definition heap_frame (heap p q : Z) (m m' : mem) : Prop :=
  forall a, ~ (p <= a < q) -> ~ (heap + 8 <= a < heap + 16) ->
    ~ (heap + sizeof_heap <= a < heap + sizeof_heap + 8 * HEAP_INDEX_SIZE) -> load8 m' a = load8 m a.

Section frame.
Implicit Types (m : mem) (heap p q lo hi : Z) (l : list blk).

Lemma heap_frame_trans heap p q m1 m2 m3 :
  heap_frame heap p q m1 m2 -> heap_frame heap p q m2 m3 -> heap_frame heap p q m1 m3.
Proof. intros H1 H2 a ???. by rewrite H2, H1. Qed.

Lemma heap_frame_outside heap p q p' q' m m' :
  same_outside p' q' m m' -> p <= p' -> q' <= q -> heap_frame heap p q m m'.
Proof. intros Hs ?? a ???. apply Hs. lia. Qed.

Lemma heap_frame_array heap p q m m' :
  arr_array m heap = heap + sizeof_heap -> array_frame heap HEAP_INDEX_SIZE m m' ->
  heap_frame heap p q m m'.
Proof. intros E Hf a ???. apply Hf; [done | by rewrite E]. Qed.

(** The structure's other fields. *)
Lemma heap_frame_field heap p q m m' off :
  heap_frame heap p q m m' -> heap + sizeof_heap <= p -> off = 0 \/ 16 <= off <= 56 ->
  load64 m' (heap + off) = load64 m (heap + off).
Proof.
  unfold sizeof_heap. intros Hf Hp Hoff. apply load_ext. intros a Ha. simpl in Ha.
  apply Hf; unfold sizeof_heap; lia.
Qed.

Lemma entries_outside heap p q m m' idx :
  same_outside p q m m' -> arr_array m heap = heap + sizeof_heap ->
  heap + sizeof_heap + 8 * HEAP_INDEX_SIZE <= p -> Z.of_nat (length idx) <= HEAP_INDEX_SIZE ->
  entries m heap idx -> entries m' heap idx.
Proof.
  unfold sizeof_heap, HEAP_INDEX_SIZE. intros Hs Ha Hp Hlen [Hsz Hc].
  assert (arr_array m' heap = arr_array m heap) as Ha' by (eapply same_outside_load; [exact Hs | simpl; lia]).
  split.
  - rewrite <- Hsz. eapply same_outside_load; [exact Hs | simpl; lia].
  - intros i Hi. rewrite <- Hc by done. unfold arr_cell. rewrite Ha', Ha.
    eapply same_outside_load; [exact Hs | simpl; lia].
Qed.

Lemma heap_room m heap lo hi l : heap_inv m heap lo hi l -> arr_room m heap HEAP_INDEX_SIZE.
Proof.
  intros Hv. right. rewrite (hv_array _ _ _ _ _ Hv). unfold sizeof_heap, sizeof_ordered_array. lia.
Qed.

(** The blocks [bs] from [p] to [q] become the blocks [nb]. *)
Lemma heap_update m m' heap lo hi l1 bs l2 nb p q idx' :
  heap_inv m heap lo hi (l1 ++ bs ++ l2) ->
  tiles lo p l1 -> tiles q hi l2 -> tiles p q nb ->
  heap_frame heap p q m m' ->
  (forall c, c ∈ nb -> blk_ok m' hi c) ->
  entries m' heap idx' -> idx' ≡ₚ holes (l1 ++ nb ++ l2) ->
  Z.of_nat (length (holes (l1 ++ nb ++ l2))) + 1 < HEAP_INDEX_SIZE ->
  heap_inv m' heap lo hi (l1 ++ nb ++ l2).
Proof.
  intros Hv H1 H2 Hnb Hf Hok He Hp Hroom.
  pose proof (tiles_le _ _ _ H1). pose proof (tiles_le _ _ _ H2). pose proof (tiles_le _ _ _ Hnb).
  pose proof (hv_low _ _ _ _ _ Hv) as Hlow.
  assert (forall off, off = 0 \/ 16 <= off <= 56 -> load64 m' (heap + off) = load64 m (heap + off)) as Hfield.
  { intros. eapply heap_frame_field; [exact Hf | unfold HEAP_INDEX_SIZE in *; lia | done]. }
  assert (forall c, c ∈ l1 \/ c ∈ l2 -> blk_ok m' hi c) as Hother.
  { intros c Hc. assert (c ∈ l1 ++ bs ++ l2) as Hcl by (rewrite !elem_of_app; tauto).
    assert (32 <= b_size c /\ (b_end c <= p \/ q <= b_pos c) /\ lo <= b_pos c) as (Hsz & Hpos & Hge).
    { destruct Hc as [Hc|Hc];
        [destruct (tiles_elem _ _ _ _ H1 Hc) | destruct (tiles_elem _ _ _ _ H2 Hc)]; lia. }
    eapply blk_ok_same; [done | | by apply (hv_blocks _ _ _ _ _ Hv)].
    unfold b_end in *. intros a Ha. apply Hf; unfold sizeof_heap, HEAP_INDEX_SIZE in *; lia. }
  split; try done.
  - rewrite <- (hv_start _ _ _ _ _ Hv). apply Hfield. lia.
  - rewrite <- (hv_end _ _ _ _ _ Hv). apply Hfield. lia.
  - rewrite <- (hv_array _ _ _ _ _ Hv). unfold arr_array. specialize (Hfield 0).
    rewrite Z.add_0_r in Hfield. apply Hfield. lia.
  - apply Hv.
  - intros E. apply (hv_guard _ _ _ _ _ Hv). rewrite <- E. symmetry. apply load_ext.
    simpl. intros a Ha. apply Hf; unfold sizeof_heap, HEAP_INDEX_SIZE in *; lia.
  - rewrite tiles_app. exists p. split; [done |]. rewrite tiles_app. by exists q.
  - intros c. rewrite !elem_of_app. intros [?|[?|?]]; auto.
  - by exists idx'.
Qed.
End frame.

(** * Finding a hole *)

Lemma land_page v : Z.land v 0xFFF = v mod 4096.
Proof. change 0xFFF with (Z.ones 12). by rewrite Z.land_ones by lia. Qed.

(** What is left in front of a block in the hole at [pos]: with alignment, the block's bytes
    begin on a page. *)
Definition front (page_align pos : Z) : Z := if page_align =? 0 then 0 else (- (pos + 16)) mod 4096.

Lemma front_bounds page_align pos : 0 <= front page_align pos < 4096.
Proof. unfold front. pose proof (Z.mod_pos_bound (- (pos + 16)) 4096). destruct (page_align =? 0); lia. Qed.

Lemma front_page page_align pos : page_align <> 0 -> (pos + front page_align pos + 16) mod 4096 = 0.
Proof. intros Ha. unfold front. rewrite (proj2 (Z.eqb_neq _ _) Ha). div_lia. Qed.

Lemma hole_fits_front size page_align m h :
  0 <= page_align -> 0 < size < 2 ^ 64 -> 0 <= h < 2 ^ 63 ->
  hole_fits size page_align m h = (front page_align h + size <=? hdr_size m h).
Proof.
  intros Ha Hs Hh. pose proof (load_bounds m 8 (h + 8)) as Hb. fold (hdr_size m h) in Hb. change (2 ^ (8 * Z.of_nat 8)) with (2 ^ 64) in Hb.
  unfold hole_fits, front, sizeof_header, HEAP_BLOCK_SIZE. destruct (Z.ltb_spec 0 page_align).
  - rewrite (proj2 (Z.eqb_neq page_align 0)), land_page, (uint64_id (h + 16)) by lia.
    assert ((if (h + 16) mod 4096 =? 0 then 0 else 4096 - (h + 16) mod 4096) = (- (h + 16)) mod 4096) as ->.
    { destruct (Z.eqb_spec ((h + 16) mod 4096) 0); div_lia. }
    pose proof (Z.mod_pos_bound (- (h + 16)) 4096 ltac:(lia)).
    destruct (Z.ltb_spec ((- (h + 16)) mod 4096) (hdr_size m h)); cbn [andb]; [rewrite uint64_id by lia |]; lia.
  - by rewrite (proj2 (Z.eqb_eq page_align 0)) by lia.
Qed.

Lemma heap_index m heap lo hi l :
  heap_inv m heap lo hi l ->
  exists idx, entries m heap idx /\ idx ≡ₚ holes l /\ Z.of_nat (length idx) + 1 < HEAP_INDEX_SIZE.
Proof.
  intros Hv. destruct (hv_index _ _ _ _ _ Hv) as (idx & He & Hp). exists idx.
  split_and!; [done | done |]. rewrite Hp. apply Hv.
Qed.

Lemma lookup_entry m heap idx i :
  entries m heap idx -> 0 <= i < Z.of_nat (length idx) ->
  lookup_ordered_array i heap m = nth (Z.to_nat i) idx 0.
Proof.
  intros He Hi. unfold lookup_ordered_array. rewrite (en_size _ _ _ He).
  destruct (Z.ltb_spec i (Z.of_nat (length idx))); [by apply He | lia].
Qed.

Lemma nth_elem (l : list Z) i : 0 <= i < Z.of_nat (length l) -> nth (Z.to_nat i) l 0 ∈ l.
Proof. intros Hi. apply list_elem_of_In, nth_In. lia. Qed.

(** An entry of the index is a hole among the blocks. *)
Lemma index_hole m heap lo hi l idx i :
  heap_inv m heap lo hi l -> entries m heap idx -> idx ≡ₚ holes l -> 0 <= i < Z.of_nat (length idx) ->
  exists l1 b l2, l = l1 ++ b :: l2 /\ b_free b = true /\ b_pos b = nth (Z.to_nat i) idx 0 /\
    hdr_size m (b_pos b) = b_size b.
Proof.
  intros Hv He Hp Hi. pose proof (nth_elem idx i Hi) as Hin. rewrite Hp in Hin at 2.
  apply elem_of_holes in Hin as (b & Hb & Hfree & Hpos).
  pose proof (hv_blocks _ _ _ _ _ Hv b Hb) as [(_ & _ & Hs) _].
  apply list_elem_of_split in Hb as (l1 & l2 & ->). exists l1, b, l2. done.
Qed.

(** A hole that can take [size] bytes with their header and footer. *)
Definition fits (page_align size : Z) (b : blk) : Prop :=
  b_free b = true /\ front page_align (b_pos b) + (size + 32) <= b_size b.

(** The search finds the first entry that fits, and one exactly when there is one. *)
Lemma find_hole_spec m heap lo hi l idx page_align size :
  heap_inv m heap lo hi l -> entries m heap idx -> idx ≡ₚ holes l -> Z.of_nat (length idx) < HEAP_INDEX_SIZE ->
  0 <= page_align -> 0 <= size < 2 ^ 64 - 32 -> (exists b, b ∈ l /\ fits page_align size b) ->
  exists i, find_smallest_hole (size + 32) page_align heap m = i /\ 0 <= i < Z.of_nat (length idx) /\
    front page_align (nth (Z.to_nat i) idx 0) + (size + 32) <= hdr_size m (nth (Z.to_nat i) idx 0).
Proof.
  intros Hv He Hp Hlen Hal Hsize (b & Hb & Hfree & Hsz). unfold find_smallest_hole. rewrite (en_size _ _ _ He).
  assert (forall i, 0 <= i < Z.of_nat (length idx) -> 0 <= nth (Z.to_nat i) idx 0 < 2 ^ 63) as Hbound.
  { intros i Hi. destruct (index_hole _ _ _ _ _ _ i Hv He Hp Hi) as (l1 & c & l2 & El & _ & <- & _).
    destruct (tiles_elem _ _ _ c (hv_tiles _ _ _ _ _ Hv)) as (? & ? & ?); [rewrite El; apply elem_of_app; right; apply list_elem_of_here |].
    pose proof (hv_low _ _ _ _ _ Hv). pose proof (hv_high _ _ _ _ _ Hv). unfold b_end, sizeof_heap, HEAP_INDEX_SIZE in *. lia. }
  match goal with |- context [default _ ?e] => destruct e as [r|] eqn:Ef end; simpl.
  - apply for_first_Some in Ef as (k & Hk & Hf & _). exists r.
    rewrite (lookup_entry _ _ idx), hole_fits_front in Hf by (try apply Hbound; done || lia).
    destruct (Z.leb_spec (front page_align (nth (Z.to_nat k) idx 0) + (size + 32)) (hdr_size m (nth (Z.to_nat k) idx 0))); [| done]. by simplify_eq.
  - exfalso. rewrite for_first_None in Ef.
    assert (b_pos b ∈ idx) as Hin by (rewrite Hp; apply elem_of_holes; eauto).
    apply list_elem_of_lookup in Hin as [i Hi]. pose proof (lookup_lt_Some _ _ _ Hi).
    specialize (Ef (Z.of_nat i) ltac:(lia)). simpl in Ef. pose proof (Hbound (Z.of_nat i) ltac:(lia)) as Hbi.
    rewrite Nat2Z.id in Hbi. rewrite (lookup_entry _ _ idx), Nat2Z.id, hole_fits_front in Ef by (done || lia).
    rewrite (nth_lookup_Some _ _ _ _ Hi) in Ef.
    destruct (hv_blocks _ _ _ _ _ Hv b Hb) as [(_ & _ & Hs) _]. rewrite Hs in Ef.
    by destruct (Z.leb_spec (front page_align (b_pos b) + (size + 32)) (b_size b)); [| lia].
Qed.

(** * Taking a block out of a hole *)

(** What becomes of the hole [b] when [size] bytes are taken from it. *)
Definition carve (b : blk) (size : Z) : list blk :=
  if b_size b - (size + 32) <? 32 then [Blk (b_pos b) (b_size b) false]
  else [Blk (b_pos b) (size + 32) false; Blk (b_pos b + (size + 32)) (b_size b - (size + 32)) true].

(** The same behind a hole of its own in front of the block. *)
Definition carved (page_align : Z) (b : blk) (size : Z) : list blk :=
  let f := front page_align (b_pos b) in
  let left := b_size b - f - (size + 32) in
  if f =? 0 then carve b size
  else [Blk (b_pos b) f true; Blk (b_pos b + f) (size + 32) false] ++
    (if left =? 0 then [] else [Blk (b_pos b + f + (size + 32)) left true]).

(** The conditions under which the code gets the hole in front right: it has room for a header and a
    footer, the page boundary is not inside the hole's own header, and so has what is left behind the block. *)
Definition apt (page_align size : Z) (b : blk) : Prop :=
  let f := front page_align (b_pos b) in
  let left := b_size b - f - (size + 32) in
  f = 0 \/ 32 <= f <= 4080 /\ (left = 0 \/ 32 <= left).

(** A header and a footer. *)
Definition put_block (p sz : Z) (fr : bool) (m : mem) : mem :=
  set_footer (p + sz - 16) p (set_header p (if fr then 1 else 0) sz m).

Lemma put_block_ok p sz fr hi m :
  32 <= sz -> 0 <= p -> p + sz < 2 ^ 63 ->
  same_outside p (p + sz) m (put_block p sz fr m) /\ blk_ok (put_block p sz fr m) hi (Blk p sz fr).
Proof.
  intros Hsz Hp Hlim. unfold put_block. split; [| split; [| left]].
  - apply (same_outside_trans _ _ _ (set_header p (if fr then 1 else 0) sz m)).
    + eapply same_outside_mono; [apply set_header_outside | lia | lia].
    + eapply same_outside_mono; [apply set_footer_outside | lia | lia].
  - apply (header_same (set_header p (if fr then 1 else 0) sz m)); [| apply (set_header_ok _ _ fr); lia].
    intros a Ha. simpl in Ha. apply set_footer_outside. lia.
  - apply set_footer_ok; [lia | done].
Qed.

Lemma blk_ok_put p sz fr hi m b :
  32 <= sz -> 0 <= p -> p + sz < 2 ^ 63 -> 32 <= b_size b -> b_end b <= p -> blk_ok m hi b -> blk_ok (put_block p sz fr m) hi b.
Proof.
  intros Hsz Hp Hlim Hb He. apply blk_ok_same; [done |]. intros a Ha. apply (put_block_ok p sz fr hi m Hsz Hp Hlim). lia.
Qed.

Section take.
Context (m : mem) (heap lo hi : Z) (l1 l2 : list blk) (b : blk).
Context (Hv : heap_inv m heap lo hi (l1 ++ [b] ++ l2)).

Lemma take_bounds :
  heap + sizeof_heap + 8 * HEAP_INDEX_SIZE + 16 <= lo /\ lo <= b_pos b /\
  b_end b <= hi /\ 32 <= b_size b /\ hi < 2 ^ 63 /\ 0 < b_pos b.
Proof.
  pose proof (hv_low _ _ _ _ _ Hv). pose proof (hv_high _ _ _ _ _ Hv).
  destruct (tiles_elem _ _ _ b (hv_tiles _ _ _ _ _ Hv)) as (? & ? & ?).
  { apply elem_of_app. right. apply list_elem_of_here. }
  unfold sizeof_heap, HEAP_INDEX_SIZE in *. split_and!; lia.
Qed.

Lemma take_tiles : tiles lo (b_pos b) l1 /\ tiles (b_end b) hi l2.
Proof. destruct (tiles_split _ _ l1 b l2 (hv_tiles _ _ _ _ _ Hv)) as (? & _ & ?). done. Qed.

Context (idx : list Z) (i : Z).
Context (He : entries m heap idx) (Hp : idx ≡ₚ holes (l1 ++ [b] ++ l2)).
Context (Hi : 0 <= i < Z.of_nat (length idx)) (Hlen : Z.of_nat (length idx) + 1 < HEAP_INDEX_SIZE).
Context (Hfree : b_free b = true) (Hpos : b_pos b = nth (Z.to_nat i) idx 0).

Let m1 := remove_ordered_array i heap m.

(** The index without the hole. *)
Lemma take_removed :
  exists idx1, entries m1 heap idx1 /\ idx1 ≡ₚ holes (l1 ++ l2) /\
    Z.of_nat (length idx1) + 1 = Z.of_nat (length idx) /\
    arr_array m1 heap = heap + sizeof_heap /\
    heap_frame heap (b_pos b) (b_end b) m m1.
Proof.
  destruct (remove_result m heap HEAP_INDEX_SIZE idx i He (heap_room _ _ _ _ _ Hv) ltac:(lia) Hi)
    as (He1 & Hf1 & Ha1).
  exists (delete (Z.to_nat i) idx).
  assert (idx !! Z.to_nat i = Some (b_pos b)) as Hlk.
  { rewrite Hpos. destruct (lookup_lt_is_Some_2 idx (Z.to_nat i)) as [x Hx]; [lia |].
    by rewrite (nth_lookup_Some _ _ _ _ Hx). }
  split_and!; [done | | | etrans; [exact Ha1 | apply Hv] | eapply heap_frame_array; [apply Hv | done]].
  - apply (Permutation_cons_inv (a := b_pos b)). rewrite <- (delete_Permutation _ _ _ Hlk), Hp.
    rewrite !holes_app, holes_cons, Hfree. simpl. by rewrite Permutation_middle.
  - rewrite length_delete by eauto. lia.
Qed.

(** A block of [sz] bytes at the start of the hole. *)
Let m2 (sz : Z) := set_footer (b_pos b + sz - 16) (b_pos b) (set_header (b_pos b) 0 sz m1).

Lemma take_block sz :
  32 <= sz <= b_size b ->
  same_outside (b_pos b) (b_pos b + sz) m1 (m2 sz) /\
  blk_header (m2 sz) (Blk (b_pos b) sz false) /\ blk_footer (m2 sz) (Blk (b_pos b) sz false).
Proof.
  pose proof take_bounds as (? & ? & ? & ? & ? & ?). unfold b_end in *. intros Hsz. unfold m2. split_and!.
  - apply (same_outside_trans _ _ _ (set_header (b_pos b) 0 sz m1)).
    + eapply same_outside_mono; [apply set_header_outside | lia | lia].
    + eapply same_outside_mono; [apply set_footer_outside | lia | lia].
  - apply (header_same (set_header (b_pos b) 0 sz m1)); [| apply (set_header_ok _ _ false); lia].
    intros a Ha. simpl in Ha. apply set_footer_outside. lia.
  - apply set_footer_ok; [lia | done].
Qed.

(** The whole hole is taken. *)
Lemma take_whole :
  heap_inv (m2 (b_size b)) heap lo hi (l1 ++ [Blk (b_pos b) (b_size b) false] ++ l2) /\
  heap_frame heap (b_pos b) (b_end b) m (m2 (b_size b)).
Proof.
  pose proof take_bounds as (? & ? & ? & ? & ? & ?). destruct take_tiles as [Ht1 Ht2].
  destruct take_removed as (idx1 & He1 & Hp1 & Hlen1 & Ha1 & Hf1).
  destruct (take_block (b_size b) ltac:(lia)) as (Hs & Hh & Hft).
  assert (heap_frame heap (b_pos b) (b_end b) m (m2 (b_size b))) as Hf.
  { eapply heap_frame_trans; [exact Hf1 |].
    eapply heap_frame_outside; [exact Hs | lia | unfold b_end; lia]. }
  split; [| exact Hf].
  eapply (heap_update m _ heap lo hi l1 [b] l2); [done | exact Ht1 | exact Ht2 | | exact Hf | | | |].
  - simpl. unfold b_end. simpl. split_and!; [done | lia | done].
  - intros c ->%list_elem_of_singleton. split; [done | by left].
  - eapply (entries_outside _ _ _ m1 _ idx1); [exact Hs | exact Ha1 | | | exact He1].
    + unfold sizeof_heap, HEAP_INDEX_SIZE in *. lia.
    + lia.
  - rewrite Hp1, !holes_app. done.
  - assert (holes (l1 ++ [Blk (b_pos b) (b_size b) false] ++ l2) = holes (l1 ++ l2)) as -> by (by rewrite !holes_app).
    rewrite <- Hp1. lia.
Qed.

(** The hole is cut: [sz] bytes for the block, the rest for a new hole. *)
Let m3 (sz : Z) :=
  set_footer (b_end b - 16) (b_pos b + sz) (set_header (b_pos b + sz) 1 (b_size b - sz) (m2 sz)).
Let m4 (sz : Z) := insert_ordered_array header_t_less_than (b_pos b + sz) heap (m3 sz).

Lemma take_rest sz :
  32 <= sz -> sz + 32 <= b_size b ->
  same_outside (b_pos b) (b_end b) m1 (m3 sz) /\
  blk_ok (m3 sz) hi (Blk (b_pos b) sz false) /\
  blk_ok (m3 sz) hi (Blk (b_pos b + sz) (b_size b - sz) true).
Proof.
  pose proof take_bounds as (? & ? & ? & ? & ? & ?). unfold b_end in *. intros Hsz Hrest.
  destruct (take_block sz ltac:(lia)) as (Hs & Hh & Hft).
  assert (same_outside (b_pos b + sz) (b_pos b + b_size b) (m2 sz) (m3 sz)) as Hs3.
  { unfold m3, b_end.
    apply (same_outside_trans _ _ _ (set_header (b_pos b + sz) 1 (b_size b - sz) (m2 sz))).
    - eapply same_outside_mono; [apply set_header_outside | lia | lia].
    - eapply same_outside_mono; [apply set_footer_outside | lia | lia]. }
  split_and!.
  - eapply same_outside_trans; eapply same_outside_mono; [exact Hs | lia | lia | exact Hs3 | lia | lia].
  - eapply (blk_ok_same (m2 sz)); [simpl; lia | | split; [exact Hh | by left]].
    unfold b_end. simpl. intros a Ha. apply Hs3. lia.
  - split; [| left].
    + apply (header_same (set_header (b_pos b + sz) 1 (b_size b - sz) (m2 sz)));
        [| apply (set_header_ok _ _ true); lia].
      intros a Ha. simpl in Ha. apply set_footer_outside. unfold b_end. lia.
    + apply set_footer_ok; [lia | unfold b_end; lia].
Qed.

Lemma take_split sz :
  32 <= sz -> sz + 32 <= b_size b ->
  heap_inv (m4 sz) heap lo hi
    (l1 ++ [Blk (b_pos b) sz false; Blk (b_pos b + sz) (b_size b - sz) true] ++ l2) /\
  heap_frame heap (b_pos b) (b_end b) m (m4 sz) /\ end_address (m3 sz) heap = hi.
Proof.
  intros Hsz Hrest. pose proof take_bounds as (? & ? & ? & ? & ? & ?). destruct take_tiles as [Ht1 Ht2].
  destruct take_removed as (idx1 & He1 & Hp1 & Hlen1 & Ha1 & Hf1).
  destruct (take_rest sz Hsz Hrest) as (Hs & Hok1 & Hok2).
  unfold sizeof_heap, HEAP_INDEX_SIZE in *.
  assert (arr_array (m3 sz) heap = arr_array m1 heap) as Ha3.
  { eapply same_outside_load; [exact Hs | simpl; lia]. }
  assert (entries (m3 sz) heap idx1) as He3.
  { eapply (entries_outside _ _ _ m1 _ idx1); [exact Hs | exact Ha1 | | | exact He1];
      unfold sizeof_heap, HEAP_INDEX_SIZE; lia. }
  assert (heap_frame heap (b_pos b) (b_end b) m (m3 sz)) as Hf3.
  { eapply heap_frame_trans; [exact Hf1 |]. eapply heap_frame_outside; [exact Hs | lia | lia]. }
  destruct (insert_result header_t_less_than (m3 sz) heap HEAP_INDEX_SIZE idx1 (b_pos b + sz) He3)
    as (He4 & Hf4 & _); [| unfold HEAP_INDEX_SIZE; lia | lia | unfold b_end in *; lia |].
  { right. rewrite Ha3, Ha1. unfold sizeof_ordered_array, sizeof_heap. lia. }
  assert (heap_frame heap (b_pos b) (b_end b) (m3 sz) (m4 sz)) as Hf34.
  { eapply heap_frame_array; [by rewrite Ha3 | exact Hf4]. }
  split_and!.
  - eapply (heap_update m _ heap lo hi l1 [b] l2 _ (b_pos b) (b_end b)); [done | exact Ht1 | exact Ht2 | | | | exact He4 | |].
    + unfold b_end. simpl. unfold b_end. simpl. split_and!; lia.
    + by eapply heap_frame_trans.
    + intros c Hc. assert (blk_ok (m3 sz) hi c /\ b_pos b <= b_pos c /\ b_end c <= b_end b /\ 32 <= b_size c)
        as (Hok & ? & ? & ?).
      { apply elem_of_cons in Hc as [-> | ->%list_elem_of_singleton]; unfold b_end; simpl; split_and!; try done; lia. }
      eapply blk_ok_same; [done | | exact Hok].
      unfold b_end in *. intros a Ha. apply Hf4; [unfold HEAP_INDEX_SIZE; lia |].
      rewrite Ha3, Ha1. unfold sizeof_heap, HEAP_INDEX_SIZE. lia.
    + rewrite insert_before_perm, Hp1, !holes_app. unfold holes at 4. simpl. by rewrite Permutation_middle.
    + assert (length (holes (l1 ++ [Blk (b_pos b) sz false; Blk (b_pos b + sz) (b_size b - sz) true] ++ l2))
        = S (length (holes (l1 ++ l2)))) as -> by (rewrite !holes_app, !length_app; simpl; lia).
      rewrite <- Hp1. unfold HEAP_INDEX_SIZE. lia.
  - by eapply heap_frame_trans.
  - rewrite <- (hv_end _ _ _ _ _ Hv). unfold end_address.
    eapply (heap_frame_field heap (b_pos b) (b_end b) m); [exact Hf3 | unfold sizeof_heap; lia | lia].
Qed.
(** The hole keeps its place in the index with the size [f], the block comes behind it. *)
Let m5 (f sz : Z) := put_block (b_pos b + f) sz false (put_block (b_pos b) f true m).

Lemma front_block f sz :
  32 <= f -> 32 <= sz -> f + sz <= b_size b ->
  same_outside (b_pos b) (b_end b) m (m5 f sz) /\ blk_ok (m5 f sz) hi (Blk (b_pos b) f true) /\
  blk_ok (m5 f sz) hi (Blk (b_pos b + f) sz false).
Proof.
  pose proof take_bounds as (? & ? & ? & ? & ? & ?). unfold b_end in *. intros Hf Hsz Hlim. unfold m5.
  destruct (put_block_ok (b_pos b) f true hi m) as [Hs1 Hok1]; [lia | lia | lia |].
  destruct (put_block_ok (b_pos b + f) sz false hi (put_block (b_pos b) f true m)) as [Hs2 Hok2]; [lia | lia | lia |].
  split; [| split; [| exact Hok2]].
  - eapply same_outside_trans; eapply same_outside_mono; [exact Hs1 | lia | lia | exact Hs2 | lia | lia].
  - apply blk_ok_put; unfold b_end; simpl; (lia || exact Hok1).
Qed.

Lemma take_front f sz :
  32 <= f -> 32 <= sz -> f + sz = b_size b ->
  heap_inv (m5 f sz) heap lo hi (l1 ++ [Blk (b_pos b) f true; Blk (b_pos b + f) sz false] ++ l2) /\
  heap_frame heap (b_pos b) (b_end b) m (m5 f sz).
Proof.
  intros Hf Hsz Hlim. pose proof take_bounds as (? & ? & ? & ? & ? & ?). destruct take_tiles as [Ht1 Ht2].
  destruct (front_block f sz) as (Hs & Hok1 & Hok2); [lia | lia | lia |].
  assert (heap_frame heap (b_pos b) (b_end b) m (m5 f sz)) as Hfr by (eapply heap_frame_outside; [exact Hs | lia | lia]).
  split; [| exact Hfr].
  assert (holes (l1 ++ [Blk (b_pos b) f true; Blk (b_pos b + f) sz false] ++ l2) = holes (l1 ++ [b] ++ l2)) as Eh
    by (by rewrite !holes_app, !holes_cons, Hfree).
  eapply (heap_update m _ heap lo hi l1 [b] l2 _ (b_pos b) (b_end b) idx); [done | exact Ht1 | exact Ht2 | | exact Hfr | | | |].
  - unfold b_end. simpl. unfold b_end. simpl. split_and!; lia.
  - intros c Hc. apply elem_of_cons in Hc as [-> | ->%list_elem_of_singleton]; done.
  - eapply (entries_outside _ _ _ m _ idx); [exact Hs | apply Hv | | | exact He]; unfold sizeof_heap, HEAP_INDEX_SIZE in *; lia.
  - by rewrite Eh.
  - rewrite Eh. apply Hv.
Qed.

Let m6 (f sz : Z) := put_block (b_pos b + f + sz) (b_size b - f - sz) true (m5 f sz).

Lemma take_front_split f sz :
  32 <= f -> 32 <= sz -> f + sz + 32 <= b_size b -> Z.of_nat (length idx) + 2 < HEAP_INDEX_SIZE ->
  heap_inv (insert_ordered_array header_t_less_than (b_pos b + f + sz) heap (m6 f sz)) heap lo hi
    (l1 ++ [Blk (b_pos b) f true; Blk (b_pos b + f) sz false; Blk (b_pos b + f + sz) (b_size b - f - sz) true] ++ l2) /\
  heap_frame heap (b_pos b) (b_end b) m (insert_ordered_array header_t_less_than (b_pos b + f + sz) heap (m6 f sz)).
Proof.
  intros Hf Hsz Hlim Hroom. pose proof take_bounds as (? & ? & ? & ? & ? & ?). destruct take_tiles as [Ht1 Ht2].
  destruct (front_block f sz) as (Hs5 & Hok1 & Hok2); [lia | lia | lia |]. unfold sizeof_heap, HEAP_INDEX_SIZE in *.
  destruct (put_block_ok (b_pos b + f + sz) (b_size b - f - sz) true hi (m5 f sz)) as [Hs6 Hok3]; [lia | lia | unfold b_end in *; lia |].
  fold (m6 f sz) in Hs6, Hok3.
  assert (same_outside (b_pos b) (b_end b) m (m6 f sz)) as Hs
    by (eapply same_outside_trans; [exact Hs5 | eapply same_outside_mono; [exact Hs6 | lia | unfold b_end; lia]]).
  assert (arr_array (m6 f sz) heap = arr_array m heap) as Ha by (eapply same_outside_load; [exact Hs | simpl; lia]).
  assert (entries (m6 f sz) heap idx) as He6.
  { eapply (entries_outside _ _ _ m _ idx); [exact Hs | apply Hv | | | exact He]; unfold sizeof_heap, HEAP_INDEX_SIZE; lia. }
  destruct (insert_result header_t_less_than (m6 f sz) heap HEAP_INDEX_SIZE idx (b_pos b + f + sz) He6)
    as (He7 & Hf7 & _); [| unfold HEAP_INDEX_SIZE; lia | lia | unfold b_end in *; lia |].
  { right. rewrite Ha, (hv_array _ _ _ _ _ Hv). unfold sizeof_ordered_array, sizeof_heap. lia. }
  set (m7 := insert_ordered_array _ _ _ _) in *.
  assert (heap_frame heap (b_pos b) (b_end b) m m7) as Hfr.
  { eapply heap_frame_trans; [eapply heap_frame_outside; [exact Hs | lia | lia] |].
    eapply heap_frame_array; [by rewrite Ha, (hv_array _ _ _ _ _ Hv) | exact Hf7]. }
  split; [| exact Hfr].
  eapply (heap_update m _ heap lo hi l1 [b] l2 _ (b_pos b) (b_end b)); [done | exact Ht1 | exact Ht2 | | exact Hfr | | exact He7 | |].
  - unfold b_end. simpl. unfold b_end. simpl. split_and!; lia.
  - intros c Hc. assert (blk_ok (m6 f sz) hi c /\ b_pos b <= b_pos c /\ b_end c <= b_end b /\ 32 <= b_size c) as (Hok & ? & ? & ?).
    { unfold b_end in *. apply elem_of_cons in Hc as [->|[->| ->%list_elem_of_singleton]%elem_of_cons]; simpl; (split; [| lia]);
        [apply blk_ok_put | apply blk_ok_put | exact Hok3]; unfold b_end; simpl; (lia || done). }
    eapply blk_ok_same; [done | | exact Hok].
    unfold b_end in *. intros a Hac. apply Hf7; [unfold HEAP_INDEX_SIZE; lia |].
    rewrite Ha, (hv_array _ _ _ _ _ Hv). unfold sizeof_heap, HEAP_INDEX_SIZE. lia.
  - rewrite insert_before_perm, Hp, !holes_app, !holes_cons, Hfree. simpl.
    rewrite (Permutation_app_comm (holes l1) (b_pos b :: b_pos b + f + sz :: _)). simpl.
    rewrite (Permutation_app_comm (holes l1) (b_pos b :: _)). simpl.
    rewrite perm_swap. do 2 constructor. by rewrite Permutation_app_comm.
  - assert (length (holes (l1 ++ [Blk (b_pos b) f true; Blk (b_pos b + f) sz false; Blk (b_pos b + f + sz) (b_size b - f - sz) true] ++ l2))
      = S (length (holes (l1 ++ [b] ++ l2)))) as -> by (rewrite !holes_app, !length_app, !holes_cons, Hfree; simpl; lia).
    rewrite <- Hp. unfold HEAP_INDEX_SIZE. lia.
Qed.
End take.

Lemma set_footer_end_address m f h heap :
  heap + 48 <= f -> end_address (set_footer f h m) heap = end_address m heap.
Proof. intros. eapply same_outside_load; [apply set_footer_outside | simpl; lia]. Qed.

Ltac word_simpl :=
  cbv beta;
  repeat match goal with
  | |- context [uint64_t ?e] => rewrite (uint64_id e) by (unfold is_word; lia)
  end.

Lemma alloc_take_run m heap lo hi l1 l2 b idx i (page_align size : Z) :
  heap_inv m heap lo hi (l1 ++ [b] ++ l2) -> entries m heap idx ->
  idx ≡ₚ holes (l1 ++ [b] ++ l2) -> 0 <= i < Z.of_nat (length idx) ->
  Z.of_nat (length idx) + 1 < HEAP_INDEX_SIZE ->
  b_free b = true -> b_pos b = nth (Z.to_nat i) idx 0 ->
  0 <= size -> size + 32 <= b_size b ->
  front page_align (b_pos b) = 0 ->
  exists m', alloc_take i size (size + 32) page_align heap m = (b_pos b + 16, m') /\
    heap_inv m' heap lo hi (l1 ++ carve b size ++ l2) /\
    heap_frame heap (b_pos b) (b_end b) m m'.
Proof.
  intros Hv He Hp Hi Hlen Hfree Hpos Hsz Hfit Hfront.
  assert (negb (page_align =? 0) && negb (Z.land (b_pos b + 16) 0xFFF =? 0) = false) as Hno.
  { unfold front in *. destruct (page_align =? 0); [done |]. rewrite land_page.
    destruct (Z.eqb_spec ((b_pos b + 16) mod 4096) 0) as [|Hne]; [done |]. exfalso. apply Hne. clear - Hfront. div_lia. }
  pose proof (take_bounds m heap lo hi l1 l2 b Hv) as (? & ? & ? & ? & ? & ?).
  destruct (hv_blocks _ _ _ _ _ Hv b) as [(_ & _ & Hbs) _].
  { apply elem_of_app. right. apply list_elem_of_here. }
  unfold alloc_take. rewrite (lookup_entry _ _ idx) by done. rewrite <- Hpos, Hbs.
  unfold sizeof_header, sizeof_footer, carve. unfold b_end in *. word_simpl.
  rewrite Hno. cbv iota.
  destruct (Z.ltb_spec (b_size b - (size + 32)) (16 + 16)) as [Hlt|Hge].
  - destruct (Z.ltb_spec (b_size b - (size + 32)) 32); [| lia]. word_simpl.
    replace (b_size b - b_size b) with 0 by lia. word_simpl. simpl.
    replace (b_pos b + 16 + (size + (b_size b - (size + 32)))) with (b_pos b + b_size b - 16) by lia.
    destruct (take_whole m heap lo hi l1 l2 b Hv idx i He Hp Hi Hlen Hfree Hpos) as [Hv' Hf'].
    eexists. split_and!; [done | exact Hv' | exact Hf'].
  - destruct (Z.ltb_spec (b_size b - (size + 32)) 32); [lia |].
    destruct (take_split m heap lo hi l1 l2 b Hv idx i He Hp Hi Hlen Hfree Hpos (size + 32))
      as (Hv' & Hf' & Hend); [lia | lia |].
    word_simpl. destruct (Z.ltb_spec 0 (b_size b - (size + 32))); [| lia].
    unfold sizeof_heap, HEAP_INDEX_SIZE, b_end in *.
    rewrite set_footer_end_address in Hend by lia.
    replace (b_pos b + 16 + size) with (b_pos b + (size + 32) - 16) by lia.
    replace (b_pos b + (size + 32) - 16 + 16) with (b_pos b + (size + 32)) by lia.
    replace (b_pos b + (size + 32) + b_size b - (size + 32) - 16) with (b_pos b + b_size b - 16) by lia.
    rewrite Hend. destruct (Z.ltb_spec (b_pos b + b_size b - 16) hi); [| lia].
    eexists. split_and!; [done | exact Hv' | exact Hf'].
Qed.

(** The block behind a hole of its own. *)
Lemma alloc_take_front m heap lo hi l1 l2 b idx i (page_align size : Z) :
  heap_inv m heap lo hi (l1 ++ [b] ++ l2) -> entries m heap idx ->
  idx ≡ₚ holes (l1 ++ [b] ++ l2) -> 0 <= i < Z.of_nat (length idx) -> Z.of_nat (length idx) + 2 < HEAP_INDEX_SIZE ->
  b_free b = true -> b_pos b = nth (Z.to_nat i) idx 0 -> 0 <= size ->
  let f := front page_align (b_pos b) in
  let left := b_size b - f - (size + 32) in
  32 <= f <= 4080 -> left = 0 \/ 32 <= left ->
  exists m', alloc_take i size (size + 32) page_align heap m = (b_pos b + f + 16, m') /\
    heap_inv m' heap lo hi (l1 ++ carved page_align b size ++ l2) /\
    heap_frame heap (b_pos b) (b_end b) m m'.
Proof.
  intros Hv He Hp Hi Hlen Hfree Hpos Hsz f left Hf Hleft.
  pose proof (take_bounds m heap lo hi l1 l2 b Hv) as (? & ? & ? & ? & ? & ?).
  destruct (hv_blocks _ _ _ _ _ Hv b) as [(_ & _ & Hbs) _]; [apply elem_of_app; right; apply list_elem_of_here |].
  assert (page_align <> 0) as Hal by (intros ->; unfold f, front in Hf; simpl in Hf; lia).
  assert (f = 4096 - b_pos b mod 4096 - 16 /\ (b_pos b + 16) mod 4096 <> 0) as [Ef Hmod].
  { unfold f, front in *. rewrite (proj2 (Z.eqb_neq _ _) Hal) in *. clear - Hf. div_lia. }
  unfold alloc_take. rewrite (lookup_entry _ _ idx) by done. rewrite <- Hpos, Hbs.
  unfold sizeof_header, sizeof_footer, HEAP_BLOCK_SIZE. unfold b_end in *. word_simpl.
  rewrite (proj2 (Z.ltb_ge (b_size b - (size + 32)) (16 + 16))) by lia.
  rewrite (proj2 (Z.eqb_neq _ _) Hal), land_page, (proj2 (Z.eqb_neq _ _) Hmod). cbn [negb andb].
  unfold split_front, sizeof_header, sizeof_footer, HEAP_BLOCK_SIZE. rewrite !land_page.
  pose proof (Z.mod_pos_bound (b_pos b) 4096 ltac:(lia)). word_simpl.
  replace (4096 - b_pos b mod 4096 - 16) with f by lia. replace (b_pos b + 4096 - b_pos b mod 4096 - 16) with (b_pos b + f) by lia.
  change (set_footer (b_pos b + f - 16) (b_pos b) (set_header (b_pos b) 1 f m)) with (put_block (b_pos b) f true m).
  destruct (put_block_ok (b_pos b) f true hi m) as [_ [(_ & _ & Efs) _]]; [lia | lia | lia |]. cbn [b_pos b_size] in Efs. rewrite Efs.
  word_simpl. replace (b_pos b + f + 16 + size) with (b_pos b + f + (size + 32) - 16) by lia.
  change (set_footer (b_pos b + f + (size + 32) - 16) (b_pos b + f) (set_header (b_pos b + f) 0 (size + 32) (put_block (b_pos b) f true m)))
    with (put_block (b_pos b + f) (size + 32) false (put_block (b_pos b) f true m)).
  fold left. unfold carved. fold f. rewrite (proj2 (Z.eqb_neq f 0)) by lia. fold left.
  destruct Hleft as [Hl|Hl].
  - rewrite (proj2 (Z.eqb_eq left 0)), (proj2 (Z.ltb_ge 0 left)) by lia.
    destruct (take_front m heap lo hi l1 l2 b Hv idx He Hp ltac:(lia) Hfree f (size + 32)) as [Hv' Hf']; [lia | lia | lia |].
    eexists. split_and!; [done | exact Hv' | exact Hf'].
  - rewrite (proj2 (Z.eqb_neq left 0)), (proj2 (Z.ltb_lt 0 left)) by lia.
    destruct (take_front_split m heap lo hi l1 l2 b Hv idx He Hp ltac:(lia) Hfree f (size + 32)) as [Hv' Hf']; [lia | lia | lia | done |].
    set (m5 := put_block (b_pos b + f) (size + 32) false _) in *.
    replace (b_pos b + f + (size + 32) - 16 + 16) with (b_pos b + f + (size + 32)) by lia.
    replace (b_pos b + f + (size + 32) + (b_size b - f) - (size + 32) - 16) with (b_pos b + f + (size + 32) + left - 16) by lia.
    assert (end_address (set_header (b_pos b + f + (size + 32)) 1 left m5) heap = hi) as ->.
    { destruct (front_block m heap lo hi l1 l2 b Hv idx f (size + 32)) as (Hs & _); [lia | lia | lia |]. fold m5 in Hs.
      rewrite <- (hv_end _ _ _ _ _ Hv). unfold end_address, sizeof_heap, HEAP_INDEX_SIZE in *.
      rewrite (same_outside_load _ _ _ _ 8 (heap + 40) (set_header_outside _ _ _ _)) by (simpl; lia).
      eapply same_outside_load; [exact Hs | simpl; lia]. }
    rewrite (proj2 (Z.ltb_lt (b_pos b + f + (size + 32) + left - 16) hi)) by lia.
    eexists. split_and!; [done | exact Hv' | exact Hf'].
Qed.

(** * [alloc] *)

Section alloc.
Context {P : Type} `{KernelPages P}.
Implicit Types (s : hstate P).

(** The first hole of the index that fits is taken. *)
Lemma alloc_aligned_run (fuel : nat) (size page_align heap lo hi : Z) (l : list blk) (s : hstate P)
  (Hv : heap_inv (hs_mem s) heap lo hi l) (Hsize : 0 <= size < 2 ^ 64 - 32) (Halign : 0 <= page_align)
  (Hfit : exists b, b ∈ l /\ fits page_align size b)
  (Hapt : forall b, b ∈ l -> fits page_align size b -> apt page_align size b)
  (Hroom : page_align = 0 \/ Z.of_nat (length (holes l)) + 2 < HEAP_INDEX_SIZE) :
  exists l1 b l2 m',
    l = l1 ++ [b] ++ l2 /\ fits page_align size b /\
    alloc (S fuel) size page_align heap s = Some (b_pos b + front page_align (b_pos b) + 16, upd_mem (fun _ => m') s) /\
    heap_inv m' heap lo hi (l1 ++ carved page_align b size ++ l2) /\
    (forall a, lo <= a < hi -> ~ (b_pos b <= a < b_end b) -> load8 m' a = load8 (hs_mem s) a).
Proof.
  destruct (heap_index _ _ _ _ _ Hv) as (idx & He & Hp & Hlen).
  destruct (find_hole_spec _ _ _ _ _ idx page_align size Hv He Hp ltac:(lia) Halign Hsize Hfit) as (i & Ei & Hi & Hsz).
  destruct (index_hole _ _ _ _ _ _ i Hv He Hp Hi) as (l1 & b & l2 & -> & Hfree & Hpos & Hbs).
  rewrite <- Hpos, Hbs in Hsz. pose proof (conj Hfree Hsz : fits page_align size b) as Hb.
  assert (exists m', alloc_take i size (size + 32) page_align heap (hs_mem s) = (b_pos b + front page_align (b_pos b) + 16, m') /\
    heap_inv m' heap lo hi (l1 ++ carved page_align b size ++ l2) /\ heap_frame heap (b_pos b) (b_end b) (hs_mem s) m') as (m' & Et & Hv' & Hf').
  { destruct (Z.eqb_spec (front page_align (b_pos b)) 0) as [E0|Hne].
    - unfold carved. rewrite E0, Z.add_0_r. cbv zeta. rewrite (proj2 (Z.eqb_eq 0 0)) by done.
      apply (alloc_take_run _ _ _ _ l1 l2 b idx i page_align size Hv He Hp Hi Hlen Hfree Hpos); lia.
    - destruct (Hapt b) as [?|[Hf Hl]]; [apply elem_of_app; right; apply list_elem_of_here | done | done |].
      apply (alloc_take_front _ _ _ _ l1 l2 b idx i page_align size Hv He Hp Hi); [| done | done | lia | done | done].
      rewrite (Permutation_length Hp). destruct Hroom as [->|]; [| done]. by unfold front in Hne. }
  exists l1, b, l2, m'. split_and!; [done | done | | done |].
  - simpl. unfold sizeof_header, sizeof_footer. cbv beta. word_simpl.
    replace (size + 16 + 16) with (size + 32) by lia. rewrite Ei.
    destruct (Z.eqb_spec i all_ones) as [E|_]; [|by rewrite Et].
    unfold all_ones, HEAP_INDEX_SIZE in *. lia.
  - pose proof (hv_low _ _ _ _ _ Hv). unfold sizeof_heap, HEAP_INDEX_SIZE in *.
    intros a Ha Hn. apply Hf'; unfold sizeof_heap, HEAP_INDEX_SIZE; lia.
Qed.

(** Without alignment every hole is apt. *)
Lemma alloc_run (fuel : nat) (size heap lo hi : Z) (l : list blk) (s : hstate P)
  (Hv : heap_inv (hs_mem s) heap lo hi l) (Hsize : 0 <= size < 2 ^ 64 - 32)
  (Hfit : exists b, b ∈ l /\ b_free b = true /\ size + 32 <= b_size b) :
  exists l1 b l2 m',
    l = l1 ++ [b] ++ l2 /\ b_free b = true /\ size + 32 <= b_size b /\
    alloc (S fuel) size 0 heap s = Some (b_pos b + 16, upd_mem (fun _ => m') s) /\
    heap_inv m' heap lo hi (l1 ++ carve b size ++ l2) /\
    (forall a, lo <= a < hi -> ~ (b_pos b <= a < b_end b) -> load8 m' a = load8 (hs_mem s) a).
Proof.
  destruct (alloc_aligned_run fuel size 0 heap lo hi l s Hv Hsize ltac:(lia) Hfit) as (l1 & b & l2 & m' & El & [Hf Hs] & E & Hv' & Hk);
    [by left | by left |].
  rewrite Z.add_0_r in E. exists l1, b, l2, m'. by split_and!.
Qed.

(** C1: [alloc], with or without page alignment, when some hole is large enough ([fits]): it returns a block
    inside a hole, behind its header, and on a page if that was asked for; the hole becomes a smaller hole in
    front of an aligned block, the block, and a smaller hole behind it ([carved]); the heap stays
    well-formed, and no byte of the heap outside that hole changes, so that
    every other block keeps its contents. For an aligned block the holes that fit must be [apt]: no space in
    front, or 32 to 4080 bytes, and none or 32 bytes behind; otherwise the code writes headers over each other
    ([HeapRuns.front_hole_wraps], [HeapRuns.aligned_block_overruns]). When no hole fits, the heap grows, and is not
    kept well-formed in general ([HeapRuns.grown_heap_overlaps]). *)
Theorem alloc_spec (fuel : nat) (size page_align heap lo hi : Z) (l : list blk) (s : hstate P)
  (Hv : heap_inv (hs_mem s) heap lo hi l) (Hsize : 0 <= size < 2 ^ 64 - 32) (Halign : 0 <= page_align)
  (Hfit : exists b, b ∈ l /\ fits page_align size b)
  (Hapt : forall b, b ∈ l -> fits page_align size b -> apt page_align size b)
  (Hroom : page_align = 0 \/ Z.of_nat (length (holes l)) + 2 < HEAP_INDEX_SIZE) :
  exists l1 b l2 m' p,
    l = l1 ++ [b] ++ l2 /\ fits page_align size b /\
    alloc (S fuel) size page_align heap s = Some (p, upd_mem (fun _ => m') s) /\
    p = b_pos b + front page_align (b_pos b) + 16 /\ (page_align <> 0 -> p mod 4096 = 0) /\
    heap_inv m' heap lo hi (l1 ++ carved page_align b size ++ l2) /\
    (forall a, lo <= a < hi -> ~ (b_pos b <= a < b_end b) -> load8 m' a = load8 (hs_mem s) a).
Proof.
  destruct (alloc_aligned_run fuel size page_align heap lo hi l s Hv Hsize Halign Hfit Hapt Hroom) as (l1 & b & l2 & m' & El & Hf & E & Hv' & Hk).
  exists l1, b, l2, m'. eexists. split_and!; [done | done | exact E | done | apply front_page | done | done].
Qed.
End alloc.

(** * [free] *)

Definition freed (b : blk) : blk := Blk (b_pos b) (b_size b) true.
Definition joined (a b : blk) : blk := Blk (b_pos a) (b_size a + b_size b) true.

(** The block [b] becomes a hole, together with the hole in front of it. *)
Definition merge_left (l1 : list blk) (b : blk) : list blk :=
  match last l1 with
  | Some a => if b_free a then take (length l1 - 1) l1 ++ [joined a b] else l1 ++ [freed b]
  | None => [freed b]
  end.

Lemma merge_left_nil b : merge_left [] b = [freed b].
Proof. done. Qed.

Lemma merge_left_snoc l1 a b :
  merge_left (l1 ++ [a]) b = if b_free a then l1 ++ [joined a b] else (l1 ++ [a]) ++ [freed b].
Proof.
  unfold merge_left. rewrite last_snoc. destruct (b_free a); [| done].
  rewrite length_app. simpl. by rewrite Nat.add_sub, take_app_length.
Qed.

Lemma set_is_hole_outside m h v : same_outside (h + 4) (h + 5) m (set_is_hole h v m).
Proof. intros a Ha. apply load8_store8_ne. lia. Qed.

Lemma set_is_hole_ok m b : blk_header m b -> blk_header (set_is_hole (b_pos b) 1 m) (freed b).
Proof.
  unfold blk_header, hdr_magic, hdr_is_hole, hdr_size, set_is_hole, freed. simpl.
  intros (? & _ & ?). split_and!.
  - rewrite (load_ext m); [done |]. simpl. intros. apply load8_store8_ne. lia.
  - apply load8_store8_eq.
  - rewrite (load_ext m); [done |]. simpl. intros. apply load8_store8_ne. lia.
Qed.

Section free.
Context (m : mem) (heap lo hi : Z) (l1 l2 : list blk) (b : blk).
Context (Hv : heap_inv m heap lo hi (l1 ++ [b] ++ l2)).

Let m1 := set_is_hole (b_pos b) 1 m.

Lemma free_outside : same_outside (b_pos b) (b_end b) m m1.
Proof.
  pose proof (take_bounds m heap lo hi l1 l2 b Hv) as (? & ? & ? & ? & ? & ?). unfold b_end in *.
  eapply same_outside_mono; [apply set_is_hole_outside | lia | lia].
Qed.

Lemma free_block : blk_ok m hi b -> blk_ok m1 hi (freed b).
Proof.
  pose proof (take_bounds m heap lo hi l1 l2 b Hv) as (? & ? & ? & ? & ? & ?). unfold b_end in *.
  intros [Hh Hf]. split; [by apply set_is_hole_ok |].
  destruct Hf as [Hf|[_ Hf]]; [left | by right]. eapply (footer_same m); [| exact Hf].
  unfold freed, b_end. simpl. intros a Ha. apply load8_store8_ne. lia.
Qed.

(** No hole in front: the block joins the index. *)
Lemma free_single idx :
  entries m heap idx -> idx ≡ₚ holes (l1 ++ [b] ++ l2) -> Z.of_nat (length idx) + 2 < HEAP_INDEX_SIZE ->
  b_free b = false ->
  let m' := insert_ordered_array header_t_less_than (b_pos b) heap m1 in
  heap_inv m' heap lo hi ((l1 ++ [freed b]) ++ l2) /\ heap_frame heap (b_pos b) (b_end b) m m'.
Proof.
  intros He Hp Hlen Hfree. simpl.
  pose proof (take_bounds m heap lo hi l1 l2 b Hv) as (? & ? & ? & ? & ? & ?).
  destruct (take_tiles m heap lo hi l1 l2 b Hv) as [Ht1 Ht2].
  pose proof free_outside as Hs. unfold sizeof_heap, HEAP_INDEX_SIZE in *.
  pose proof (hv_array _ _ _ _ _ Hv) as Ha.
  assert (arr_array m1 heap = arr_array m heap) as Ha1 by (eapply same_outside_load; [exact Hs | simpl; lia]).
  assert (entries m1 heap idx) as He1.
  { eapply (entries_outside _ _ _ m _ idx); [exact Hs | exact Ha | | | exact He];
      unfold sizeof_heap, HEAP_INDEX_SIZE; lia. }
  destruct (insert_result header_t_less_than m1 heap HEAP_INDEX_SIZE idx (b_pos b) He1)
    as (He' & Hf' & _); [| unfold HEAP_INDEX_SIZE; lia | lia | unfold b_end in *; lia |].
  { right. rewrite Ha1, Ha. unfold sizeof_ordered_array, sizeof_heap. lia. }
  set (m' := insert_ordered_array _ _ _ _) in *.
  assert (heap_frame heap (b_pos b) (b_end b) m m') as Hf.
  { eapply heap_frame_trans; [eapply heap_frame_outside; [exact Hs | lia | lia] |].
    eapply heap_frame_array; [by rewrite Ha1 | exact Hf']. }
  split; [| exact Hf]. rewrite <- app_assoc.
  eapply (heap_update m m' heap lo hi l1 [b] l2); [done | exact Ht1 | exact Ht2 | | exact Hf | | exact He' | |].
  - simpl. unfold b_end, freed. simpl. split_and!; [done | lia | done].
  - intros c ->%list_elem_of_singleton. eapply (blk_ok_same m1); [done | |].
    + unfold b_end, freed in *. simpl. intros a Hab. apply Hf'; [lia |].
      rewrite Ha1, Ha. unfold sizeof_heap, HEAP_INDEX_SIZE. lia.
    + apply free_block. apply (hv_blocks _ _ _ _ _ Hv). apply elem_of_app. right. apply list_elem_of_here.
  - rewrite insert_before_perm, Hp, !holes_app, !holes_cons, Hfree. simpl. by rewrite Permutation_middle.
  - assert (length (holes (l1 ++ [freed b] ++ l2)) = S (length (holes (l1 ++ [b] ++ l2)))) as ->.
    { rewrite !holes_app, !length_app, !holes_cons, Hfree. simpl. lia. }
    rewrite <- Hp. unfold HEAP_INDEX_SIZE. lia.
Qed.
End free.

Section merge.
Context (m : mem) (heap lo hi : Z) (l1 l2 : list blk) (a b : blk).
Context (Hv : heap_inv m heap lo hi (l1 ++ [a; b] ++ l2)).
Context (Ha : b_free a = true) (Hb : b_free b = false) (Hend : b_end b < hi).

Let m1 := set_is_hole (b_pos b) 1 m.
Let m2 := set_size (b_pos a) (b_size a + b_size b) (set_ftr_header (b_end b - 16) (b_pos a) m1).

Lemma merge_bounds :
  heap + sizeof_heap + 8 * HEAP_INDEX_SIZE + 16 <= lo /\ lo <= b_pos a /\
  b_pos b = b_end a /\ 32 <= b_size a /\ 32 <= b_size b /\ hi < 2 ^ 63 /\ 0 < b_pos a /\
  tiles lo (b_pos a) l1 /\ tiles (b_end b) hi l2.
Proof.
  destruct (tiles_split _ _ l1 a (b :: l2) (hv_tiles _ _ _ _ _ Hv)) as (H1 & ? & H2).
  simpl in H2. destruct H2 as (? & ? & ?). pose proof (tiles_le _ _ _ H1).
  pose proof (hv_low _ _ _ _ _ Hv). pose proof (hv_high _ _ _ _ _ Hv).
  unfold sizeof_heap, HEAP_INDEX_SIZE in *. split_and!; try done; lia.
Qed.

Lemma merge_outside : same_outside (b_pos a) (b_end b) m m2.
Proof.
  pose proof merge_bounds as (? & ? & Hba & ? & ? & ? & ? & _). unfold m2, set_size, set_ftr_header.
  intros x Hx. unfold b_end in *. rewrite !load8_store by (simpl; lia).
  apply set_is_hole_outside. lia.
Qed.

Lemma merge_joined : blk_ok m2 hi (joined a b).
Proof.
  pose proof merge_bounds as (? & ? & Hba & ? & ? & ? & ? & _).
  destruct (hv_blocks _ _ _ _ _ Hv a) as [(Hm & Hhole & _) _]; [rewrite !elem_of_app; right; left; apply list_elem_of_here |].
  destruct (hv_blocks _ _ _ _ _ Hv b) as [_ [[Hfm _]|[? _]]];
    [rewrite !elem_of_app; right; left; apply list_elem_of_further, list_elem_of_here | | congruence].
  rewrite Ha in Hhole. unfold b_end in *. split; [| left].
  - unfold blk_header, joined, hdr_magic, hdr_is_hole, hdr_size, m2, set_size, set_ftr_header. simpl.
    split_and!.
    + rewrite !load_store_other by (simpl; lia). rewrite <- Hm.
      eapply same_outside_load; [apply set_is_hole_outside | simpl; lia].
    + rewrite !load8_store by (simpl; lia). rewrite <- Hhole. apply set_is_hole_outside. lia.
    + apply load_store_same. simpl. lia.
  - unfold blk_footer, joined, ftr_magic, ftr_header, m2, set_size, set_ftr_header, b_end. simpl.
    replace (b_pos a + (b_size a + b_size b) - 16) with (b_pos b + b_size b - 16) by lia. split.
    + rewrite !load_store_other by (simpl; lia). rewrite <- Hfm.
      eapply same_outside_load; [apply set_is_hole_outside | simpl; lia].
    + rewrite load_store_other by (simpl; lia). apply load_store_same. simpl. lia.
Qed.

Lemma merge_inv :
  heap_inv m2 heap lo hi ((l1 ++ [joined a b]) ++ l2) /\ heap_frame heap (b_pos a) (b_end b) m m2.
Proof.
  pose proof merge_bounds as (? & ? & Hba & ? & ? & ? & ? & Ht1 & Ht2). pose proof merge_outside as Hs.
  destruct (heap_index _ _ _ _ _ Hv) as (idx & He & Hp & Hlen).
  assert (heap_frame heap (b_pos a) (b_end b) m m2) as Hf by (eapply heap_frame_outside; [exact Hs | lia | lia]).
  split; [| exact Hf]. rewrite <- app_assoc. unfold sizeof_heap, HEAP_INDEX_SIZE in *.
  assert (holes (l1 ++ [joined a b] ++ l2) = holes (l1 ++ [a; b] ++ l2)) as Eh.
  { rewrite !holes_app, !holes_cons, Ha, Hb. done. }
  eapply (heap_update m m2 heap lo hi l1 [a; b] l2 _ _ _ idx); [done | exact Ht1 | exact Ht2 | | exact Hf | | | |].
  - simpl. unfold b_end, joined in *. simpl. split_and!; lia.
  - intros c ->%list_elem_of_singleton. apply merge_joined.
  - eapply (entries_outside _ _ _ m _ idx); [exact Hs | apply Hv | | | exact He];
      unfold sizeof_heap, HEAP_INDEX_SIZE; lia.
  - by rewrite Eh.
  - rewrite Eh. apply Hv.
Qed.
End merge.

(** The test for a footer in front of the block [b]. *)
Lemma unify_left_test m heap lo hi l1 b l2 :
  heap_inv m heap lo hi (l1 ++ [b] ++ l2) ->
  unify_left (b_pos b) (b_end b - 16) (set_is_hole (b_pos b) 1 m) =
    match last l1 with
    | Some a =>
        if b_free a
        then (b_pos a, false,
              set_size (b_pos a) (b_size a + b_size b)
                (set_ftr_header (b_end b - 16) (b_pos a) (set_is_hole (b_pos b) 1 m)))
        else (b_pos b, true, set_is_hole (b_pos b) 1 m)
    | None => (b_pos b, true, set_is_hole (b_pos b) 1 m)
    end.
Proof.
  intros Hv. pose proof (take_bounds _ _ _ _ _ _ _ Hv) as (? & ? & ? & ? & ? & ?).
  pose proof (hv_low _ _ _ _ _ Hv).
  unfold unify_left, sizeof_footer, sizeof_heap, HEAP_INDEX_SIZE, b_end in *. word_simpl.
  assert (forall f, f + 16 <= b_pos b ->
    ftr_magic (set_is_hole (b_pos b) 1 m) f = ftr_magic m f /\ ftr_header (set_is_hole (b_pos b) 1 m) f = ftr_header m f)
    as Hf.
  { intros f Hf. split; (eapply same_outside_load; [apply set_is_hole_outside | simpl; lia]). }
  destruct l1 as [|a l1 _] using rev_ind.
  - simpl. rewrite (proj1 (Hf (b_pos b - 16) ltac:(lia))).
    destruct (take_tiles _ _ _ _ _ _ _ Hv) as [Ht _]. simpl in Ht.
    destruct (Z.eqb_spec (ftr_magic m (b_pos b - 16)) HEAP_MAGIC); [| done].
    by destruct (hv_guard _ _ _ _ _ Hv); rewrite Ht.
  - rewrite last_snoc. destruct (Hf (b_pos b - 16) ltac:(lia)) as [-> ->].
    destruct (take_tiles _ _ _ _ _ _ _ Hv) as [Ht _]. apply tiles_app in Ht as (mid & Ht1 & Ht2).
    simpl in Ht2. destruct Ht2 as (<- & Hsa & Eend). pose proof (tiles_le _ _ _ Ht1).
    destruct (hv_blocks _ _ _ _ _ Hv a) as [(_ & Hhole & Hsize) Hft];
      [rewrite !elem_of_app; left; right; apply list_elem_of_here |].
    destruct (hv_blocks _ _ _ _ _ Hv b) as [(_ & _ & Hbsize) _];
      [rewrite !elem_of_app; right; left; apply list_elem_of_here |].
    assert (ftr_magic m (b_pos b - 16) = HEAP_MAGIC /\ ftr_header m (b_pos b - 16) = b_pos a) as [-> ->].
    { destruct Hft as [Hft|[_ Hft]]; [unfold blk_footer in Hft; by rewrite Eend in Hft |].
      unfold b_end in *. lia. }
    unfold b_end in *.
    assert (hdr_is_hole (set_is_hole (b_pos b) 1 m) (b_pos a) = (if b_free a then 1 else 0)) as ->.
    { rewrite <- Hhole. apply set_is_hole_outside. lia. }
    rewrite Z.eqb_refl. simpl. destruct (b_free a); [| done]. simpl.
    assert (hdr_size (set_is_hole (b_pos b) 1 m) (b_pos b) = b_size b) as ->.
    { rewrite <- Hbsize. eapply same_outside_load; [apply set_is_hole_outside | simpl; lia]. }
    assert (hdr_size (set_ftr_header (b_pos b + b_size b - 16) (b_pos a) (set_is_hole (b_pos b) 1 m)) (b_pos a)
      = b_size a) as ->.
    { rewrite <- Hsize. unfold hdr_size, set_ftr_header. rewrite load_store_other by (simpl; lia).
      eapply same_outside_load; [apply set_is_hole_outside | simpl; lia]. }
    by word_simpl.
Qed.

(** The block behind is no hole, and the heap does not end with the block. *)
Lemma unify_right_none {P} (s : hstate P) header heap hi c footer :
  blk_ok (hs_mem s) hi c -> b_free c = false -> footer + 16 = b_pos c -> 0 <= b_pos c < 2 ^ 64 ->
  unify_right header footer heap s = (footer, s).
Proof.
  intros [(_ & Hhole & _) _] Hfree Hc Hw. unfold unify_right, sizeof_footer. word_simpl.
  rewrite Hc, Hhole, Hfree, Z.eqb_refl. change (negb true) with false. by rewrite andb_false_r.
Qed.

Lemma print_false {P} str (s : hstate P) : print false str s = s.
Proof. done. Qed.

(** [free] up to the two tests that do nothing when a live block follows. *)
Lemma free_run {P} `{KernelPages P} (s : hstate P) heap lo hi l1 l2 b c hd do_add m1 :
  heap_inv (hs_mem s) heap lo hi (l1 ++ [b] ++ c :: l2) -> b_free b = false -> b_free c = false ->
  unify_left (b_pos b) (b_end b - 16) (set_is_hole (b_pos b) 1 (hs_mem s)) = (hd, do_add, m1) ->
  blk_ok m1 hi c -> end_address m1 heap = hi ->
  free (b_pos b + 16) heap s =
    upd_mem (fun _ => if do_add : bool then insert_ordered_array header_t_less_than hd heap m1 else m1) s.
Proof.
  intros Hv Hb Hc Hu Hcok Hend. pose proof (take_bounds _ _ _ _ _ _ _ Hv) as (? & ? & ? & ? & ? & ?).
  destruct (take_tiles _ _ _ _ _ _ _ Hv) as [_ Ht2]. simpl in Ht2. destruct Ht2 as (Hcpos & Hcs & Ht2).
  pose proof (tiles_le _ _ _ Ht2).
  destruct (hv_blocks _ _ _ _ _ Hv b) as [(Hm & _ & Hbs) Hft];
    [rewrite !elem_of_app; right; left; apply list_elem_of_here |].
  assert (ftr_magic (hs_mem s) (b_end b - 16) = HEAP_MAGIC) as Hfm.
  { destruct Hft as [Hft|[? _]]; [apply Hft | congruence]. }
  unfold free. unfold sizeof_header, sizeof_footer, b_end in *.
  destruct (Z.eqb_spec (b_pos b + 16) 0); [lia |]. word_simpl.
  replace (b_pos b + 16 - 16) with (b_pos b) by lia. rewrite Hbs, Hm. word_simpl.
  rewrite Z.eqb_refl, print_false, Hfm, Z.eqb_refl, print_false, Hu.
  rewrite (unify_right_none _ hd heap hi c); [| done | done | unfold b_end; lia | lia].
  simpl hs_mem. rewrite Hend. unfold sizeof_footer. word_simpl.
  destruct (Z.eqb_spec (b_pos b + b_size b - 16 + 16) hi); [lia |].
  by destruct do_add.
Qed.

(** What a frame around the freed stretch says of the blocks outside it. *)
Lemma frame_block m m' heap lo p q x :
  heap_frame heap p q m m' -> heap + sizeof_heap + 8 * HEAP_INDEX_SIZE <= lo -> lo <= b_pos x ->
  b_end x <= p \/ q <= b_pos x ->
  forall a, b_pos x <= a < b_end x -> load8 m' a = load8 m a.
Proof.
  unfold sizeof_heap, HEAP_INDEX_SIZE. intros Hf Hlo Hx Hd a Ha.
  apply Hf; unfold sizeof_heap, HEAP_INDEX_SIZE; lia.
Qed.

Section free_cases.
Context {P : Type} `{KernelPages P}.
Context (heap lo hi : Z) (l1 l2 : list blk) (b c : blk) (s : hstate P).
Context (Hv : heap_inv (hs_mem s) heap lo hi (l1 ++ [b] ++ c :: l2)).
Context (Hb : b_free b = false) (Hc : b_free c = false).

Lemma free_low : heap + sizeof_heap + 8 * HEAP_INDEX_SIZE <= lo.
Proof. pose proof (hv_low _ _ _ _ _ Hv). unfold sizeof_heap in *. lia. Qed.

Lemma free_follower : b_pos c = b_end b /\ 32 <= b_size c /\ blk_ok (hs_mem s) hi c /\ b_end b < hi.
Proof.
  destruct (take_tiles _ _ _ _ _ _ _ Hv) as [_ Ht2]. simpl in Ht2. destruct Ht2 as (? & ? & Ht).
  pose proof (tiles_le _ _ _ Ht). unfold b_end in *. split_and!; [lia | lia | | lia].
  apply (hv_blocks _ _ _ _ _ Hv). rewrite !elem_of_app. right. right. apply list_elem_of_here.
Qed.

(** The parts of the statement that a frame gives. *)
Lemma free_frame m' p :
  heap_frame heap p (b_end b) (hs_mem s) m' -> lo <= p ->
  blk_ok m' hi c /\ end_address m' heap = hi /\
  (forall x, x ∈ c :: l2 -> forall a, b_pos x <= a < b_end x -> load8 m' a = load8 (hs_mem s) a).
Proof.
  intros Hf Hp. pose proof free_low as Hlow. destruct free_follower as (Ec & Hcs & Hcok & _).
  destruct (take_tiles _ _ _ _ _ _ _ Hv) as [Ht1 Ht2]. pose proof (tiles_le _ _ _ Ht1).
  destruct (take_bounds _ _ _ _ _ _ _ Hv) as (_ & _ & _ & ? & _).
  assert (forall x, x ∈ c :: l2 -> forall a, b_pos x <= a < b_end x -> load8 m' a = load8 (hs_mem s) a) as Hx.
  { intros x Hin. destruct (tiles_elem _ _ _ _ Ht2 Hin) as (? & _ & _). unfold b_end in *.
    eapply frame_block; [exact Hf | exact Hlow | lia | right; unfold b_end; lia]. }
  split_and!; [| | exact Hx].
  - eapply blk_ok_same; [exact Hcs | | exact Hcok]. apply Hx, list_elem_of_here.
  - rewrite <- (hv_end _ _ _ _ _ Hv). unfold end_address.
    eapply heap_frame_field; [exact Hf | unfold sizeof_heap, HEAP_INDEX_SIZE in *; lia | lia].
Qed.

Lemma free_alone :
  unify_left (b_pos b) (b_end b - 16) (set_is_hole (b_pos b) 1 (hs_mem s)) =
    (b_pos b, true, set_is_hole (b_pos b) 1 (hs_mem s)) ->
  Z.of_nat (length (holes (l1 ++ [b] ++ c :: l2))) + 2 < HEAP_INDEX_SIZE ->
  exists m', free (b_pos b + 16) heap s = upd_mem (fun _ => m') s /\
    heap_inv m' heap lo hi ((l1 ++ [freed b]) ++ c :: l2) /\
    (forall x a, x ∈ l1 ++ c :: l2 -> b_pos x <= a < b_end x -> load8 m' a = load8 (hs_mem s) a).
Proof.
  intros Hu Hroom. destruct (take_tiles _ _ _ _ _ _ _ Hv) as [Ht1 _]. pose proof (tiles_le _ _ _ Ht1).
  destruct (hv_index _ _ _ _ _ Hv) as (idx & He & Hp).
  destruct (free_single _ _ _ _ _ _ _ Hv idx He Hp) as [Hv' Hf']; [by rewrite Hp | done |].
  destruct (free_frame (set_is_hole (b_pos b) 1 (hs_mem s)) (b_pos b)) as (Hcok & Hend & _); [| done |].
  { eapply heap_frame_outside; [apply (free_outside _ _ _ _ _ _ _ Hv) | lia | lia]. }
  destruct (free_frame _ (b_pos b) Hf' ltac:(done)) as (_ & _ & Hr).
  eexists. split_and!; [| exact Hv' |].
  - by rewrite (free_run s heap lo hi l1 l2 b c _ _ _ Hv Hb Hc Hu Hcok Hend).
  - intros x a [Hx|Hx]%elem_of_app Ha; [| by apply (Hr x)].
    destruct (tiles_elem _ _ _ _ Ht1 Hx) as (? & ? & _).
    eapply frame_block; [exact Hf' | apply free_low | done | by left | done].
Qed.
End free_cases.

Lemma free_merged {P} `{KernelPages P} (s : hstate P) heap lo hi l1 l2 a b c :
  heap_inv (hs_mem s) heap lo hi (l1 ++ [a; b] ++ c :: l2) ->
  b_free a = true -> b_free b = false -> b_free c = false ->
  exists m', free (b_pos b + 16) heap s = upd_mem (fun _ => m') s /\
    heap_inv m' heap lo hi ((l1 ++ [joined a b]) ++ c :: l2) /\
    (forall x k, x ∈ l1 ++ c :: l2 -> b_pos x <= k < b_end x -> load8 m' k = load8 (hs_mem s) k).
Proof.
  intros Hv Ha Hb Hc.
  assert (heap_inv (hs_mem s) heap lo hi ((l1 ++ [a]) ++ [b] ++ c :: l2)) as Hv2 by (by rewrite <- app_assoc).
  pose proof (unify_left_test _ _ _ _ _ _ _ Hv2) as Hu. rewrite last_snoc, Ha in Hu.
  destruct (free_follower _ _ _ _ _ _ _ _ Hv2) as (_ & _ & _ & Hend).
  destruct (merge_bounds _ _ _ _ _ _ _ _ Hv) as (_ & Hlo & _ & _ & _ & _ & _ & Ht1 & _).
  destruct (merge_inv _ _ _ _ _ _ _ _ Hv Ha Hb Hend) as [Hv' Hf'].
  destruct (free_frame _ _ _ _ _ _ _ _ Hv2 _ _ Hf' Hlo) as (Hcok & Hend' & Hr).
  eexists. split_and!; [| exact Hv' |].
  - by rewrite (free_run s heap lo hi _ l2 b c _ _ _ Hv2 Hb Hc Hu Hcok Hend').
  - intros x k [Hx|Hx]%elem_of_app Hk; [| by apply (Hr x)].
    destruct (tiles_elem _ _ _ _ Ht1 Hx) as (? & ? & _).
    eapply frame_block; [exact Hf' | by eapply free_low | done | by left | done].
Qed.

Section free_theorem.
Context {P : Type} `{KernelPages P}.

(** [free] of a block that a live block follows. *)
Lemma free_keep_run (heap lo hi : Z) (l1 l2 : list blk) (b c : blk) (s : hstate P)
  (Hv : heap_inv (hs_mem s) heap lo hi (l1 ++ [b] ++ c :: l2))
  (Hb : b_free b = false) (Hc : b_free c = false)
  (Hroom : Z.of_nat (length (holes (l1 ++ [b] ++ c :: l2))) + 2 < HEAP_INDEX_SIZE) :
  exists m',
    free (b_pos b + 16) heap s = upd_mem (fun _ => m') s /\
    heap_inv m' heap lo hi (merge_left l1 b ++ c :: l2) /\
    (forall x a, x ∈ l1 ++ c :: l2 -> b_free x = false -> b_pos x <= a < b_end x ->
       load8 m' a = load8 (hs_mem s) a).
Proof.
  pose proof (unify_left_test _ _ _ _ _ _ _ Hv) as Hu.
  destruct l1 as [|a l1 _] using rev_ind.
  - destruct (free_alone _ _ _ _ _ _ _ _ Hv Hb Hc Hu Hroom) as (m' & ? & ? & ?).
    exists m'. eauto.
  - rewrite last_snoc in Hu. rewrite merge_left_snoc. destruct (b_free a) eqn:Ha.
    + rewrite <- app_assoc in Hv.
      destruct (free_merged _ _ _ _ _ _ _ _ _ Hv Ha Hb Hc) as (m' & ? & ? & Hr).
      exists m'. split_and!; [done | done |]. intros x k Hx Hfx. apply Hr.
      rewrite <- app_assoc in Hx. apply elem_of_app in Hx as [Hx|Hx]; [apply elem_of_app; by left |].
      apply elem_of_cons in Hx as [->|Hx]; [congruence |]. apply elem_of_app. by right.
    + destruct (free_alone _ _ _ _ _ _ _ _ Hv Hb Hc Hu Hroom) as (m' & ? & ? & ?).
      exists m'. eauto.
Qed.

(** C15: [free] of a block that a live block follows turns it into a hole, joins
    it with the hole in front of it if there is one, and keeps the heap
    well-formed and every other live block's bytes as they were. *)
Theorem free_spec (heap lo hi : Z) (l1 l2 : list blk) (b c : blk) (s : hstate P)
  (Hv : heap_inv (hs_mem s) heap lo hi (l1 ++ [b] ++ c :: l2))
  (Hb : b_free b = false) (Hc : b_free c = false)
  (Hroom : Z.of_nat (length (holes (l1 ++ [b] ++ c :: l2))) + 2 < HEAP_INDEX_SIZE) :
  exists m',
    free (b_pos b + 16) heap s = upd_mem (fun _ => m') s /\
    heap_inv m' heap lo hi (merge_left l1 b ++ c :: l2) /\
    (forall x a, x ∈ l1 ++ c :: l2 -> b_free x = false -> b_pos x <= a < b_end x ->
       load8 m' a = load8 (hs_mem s) a).
Proof. exact (free_keep_run heap lo hi l1 l2 b c s Hv Hb Hc Hroom). Qed.
End free_theorem.

(** * [create_heap] *)

Lemma land_page_mask v : 0 <= v < 2 ^ 32 -> Z.land v 0xFFFFF000 = v - v mod 4096.
Proof.
  intros Hv. change 0xFFFFF000 with (Z.ldiff (Z.ones 32) (Z.ones 12)).
  assert (Z.land v (Z.ldiff (Z.ones 32) (Z.ones 12)) = Z.ldiff (Z.land v (Z.ones 32)) (Z.ones 12)) as ->.
  { apply Z.bits_inj'. intros n Hn. by rewrite Z.land_spec, !Z.ldiff_spec, Z.land_spec, andb_assoc. }
  rewrite Z.land_ones, Z.mod_small, Z.ldiff_ones_r, Z.shiftl_mul_pow2, Z.shiftr_div_pow2 by lia.
  change (2 ^ 12) with 4096. pose proof (Z.div_mod v 4096). lia.
Qed.

(** The rounding of [expand], [contract] and [create_heap]: the next multiple of
    the page size, below 4 GiB. *)
Lemma page_round_up v :
  0 <= v < 2 ^ 32 -> page_round v mod 4096 = 0 /\ v <= page_round v < v + 4096.
Proof.
  intros Hv. unfold page_round. rewrite land_page, land_page_mask by lia.
  pose proof (Z.mod_pos_bound v 4096 ltac:(lia)).
  destruct (Z.eqb_spec (v mod 4096) 0) as [E|E]; [lia |]. word_simpl.
  pose proof (Z.div_mod v 4096 ltac:(lia)) as Hd.
  replace (v - v mod 4096 + 4096) with ((v / 4096 + 1) * 4096) by lia.
  rewrite Z.mod_mul by lia. lia.
Qed.

(** An array just placed is empty. *)
Lemma place_result p n lt m :
  0 <= p -> p + 32 + 8 * n < 2 ^ 63 -> 0 <= 8 * n < 2 ^ 31 ->
  exists m', place_ordered_array p (p + 32 + 32) n lt m = Some m' /\
    arr_array m' p = p + 64 /\ entries m' p [] /\ same_outside p (p + 64 + 8 * n) m m'.
Proof.
  intros Hp Hw Hn. unfold place_ordered_array. word_simpl.
  replace (n * 8) with (8 * n) by lia. replace (p + 32 + 32) with (p + 64) by lia.
  destruct (memset_result (p + 64) 0 (8 * n) m ltac:(lia)) as (m1 & -> & _ & Hout). simpl.
  eexists. split; [done |]. split_and!.
  - unfold arr_array. rewrite !load_store_other by (simpl; lia). apply load_store_same. simpl. lia.
  - split; [| simpl; lia]. unfold arr_size. rewrite 2!load_store_other by (simpl; lia).
    by rewrite load_store_same by (simpl; lia).
  - intros a Ha. rewrite !load8_store by (simpl; lia). apply Hout. lia.
Qed.

Lemma print_mem {P} b str (s : hstate P) : hs_mem (print b str s) = hs_mem s.
Proof. by destruct b. Qed.

Lemma print_pages {P} b str (s : hstate P) : hs_pages (print b str s) = hs_pages s.
Proof. by destruct b. Qed.

(** The fields of the heap structure as [create_heap] sets them. *)
Definition set_fields (heap start end_addr max : Z) (m : mem) : mem :=
  store8 (heap + 57) 0 (store8 (heap + 56) 0 (store64 (heap + 48) max
    (store64 (heap + 40) end_addr (store64 (heap + 32) start m)))).

Lemma set_fields_spec heap start end_addr max m :
  0 <= start < 2 ^ 64 -> 0 <= end_addr < 2 ^ 64 ->
  start_address (set_fields heap start end_addr max m) heap = start /\
  end_address (set_fields heap start end_addr max m) heap = end_addr /\
  same_outside (heap + 32) (heap + 58) m (set_fields heap start end_addr max m).
Proof.
  intros Hs He. unfold start_address, end_address, set_fields. split_and!.
  - rewrite !load_store8_other, !load_store_other by (simpl; lia). apply load_store_same. simpl. lia.
  - rewrite !load_store8_other, load_store_other by (simpl; lia). apply load_store_same. simpl. lia.
  - intros a Ha. rewrite !load8_store8_ne, !load8_store by (simpl; lia). done.
Qed.

(** One hole in an otherwise empty heap. *)
Lemma first_hole m heap lo hi :
  0 < heap -> heap + sizeof_heap + 8 * HEAP_INDEX_SIZE + 16 <= lo -> lo + 32 <= hi < 2 ^ 63 ->
  start_address m heap = lo -> end_address m heap = hi -> arr_array m heap = heap + sizeof_heap ->
  entries m heap [] -> ftr_magic m (lo - 16) <> HEAP_MAGIC ->
  heap_inv (insert_ordered_array header_t_less_than lo heap (set_header lo 1 (hi - lo) m)) heap lo hi
    [Blk lo (hi - lo) true].
Proof.
  unfold sizeof_heap, HEAP_INDEX_SIZE. intros Hpos Hlo Hhi Hst Hen Ha He Hg.
  set (m3 := set_header lo 1 (hi - lo) m).
  pose proof (set_header_outside m lo 1 (hi - lo) : same_outside lo (lo + 16) m m3) as Hs.
  assert (forall off, 0 <= off <= 56 -> load64 m3 (heap + off) = load64 m (heap + off)) as Hf.
  { intros off Hoff. eapply same_outside_load; [exact Hs | simpl; lia]. }
  assert (arr_array m3 heap = heap + 64) as Ha3.
  { rewrite <- Ha. unfold arr_array. rewrite <- (Z.add_0_r heap). apply Hf. lia. }
  assert (entries m3 heap []) as He3.
  { eapply (entries_outside _ _ _ m); [exact Hs | exact Ha | | simpl; unfold HEAP_INDEX_SIZE; lia | exact He].
    unfold sizeof_heap, HEAP_INDEX_SIZE. lia. }
  destruct (insert_result header_t_less_than m3 heap 0x1000 [] lo He3) as (He' & Hf' & Ha');
    [right; rewrite Ha3; unfold sizeof_ordered_array; lia | simpl; lia | simpl; lia | lia |].
  set (m' := insert_ordered_array _ _ _ m3) in *.
  assert (forall a, heap + 16 <= a < heap + 64 \/ lo - 16 <= a -> load8 m' a = load8 m3 a) as Hin.
  { intros a Hcase. apply Hf'; rewrite ?Ha3; lia. }
  split.
  - etrans; [| exact Hst]. etrans; [| apply (Hf 32); lia]. apply load_ext. simpl. intros a Hra. apply Hin. lia.
  - etrans; [| exact Hen]. etrans; [| apply (Hf 40); lia]. apply load_ext. simpl. intros a Hra. apply Hin. lia.
  - by rewrite Ha'.
  - unfold sizeof_heap, HEAP_INDEX_SIZE. lia.
  - lia.
  - intros E. apply Hg. rewrite <- E. symmetry. unfold ftr_magic.
    rewrite (load_ext m3 m') by (simpl; intros; apply Hin; lia).
    eapply same_outside_load; [exact Hs | simpl; lia].
  - simpl. unfold b_end. simpl. lia.
  - intros b ->%list_elem_of_singleton. split; [| right; unfold b_end; simpl; split; [done | lia]].
    apply (header_same m3); [| apply (set_header_ok m lo true); lia].
    simpl. intros a Hra. apply Hin. lia.
  - simpl. unfold HEAP_INDEX_SIZE. lia.
  - exists [lo]. split; [exact He' | done].
Qed.

Section create.
Context {P : Type} `{KernelPages P}.

(** The first heap. *)
Lemma create_heap_run (lt_addr start end_addr max : Z) (s : hstate P)
  (Hpos : 0 < start) (Halign : start mod 4096 = 0) (Hlow : start + 0x9000 < 2 ^ 32)
  (Hend : start + 0x9000 + 32 <= end_addr < 2 ^ 63)
  (Hguard : ftr_magic (hs_mem s) (start + 0x9000 - 16) <> HEAP_MAGIC) :
  exists s',
    create_heap lt_addr start end_addr max 0 0 s = Some (start, s') /\
    hs_pages s' = hs_pages s /\
    heap_inv (hs_mem s') start (start + 0x9000) end_addr
      [Blk (start + 0x9000) (end_addr - (start + 0x9000)) true].
Proof.
  set (lo := start + 0x9000) in *. set (hole := Blk lo (end_addr - lo) true).
  unfold create_heap, sizeof_heap, HEAP_INDEX_SIZE. word_simpl.
  destruct (place_result start 0x1000 lt_addr (hs_mem s) ltac:(lia) ltac:(lia) ltac:(lia))
    as (m1 & Em1 & Ha1 & He1 & Hs1).
  replace (start + 32 + 32) with (start + 64) in Em1 by lia.
  assert (page_round (start + (8 * 4096 + 64)) = lo) as Elo.
  { destruct (page_round_up (start + (8 * 4096 + 64)) ltac:(lia)) as [Hm Hb].
    pose proof (Z.div_mod start 4096 ltac:(lia)).
    pose proof (Z.div_mod (page_round (start + (8 * 4096 + 64))) 4096 ltac:(lia)). unfold lo. nia. }
  rewrite !print_mem, Em1. cbn [mbind option_bind]. rewrite Elo. word_simpl.
  fold (set_fields start lo end_addr max m1).
  eexists. split_and!; [reflexivity | simpl; by rewrite !print_pages |]. cbn [hs_mem upd_mem].
  destruct (set_fields_spec start lo end_addr max m1 ltac:(lia) ltac:(lia)) as (Hst & Hen & Hs2).
  apply first_hole; [lia | unfold sizeof_heap, HEAP_INDEX_SIZE; lia | lia | exact Hst | exact Hen | | |].
  - etrans; [| exact Ha1]. unfold arr_array. apply (same_outside_load _ _ _ _ 8 _ Hs2). simpl. lia.
  - split; [| simpl; lia]. etrans; [| apply (en_size _ _ _ He1)]. unfold arr_size.
    apply (same_outside_load _ _ _ _ 8 _ Hs2). simpl. lia.
  - intros E. apply Hguard. rewrite <- E. symmetry. unfold ftr_magic.
    rewrite (same_outside_load _ _ _ _ 4 _ Hs2) by (simpl; lia).
    apply (same_outside_load _ _ _ _ 4 _ Hs1). simpl. lia.
Qed.

(** C32: [create_heap] lays out a well-formed heap: one hole from the first page
    behind the structure and its index to the end, which the index lists. *)
Theorem create_heap_spec (lt_addr start end_addr max : Z) (s : hstate P)
  (Hpos : 0 < start) (Halign : start mod 4096 = 0) (Hlow : start + 0x9000 < 2 ^ 32)
  (Hend : start + 0x9000 + 32 <= end_addr < 2 ^ 63)
  (Hguard : ftr_magic (hs_mem s) (start + 0x9000 - 16) <> HEAP_MAGIC) :
  exists s',
    create_heap lt_addr start end_addr max 0 0 s = Some (start, s') /\
    hs_pages s' = hs_pages s /\
    heap_inv (hs_mem s') start (start + 0x9000) end_addr
      [Blk (start + 0x9000) (end_addr - (start + 0x9000)) true].
Proof. exact (create_heap_run lt_addr start end_addr max s Hpos Halign Hlow Hend Hguard). Qed.
End create.
