(* ===== verification/HeapRuns.v ===== *)
(** The heap of KHeap.v at work: the theorems of HeapInv.v on concrete heaps, and
    runs of [kmalloc] and [kfree] in which the heap goes wrong. *)

From S2P Require Import Prelude Words Console Memory CLib OrderedArray Allocator KHeap HeapInv.
#[local] Open Scope Z_scope.

(** * A small heap *)

Definition demo_base : mem := set_fields 0x100000 0x109000 0x120000 0x200000 (store64 0x100000 0x100040 ∅).
Definition demo_heap_mem : mem :=
  insert_ordered_array header_t_less_than 0x109000 0x100000 (set_header 0x109000 1 0x17000 demo_base).
Definition demo_state : hstate page_bump := HState demo_heap_mem (PageBump 0x120) 0x100000 [].

Lemma demo_heap_inv : heap_inv (hs_mem demo_state) 0x100000 0x109000 0x120000 [Blk 0x109000 0x17000 true].
Proof.
  apply (first_hole demo_base 0x100000 0x109000 0x120000); try (unfold sizeof_heap, HEAP_INDEX_SIZE; lia);
    try (by vm_compute).
  split; [by vm_compute | simpl; lia].
Qed.

Lemma singleton_app {A} (x b : A) l1 l2 : [x] = l1 ++ [b] ++ l2 -> l1 = [] /\ b = x /\ l2 = [].
Proof. destruct l1 as [|y [|]]; simpl; intros; by simplify_eq. Qed.

Lemma create_heap_spec_witness :
  exists s', create_heap 7 0x100000 0x120000 0x200000 0 0 demo_state = Some (0x100000, s') /\
    heap_inv (hs_mem s') 0x100000 0x109000 0x120000 [Blk 0x109000 0x17000 true].
Proof.
  destruct (create_heap_spec 7 0x100000 0x120000 0x200000 demo_state) as (s' & E & _ & Hv);
    [lia | done | lia | lia | by vm_compute |].
  by exists s'.
Defined.

(** A page from the small heap: the hole's first 4080 bytes stay a hole in front of it. *)
Lemma alloc_spec_witness :
  exists m', alloc 1 4096 1 0x100000 demo_state = Some (0x10a000, upd_mem (fun _ => m') demo_state) /\
    heap_inv m' 0x100000 0x109000 0x120000
      [Blk 0x109000 0xff0 true; Blk 0x109ff0 0x1020 false; Blk 0x10b010 0x14ff0 true].
Proof.
  destruct (alloc_spec 0 4096 1 0x100000 0x109000 0x120000 _ demo_state demo_heap_inv ltac:(lia) ltac:(lia))
    as (l1 & b & l2 & m' & p & El & _ & E & Ep & _ & Hv & _).
  { exists (Blk 0x109000 0x17000 true). split; [apply list_elem_of_here |]. split; [done |]. vm_compute. discriminate. }
  { intros b ->%list_elem_of_singleton _. right. change (front 1 _) with 0xff0. cbn [b_size]. lia. }
  { right. vm_compute. reflexivity. }
  destruct (singleton_app _ _ _ _ El) as (-> & -> & ->). subst p.
  exists m'. split; [exact E | exact Hv].
Defined.

(** Two blocks in front of the hole. *)
Lemma demo_two_blocks :
  exists s : hstate page_bump,
    heap_inv (hs_mem s) 0x100000 0x109000 0x120000
      ([] ++ [Blk 0x109000 48 false] ++ Blk 0x109030 48 false :: [Blk 0x109060 0x16fa0 true]).
Proof.
  destruct (alloc_run 0 16 0x100000 0x109000 0x120000 _ demo_state demo_heap_inv ltac:(lia))
    as (l1 & b & l2 & m1 & El & _ & _ & _ & Hv & _).
  { exists (Blk 0x109000 0x17000 true). split_and!; [apply list_elem_of_here | done | simpl; lia]. }
  destruct (singleton_app _ _ _ _ El) as (-> & -> & ->).
  destruct (alloc_run 0 16 0x100000 0x109000 0x120000 _ (upd_mem (fun _ => m1) demo_state) Hv ltac:(lia))
    as (l1 & b & l2 & m2 & El2 & Hfree & _ & _ & Hv2 & _).
  { exists (Blk 0x109030 0x16fd0 true). split_and!; [by apply list_elem_of_further, list_elem_of_here | done | simpl; lia]. }
  assert (l1 = [Blk 0x109000 48 false] /\ b = Blk 0x109030 0x16fd0 true /\ l2 = []) as (-> & -> & ->).
  { clear Hv2 Hv El. destruct l1 as [|x l1]; injection El2 as <- El2; [done |].
    by destruct (singleton_app _ _ _ _ El2) as (-> & -> & ->). }
  exists (upd_mem (fun _ => m2) demo_state). exact Hv2.
Qed.

Lemma free_spec_witness :
  exists (s : hstate page_bump) m', free 0x109010 0x100000 s = upd_mem (fun _ => m') s /\
    heap_inv m' 0x100000 0x109000 0x120000
      [Blk 0x109000 48 true; Blk 0x109030 48 false; Blk 0x109060 0x16fa0 true].
Proof.
  destruct demo_two_blocks as [s Hv].
  destruct (free_spec 0x100000 0x109000 0x120000 [] _ _ _ s Hv eq_refl eq_refl ltac:(vm_compute; done))
    as (m' & E & Hv' & _).
  exists s, m'. split; [exact E | exact Hv'].
Defined.

(** * Runs that go wrong *)

Definition run_heap : option (hstate page_bump) := kheap_init 7 (HState ∅ (PageBump 0xc0100) 0 []).

Definition in_block (p size a : Z) : Prop := p <= a < p + size.

(** Two blocks that fill the heap, the first freed, and a request that does not fit. *)
Definition growing_run : option (Z * Z * Z * bool) :=
  s0 ← run_heap;
  '(p1, s1) ← kheap_kmalloc 2 16 s0;
  '(p2, s2) ← kheap_kmalloc 2 0x16fb0 s1;
  '(p3, s3) ← kheap_kmalloc 2 0x1000 (kheap_kfree p1 s2);
  Some (p1, p2, p3, bool_decide (hs_out s3 = hs_out s0)).

Lemma growing_run_inv p1 p2 p3 b :
  growing_run = Some (p1, p2, p3, b) ->
  exists s0 s1 s2 s3, run_heap = Some s0 /\ kheap_kmalloc 2 16 s0 = Some (p1, s1) /\
    kheap_kmalloc 2 0x16fb0 s1 = Some (p2, s2) /\
    kheap_kmalloc 2 0x1000 (kheap_kfree p1 s2) = Some (p3, s3) /\ b = bool_decide (hs_out s3 = hs_out s0).
Proof.
  unfold growing_run. generalize run_heap. intros o E.
  apply bind_Some in E as (s0 & E0 & E). apply bind_Some in E as ([q1 s1] & E1 & E).
  apply bind_Some in E as ([q2 s2] & E2 & E). apply bind_Some in E as ([q3 s3] & E3 & E).
  injection E as -> -> -> <-. exists s0, s1, s2, s3. split_and!; [exact E0 | exact E1 | exact E2 | exact E3 | reflexivity].
Qed.

Lemma growing_run_result : growing_run = Some (0xc0109010, 0xc0109040, 0xc0109010, true).
Proof. by vm_compute. Qed.

(** A growing heap can hand out memory that is in use: after two blocks fill
    the heap and the first is freed, a request that does not fit makes [alloc]
    extend the hole in front of the second block, which is still live, and return a
    block that covers it, without a message. *)
Theorem grown_heap_overlaps :
  exists (s0 s1 s2 s3 : hstate page_bump) p1 p2 p3,
    run_heap = Some s0 /\
    kheap_kmalloc 2 16 s0 = Some (p1, s1) /\
    kheap_kmalloc 2 0x16fb0 s1 = Some (p2, s2) /\
    kheap_kmalloc 2 0x1000 (kheap_kfree p1 s2) = Some (p3, s3) /\
    hs_out s3 = hs_out s0 /\ in_block p3 0x1000 p2.
Proof.
  destruct (growing_run_inv _ _ _ _ growing_run_result) as (s0 & s1 & s2 & s3 & E0 & E1 & E2 & E3 & Eo).
  symmetry in Eo. apply bool_decide_eq_true in Eo.
  exists s0, s1, s2, s3, 0xc0109010, 0xc0109040, 0xc0109010.
  split_and!; [exact E0 | exact E1 | exact E2 | exact E3 | exact Eo | unfold in_block; lia ..].
Qed.

(** Four blocks; the second, the first and the third are freed. *)
Definition merging_run : option (Z * Z * Z * list Z) :=
  s0 ← run_heap;
  '(p1, s1) ← kheap_kmalloc 2 100 s0;
  '(p2, s2) ← kheap_kmalloc 2 100 s1;
  '(p3, s3) ← kheap_kmalloc 2 100 s2;
  '(_, s4) ← kheap_kmalloc 2 16 s3;
  let s5 := kheap_kfree p1 (kheap_kfree p2 s4) in
  let s6 := kheap_kfree p3 s5 in
  let index s := (fun i => let h := lookup_ordered_array (Z.of_nat i) (kheap s) (hs_mem s) in hdr_size (hs_mem s) h)
                   <$> seq 0 (Z.to_nat (arr_size (hs_mem s) (kheap s))) in
  Some (p1, p2, p3, index s5 ++ index s6).

(** The index lists the same holes, of 264 bytes and the rest, before and after the
    third block of 132 bytes is freed: joining the first two left the footer behind
    them pointing at the second's header, and the third joined that. *)
Lemma freed_block_lost :
  merging_run = Some (0xc0109010, 0xc0109094, 0xc0109118, [264; 0x16e44; 264; 0x16e44]).
Proof. by vm_compute. Qed.

(** The last block starts on a page and is freed. *)
Definition contracting_run : option (Z * Z * Z) :=
  s0 ← run_heap;
  '(_, s1) ← kheap_kmalloc 2 (0x11000 - 32) s0;
  '(p2, s2) ← kheap_kmalloc 2 (0x6000 - 32) s1;
  let s3 := kheap_kfree p2 s2 in
  '(p4, s4) ← kheap_kmalloc 2 100 s3;
  Some (p2, end_address (hs_mem s4) (kheap s4), p4).

(** Its header stays in the index, behind the new end of the heap, and the next
    block is taken from there. *)
Lemma block_behind_the_end :
  contracting_run = Some (0xc011a010, 0xc011a000, 0xc011a010).
Proof. by vm_compute. Qed.

(** A page-aligned block taken from a hole that starts less than a header before a
    page boundary: the space in front of it is computed as [2 ^ 64 - 8]. *)
Lemma front_hole_wraps :
  (let '(location, _, m) := split_front 0x109ff8 0x5000 ∅ in (location, hdr_size m 0x109ff8))
  = (0x109ff0, 2 ^ 64 - 8).
Proof. by vm_compute. Qed.

(** A request for a page-aligned page that fits a hole with 16 bytes in front of the page boundary: the
    remainder of the hole, counted before the space in front is taken off, is given to the block, which then
    ends 16 bytes behind the hole. *)
Definition overrun_mem : mem :=
  insert_ordered_array header_t_less_than 0x109fe0 0x100000 (set_header 0x109fe0 1 0x1030 demo_base).

Lemma aligned_block_overruns :
  hdr_size overrun_mem 0x109fe0 = 0x1030 /\
  (let '(p, m) := alloc_take 0 0x1000 0x1020 1 0x100000 overrun_mem in (p, p - 16 + hdr_size m (p - 16))) =
    (0x10a000, 0x109fe0 + 0x1030 + 16).
Proof. by vm_compute. Qed.

(** Before there is a heap, [kmalloc] asks for a page count: the size itself when it
    is a multiple of the page, else the size rounded down to pages. *)
Lemma early_pages_count sz :
  0 <= sz < 2 ^ 32 -> early_pages sz = if sz mod 4096 =? 0 then sz else sz / 4096.
Proof.
  intros Hsz. unfold early_pages. rewrite land_page, land_page_mask by done.
  destruct (Z.eqb_spec (sz mod 4096) 0); [done |].
  replace (sz - sz mod 4096) with (sz / 4096 * 0x1000) by (pose proof (Z.div_mod sz 4096); lia).
  by rewrite Z.div_mul.
Qed.
