(* ===== verification/HeapTrace.v ===== *)
(** What the heap (kernel/kheap.c) promises its clients: a map from addresses to blocks
    of bytes. The requests that a large enough hole can serve, the releases of blocks in
    front of a live one and the clients' own stores refine it, in any order and number. *)

From S2P Require Import Prelude Words Console Memory CLib OrderedArray Allocator KHeap HeapInv HeapRuns.
#[local] Open Scope Z_scope.

(** * The specification *)

(** The bytes of every live block, by the address that the client has. *)
Abbreviation store_map := (gmap Z (list Z)).

Inductive heap_op :=
  | OAlloc (size p : Z)
  | OFree (p : Z)
  | OWrite (p off v : Z).

(** A new block has room for the request and touches no other; a store changes one byte
    of one block. *)
Inductive spec_step (lo hi : Z) (σ : store_map) : heap_op -> store_map -> Prop :=
  | spec_alloc size p bs :
      σ !! p = None -> size <= Z.of_nat (length bs) -> lo <= p -> p + Z.of_nat (length bs) <= hi ->
      (forall q cs, σ !! q = Some cs -> p + Z.of_nat (length bs) <= q \/ q + Z.of_nat (length cs) <= p) ->
      spec_step lo hi σ (OAlloc size p) (<[p := bs]> σ)
  | spec_free p : is_Some (σ !! p) -> spec_step lo hi σ (OFree p) (delete p σ)
  | spec_write p off v bs :
      σ !! p = Some bs -> 0 <= off < Z.of_nat (length bs) ->
      spec_step lo hi σ (OWrite p off v) (<[p := <[Z.to_nat off := v mod 256]> bs]> σ).

(** Any number of steps. *)
Inductive trace {S : Type} (step : S -> heap_op -> S -> Prop) : S -> list heap_op -> S -> Prop :=
  | trace_nil s : trace step s [] s
  | trace_cons s o s1 ops s2 : step s o s1 -> trace step s1 ops s2 -> trace step s (o :: ops) s2.

(** * The heap's steps *)

Section steps.
Context {P : Type} `{KernelPages P} (heap lo hi : Z).
Implicit Types (s : hstate P).

(** The calls that the theorems of HeapInv.v cover, and the stores of clients. *)
Inductive heap_step s : heap_op -> hstate P -> Prop :=
  | step_alloc fuel size page_align p l s' :
      heap_inv (hs_mem s) heap lo hi l -> 0 <= size < 2 ^ 64 - 32 -> 0 <= page_align ->
      (exists b, b ∈ l /\ fits page_align size b) -> (forall b, b ∈ l -> fits page_align size b -> apt page_align size b) ->
      page_align = 0 \/ Z.of_nat (length (holes l)) + 2 < HEAP_INDEX_SIZE ->
      alloc (S fuel) size page_align heap s = Some (p, s') -> heap_step s (OAlloc size p) s'
  | step_free l1 b c l2 :
      heap_inv (hs_mem s) heap lo hi (l1 ++ [b] ++ c :: l2) -> b_free b = false -> b_free c = false ->
      Z.of_nat (length (holes (l1 ++ [b] ++ c :: l2))) + 2 < HEAP_INDEX_SIZE ->
      heap_step s (OFree (b_pos b + 16)) (free (b_pos b + 16) heap s)
  | step_write l b off v :
      heap_inv (hs_mem s) heap lo hi l -> b ∈ l -> b_free b = false -> 0 <= off < b_size b - 32 ->
      heap_step s (OWrite (b_pos b + 16) off v) (upd_mem (store8 (b_pos b + 16 + off) v) s).

End steps.

(** * The relation *)

Definition bytes (m : mem) (p n : Z) : list Z := (fun i => load8 m (p + i)) <$> seqZ 0 n.

(** The contents of a live block: what is between its header and its footer. *)
Definition contents (m : mem) (b : blk) : list Z := bytes m (b_pos b + 16) (b_size b - 32).

Definition views (m : mem) (l : list blk) (σ : store_map) : Prop :=
  forall p bs, σ !! p = Some bs <-> exists b, b ∈ l /\ b_free b = false /\ p = b_pos b + 16 /\ bs = contents m b.

Definition heap_view (heap lo hi : Z) (m : mem) (σ : store_map) : Prop :=
  exists l, heap_inv m heap lo hi l /\ views m l σ.

(** * Proofs *)

Lemma bytes_length m p n : 0 <= n -> Z.of_nat (length (bytes m p n)) = n.
Proof. intros Hn. unfold bytes. rewrite length_fmap, length_seqZ. lia. Qed.

Lemma bytes_ext m m' p n : (forall a, p <= a < p + n -> load8 m' a = load8 m a) -> bytes m' p n = bytes m p n.
Proof.
  intros Hs. apply list_fmap_ext. intros i x Hx. apply lookup_seqZ in Hx as [-> Hi]. apply Hs. lia.
Qed.

Lemma bytes_store m p n off v :
  0 <= off < n -> bytes (store8 (p + off) v m) p n = <[Z.to_nat off := v mod 256]> (bytes m p n).
Proof.
  intros Hoff. apply list_eq. intros i. unfold bytes. rewrite list_lookup_fmap.
  destruct (decide (i < Z.to_nat n)%nat) as [Hi|Hi].
  - rewrite lookup_seqZ_lt by lia. cbn [fmap option_fmap option_map]. rewrite load8_store8.
    destruct (decide (i = Z.to_nat off)) as [->|Hne].
    + rewrite decide_True by lia. rewrite list_lookup_insert_eq; [done |]. rewrite length_fmap, length_seqZ. lia.
    + rewrite decide_False by lia. rewrite list_lookup_insert_ne, list_lookup_fmap, lookup_seqZ_lt by lia. done.
  - rewrite lookup_seqZ_ge by lia. symmetry. apply lookup_ge_None. rewrite length_insert, length_fmap, length_seqZ. lia.
Qed.

Lemma contents_length lo hi l m b : tiles lo hi l -> b ∈ l -> Z.of_nat (length (contents m b)) = b_size b - 32.
Proof. intros Ht Hb. destruct (tiles_elem _ _ _ _ Ht Hb). apply bytes_length. lia. Qed.

(** The headers determine the blocks. *)
Lemma tiles_unique m lo hi l1 : forall l2,
  tiles lo hi l1 -> tiles lo hi l2 -> (forall b, b ∈ l1 -> blk_header m b) -> (forall b, b ∈ l2 -> blk_header m b) -> l1 = l2.
Proof.
  revert lo; induction l1 as [|b l1 IH]; intros lo [|c l2]; simpl; [done | | |].
  - intros -> (? & ? & Ht%tiles_le). unfold b_end in Ht. lia.
  - intros (? & ? & Ht%tiles_le) ->. unfold b_end in Ht. lia.
  - intros (Hb & _ & Ht1) (Hc & _ & Ht2) Hh1 Hh2.
    destruct (Hh1 b) as (_ & Eb1 & Eb2); [apply list_elem_of_here |].
    destruct (Hh2 c) as (_ & Ec1 & Ec2); [apply list_elem_of_here |].
    assert (b = c) as ->.
    { destruct b as [pb nb fb], c as [pc nc fc]. simpl in *. subst.
      f_equal. rewrite Ec1 in Eb1. by destruct fb, fc. }
    f_equal. eapply (IH _ l2 Ht1 Ht2); intros x Hx; [apply Hh1 | apply Hh2]; by apply list_elem_of_further.
Qed.

Lemma heap_inv_unique m heap lo hi l1 l2 : heap_inv m heap lo hi l1 -> heap_inv m heap lo hi l2 -> l1 = l2.
Proof.
  intros H1 H2. apply (tiles_unique m lo hi); [apply H1 | apply H2 | |]; intros b Hb.
  - by apply (hv_blocks _ _ _ _ _ H1).
  - by apply (hv_blocks _ _ _ _ _ H2).
Qed.

(** A store into the contents of a live block leaves the heap well-formed. *)
Lemma heap_inv_store m heap lo hi l b a v :
  heap_inv m heap lo hi l -> b ∈ l -> b_pos b + 16 <= a < b_end b - 16 ->
  b_free b = false -> heap_inv (store8 a v m) heap lo hi l.
Proof.
  intros [Hst Hen Har Hlow Hhigh Hg Ht Hblk Hroom (idx & He & Hp)] Hb Ha Hf.
  destruct (tiles_elem _ _ _ _ Ht Hb) as (Hblo & Hbhi & _).
  unfold sizeof_heap, HEAP_INDEX_SIZE in Hlow.
  split; try done.
  - rewrite <- Hst. apply load_store8_other. simpl. lia.
  - rewrite <- Hen. apply load_store8_other. simpl. lia.
  - rewrite <- Har. apply load_store8_other. simpl. lia.
  - intros E. apply Hg. rewrite <- E. symmetry. apply load_store8_other. simpl. lia.
  - intros x Hx. assert (b = x \/ b_end x <= b_pos b \/ b_end b <= b_pos x) as Hd.
    { apply list_elem_of_split in Hb as (l1 & l2 & ->). apply elem_of_app in Hx as [Hx|Hx].
      - pose proof (tiles_other _ _ _ _ _ x Ht ltac:(apply elem_of_app; by left)). lia.
      - apply elem_of_cons in Hx as [->|Hx]; [by left |].
        pose proof (tiles_other _ _ _ _ _ x Ht ltac:(apply elem_of_app; by right)). lia. }
    destruct (tiles_elem _ _ _ _ Ht Hx) as (_ & _ & Hxs).
    destruct (Hblk x Hx) as [Hhd Hft]. unfold b_end in *. split.
    + eapply header_same; [| exact Hhd]. intros k Hk. apply load8_store8_ne. destruct Hd as [->|]; lia.
    + destruct Hft as [Hft|Hlast]; [left | by right].
      eapply footer_same; [| exact Hft]. unfold b_end. intros k Hk. apply load8_store8_ne. destruct Hd as [->|]; lia.
  - exists idx. split; [| done]. eapply (entries_outside heap lo hi m); [| done | | | exact He].
    + intros k Hk. apply load8_store8_ne. lia.
    + unfold sizeof_heap, HEAP_INDEX_SIZE. lia.
    + rewrite (Permutation_length Hp). lia.
Qed.

(** Two live blocks, as their clients see them. *)
Lemma contents_apart lo hi l m b c :
  tiles lo hi l -> b ∈ l -> c ∈ l -> b <> c ->
  b_pos b + 16 + Z.of_nat (length (contents m b)) <= b_pos c + 16 \/
  b_pos c + 16 + Z.of_nat (length (contents m c)) <= b_pos b + 16.
Proof.
  intros Ht Hb Hc Hne. rewrite (contents_length _ _ _ m b Ht Hb), (contents_length _ _ _ m c Ht Hc).
  apply list_elem_of_split in Hb as (l1 & l2 & ->).
  assert (c ∈ l1 ++ l2) as Hc'.
  { apply elem_of_app in Hc as [Hc|Hc]; [apply elem_of_app; by left |].
    apply elem_of_cons in Hc as [->|Hc]; [done | apply elem_of_app; by right]. }
  pose proof (tiles_other _ _ _ _ _ c Ht Hc'). unfold b_end in *. lia.
Qed.

(** One block is new or has new contents. *)
Lemma views_insert m m' l l' σ n :
  views m l σ -> n ∈ l' -> b_free n = false ->
  (forall c, b_free c = false -> c <> n -> c ∈ l' <-> c ∈ l) ->
  (forall c, c ∈ l' -> b_free c = false -> b_pos c = b_pos n -> c = n) ->
  (forall c, c ∈ l -> b_free c = false -> c <> n -> contents m' c = contents m c) ->
  views m' l' (<[b_pos n + 16 := contents m' n]> σ).
Proof.
  intros Hv Hn Hfn Hsame Hinj Hkeep p bs. rewrite lookup_insert. case_decide as Hp.
  - split; [intros [= <-]; by exists n |]. intros (c & Hc & Hfc & E & ->).
    by rewrite (Hinj c Hc Hfc ltac:(lia)).
  - rewrite (Hv p bs). split; intros (c & Hc & Hfc & -> & ->); exists c.
    + assert (c <> n) by congruence. split_and!; [by apply Hsame | done | done | by rewrite Hkeep].
    + assert (c <> n) by congruence. assert (c ∈ l) by (by apply Hsame). split_and!; [done | done | done | by rewrite Hkeep].
Qed.

(** One block goes. *)
Lemma views_delete m m' l l' σ b :
  views m l σ -> b ∉ l' -> (forall c, b_free c = false -> c <> b -> c ∈ l' <-> c ∈ l) ->
  (forall c, c ∈ l -> b_free c = false -> b_pos c = b_pos b -> c = b) ->
  (forall c, c ∈ l -> b_free c = false -> c <> b -> contents m' c = contents m c) ->
  views m' l' (delete (b_pos b + 16) σ).
Proof.
  intros Hv Hb Hsame Hinj Hkeep p bs. rewrite lookup_delete. case_decide as Hp.
  - split; [done |]. intros (c & Hc & Hfc & E & _). exfalso.
    destruct (decide (b_pos c = b_pos b)) as [Ep|]; [| lia].
    assert (c <> b) as Hne by (intros ->; done). apply Hne, Hinj; [by apply Hsame | done | done].
  - rewrite (Hv p bs). split; intros (c & Hc & Hfc & -> & ->); exists c.
    + assert (c <> b) by congruence. split_and!; [by apply Hsame | done | done | by rewrite Hkeep].
    + assert (c <> b) by congruence. assert (c ∈ l) by (by apply Hsame). split_and!; [done | done | done | by rewrite Hkeep].
Qed.

Lemma contents_ext m m' b :
  (forall a, b_pos b <= a < b_end b -> load8 m' a = load8 m a) -> contents m' b = contents m b.
Proof. intros Hs. apply bytes_ext. unfold b_end in Hs. intros a Ha. apply Hs. lia. Qed.

(** Of what a hole became, one block is live: the one that the client gets. *)
Lemma carved_live page_align b size :
  fits page_align size b -> 0 <= size ->
  exists pre n rest, carved page_align b size = pre ++ n :: rest /\ b_pos n = b_pos b + front page_align (b_pos b) /\
    b_free n = false /\ size + 32 <= b_size n /\ forall c, c ∈ pre \/ c ∈ rest -> b_free c = true.
Proof.
  intros [Hf Hs] H0. unfold carved. cbv zeta. destruct (Z.eqb_spec (front page_align (b_pos b)) 0) as [E|E].
  - rewrite E, Z.add_0_r. unfold carve. destruct (Z.ltb_spec (b_size b - (size + 32)) 32).
    + exists [], (Blk (b_pos b) (b_size b) false), []. cbn. split_and!; [done | done | done | lia |]. by intros c [?%elem_of_nil|?%elem_of_nil].
    + eexists [], _, [_]. split; [done |]. cbn. split_and!; [done | done | lia |].
      by intros c [?%elem_of_nil| ->%list_elem_of_singleton].
  - eexists [_], _, _. split; [done |]. cbn. split_and!; [done | done | lia |].
    intros c [->%list_elem_of_singleton|Hc]; [done |]. destruct (_ =? 0); [by apply elem_of_nil in Hc | by apply list_elem_of_singleton in Hc as ->].
Qed.

Lemma merge_left_live l b x : b_free x = false -> x ∈ merge_left l b <-> x ∈ l.
Proof.
  intros Hx. destruct l as [|a l _] using rev_ind.
  - rewrite merge_left_nil. split; [intros ->%list_elem_of_singleton; done | by intros ?%elem_of_nil].
  - rewrite merge_left_snoc. destruct (b_free a) eqn:Ha; rewrite !elem_of_app, !list_elem_of_singleton.
    + split; [intros [?| ->]; [by left | done] | intros [?| ->]; [by left | congruence]].
    + split; [intros [?| ->]; [done | done] | by left].
Qed.

Section simulation.
Context {P : Type} `{KernelPages P} (heap lo hi : Z).
Implicit Types (s : hstate P) (σ : store_map).

(** A block is where no other one is. *)
Lemma not_other_block l1 b l2 : tiles lo hi (l1 ++ [b] ++ l2) -> b ∉ l1 ++ l2.
Proof.
  intros Ht Hb. destruct (tiles_elem _ _ _ _ Ht ltac:(apply elem_of_app; right; apply list_elem_of_here)) as (_ & _ & Hs).
  pose proof (tiles_other _ _ _ _ _ b Ht Hb). unfold b_end in *. lia.
Qed.

Lemma alloc_simulated fuel size page_align p l s s' σ :
  heap_inv (hs_mem s) heap lo hi l -> views (hs_mem s) l σ -> 0 <= size < 2 ^ 64 - 32 -> 0 <= page_align ->
  (exists b, b ∈ l /\ fits page_align size b) -> (forall b, b ∈ l -> fits page_align size b -> apt page_align size b) ->
  page_align = 0 \/ Z.of_nat (length (holes l)) + 2 < HEAP_INDEX_SIZE ->
  alloc (S fuel) size page_align heap s = Some (p, s') ->
  exists σ', spec_step lo hi σ (OAlloc size p) σ' /\ heap_view heap lo hi (hs_mem s') σ'.
Proof.
  intros Hi Hv Hsize Halign Hfit Hapt Hroom Ea.
  destruct (alloc_aligned_run fuel size page_align heap lo hi l s Hi Hsize Halign Hfit Hapt Hroom) as (l1 & b & l2 & m' & -> & Hfits & E & Hi' & Hkeep).
  rewrite Ea in E. injection E as -> ->. cbn [hs_mem upd_mem].
  destruct (carved_live page_align b size Hfits ltac:(lia)) as (pre & n & rest & Ecarve & Epos & Hfn & Hns & Hrest).
  destruct Hfits as [Hfree Hsz].
  rewrite Ecarve in Hi'. pose proof (hv_tiles _ _ _ _ _ Hi) as Ht. pose proof (hv_tiles _ _ _ _ _ Hi') as Ht'.
  assert (n ∈ l1 ++ (pre ++ n :: rest) ++ l2) as Hn by (rewrite !elem_of_app; right; left; right; apply list_elem_of_here).
  assert (b ∈ l1 ++ [b] ++ l2) as Hb by (apply elem_of_app; right; apply list_elem_of_here).
  assert (forall c, b_free c = false -> c <> n -> c ∈ l1 ++ (pre ++ n :: rest) ++ l2 <-> c ∈ l1 ++ [b] ++ l2) as Hsame.
  { intros c Hc Hne. rewrite !elem_of_app, elem_of_cons, list_elem_of_singleton.
    split; [intros [?|[[Hr|[?|Hr]]|?]] | intros [?|[->|?]]]; try tauto; [| | congruence]; by rewrite (Hrest c ltac:(tauto)) in Hc. }
  assert (forall c, c ∈ l1 ++ [b] ++ l2 -> b_free c = false -> b_end c <= b_pos b \/ b_end b <= b_pos c) as Hapart.
  { intros c Hc Hfc. assert (c ∈ l1 ++ l2) as Hc'.
    { rewrite !elem_of_app, list_elem_of_singleton in Hc. rewrite elem_of_app.
      destruct Hc as [?|[->|?]]; [by left | congruence | by right]. }
    pose proof (tiles_other _ _ _ _ _ c Ht Hc'). lia. }
  assert (forall c, c ∈ l1 ++ [b] ++ l2 -> b_free c = false -> contents m' c = contents (hs_mem s) c) as Hcont.
  { intros c Hc Hfc. apply contents_ext. destruct (tiles_elem _ _ _ _ Ht Hc) as (? & ? & _).
    pose proof (Hapart c Hc Hfc). intros a Ha. apply Hkeep; lia. }
  assert (b_pos b <= b_pos n < b_end b) as Hnb.
  { pose proof (front_bounds page_align (b_pos b)). unfold b_end. lia. }
  assert (forall c, c ∈ l1 ++ [b] ++ l2 -> b_free c = false -> b_pos c <> b_pos n) as Hnot.
  { intros c Hc Hfc. destruct (tiles_elem _ _ _ _ Ht Hc) as (_ & _ & ?). pose proof (Hapart c Hc Hfc). unfold b_end in *. lia. }
  rewrite <- Epos. exists (<[b_pos n + 16 := contents m' n]> σ). split.
  - pose proof (contents_length _ _ _ m' n Ht' Hn) as Hlen. destruct (tiles_elem _ _ _ _ Ht' Hn) as (? & ? & _).
    unfold b_end in *. apply spec_alloc; [| lia | lia | lia |].
    + destruct (σ !! _) as [bs|] eqn:Eb; [| done]. apply Hv in Eb as (c & Hc & Hfc & Ec & _). by destruct (Hnot c Hc Hfc); lia.
    + intros q cs Hq. apply Hv in Hq as (c & Hc & Hfc & -> & ->). rewrite <- (Hcont c Hc Hfc).
      assert (n <> c) as Hne by (intros <-; by apply (Hnot n Hc Hfc)).
      apply (contents_apart lo hi (l1 ++ (pre ++ n :: rest) ++ l2)); [done | done | by apply Hsame | done].
  - exists (l1 ++ (pre ++ n :: rest) ++ l2). split; [done |].
    apply (views_insert (hs_mem s) m' (l1 ++ [b] ++ l2)); [done | done | done | done | | by intros; apply Hcont].
    intros c Hc _ Ep. by eapply tiles_pos_inj.
Qed.

Lemma free_simulated l1 b c l2 s σ :
  heap_inv (hs_mem s) heap lo hi (l1 ++ [b] ++ c :: l2) -> views (hs_mem s) (l1 ++ [b] ++ c :: l2) σ ->
  b_free b = false -> b_free c = false -> Z.of_nat (length (holes (l1 ++ [b] ++ c :: l2))) + 2 < HEAP_INDEX_SIZE ->
  exists σ', spec_step lo hi σ (OFree (b_pos b + 16)) σ' /\
    heap_view heap lo hi (hs_mem (free (b_pos b + 16) heap s)) σ'.
Proof.
  intros Hi Hv Hfb Hfc Hroom.
  destruct (free_keep_run heap lo hi l1 l2 b c s Hi Hfb Hfc Hroom) as (m' & -> & Hi' & Hkeep).
  cbn [hs_mem upd_mem]. pose proof (hv_tiles _ _ _ _ _ Hi) as Ht.
  assert (b ∈ l1 ++ [b] ++ c :: l2) as Hb by (apply elem_of_app; right; apply list_elem_of_here).
  pose proof (not_other_block l1 b (c :: l2) Ht) as Hnot. rewrite elem_of_app in Hnot.
  exists (delete (b_pos b + 16) σ). split.
  - constructor. exists (contents (hs_mem s) b). apply Hv. by exists b.
  - exists (merge_left l1 b ++ c :: l2). split; [done |].
    apply (views_delete (hs_mem s) m' (l1 ++ [b] ++ c :: l2)); [done | | | |].
    + rewrite elem_of_app, merge_left_live by done. tauto.
    + intros x Hx Hne. rewrite !elem_of_app, merge_left_live, list_elem_of_singleton by done. tauto.
    + intros x Hx _ Ep. by eapply tiles_pos_inj.
    + intros x Hx Hfx Hne. apply contents_ext. intros a Ha. eapply Hkeep; [| done | exact Ha].
      rewrite !elem_of_app, list_elem_of_singleton in Hx. rewrite elem_of_app. tauto.
Qed.

Lemma write_simulated l b off v s σ :
  heap_inv (hs_mem s) heap lo hi l -> views (hs_mem s) l σ -> b ∈ l -> b_free b = false -> 0 <= off < b_size b - 32 ->
  exists σ', spec_step lo hi σ (OWrite (b_pos b + 16) off v) σ' /\
    heap_view heap lo hi (hs_mem (upd_mem (store8 (b_pos b + 16 + off) v) s)) σ'.
Proof.
  intros Hi Hv Hb Hfb Hoff. cbn [hs_mem upd_mem]. pose proof (hv_tiles _ _ _ _ _ Hi) as Ht.
  set (m' := store8 (b_pos b + 16 + off) v (hs_mem s)).
  exists (<[b_pos b + 16 := contents m' b]> σ). split.
  - unfold m', contents. rewrite bytes_store by lia. apply spec_write; [apply Hv; by exists b |].
    by rewrite bytes_length by lia.
  - exists l. split; [apply (heap_inv_store _ _ _ _ _ b); [done | done | unfold b_end; lia | done] |].
    apply (views_insert (hs_mem s) m' l); [done | done | done | done | |].
    + intros c Hc _ Ep. by eapply tiles_pos_inj.
    + intros c Hc Hfc Hne. pose proof (contents_apart _ _ _ m' b c Ht Hb Hc ltac:(congruence)) as Hd.
      rewrite (contents_length _ _ _ m' b Ht Hb), (contents_length _ _ _ m' c Ht Hc) in Hd.
      apply bytes_ext. intros a Ha. apply load8_store8_ne. lia.
Qed.

Lemma heap_step_simulated s o s' σ :
  heap_step heap lo hi s o s' -> heap_view heap lo hi (hs_mem s) σ ->
  exists σ', spec_step lo hi σ o σ' /\ heap_view heap lo hi (hs_mem s') σ'.
Proof.
  intros Hstep (l & Hi & Hv).
  destruct Hstep as [fuel size page_align p l' s' Hi' Hsize Halign Hfit Hapt Hroom E|l1 b c l2 Hi' Hfb Hfc Hroom|l' b off v Hi' Hb Hfb Hoff];
    pose proof (heap_inv_unique _ _ _ _ _ _ Hi Hi') as ->.
  - by eapply alloc_simulated.
  - by eapply free_simulated.
  - by eapply write_simulated.
Qed.

End simulation.

(** C2: a trace of [alloc]s, with or without page alignment, that a hole can serve, of [free]s of blocks in front of a
    live one and of stores to live blocks, from a well-formed heap, is a trace of the
    specification: new blocks are large enough, lie in the heap and touch no live block, and
    a live block holds the bytes that its client stored last, whatever the heap did in
    between. Aligned requests need holes that are [apt], as in [HeapInv.alloc_spec]. Traces in which the heap
    grows, or in which a block in front of a hole or at the end of the heap is freed, are not covered: there the
    specification does not hold ([HeapRuns.grown_heap_overlaps], [freed_block_lost], [block_behind_the_end]). *)
Theorem heap_trace_refines {P : Type} `{KernelPages P} (heap lo hi : Z) (s s' : hstate P) (ops : list heap_op) (σ : store_map) :
  trace (heap_step heap lo hi) s ops s' -> heap_view heap lo hi (hs_mem s) σ ->
  exists σ', trace (spec_step lo hi) σ ops σ' /\ heap_view heap lo hi (hs_mem s') σ'.
Proof.
  intros Ht. revert σ. induction Ht as [s|s o s1 ops s2 Hstep _ IH]; intros σ Hv.
  - exists σ. split; [constructor | done].
  - destruct (heap_step_simulated heap lo hi s o s1 σ Hstep Hv) as (σ1 & Hs1 & Hv1).
    destruct (IH σ1 Hv1) as (σ2 & Hs2 & Hv2). exists σ2. split; [by econstructor | done].
Qed.

(** * A concrete trace *)

(** The first block of a heap of one hole, and the second. *)
Lemma demo_alloc (s : hstate page_bump) l1 pos sz :
  heap_inv (hs_mem s) 0x100000 0x109000 0x120000 (l1 ++ [Blk pos sz true]) ->
  (forall b, b ∈ l1 -> b_free b = false) -> 0x1000 <= sz ->
  exists m', alloc 1 16 0 0x100000 s = Some (pos + 16, upd_mem (fun _ => m') s) /\
    heap_inv m' 0x100000 0x109000 0x120000 (l1 ++ [Blk pos 48 false; Blk (pos + 48) (sz - 48) true]).
Proof.
  intros Hi Hlive Hsz. destruct (alloc_run 0 16 0x100000 0x109000 0x120000 _ s Hi ltac:(lia))
    as (k1 & b & k2 & m' & El & Hfree & _ & E & Hi' & _).
  { exists (Blk pos sz true). split_and!; [apply elem_of_app; right; apply list_elem_of_here | done | simpl; lia]. }
  assert (b = Blk pos sz true) as ->.
  { assert (b ∈ l1 ++ [Blk pos sz true]) as Hb by (rewrite El; apply elem_of_app; right; apply list_elem_of_here).
    apply elem_of_app in Hb as [Hb|Hb%list_elem_of_singleton]; [| done]. by rewrite (Hlive b Hb) in Hfree. }
  destruct k2 as [|x k2 _] using rev_ind.
  - apply app_inj_tail in El as [-> _]. exists m'. split; [exact E |].
    unfold carve in Hi'. cbn [b_size b_pos] in Hi'. rewrite (proj2 (Z.ltb_ge _ _)) in Hi' by lia. exact Hi'.
  - rewrite !app_assoc in El. apply app_inj_tail in El as [El _].
    assert (Blk pos sz true ∈ l1) as Hin by (rewrite El; apply elem_of_app; left; apply elem_of_app; right; apply list_elem_of_here).
    by apply Hlive in Hin.
Qed.

Definition demo_ops : list heap_op := [OAlloc 16 0x109010; OWrite 0x109010 3 77; OAlloc 16 0x109040; OFree 0x109010].

Lemma demo_trace : exists s', trace (heap_step 0x100000 0x109000 0x120000) demo_state demo_ops s'.
Proof.
  pose proof demo_heap_inv as Hi0.
  destruct (demo_alloc demo_state [] 0x109000 0x17000 Hi0) as (m1 & E1 & Hi1); [by intros b ?%elem_of_nil | lia |].
  set (s1 := upd_mem (fun _ => m1) demo_state) in *. set (b1 := Blk 0x109000 48 false) in *.
  set (s2 := upd_mem (store8 (0x109010 + 3) 77) s1).
  assert (heap_inv (hs_mem s2) 0x100000 0x109000 0x120000 [b1; Blk 0x109030 0x16fd0 true]) as Hi2.
  { apply (heap_inv_store m1 _ _ _ _ b1); [exact Hi1 | apply list_elem_of_here | unfold b_end; simpl; lia | done]. }
  destruct (demo_alloc s2 [b1] 0x109030 0x16fd0 Hi2) as (m3 & E3 & Hi3); [by intros b ->%list_elem_of_singleton | lia |].
  eexists. eapply trace_cons; [| eapply trace_cons; [| eapply trace_cons; [| eapply trace_cons; [| apply trace_nil]]]].
  - eapply (step_alloc _ _ _ _ 0 16 0); [exact Hi0 | lia | lia | | by left | by left | exact E1].
    exists (Blk 0x109000 0x17000 true). split; [apply list_elem_of_here | split; [done | vm_compute; discriminate]].
  - apply (step_write _ _ _ s1 [b1; Blk 0x109030 0x16fd0 true] b1 3 77);
      [exact Hi1 | apply list_elem_of_here | done | simpl; lia].
  - eapply (step_alloc _ _ _ s2 0 16 0); [exact Hi2 | lia | lia | | by left | by left | exact E3].
    exists (Blk 0x109030 0x16fd0 true). split; [by apply list_elem_of_further, list_elem_of_here | split; [done | vm_compute; discriminate]].
  - eapply (step_free _ _ _ _ [] b1 (Blk 0x109030 48 false) [Blk 0x109060 0x16fa0 true]); [exact Hi3 | done | done |].
    vm_compute. reflexivity.
Qed.

Lemma heap_trace_refines_witness :
  exists (s' : hstate page_bump) σ',
    trace (spec_step 0x109000 0x120000) ∅ demo_ops σ' /\ heap_view 0x100000 0x109000 0x120000 (hs_mem s') σ'.
Proof.
  destruct demo_trace as (s' & Ht). exists s'.
  apply (heap_trace_refines 0x100000 0x109000 0x120000 demo_state s' demo_ops ∅ Ht).
  exists [Blk 0x109000 0x17000 true]. split; [exact demo_heap_inv |].
  intros p bs. rewrite lookup_empty. split; [done |]. by intros (b & ->%list_elem_of_singleton & Hf & _).
Defined.
