(* ===== verification/Monitor.v ===== *)
(** The text screen (kernel/monitor.c): the cursor, the 80 x 25 cells of video
    memory, scrolling, and the printing of strings and numbers. *)

From S2P Require Import Prelude Words Memory CLib.
#[local] Open Scope Z_scope.

(** * State *)

Definition VGA_INDEX_PORT : Z := 0x3D4.
Definition VGA_DATA_PORT : Z := 0x3D5.
Definition CURSOR_POSITION_HIGH : Z := 0xE.
Definition CURSOR_POSITION_LOW : Z := 0xF.
Definition BLACK : Z := 0.
Definition WHITE : Z := 15.
Definition ATTR_BYTE (bg fg : Z) : Z := Z.lor (Z.shiftl bg 4) (Z.land fg 0x0F).

(** What the functions do besides writing to video memory, in order. *)
Inductive mevent :=
  | Lock
  | Unlock
  | Outb (port value : Z).

(** [video_memory] by the index of the cell; a cell outside the 2000 of the screen
    is memory that is not the screen's. *)
Record monitor := Monitor {
  cursor_x : Z;
  cursor_y : Z;
  video_memory : gmap Z Z;
  trace : list mevent
}.

Definition set_cursor (x y : Z) (s : monitor) : monitor := Monitor x y (video_memory s) (trace s).
Definition upd_video (f : gmap Z Z -> gmap Z Z) (s : monitor) : monitor :=
  Monitor (cursor_x s) (cursor_y s) (f (video_memory s)) (trace s).
Definition emit (l : list mevent) (s : monitor) : monitor :=
  Monitor (cursor_x s) (cursor_y s) (video_memory s) (trace s ++ l).

Definition video (s : monitor) (i : Z) : Z := default 0 (video_memory s !! i).

(** * Operations *)

Definition move_cursor (s : monitor) : monitor :=
  let cursor_location := int16_t (cursor_y s * 80 + cursor_x s) in
  emit [Outb VGA_INDEX_PORT CURSOR_POSITION_HIGH; Outb VGA_DATA_PORT (uint8_t (Z.shiftr cursor_location 8));
        Outb VGA_INDEX_PORT CURSOR_POSITION_LOW; Outb VGA_DATA_PORT (uint8_t cursor_location)] s.

Definition blank : Z := Z.lor 0x20 (Z.shiftl (ATTR_BYTE BLACK WHITE) 8).

(** The two loops of [scroll]; the second is also that of [clear_screen]. *)
Definition scroll_copy (s : monitor) : monitor :=
  for_range 0 (80 * 24) (fun i s => upd_video <[i := video s (i + 80)]> s) s.

Definition blank_cells (lo hi : Z) (s : monitor) : monitor :=
  for_range lo hi (fun i => upd_video <[i := blank]>) s.

Definition scroll (s : monitor) : monitor :=
  if 25 <=? cursor_y s then
    let s := scroll_copy s in
    let s := blank_cells (24 * 80) (25 * 80) s in
    set_cursor (cursor_x s) 24 s
  else s.

(** [putchar] between [lock] and [unlock]: what the character does ([c] is a signed
    [char]), then the end of a row, scrolling and the hardware cursor. *)
Definition putchar_act (c : Z) (s : monitor) : monitor :=
  if (c =? 0x08) && negb (cursor_x s =? 0) then set_cursor (int8_t (cursor_x s - 1)) (cursor_y s) s
  else if c =? 0x09 then set_cursor (int8_t (Z.land (cursor_x s + 8) (-8))) (cursor_y s) s
  else if c =? 13 then set_cursor 0 (cursor_y s) s
  else if c =? 10 then set_cursor 0 (int8_t (cursor_y s + 1)) s
  else if 32 <=? c then
    let location := cursor_y s * 80 + cursor_x s in
    let s := upd_video <[location := Z.lor c (Z.shiftl (ATTR_BYTE BLACK WHITE) 8)]> s in
    set_cursor (int8_t (cursor_x s + 1)) (cursor_y s) s
  else s.

Definition putchar_settle (s : monitor) : monitor :=
  scroll (if 80 <=? cursor_x s then set_cursor 0 (int8_t (cursor_y s + 1)) s else s).

Definition putchar_body (c : Z) (s : monitor) : monitor :=
  move_cursor (putchar_settle (putchar_act c s)).

Definition putchar (c : Z) (s : monitor) : monitor :=
  emit [Unlock] (putchar_body c (emit [Lock] s)).

Definition clear_screen (s : monitor) : monitor :=
  move_cursor (set_cursor 0 0 (blank_cells 0 (80 * 25) s)).

(** The loop of [puts] on the string at [str]. *)
Definition puts_step (m : mem) (str : Z) (st : Z * monitor) : (Z * monitor) + monitor :=
  let '(i, s) := st in
  let c := int8_t (load8 m (str + i)) in
  if c =? 0 then inr s else inl (i + 1, putchar c s).

Definition puts (fuel : nat) (m : mem) (str : Z) (s : monitor) : option monitor :=
  if str =? 0 then Some s
  else
    s ← iter_fuel fuel (puts_step m str) (0, emit [Lock] s);
    Some (emit [Unlock] s).

(** ** Numbers *)

Definition bchars : list Z := [48; 49; 50; 51; 52; 53; 54; 55; 56; 57; 65; 66; 67; 68; 69; 70].
Definition sizeof_tbuf : Z := 32.

(** [while (i != 0)]: leaves with [pos]; [None] when a store would be outside
    [tbuf] or the division by [base] faults. *)
Definition itoa_step (tbuf base : Z) (st : Z * Z * mem) : (Z * Z * mem) + option (Z * mem) :=
  let '(i, pos, m) := st in
  if i =? 0 then inr (Some (pos, m))
  else if (base =? 0) || (sizeof_tbuf <=? pos) then inr None
  else inl (i / base, pos + 1, store8 (tbuf + pos) (nth (Z.to_nat (i mod base)) bchars 0) m).

Definition itoa_fuel : nat := 66.

Definition itoa (tbuf i base buf : Z) (m : mem) : option mem :=
  if (i =? 0) || (16 <? base) then Some (store8 (buf + 1) 0 (store8 buf 48 m))
  else
    r ← iter_fuel itoa_fuel (itoa_step tbuf base) (i, 0, m);
    '(top, m) ← r;
    let m := for_range 0 top (fun opos m => store8 (buf + opos) (load8 m (tbuf + (top - 1 - opos))) m) m in
    Some (store8 (buf + top) 0 m).

Definition itoa_s (tbuf i base buf : Z) (m : mem) : option mem :=
  if 16 <? base then Some m
  else if i <? 0 then itoa tbuf (uint64_t (int64_t (i * -1))) base (buf + 1) (store8 buf 45 m)
  else itoa tbuf i base buf m.

Definition uitoa_s (tbuf i base buf : Z) (m : mem) : option mem :=
  if 16 <? base then Some m else itoa tbuf i base buf m.

(** [str] is where the local array lies. *)
Definition putint (fuel : nat) (tbuf str i : Z) (m : mem) (s : monitor) : option (mem * monitor) :=
  let s := emit [Lock] s in
  m ← memset str 0 32 m;
  m ← itoa_s tbuf i 10 str m;
  s ← puts fuel m str s;
  Some (m, emit [Unlock] s).

Definition puthex (fuel : nat) (tbuf str i : Z) (m : mem) (s : monitor) : option (mem * monitor) :=
  let s := emit [Lock] s in
  m ← memset str 0 32 m;
  m ← uitoa_s tbuf i 16 (str + 2) (store8 (str + 1) 120 (store8 str 48 m));
  s ← puts fuel m str s;
  Some (m, emit [Unlock] s).

(** * The terminal that the screen implements *)

Record term := Term { t_row : Z; t_col : Z; t_cell : Z -> Z -> Z }.

Definition glyph (c : Z) : Z := c + 0x0F00.

(** To the start of the next row; on the last one, everything moves up. *)
Definition term_newline (t : term) : term :=
  if t_row t =? 24
  then Term 24 0 (fun r c => if r <? 24 then t_cell t (r + 1) c else glyph 32)
  else Term (t_row t + 1) 0 (t_cell t).

Definition term_goto (x : Z) (t : term) : term :=
  if x <? 80 then Term (t_row t) x (t_cell t) else term_newline t.

Definition term_write (v : Z) (t : term) : term :=
  Term (t_row t) (t_col t) (fun r c => if (r =? t_row t) && (c =? t_col t) then v else t_cell t r c).

(** One character: backspace, tab, carriage return, newline, printable. *)
Definition term_put (c : Z) (t : term) : term :=
  if c =? 8 then term_goto (Z.max 0 (t_col t - 1)) t
  else if c =? 9 then term_goto ((t_col t / 8 + 1) * 8) t
  else if c =? 13 then term_goto 0 t
  else if c =? 10 then term_newline t
  else if 32 <=? c then term_goto (t_col t + 1) (term_write (glyph c) t)
  else t.

Definition on_screen (r c : Z) : Prop := 0 <= r < 25 /\ 0 <= c < 80.

Record shows (t : term) (s : monitor) : Prop := {
  sw_x : cursor_x s = t_col t;
  sw_y : cursor_y s = t_row t;
  sw_in : on_screen (t_row t) (t_col t);
  sw_cell : forall r c, on_screen r c -> video s (r * 80 + c) = t_cell t r c
}.

(** The port writes of [move_cursor] for a cursor at [(row, col)]. *)
Definition cursor_writes (row col : Z) : list mevent :=
  [Outb VGA_INDEX_PORT CURSOR_POSITION_HIGH; Outb VGA_DATA_PORT ((row * 80 + col) / 256);
   Outb VGA_INDEX_PORT CURSOR_POSITION_LOW; Outb VGA_DATA_PORT ((row * 80 + col) mod 256)].

(** The memory around the screen is left alone. *)
Definition off_screen_same (s s' : monitor) : Prop :=
  forall i, ~ (0 <= i < 2000) -> video s' i = video s i.

Section screen.
Implicit Types (s : monitor) (t : term) (i r c : Z).

Lemma video_upd s i v j : video (upd_video <[i := v]> s) j = if decide (i = j) then v else video s j.
Proof. unfold video. simpl. rewrite lookup_insert. by case_decide. Qed.

Lemma int8_id z : -128 <= z < 128 -> int8_t z = z.
Proof. intros. unfold int8_t. apply swrap_id; lia. Qed.

Lemma int16_id z : -32768 <= z < 32768 -> int16_t z = z.
Proof. intros. unfold int16_t. apply swrap_id; lia. Qed.

Lemma glyph_lor c : 32 <= c < 128 -> Z.lor c (Z.shiftl (ATTR_BYTE BLACK WHITE) 8) = glyph c.
Proof.
  intros Hc. unfold glyph. change (Z.shiftl (ATTR_BYTE BLACK WHITE) 8) with (15 * 2 ^ 8).
  rewrite <- Z.add_nocarry_lor; [lia |].
  apply Z.bits_inj'. intros n Hn. rewrite Z.land_spec, Z.bits_0.
  destruct (Z.lt_ge_cases n 8).
  - rewrite Z.mul_pow2_bits_low by lia. apply andb_false_r.
  - rewrite (Z.bits_above_log2 c n); [done | lia |].
    apply Z.log2_lt_pow2; [lia |]. assert (2 ^ 8 <= 2 ^ n) by (apply Z.pow_le_mono_r; lia). lia.
Qed.

Lemma tab_land c : 0 <= c < 80 -> Z.land (c + 8) (-8) = (c / 8 + 1) * 8.
Proof.
  intros Hc. change (-8) with (Z.lnot (Z.ones 3)). rewrite <- Z.ldiff_land, Z.ldiff_ones_r by lia.
  rewrite Z.shiftl_mul_pow2, Z.shiftr_div_pow2 by lia. change (2 ^ 3) with 8.
  replace (c + 8) with (c + 1 * 8) by lia. by rewrite Z.div_add by lia.
Qed.

Lemma move_cursor_spec s r c :
  cursor_y s = r -> cursor_x s = c -> on_screen r c ->
  move_cursor s = emit (cursor_writes r c) s.
Proof.
  intros Er Ec [Hr Hc]. unfold move_cursor, cursor_writes. rewrite Er, Ec, int16_id by lia. do 2 f_equal.
  rewrite Z.shiftr_div_pow2 by lia. change (2 ^ 8) with 256.
  unfold uint8_t, uwrap. change (2 ^ 8) with 256. f_equal. f_equal.
  apply Z.mod_small. pose proof (Z.div_mod (r * 80 + c) 256). pose proof (Z.mod_pos_bound (r * 80 + c) 256). lia.
Qed.

(** The two loops of [scroll]. *)
Lemma scroll_copy_spec s :
  (forall i, video (scroll_copy s) i = if (0 <=? i) && (i <? 80 * 24) then video s (i + 80) else video s i) /\
  cursor_x (scroll_copy s) = cursor_x s /\ cursor_y (scroll_copy s) = cursor_y s /\
  trace (scroll_copy s) = trace s.
Proof.
  unfold scroll_copy. apply (for_range_ind (fun k s' =>
    (forall i, video s' i = if (0 <=? i) && (i <? k) then video s (i + 80) else video s i) /\
    cursor_x s' = cursor_x s /\ cursor_y s' = cursor_y s /\ trace s' = trace s)); [lia | |].
  - split_and!; try done. intros i. zbool_cases.
  - intros k s' Hk (Hv & ? & ? & ?). split_and!; try done. intros i. rewrite video_upd, Hv, (Hv i).
    case_decide; zbool_cases; simpl; f_equal; lia.
Qed.

Lemma blank_cells_spec lo hi s :
  lo <= hi ->
  (forall i, video (blank_cells lo hi s) i = if (lo <=? i) && (i <? hi) then glyph 32 else video s i) /\
  cursor_x (blank_cells lo hi s) = cursor_x s /\ cursor_y (blank_cells lo hi s) = cursor_y s /\
  trace (blank_cells lo hi s) = trace s.
Proof.
  intros Hle. unfold blank_cells. apply (for_range_ind (fun k s' =>
    (forall i, video s' i = if (lo <=? i) && (i <? k) then glyph 32 else video s i) /\
    cursor_x s' = cursor_x s /\ cursor_y s' = cursor_y s /\ trace s' = trace s)); [lia | |].
  - split_and!; try done. intros i. zbool_cases.
  - intros k s' Hk (Hv & ? & ? & ?). split_and!; try done. intros i. rewrite video_upd, Hv.
    case_decide; zbool_cases; done.
Qed.

#[local] Opaque scroll_copy blank_cells.

Lemma set_cursor_fields x y s :
  cursor_x (set_cursor x y s) = x /\ cursor_y (set_cursor x y s) = y /\
  trace (set_cursor x y s) = trace s /\ forall i, video (set_cursor x y s) i = video s i.
Proof. done. Qed.

Lemma scroll_spec s :
  cursor_x (scroll s) = cursor_x s /\ trace (scroll s) = trace s /\ off_screen_same s (scroll s) /\
  if 25 <=? cursor_y s
  then cursor_y (scroll s) = 24 /\
    forall r c, on_screen r c ->
      video (scroll s) (r * 80 + c) = if r <? 24 then video s ((r + 1) * 80 + c) else glyph 32
  else cursor_y (scroll s) = cursor_y s /\ forall i, video (scroll s) i = video s i.
Proof.
  unfold scroll. destruct (Z.leb_spec 25 (cursor_y s)); [| by split_and!]. cbv zeta.
  destruct (scroll_copy_spec s) as (Hv1 & Hx1 & Hy1 & Ht1).
  destruct (blank_cells_spec (24 * 80) (25 * 80) (scroll_copy s) ltac:(lia)) as (Hv2 & Hx2 & Hy2 & Ht2).
  destruct (set_cursor_fields (cursor_x (blank_cells (24 * 80) (25 * 80) (scroll_copy s))) 24
    (blank_cells (24 * 80) (25 * 80) (scroll_copy s))) as (-> & -> & -> & Hv).
  split_and!; [exact (eq_trans Hx2 Hx1) | exact (eq_trans Ht2 Ht1) | | reflexivity |].
  - intros i Hi. rewrite Hv, Hv2, Hv1. clear - Hi. zbool_cases.
  - intros r c [Hr Hc]. rewrite Hv, Hv2, Hv1. clear - Hr Hc. zbool_cases; cbn [andb]; f_equal; lia.
Qed.

(** A state that holds the cells of [t], with the cursor at [(x, y)]. *)
Record at_cursor t x y s : Prop := {
  ac_x : cursor_x s = x;
  ac_y : cursor_y s = y;
  ac_cell : forall r c, on_screen r c -> video s (r * 80 + c) = t_cell t r c
}.

Lemma settle_stay t x s :
  at_cursor t x (t_row t) s -> on_screen (t_row t) x ->
  shows (Term (t_row t) x (t_cell t)) (putchar_settle s) /\
  trace (putchar_settle s) = trace s /\ off_screen_same s (putchar_settle s).
Proof.
  intros [Hx Hy Hc] [Hr Hxr]. unfold putchar_settle. rewrite Hx.
  destruct (Z.leb_spec 80 x); [lia |]. destruct (scroll_spec s) as (Hx' & Ht & Hoff & Hs).
  rewrite Hy in Hs. destruct (Z.leb_spec 25 (t_row t)); [lia |]. destruct Hs as [Hy' Hv].
  split_and!; [| done | done]. split; simpl; [congruence | congruence | done |].
  intros r c Hrc. rewrite Hv. by apply Hc.
Qed.

Lemma settle_newline t x y s :
  at_cursor t x y s -> on_screen (t_row t) (t_col t) ->
  (x = 80 /\ y = t_row t \/ x = 0 /\ y = t_row t + 1) ->
  shows (term_newline t) (putchar_settle s) /\
  trace (putchar_settle s) = trace s /\ off_screen_same s (putchar_settle s).
Proof.
  intros [Hx Hy Hc] [Hr _] Hxy. unfold putchar_settle.
  set (s1 := if 80 <=? cursor_x s then _ else s).
  assert (cursor_x s1 = 0 /\ cursor_y s1 = t_row t + 1 /\ trace s1 = trace s /\ forall i, video s1 i = video s i)
    as (Hx1 & Hy1 & Ht1 & Hv1).
  { subst s1. rewrite Hx. destruct Hxy as [[-> ->] | [-> ->]]; simpl; [rewrite Hy, int8_id by lia |]; done. }
  clearbody s1. destruct (scroll_spec s1) as (Hx' & Ht & Hoff & Hs).
  split_and!; [| congruence | intros i Hi; rewrite Hoff by done; apply Hv1].
  rewrite Hy1 in Hs. unfold term_newline.
  destruct (Z.leb_spec 25 (t_row t + 1)), (Z.eqb_spec (t_row t) 24); try lia;
    destruct Hs as [Hy' Hv]; (split; simpl; [congruence | congruence | split; lia |]); intros r c Hrc.
  - rewrite Hv by done. destruct (Z.ltb_spec r 24); [| done].
    rewrite Hv1. apply Hc. destruct Hrc. split; lia.
  - rewrite Hv, Hv1. by apply Hc.
Qed.

Lemma settle_goto t x s :
  at_cursor t x (t_row t) s -> on_screen (t_row t) (t_col t) -> 0 <= x <= 80 ->
  shows (term_goto x t) (putchar_settle s) /\
  trace (putchar_settle s) = trace s /\ off_screen_same s (putchar_settle s).
Proof.
  intros Hs Ht Hx. unfold term_goto. destruct (Z.ltb_spec x 80).
  - apply settle_stay; [done |]. destruct Ht. split; lia.
  - apply (settle_newline t x (t_row t)); [done | done | left; lia].
Qed.

Lemma shows_at t s : shows t s -> at_cursor t (t_col t) (t_row t) s.
Proof. intros []. by split. Qed.

Lemma off_screen_trans s1 s2 s3 : off_screen_same s1 s2 -> off_screen_same s2 s3 -> off_screen_same s1 s3.
Proof. intros H1 H2 i Hi. by rewrite H2, H1. Qed.

(** The character's effect, and the end of the row. *)
Lemma act_settle t c s :
  shows t s -> -128 <= c < 128 ->
  shows (term_put c t) (putchar_settle (putchar_act c s)) /\
  trace (putchar_settle (putchar_act c s)) = trace s /\
  off_screen_same s (putchar_settle (putchar_act c s)).
Proof.
  intros Hs Hc. pose proof (shows_at _ _ Hs) as Ha. destruct Hs as [Hx Hy Hin Hcell].
  pose proof Hin as [Hrow Hcol]. unfold putchar_act, term_put. rewrite Hx, Hy.
  assert (forall x y, at_cursor t x y (set_cursor x y s)) as Hset by (intros; by split).
  destruct (Z.eqb_spec c 8) as [->|]; [destruct (Z.eqb_spec (t_col t) 0) as [E|] |]; cbn [andb negb].
  - rewrite E. change (Z.max 0 (0 - 1)) with 0. simpl. apply settle_goto; [by rewrite <- E | done | lia].
  - rewrite int8_id, Z.max_r by lia. apply (settle_goto t (t_col t - 1) (set_cursor _ _ s)); [apply Hset | done | lia].
  - destruct (Z.eqb_spec c 9) as [->|].
    { rewrite tab_land, int8_id by (pose proof (Z.div_mod (t_col t) 8); pose proof (Z.mod_pos_bound (t_col t) 8); lia).
      apply (settle_goto t _ (set_cursor _ _ s)); [apply Hset | done |].
      pose proof (Z.div_mod (t_col t) 8). pose proof (Z.mod_pos_bound (t_col t) 8). lia. }
    destruct (Z.eqb_spec c 13) as [->|]; [apply (settle_goto t 0 (set_cursor _ _ s)); [apply Hset | done | lia] |].
    destruct (Z.eqb_spec c 10) as [->|].
    { rewrite int8_id by lia. apply (settle_newline t 0 (t_row t + 1) (set_cursor _ _ s)); [apply Hset | done | by right]. }
    destruct (Z.leb_spec 32 c).
    + simpl. rewrite Hx, Hy, int8_id, glyph_lor by lia.
      destruct (settle_goto (term_write (glyph c) t) (t_col t + 1)
        (set_cursor (t_col t + 1) (t_row t) (upd_video <[t_row t * 80 + t_col t := glyph c]> s))) as (? & ? & Hoff);
        [| done | simpl; lia |].
      { split; [done | done |]. intros r k [Hr Hk]. change (video (set_cursor ?x ?y ?s) ?i) with (video s i).
        rewrite (video_upd s (t_row t * 80 + t_col t) (glyph c)). simpl.
        case_decide; destruct (Z.eqb_spec r (t_row t)), (Z.eqb_spec k (t_col t)); simpl; try lia; try done; by apply Hcell. }
      split_and!; [done | done |]. eapply off_screen_trans; [| exact Hoff].
      intros i Hi. change (video (set_cursor ?x ?y ?s) i) with (video s i).
      rewrite (video_upd s (t_row t * 80 + t_col t) (glyph c)). case_decide; [lia | done].
    + destruct (settle_stay t (t_col t) s Ha Hin) as (? & ? & ?). by destruct t.
Qed.

Lemma move_cursor_shows t s : shows t s -> shows t (move_cursor s).
Proof. intros []. by split. Qed.

Lemma putchar_run t c s :
  shows t s -> -128 <= c < 128 ->
  shows (term_put c t) (putchar c s) /\
  trace (putchar c s) = trace s ++ [Lock] ++ cursor_writes (t_row (term_put c t)) (t_col (term_put c t)) ++ [Unlock] /\
  off_screen_same s (putchar c s).
Proof.
  intros Hs Hc. unfold putchar, putchar_body.
  assert (shows t (emit [Lock] s)) as Hs' by (destruct Hs; by split).
  destruct (act_settle t c _ Hs' Hc) as (Hsh & Ht & Hoff).
  rewrite (move_cursor_spec _ _ _ (sw_y _ _ Hsh) (sw_x _ _ Hsh) (sw_in _ _ Hsh)).
  split_and!; [destruct Hsh; by split | simpl; rewrite Ht; simpl; by rewrite <- !app_assoc | exact Hoff].
Qed.
End screen.

(** * Strings *)

Definition put_byte (t : term) (c : Z) : term := term_put (int8_t c) t.

(** The lock operations among the events. *)
Definition lock_events (l : list mevent) : list mevent :=
  filter (fun e => match e with Outb _ _ => false | _ => true end = true) l.

Section strings.
Implicit Types (s : monitor) (t : term) (l : list Z) (m : mem).

Lemma int8_byte_zero b : 0 <= b < 256 -> (int8_t b =? 0) = (b =? 0).
Proof.
  intros Hb. unfold int8_t, swrap. change (2 ^ (8 - 1)) with 128. change (2 ^ 8) with 256.
  cbv zeta. rewrite Z.mod_small by lia. destruct (Z.ltb_spec b 128); zbool_cases.
Qed.

Lemma int8_range b : -128 <= int8_t b < 128.
Proof.
  unfold int8_t, swrap. change (2 ^ (8 - 1)) with 128. change (2 ^ 8) with 256. cbv zeta.
  pose proof (Z.mod_pos_bound b 256). destruct (Z.ltb_spec (b mod 256) 128); lia.
Qed.

Lemma lock_events_app (l1 l2 : list mevent) : lock_events (l1 ++ l2) = lock_events l1 ++ lock_events l2.
Proof. apply filter_app. Qed.

(** The loop from index [k] on. *)
Lemma puts_loop m str l fuel k t s :
  cstr m str l -> 0 <= k <= Z.of_nat (length l) -> Z.of_nat (length l) - k < Z.of_nat fuel ->
  shows t s ->
  exists s', iter_fuel fuel (puts_step m str) (k, s) = Some s' /\
    shows (foldl put_byte t (drop (Z.to_nat k) l)) s' /\ off_screen_same s s' /\
    lock_events (trace s') =
      lock_events (trace s) ++ concat (replicate (length l - Z.to_nat k) [Lock; Unlock]).
Proof.
  intros Hs. revert k t s; induction fuel as [|fuel IH]; intros k t s Hk Hf Hsh; [lia |].
  simpl. rewrite int8_byte_zero by apply load8_bounds.
  rewrite (cstr_load _ _ l k Hs) by lia.
  destruct (decide (k = Z.of_nat (length l))) as [->|Hne].
  - rewrite nth_overflow by lia. simpl. exists s. rewrite Nat2Z.id, drop_ge, Nat.sub_diag by lia.
    simpl. rewrite app_nil_r. by split_and!.
  - destruct (cs_char _ _ _ Hs k) as [_ Hnz]; [lia |]. destruct (Z.eqb_spec (nth (Z.to_nat k) l 0) 0); [done |].
    destruct (putchar_run t (int8_t (nth (Z.to_nat k) l 0)) s Hsh (int8_range _)) as (Hsh1 & Ht1 & Hoff1).
    destruct (IH (k + 1) _ _ ltac:(lia) ltac:(lia) Hsh1) as (s' & E & Hsh' & Hoff' & Ht').
    exists s'. split_and!; [exact E | | by eapply off_screen_trans |].
    + destruct (lookup_lt_is_Some_2 l (Z.to_nat k)) as [x Hx]; [lia |].
      rewrite (drop_S _ _ _ Hx). simpl. rewrite (nth_lookup_Some _ _ _ _ Hx) in Hsh'.
      by replace (Z.to_nat (k + 1)) with (S (Z.to_nat k)) in Hsh' by lia.
    + rewrite Ht', Ht1, !lock_events_app.
      replace (length l - Z.to_nat k)%nat with (S (length l - Z.to_nat (k + 1))) by lia.
      simpl. by rewrite <- app_assoc.
Qed.

Lemma puts_run m str l fuel t s :
  cstr m str l -> str <> 0 -> (length l < fuel)%nat -> shows t s ->
  exists s', puts fuel m str s = Some s' /\
    shows (foldl put_byte t l) s' /\ off_screen_same s s' /\
    lock_events (trace s') = lock_events (trace s) ++
      [Lock] ++ concat (replicate (length l) [Lock; Unlock]) ++ [Unlock].
Proof.
  intros Hs Hstr Hf Hsh. unfold puts. destruct (Z.eqb_spec str 0); [done |].
  assert (shows t (emit [Lock] s)) as Hsh0 by (destruct Hsh; by split).
  destruct (puts_loop m str l fuel 0 t _ Hs ltac:(lia) ltac:(lia) Hsh0) as (s' & E & Hsh' & Hoff & Ht).
  rewrite E. simpl. eexists. split; [done |].
  rewrite drop_0, Nat.sub_0_r in *. split_and!; [destruct Hsh'; by split | exact Hoff |].
  simpl. rewrite lock_events_app, Ht. simpl. rewrite lock_events_app. by rewrite <- !app_assoc.
Qed.
End strings.

(** * Numbers *)

Definition digit_of (c : Z) : Z := if c <=? 57 then c - 48 else c - 55.

(** The number that a numeral denotes. *)
Definition read_number (base : Z) (l : list Z) : Z := foldl (fun acc c => acc * base + digit_of c) 0 l.

Section numbers.
Implicit Types (m : mem) (base i k : Z).

Lemma bchars_digit d : 0 <= d < 16 ->
  digit_of (nth (Z.to_nat d) bchars 0) = d /\ 48 <= nth (Z.to_nat d) bchars 0 < 128 /\
  (nth (Z.to_nat d) bchars 0 = 48 -> d = 0).
Proof.
  intros Hd. assert (d = 0 \/ d = 1 \/ d = 2 \/ d = 3 \/ d = 4 \/ d = 5 \/ d = 6 \/ d = 7 \/ d = 8 \/ d = 9 \/
    d = 10 \/ d = 11 \/ d = 12 \/ d = 13 \/ d = 14 \/ d = 15) as Hc by lia.
  repeat destruct Hc as [-> | Hc]; try subst d; (split_and!; [done | done | done | done]).
Qed.

(** The digit of weight [base ^ k], as a character. *)
Definition digit_char base i k : Z := nth (Z.to_nat (i / base ^ k mod base)) bchars 0.

Lemma digit_char_ok base i k :
  2 <= base <= 16 -> digit_of (digit_char base i k) = i / base ^ k mod base /\ 48 <= digit_char base i k < 128.
Proof.
  intros Hb. pose proof (Z.mod_pos_bound (i / base ^ k) base ltac:(lia)).
  by destruct (bchars_digit (i / base ^ k mod base) ltac:(lia)) as (? & ? & _).
Qed.

(** The loop of [itoa]: the digits, the least significant first. *)
Lemma itoa_loop tbuf base i m n :
  2 <= base <= 16 -> 0 < i -> i < base ^ n -> 0 <= n <= 32 ->
  exists top m', iter_fuel itoa_fuel (itoa_step tbuf base) (i, 0, m) = Some (Some (top, m')) /\
    0 < top <= n /\ i / base ^ top = 0 /\ i / base ^ (top - 1) <> 0 /\
    (forall k, 0 <= k < top -> load8 m' (tbuf + k) = digit_char base i k) /\
    same_outside tbuf (tbuf + 32) m m'.
Proof.
  intros Hb Hi Hlt Hn.
  destruct (iter_fuel_total (itoa_step tbuf base)
    (fun '(j, pos, m') => 0 <= pos <= n /\ j = i / base ^ pos /\ (0 < pos -> i / base ^ (pos - 1) <> 0) /\
      (forall k, 0 <= k < pos -> load8 m' (tbuf + k) = digit_char base i k) /\ same_outside tbuf (tbuf + 32) m m')
    (fun r => exists top m', r = Some (top, m') /\ 0 < top <= n /\ i / base ^ top = 0 /\
      i / base ^ (top - 1) <> 0 /\ (forall k, 0 <= k < top -> load8 m' (tbuf + k) = digit_char base i k) /\
      same_outside tbuf (tbuf + 32) m m')
    (fun '(_, pos, _) => n - pos) (i, 0, m) itoa_fuel) as (r & E & top & m' & -> & Hpost).
  - intros [[j pos] m1] (Hpos & -> & Hlast & Hdig & Hout). unfold itoa_step, sizeof_tbuf.
    destruct (Z.eqb_spec (i / base ^ pos) 0) as [E0|E0].
    + exists pos, m1. assert (pos <> 0) by (intros ->; rewrite Z.pow_0_r, Z.div_1_r in E0; lia).
      split_and!; try done; try lia; apply Hlast; lia.
    + assert (pos <> n) by (intros ->; apply E0, Z.div_small; lia).
      destruct (Z.eqb_spec base 0); [lia |]. destruct (Z.leb_spec 32 pos); [lia |]. cbn [orb].
      split; [| lia]. split_and!; [lia | lia | | | |].
      * rewrite Z.pow_add_r, Z.pow_1_r, Z.div_div by lia. done.
      * intros _. by replace (pos + 1 - 1) with pos by lia.
      * intros k Hk. rewrite load8_store8. case_decide as Ek.
        -- replace k with pos by lia. pose proof (digit_char_ok base i pos Hb). rewrite Z.mod_small; [done |].
           unfold digit_char in *. lia.
        -- apply Hdig. lia.
      * intros a Ha. rewrite load8_store8_ne by lia. by apply Hout.
  - rewrite Z.pow_0_r, Z.div_1_r. split_and!; try done; lia.
  - unfold itoa_fuel. lia.
  - lia.
  - exists top, m'. split; [exact E | exact Hpost].
Qed.

(** The characters that [itoa] writes, the most significant first. *)
Definition numeral base i (top : nat) : list Z :=
  (fun j : nat => digit_char base i (Z.of_nat top - 1 - Z.of_nat j)) <$> seq 0 top.

Lemma numeral_length base i top : length (numeral base i top) = top.
Proof. unfold numeral. by rewrite length_fmap, length_seq. Qed.

Lemma numeral_nth base i top k :
  0 <= k < Z.of_nat top -> nth (Z.to_nat k) (numeral base i top) 0 = digit_char base i (Z.of_nat top - 1 - k).
Proof.
  intros Hk. apply nth_lookup_Some. unfold numeral. rewrite list_lookup_fmap, lookup_seq_lt by lia. simpl.
  do 2 f_equal. lia.
Qed.

Lemma read_prefix base i top (n : nat) :
  2 <= base <= 16 -> 0 <= i -> i / base ^ Z.of_nat top = 0 -> (n <= top)%nat ->
  read_number base (take n (numeral base i top)) = i / base ^ (Z.of_nat top - Z.of_nat n).
Proof.
  intros Hb Hi H0. induction n as [|n IH]; intros Hn.
  - simpl. by rewrite Z.sub_0_r, H0.
  - assert (numeral base i top !! n = Some (digit_char base i (Z.of_nat top - 1 - Z.of_nat n))) as Hl.
    { unfold numeral. by rewrite list_lookup_fmap, lookup_seq_lt by lia. }
    rewrite (take_S_r _ _ _ Hl). unfold read_number. rewrite foldl_app. simpl. fold (read_number base (take n (numeral base i top))).
    rewrite IH by lia. destruct (digit_char_ok base i (Z.of_nat top - 1 - Z.of_nat n) Hb) as [-> _].
    replace (Z.of_nat top - Z.of_nat (S n)) with (Z.of_nat top - 1 - Z.of_nat n) by lia.
    replace (Z.of_nat top - Z.of_nat n) with (Z.of_nat top - 1 - Z.of_nat n + 1) by lia.
    set (e := Z.of_nat top - 1 - Z.of_nat n) in *.
    rewrite Z.pow_add_r, Z.pow_1_r, <- Z.div_div by lia.
    rewrite Z.mul_comm. symmetry. apply Z.div_mod. lia.
Qed.

Lemma read_numeral base i top :
  2 <= base <= 16 -> 0 <= i -> i / base ^ Z.of_nat top = 0 -> read_number base (numeral base i top) = i.
Proof.
  intros Hb Hi H0. rewrite <- (firstn_all (numeral base i top)), numeral_length.
  rewrite read_prefix by done. by rewrite Z.sub_diag, Z.pow_0_r, Z.div_1_r.
Qed.
End numbers.

Section itoa.
Implicit Types (m : mem) (base i : Z).

(** [itoa] writes a terminated numeral of [i]: at most [n] digits when [i] is
    below [base ^ n], without leading zeros. *)
Record numeral_at (m : mem) (buf base i n : Z) (l : list Z) : Prop := {
  na_cstr : cstr m buf l;
  na_read : read_number base l = i;
  na_length : 0 < Z.of_nat (length l) <= n;
  na_ascii : Forall (fun c => 48 <= c < 128) l;
  na_zero : nth 0 l 0 = 48 -> i = 0
}.

Lemma numeral_ok base i (top : nat) n buf m :
  2 <= base <= 16 -> 0 < i -> (0 < top)%nat -> Z.of_nat top <= n ->
  i / base ^ Z.of_nat top = 0 -> i / base ^ (Z.of_nat top - 1) <> 0 ->
  (forall k, 0 <= k < Z.of_nat top -> load8 m (buf + k) = digit_char base i (Z.of_nat top - 1 - k)) ->
  load8 m (buf + Z.of_nat top) = 0 ->
  numeral_at m buf base i n (numeral base i top).
Proof.
  intros Hb Hi Htop Hn H0 Hlast Hm Hend. split.
  - split; rewrite numeral_length; [| done]. intros k Hk. rewrite numeral_nth, Hm by lia.
    destruct (digit_char_ok base i (Z.of_nat top - 1 - k) Hb). split; [done | lia].
  - by apply read_numeral; [| lia |].
  - rewrite numeral_length. lia.
  - apply Forall_forall. intros c Hc. unfold numeral in Hc.
    apply list_elem_of_fmap in Hc as (j & -> & _). by apply digit_char_ok.
  - intros E. exfalso. apply Hlast.
    change (nth (Z.to_nat 0) (numeral base i top) 0 = 48) in E. rewrite numeral_nth in E by lia.
    rewrite Z.sub_0_r in E. unfold digit_char in E.
    pose proof (Z.mod_pos_bound (i / base ^ (Z.of_nat top - 1)) base ltac:(lia)).
    apply bchars_digit in E; [| lia]. rewrite Z.mod_small in E; [done |]. split; [apply Z.div_pos; lia |].
    replace (Z.of_nat top) with (Z.of_nat top - 1 + 1) in H0 by lia.
    rewrite Z.pow_add_r, Z.pow_1_r, <- Z.div_div in H0 by lia. apply Z.div_small_iff in H0; [|lia].
    destruct H0; lia.
Qed.

(** Buffers apart from [tbuf]. *)
Definition apart (tbuf buf n : Z) : Prop := buf + n < tbuf \/ tbuf + 32 <= buf.

Lemma itoa_run tbuf i base buf m n :
  2 <= base <= 16 -> 0 <= i -> i < base ^ n -> 1 <= n <= 32 -> apart tbuf buf n ->
  exists m' l, itoa tbuf i base buf m = Some m' /\ numeral_at m' buf base i n l /\
    (forall a, ~ (tbuf <= a < tbuf + 32) -> ~ (buf <= a <= buf + n) -> load8 m' a = load8 m a).
Proof.
  intros Hb Hi Hlt Hn Hap. unfold itoa, apart in *.
  destruct (Z.eqb_spec i 0) as [->|Hnz]; cbn [orb].
  - eexists _, [48]. split_and!; [done | |].
    + split; [split | | | |]; simpl; [| | done | lia | repeat constructor; lia | done].
      * intros k Hk. replace k with 0 by lia. rewrite load8_store8_ne, Z.add_0_r, load8_store8_eq by lia. done.
      * by rewrite load8_store8_eq.
    + intros a _ Ha. by rewrite !load8_store8_ne by lia.
  - destruct (Z.ltb_spec 16 base); [lia |].
    destruct (itoa_loop tbuf base i m n Hb ltac:(lia) Hlt ltac:(lia)) as (top & m1 & -> & Htop & H0 & Hl & Hdig & Hout).
    cbn [mbind option_bind].
    set (m2 := for_range 0 top _ m1).
    assert ((forall k, 0 <= k < top -> load8 m2 (buf + k) = load8 m1 (tbuf + (top - 1 - k))) /\
      same_outside buf (buf + top) m1 m2) as [Hin2 Hout2].
    { subst m2. apply (for_range_ind (fun j m' =>
        (forall k, 0 <= k < j -> load8 m' (buf + k) = load8 m1 (tbuf + (top - 1 - k))) /\
        same_outside buf (buf + top) m1 m')); [lia | split; [lia | done] |].
      intros j m' Hj [Hin' Hout']. split.
      - intros k Hk. rewrite load8_store8. case_decide.
        + rewrite Z.mod_small by apply load8_bounds. rewrite Hout' by lia. do 2 f_equal. lia.
        + apply Hin'. lia.
      - intros a Ha. rewrite load8_store8_ne by lia. by apply Hout'. }
    clearbody m2. eexists _, (numeral base i (Z.to_nat top)). split_and!; [done | |].
    + apply numeral_ok; rewrite ?Z2Nat.id by lia; try done; try lia.
      * intros k Hk. rewrite load8_store8_ne, Hin2, Hdig by lia. done.
      * apply load8_store8_eq.
    + intros a Ha Ha'. rewrite load8_store8_ne, Hout2, Hout by lia. done.
Qed.
End itoa.

(** * Printing numbers *)

(** What [puthex] and [putint] print: a numeral behind a prefix. *)
Definition hex_text (l : list Z) : list Z := [48; 120] ++ l.
Definition int_text (i : Z) (l : list Z) : list Z := if i <? 0 then 45 :: l else l.

Lemma cstr_cons m s c l : load8 m s = c -> c <> 0 -> cstr m (s + 1) l -> cstr m s (c :: l).
Proof.
  intros Hc Hnz [Hl He]. split.
  - simpl length. intros k Hk. destruct (decide (k = 0)) as [->|]; [by rewrite Z.add_0_r |].
    replace (Z.to_nat k) with (S (Z.to_nat (k - 1))) by lia. simpl.
    replace (s + k) with (s + 1 + (k - 1)) by lia. apply Hl. lia.
  - simpl length. replace (s + Z.of_nat (S (length l))) with (s + 1 + Z.of_nat (length l)) by lia. done.
Qed.

Section printing.
Context (tbuf str : Z) (fuel : nat) (m : mem) (s : monitor) (t : term).
Context (Hstr : 0 < str) (Hap : str + 32 <= tbuf \/ tbuf + 32 <= str) (Hfuel : (32 < fuel)%nat).
Context (Hsh : shows t s).

Lemma emit_shows l : shows t (emit l s).
Proof. destruct Hsh. by split. Qed.

Lemma print_text m' text :
  cstr m' str text -> Z.of_nat (length text) <= 32 ->
  exists s', (s ← puts fuel m' str (emit [Lock] s); Some (m', emit [Unlock] s)) = Some (m', s') /\
    shows (foldl put_byte t text) s' /\ off_screen_same s s'.
Proof.
  intros Hs Hlen. destruct (puts_run m' str text fuel t _ Hs ltac:(lia) ltac:(lia) (emit_shows [Lock]))
    as (s' & E & Hsh' & Hoff & _).
  rewrite E. simpl. eexists. split_and!; [done | destruct Hsh'; by split | exact Hoff].
Qed.

(** [putint] shows the decimal numeral of its argument, with a sign when it is
    negative and without leading zeros, on the terminal that the screen
    implements. *)
Theorem putint_spec (i : Z) (Hi : - 2 ^ 63 < i < 2 ^ 63) :
  exists m' s' l, putint fuel tbuf str i m s = Some (m', s') /\
    read_number 10 l = Z.abs i /\ (nth 0 l 0 = 48 -> i = 0) /\
    shows (foldl put_byte t (int_text i l)) s' /\ off_screen_same s s'.
Proof.
  unfold putint, int_text. destruct (memset_result str 0 32 m ltac:(lia)) as (m1 & -> & _ & _).
  cbn [mbind option_bind]. unfold itoa_s. simpl (16 <? 10). cbv iota.
  assert (2 ^ 63 < 10 ^ 19) by done.
  destruct (Z.ltb_spec i 0) as [Hneg|Hpos].
  - assert (uint64_t (int64_t (i * -1)) = - i) as ->.
    { unfold int64_t. rewrite swrap_id by lia. rewrite uint64_id by (unfold is_word; lia). lia. }
    destruct (itoa_run tbuf (- i) 10 (str + 1) (store8 str 45 m1) 19) as (m2 & l & -> & Hn & Hf);
      [lia | lia | lia | lia | unfold apart; lia |].
    cbn [mbind option_bind]. destruct (print_text m2 (45 :: l)) as (s' & E & Hsh' & Hoff).
    + apply cstr_cons; [| done | apply Hn]. rewrite Hf by lia. apply load8_store8_eq.
    + pose proof (na_length _ _ _ _ _ _ Hn). simpl length. lia.
    + exists m2, s', l. split_and!; [exact E | | | done | done].
      * rewrite (na_read _ _ _ _ _ _ Hn). lia.
      * intros Hz. apply (na_zero _ _ _ _ _ _ Hn) in Hz. lia.
  - destruct (itoa_run tbuf i 10 str m1 19) as (m2 & l & -> & Hn & Hf);
      [lia | lia | lia | lia | unfold apart; lia |].
    cbn [mbind option_bind]. destruct (print_text m2 l (na_cstr _ _ _ _ _ _ Hn)) as (s' & E & Hsh' & Hoff).
    + pose proof (na_length _ _ _ _ _ _ Hn). lia.
    + exists m2, s', l. split_and!; [exact E | | apply Hn | done | done].
      rewrite (na_read _ _ _ _ _ _ Hn). lia.
Qed.

(** [puthex] likewise, with the prefix "0x" and in base 16. *)
Lemma puthex_run (i : Z) :
  0 <= i < 2 ^ 64 ->
  exists m' s' l, puthex fuel tbuf str i m s = Some (m', s') /\
    read_number 16 l = i /\ (nth 0 l 0 = 48 -> i = 0) /\
    shows (foldl put_byte t (hex_text l)) s' /\ off_screen_same s s'.
Proof.
  intros Hi. unfold puthex. destruct (memset_result str 0 32 m ltac:(lia)) as (m1 & -> & _ & _).
  cbn [mbind option_bind]. unfold uitoa_s. simpl (16 <? 16). cbv iota.
  assert (2 ^ 64 <= 16 ^ 16) by done.
  destruct (itoa_run tbuf i 16 (str + 2) (store8 (str + 1) 120 (store8 str 48 m1)) 16) as (m2 & l & -> & Hn & Hf);
    [lia | lia | lia | lia | unfold apart; lia |].
  cbn [mbind option_bind]. destruct (print_text m2 (hex_text l)) as (s' & E & Hsh' & Hoff).
  - apply cstr_cons; [| done | apply cstr_cons; [| done |]].
    + rewrite Hf, load8_store8_ne by lia. apply load8_store8_eq.
    + rewrite Hf by lia. apply load8_store8_eq.
    + replace (str + 1 + 1) with (str + 2) by lia. apply Hn.
  - pose proof (na_length _ _ _ _ _ _ Hn). unfold hex_text. simpl length. lia.
  - exists m2, s', l. split_and!; [exact E | apply Hn | apply Hn | done | done].
Qed.
End printing.

(** C17: [putchar] is one step of a terminal of 25 rows of 80 columns: every
    character, printable or not, leaves the cursor on the screen and the 2000 cells
    as the terminal shows them, scrolling included; the hardware cursor is told the
    new position between [lock] and [unlock]; memory outside the screen is left
    alone. *)
Theorem putchar_spec (t : term) (c : Z) (s : monitor)
  (Hs : shows t s) (Hc : -128 <= c < 128) :
  shows (term_put c t) (putchar c s) /\
  trace (putchar c s) = trace s ++ [Lock] ++ cursor_writes (t_row (term_put c t)) (t_col (term_put c t)) ++ [Unlock] /\
  off_screen_same s (putchar c s).
Proof. exact (putchar_run t c s Hs Hc). Qed.

(** [puts] puts the characters of the string one after the other and ends. It
    takes the lock around all of them, but each [putchar] takes and releases the
    same lock again. *)
Theorem puts_spec (m : mem) (str : Z) (l : list Z) (fuel : nat) (t : term) (s : monitor)
  (Hstr : cstr m str l) (Hnull : str <> 0) (Hfuel : (length l < fuel)%nat) (Hs : shows t s) :
  exists s', puts fuel m str s = Some s' /\
    shows (foldl put_byte t l) s' /\ off_screen_same s s' /\
    lock_events (trace s') = lock_events (trace s) ++
      [Lock] ++ concat (replicate (length l) [Lock; Unlock]) ++ [Unlock].
Proof. exact (puts_run m str l fuel t s Hstr Hnull Hfuel Hs). Qed.

(** * Concrete inputs *)

Definition demo_monitor : monitor := Monitor 79 24 ∅ [].
Definition demo_term : term := Term 24 79 (fun _ _ => 0).

Lemma demo_shows : shows demo_term demo_monitor.
Proof. by split. Qed.

(** A letter in the last cell scrolls the screen. *)
Lemma putchar_spec_witness :
  cursor_x (putchar 65 demo_monitor) = 0 /\ cursor_y (putchar 65 demo_monitor) = 24 /\
  video (putchar 65 demo_monitor) (23 * 80 + 79) = glyph 65.
Proof.
  destruct (putchar_spec demo_term 65 demo_monitor demo_shows ltac:(lia)) as (Hs & _ & _).
  split_and!; [exact (sw_x _ _ Hs) | exact (sw_y _ _ Hs) |].
  rewrite (sw_cell _ _ Hs 23 79); [done | split; lia].
Defined.

Lemma puts_spec_witness :
  exists s', puts 3 demo_mem 100 demo_monitor = Some s' /\ cursor_x s' = 1 /\ cursor_y s' = 24.
Proof.
  destruct (puts_spec demo_mem 100 [65; 66] 3 demo_term demo_monitor (proj1 demo_cstr) ltac:(lia)
    ltac:(simpl; lia) demo_shows) as (s' & E & Hs & _).
  exists s'. split_and!; [exact E | exact (sw_x _ _ Hs) | exact (sw_y _ _ Hs)].
Defined.

Lemma putint_spec_witness :
  exists m' s' l, putint 33 1000 2000 (-120) ∅ demo_monitor = Some (m', s') /\ read_number 10 l = 120 /\
    shows (foldl put_byte demo_term (45 :: l)) s'.
Proof.
  destruct (putint_spec 1000 2000 33 ∅ demo_monitor demo_term ltac:(lia) ltac:(lia) ltac:(lia) demo_shows (-120)
    ltac:(lia)) as (m' & s' & l & E & Hr & _ & Hs & _).
  exists m', s', l. split_and!; [exact E | exact Hr | exact Hs].
Defined.
