(* ===== verification/Paging.v ===== *)
(** Paging (kernel/memman.c, lines 285-332 and 360-524): the page tables in
    physical memory, the processor's walk, and the functions that reach the tables
    through the window that entry 511 of the top table opens on them. *)

From S2P Require Import Prelude Words FrameMap FrameAlloc Allocator.
#[local] Open Scope Z_scope.

(** * Physical memory and the walk *)

(** The 64-bit words of physical memory, by the frame they lie in and their index
    there. *)
Abbreviation phys := (gmap (Z * Z) Z).

Definition ent (pm : phys) (f i : Z) : Z := default 0 (pm !! (f, i)).

(** The fields of the entries (kernel/memman.h): the four structs agree on them. *)
Definition e_present (e : Z) : bool := bf_get 0 1 e =? 1.
Definition e_frame (e : Z) : Z := bf_get 12 40 e.
Definition e_large (e : Z) : bool := bf_get 7 1 e =? 1.

(** The bit-fields of [union address]. *)
Definition a_offset (a : Z) : Z := bf_get 0 12 a.
Definition a_pt (a : Z) : Z := bf_get 12 9 a.
Definition a_pd (a : Z) : Z := bf_get 21 9 a.
Definition a_pdp (a : Z) : Z := bf_get 30 9 a.
Definition a_pml4 (a : Z) : Z := bf_get 39 9 a.
Definition a_frame (a : Z) : Z := bf_get 12 36 a.

(** One level of the walk: the next table. *)
Definition next_table (pm : phys) (f i : Z) : option Z :=
  let e := ent pm f i in if e_present e then Some (e_frame e) else None.

(** The processor's translation of [va] under the top table in frame [top]: the
    frame and the offset in it, or [None] for a page fault. A set size bit in the
    third level ends the walk with a 2 MiB page. *)
Definition translate (pm : phys) (top va : Z) : option (Z * Z) :=
  pdp ← next_table pm top (a_pml4 va);
  pd ← next_table pm pdp (a_pdp va);
  let e := ent pm pd (a_pd va) in
  if e_present e && e_large e then Some (Z.shiftl (bf_get 21 31 e) 9 + a_pt va, a_offset va)
  else
    pt ← next_table pm pd (a_pd va);
    f ← next_table pm pt (a_pt va);
    Some (f, a_offset va).

(** * State *)

(** Physical memory, the frame in [cr3], and the block allocator. *)
Record vm := Vm {
  vm_phys : phys;
  vm_cr3 : Z;
  vm_man : memman
}.

Definition upd_phys (f : phys -> phys) (s : vm) : vm := Vm (f (vm_phys s)) (vm_cr3 s) (vm_man s).
Definition set_man (m : memman) (s : vm) : vm := Vm (vm_phys s) (vm_cr3 s) m.

(** A 64-bit access through a virtual address; [None] is a page fault. *)
Definition vread (va : Z) (s : vm) : option Z :=
  '(f, off) ← translate (vm_phys s) (vm_cr3 s) va; Some (ent (vm_phys s) f (off / 8)).
Definition vwrite (va v : Z) (s : vm) : option vm :=
  '(f, off) ← translate (vm_phys s) (vm_cr3 s) va; Some (upd_phys <[(f, off / 8) := v]> s).

(** A store to a bit-field of the entry at [va]. *)
Definition set_field (off w v va : Z) (s : vm) : option vm :=
  e ← vread va s; vwrite va (bf_set off w v e) s.
Definition set_present := set_field 0 1.
Definition set_rw := set_field 1 1.
Definition set_user := set_field 2 1.
Definition set_frame := set_field 12 40.

(** * Operations *)

Definition _current_pml4 : Z := 0xFFFFFFFFFFFFF000.
Definition _current_pdp : Z := 0xFFFFFFFFFFE00000.
Definition _current_pd : Z := 0xFFFFFFFFC0000000.
Definition _current_pt : Z := 0xFFFFFF8000000000.

Definition switch_paging (addr : Z) (s : vm) : vm := Vm (vm_phys s) (addr / 4096) (vm_man s).
Definition get_current_pml4 (s : vm) : Z := vm_cr3 s * 4096.

Definition get_pml4_entry (i : Z) : Z := _current_pml4 + 8 * i.
Definition get_pdp_entry (a b : Z) : Z := _current_pdp + 8 * (a * 512 + b).
Definition get_pd_entry (a b c : Z) : Z := _current_pd + 8 * ((a * 512 + b) * 512 + c).
Definition get_page_entry (a b c d : Z) : Z := _current_pt + 8 * (((a * 512 + b) * 512 + c) * 512 + d).

Definition get_physical_address (a : Z) (s : vm) : option Z :=
  e ← vread (_current_pt + 8 * a_frame a) s; Some (e_frame e * 0x1000)%word.

(** [if (entry.present == 0) { ... }]: a table for the entry at [va]. The result of
    [mem_alloc_block] is not checked. *)
Definition ensure_table (va user : Z) (s : vm) : option vm :=
  e ← vread va s;
  if bf_get 0 1 e =? 0 then
    let '(block, man) := mem_alloc_block (vm_man s) in
    s ← set_frame (block / 0x1000) va (set_man man s);
    s ← set_present 1 va s;
    s ← set_rw 1 va s;
    set_user user va s
  else Some s.

Definition create_page_for_current (a user : Z) (s : vm) : option (Z * vm) :=
  s ← ensure_table (get_pml4_entry (a_pml4 a)) user s;
  s ← ensure_table (get_pdp_entry (a_pml4 a) (a_pdp a)) user s;
  s ← ensure_table (get_pd_entry (a_pml4 a) (a_pdp a) (a_pd a)) user s;
  Some (_current_pt + 8 * a_frame a, s).

(** The four stores to the page entry in [alloc_page], [alloc_kernel_page] and
    [brute_create_page]. *)
Definition set_page (page user frame : Z) (s : vm) : option vm :=
  s ← set_present 1 page s;
  s ← set_user user page s;
  s ← set_rw 1 page s;
  set_frame frame page s.

(** One round of [alloc_page] and [alloc_kernel_page]: [None] is a page fault,
    [Some None] the [return 0]. *)
Definition map_new_page (va user : Z) (s : vm) : option (option vm) :=
  let '(phys_frame, man) := mem_alloc_block (vm_man s) in
  if phys_frame =? 0 then Some None
  else
    '(page, s) ← create_page_for_current va user (set_man man s);
    s ← set_page page user (phys_frame / 0x1000) s;
    Some (Some s).

(** The loop over [size] pages from the address [va]: [Some (ok, s)]. *)
Fixpoint map_new_pages (n : nat) (va user : Z) (s : vm) : option (bool * vm) :=
  match n with
  | O => Some (true, s)
  | S n =>
      r ← map_new_page va user s;
      match r with
      | None => Some (false, s)
      | Some s => map_new_pages n (va + 0x1000)%word user s
      end
  end.

Definition alloc_page (virtual size : Z) (s : vm) : option (Z * vm) :=
  let size := if size =? 0 then 1 else size in
  '(ok, s) ← map_new_pages (Z.to_nat size) virtual 1 s;
  Some (if ok : bool then virtual else 0, s).

Definition vm_alloc_kernel_page (size : Z) (s : vm) : option (Z * vm) :=
  '(ok, s) ← map_new_pages (Z.to_nat size) (_kernel_next_block (vm_man s) * 0x1000)%word 0 s;
  if ok : bool then
    let next := (_kernel_next_block (vm_man s) + size)%word in
    Some (((next - size)%word * 0x1000)%word, set_man (upd_next_block (fun _ => next) (vm_man s)) s)
  else Some (0, s).

(** [free_kernel_page] changes only its own parameters. *)
Definition vm_free_kernel_page (address size : Z) (s : vm) : vm := s.

Definition brute_create_page_round (physical_addr virtual_addr user i : Z) (s : vm) : option vm :=
  '(page, s) ← create_page_for_current (virtual_addr + i * MEM_BLOCK_SIZE)%word 0 s;
  set_page page user (physical_addr / 0x1000 + i)%word s.

Fixpoint brute_create_pages (n : nat) (physical_addr virtual_addr user i : Z) (s : vm) : option vm :=
  match n with
  | O => Some s
  | S n =>
      s ← brute_create_page_round physical_addr virtual_addr user i s;
      brute_create_pages n physical_addr virtual_addr user (i + 1) s
  end.

Definition brute_create_page (physical_addr virtual_addr size user : Z) (s : vm) : option (Z * vm) :=
  if mem_free_block_count (vm_man s) <? size / 512 then Some (0, s)
  else s ← brute_create_pages (Z.to_nat size) physical_addr virtual_addr user 0 s; Some (int32_t size, s).

(** The part of [memman_init] that builds the first tables: [pml4_new] becomes the
    window of the boot tables and of itself, the kernel's image, one page and video
    memory are mapped, and [cr3] is loaded. [pml4] and [pml4_new] hold physical
    addresses, but the code stores through them as pointers, under the tables in use. *)
Definition link_self (table target : Z) (s : vm) : option vm :=
  let entry := table + 8 * 511 in
  s ← set_frame target entry s;
  s ← set_present 1 entry s;
  s ← set_rw 1 entry s;
  set_user 0 entry s.

Definition init_page (page frame : Z) (s : vm) : option vm :=
  s ← set_frame frame page s;
  s ← set_present 1 page s;
  s ← set_user 0 page s;
  set_rw 1 page s.

Definition map_kernel_block (i : Z) (s : vm) : option vm :=
  '(page, s) ← create_page_for_current (0xc0000000 + i * MEM_BLOCK_SIZE)%word 0 s;
  init_page page ((0x200000 + i * MEM_BLOCK_SIZE)%word / 0x1000) s.

Definition memman_init_paging (blocks_used_by_kernel : Z) (s : vm) : option (Z * vm) :=
  let '(pml4_new, man) := mem_alloc_block (vm_man s) in
  s ← link_self (get_current_pml4 s) (pml4_new / 0x1000) (set_man man s);
  s ← link_self pml4_new (pml4_new / 0x1000) s;
  s ← for_range 0 blocks_used_by_kernel (fun i s => s ← s; map_kernel_block i s) (Some s);
  '(page, s) ← create_page_for_current 0xfffff000 0 s;
  s ← init_page page 8 s;
  let video := (_kernel_next_block (vm_man s) * 0x1000)%word in
  '(page, s) ← create_page_for_current video 0 s;
  s ← init_page page 0xB8 s;
  let s := set_man (upd_next_block (fun n => (n + 1)%word) (vm_man s)) s in
  Some (video, switch_paging pml4_new s).

(** [clean_user_space]: the pages below 2 GiB are given back, apart from the last two
    of every table and those of the last table of a directory. *)
Definition clean_page (i z y : Z) (s : vm) : option vm :=
  e ← vread (get_page_entry 0 i z y) s;
  if ((bf_get 0 1 e =? 1) && (y <? 510) && negb (z =? 511) && negb (i =? 2))%bool then
    vwrite (get_page_entry 0 i z y) 0 (set_man (mem_free_block (e_frame e * 0x1000)%word (vm_man s)) s)
  else Some s.

Definition clean_table (i z : Z) (s : vm) : option vm :=
  e ← vread (get_pd_entry 0 i z) s;
  if bf_get 0 1 e =? 1 then for_range 0 512 (fun y s => s ← s; clean_page i z y s) (Some s) else Some s.

Definition clean_directory (i : Z) (s : vm) : option vm :=
  e ← vread (get_pdp_entry 0 i) s;
  if bf_get 0 1 e =? 1 then for_range 0 512 (fun z s => s ← s; clean_table i z s) (Some s) else Some s.

Definition clean_user_space (s : vm) : option vm :=
  for_range 0 3 (fun i s => s ← s; clean_directory i s) (Some s).

(** The heap's pages come from here. *)
#[export] Instance vm_pages : KernelPages vm := {|
  alloc_kernel_page := vm_alloc_kernel_page;
  free_kernel_page := vm_free_kernel_page
|}.
