(* ===== verification/PageTree.v ===== *)
(** The page tables of Paging.v as a tree: the tables below a top table, the window
    on them, and what the functions of kernel/memman.c that create and fill tables
    do to the translation of addresses. *)

From S2P Require Import Prelude Words FrameMap FrameAlloc Paging.
#[local] Open Scope Z_scope.

(** * Addresses *)

(** An address of the upper half by its four indices and its offset. *)
Definition vaddr (a b c d off : Z) : Z :=
  0xFFFF * 2 ^ 48 + a * 2 ^ 39 + b * 2 ^ 30 + c * 2 ^ 21 + d * 2 ^ 12 + off.

Definition index (i : Z) : Prop := 0 <= i < 512.

(** [x = (q * 2 ^ w + v) * 2 ^ off + r] has the field [v]. *)
Lemma bf_get_intro off w x q v r :
  0 <= off -> 0 <= w -> 0 <= r < 2 ^ off -> 0 <= v < 2 ^ w ->
  x = (q * 2 ^ w + v) * 2 ^ off + r -> bf_get off w x = v.
Proof.
  intros Ho Hw Hr Hv ->. rewrite bf_get_div by done.
  rewrite Z.div_add_l, (Z.div_small r), Z.add_0_r by lia.
  rewrite Z.add_comm, Z.mod_add, Z.mod_small; lia.
Qed.

Section vaddr.
Context (a b c d off : Z) (Ha : index a) (Hb : index b) (Hc : index c) (Hd : index d).
Context (Ho : 0 <= off < 4096).

Lemma vaddr_fields :
  a_pml4 (vaddr a b c d off) = a /\ a_pdp (vaddr a b c d off) = b /\ a_pd (vaddr a b c d off) = c /\
  a_pt (vaddr a b c d off) = d /\ a_offset (vaddr a b c d off) = off.
Proof.
  unfold index, vaddr in *. split_and!.
  - apply (bf_get_intro _ _ _ 0xFFFF _ (b * 2 ^ 30 + c * 2 ^ 21 + d * 2 ^ 12 + off)); lia.
  - apply (bf_get_intro _ _ _ (0xFFFF * 512 + a) _ (c * 2 ^ 21 + d * 2 ^ 12 + off)); lia.
  - apply (bf_get_intro _ _ _ ((0xFFFF * 512 + a) * 512 + b) _ (d * 2 ^ 12 + off)); lia.
  - apply (bf_get_intro _ _ _ (((0xFFFF * 512 + a) * 512 + b) * 512 + c) _ off); lia.
  - apply (bf_get_intro _ _ _ ((((0xFFFF * 512 + a) * 512 + b) * 512 + c) * 512 + d) _ 0); lia.
Qed.
End vaddr.

Lemma field_index off x : 0 <= off -> index (bf_get off 9 x).
Proof. intros. unfold index. change 512 with (2 ^ 9). apply bf_get_bounds. lia. Qed.

Lemma a_indices va : index (a_pml4 va) /\ index (a_pdp va) /\ index (a_pd va) /\ index (a_pt va).
Proof. split_and!; by apply field_index. Qed.

(** The page number is the four indices together. *)
Lemma a_frame_indices va :
  a_frame va = ((a_pml4 va * 512 + a_pdp va) * 512 + a_pd va) * 512 + a_pt va.
Proof.
  unfold a_frame, a_pml4, a_pdp, a_pd, a_pt. rewrite !bf_get_div by lia.
  change (2 ^ 36) with (2 ^ 9 * (2 ^ 9 * (2 ^ 9 * 2 ^ 9))). change 39 with (12 + 9 + 9 + 9).
  change 30 with (12 + 9 + 9). change 21 with (12 + 9). rewrite !Z.pow_add_r, <- !Z.div_div by lia.
  rewrite !Z.rem_mul_r by lia. change (2 ^ 9) with 512. lia.
Qed.

Lemma a_frame_inj va va' :
  a_pml4 va = a_pml4 va' -> a_pdp va = a_pdp va' -> a_pd va = a_pd va' -> a_pt va = a_pt va' ->
  a_frame va = a_frame va'.
Proof. intros. rewrite !a_frame_indices. congruence. Qed.

Lemma a_frame_indices_inj va va' :
  a_frame va = a_frame va' ->
  a_pml4 va = a_pml4 va' /\ a_pdp va = a_pdp va' /\ a_pd va = a_pd va' /\ a_pt va = a_pt va'.
Proof.
  rewrite !a_frame_indices. destruct (a_indices va) as (? & ? & ? & ?), (a_indices va') as (? & ? & ? & ?).
  unfold index in *. generalize dependent (a_pml4 va). generalize dependent (a_pml4 va').
  generalize dependent (a_pdp va). generalize dependent (a_pdp va'). generalize dependent (a_pd va).
  generalize dependent (a_pd va'). intros. assert (a_pt va = a_pt va') by lia. lia.
Qed.

(** Below 2^48 the page number is a quotient. *)
Lemma a_frame_div va : 0 <= va < 2 ^ 48 -> a_frame va = va / 4096.
Proof. intros. unfold a_frame. rewrite bf_get_div by lia. apply Z.mod_small. change (2 ^ 12) with 4096.
  div_lia.
Qed.

Lemma a_offset_mod va : a_offset va = va mod 4096.
Proof. unfold a_offset. rewrite bf_get_div by lia. by rewrite Z.div_1_r. Qed.

Lemma a_pml4_low va : 0 <= va < 511 * 2 ^ 39 -> a_pml4 va <> 511.
Proof. intros. unfold a_pml4. rewrite bf_get_div by lia.
  assert (0 <= va / 2 ^ 39 < 511) by div_lia.
  rewrite Z.mod_small by lia. lia.
Qed.

(** The addresses of the window. *)
Lemma window_addresses a b c d :
  get_pml4_entry d = vaddr 511 511 511 511 (8 * d) /\
  get_pdp_entry c d = vaddr 511 511 511 c (8 * d) /\
  get_pd_entry b c d = vaddr 511 511 b c (8 * d) /\
  get_page_entry a b c d = vaddr 511 a b c (8 * d).
Proof.
  unfold get_pml4_entry, get_pdp_entry, get_pd_entry, get_page_entry, vaddr,
    _current_pml4, _current_pdp, _current_pd, _current_pt. split_and!; lia.
Qed.

(** * Entries *)

Lemma next_table_ext pm pm' f i : ent pm' f i = ent pm f i -> next_table pm' f i = next_table pm f i.
Proof. unfold next_table. by intros ->. Qed.

Lemma ent_insert pm f i v g j :
  ent (<[(f, i) := v]> pm) g j = if decide ((f, i) = (g, j)) then v else ent pm g j.
Proof. unfold ent. rewrite lookup_insert. by case_decide. Qed.

Lemma ent_insert_ne pm f i v g j : f <> g \/ i <> j -> ent (<[(f, i) := v]> pm) g j = ent pm g j.
Proof. intros H. rewrite ent_insert, decide_False; [done |]. intros [= -> ->]. by destruct H. Qed.

Lemma ent_insert_eq pm f i v : ent (<[(f, i) := v]> pm) f i = v.
Proof. by rewrite ent_insert, decide_True. Qed.

(** A present entry for frame [f]: the four stores. *)
Definition entry_for (user f e : Z) : Z := bf_set 2 1 user (bf_set 1 1 1 (bf_set 0 1 1 (bf_set 12 40 f e))).

Lemma entry_for_fields user f e :
  0 <= f < 2 ^ 40 ->
  e_present (entry_for user f e) = true /\ e_frame (entry_for user f e) = f /\
  e_large (entry_for user f e) = e_large e.
Proof.
  intros Hf. unfold entry_for, e_present, e_frame, e_large.
  rewrite !(bf_get_set_other 2 1), !(bf_get_set_other 1 1) by lia.
  rewrite bf_get_set_same, !(bf_get_set_other 0 1) by lia.
  rewrite bf_get_set_same, (bf_get_set_other 12 40) by lia.
  split_and!; [done | by apply Z.mod_small | done].
Qed.

Lemma bf_bit_cases e : bf_get 0 1 e = 0 \/ bf_get 0 1 e = 1.
Proof. pose proof (bf_get_bounds 0 1 e ltac:(lia)). lia. Qed.

Lemma absent_iff e : (bf_get 0 1 e =? 0) = negb (e_present e).
Proof. unfold e_present. destruct (bf_bit_cases e) as [-> | ->]; done. Qed.

(** * The tables below a table *)

Fixpoint descend (pm : phys) (f : Z) (p : list Z) : option Z :=
  match p with
  | [] => Some f
  | i :: p => g ← next_table pm f i; descend pm g p
  end.

Lemma descend_app pm f p q : descend pm f (p ++ q) = (g ← descend pm f p; descend pm g q).
Proof.
  revert f; induction p as [|i p IH]; intros f; simpl; [done |].
  destruct (next_table pm f i); simpl; [apply IH | done].
Qed.

Lemma descend_snoc pm f p i : descend pm f (p ++ [i]) = (g ← descend pm f p; next_table pm g i).
Proof.
  rewrite descend_app. destruct (descend pm f p) as [g|]; simpl; [| done].
  by destruct (next_table pm g i).
Qed.

(** The tables of the address space: at most three indices below the top, and not
    through the window. *)
Record upath (p : list Z) : Prop := {
  up_length : (length p <= 3)%nat;
  up_index : Forall index p;
  up_first : forall i, p !! 0%nat = Some i -> i <> 511
}.

Lemma upath_prefix p q : upath (p ++ q) -> upath p.
Proof.
  intros [Hl Hi Hf]. split.
  - rewrite length_app in Hl. lia.
  - by apply Forall_app in Hi as [? _].
  - intros i Hp. apply Hf. by apply lookup_app_l_Some.
Qed.

Lemma upath_of va : a_pml4 va <> 511 -> upath [a_pml4 va; a_pdp va; a_pd va].
Proof.
  intros Hva. destruct (a_indices va) as (? & ? & ? & _).
  split; [simpl; lia | | by intros ? [= <-]]. rewrite !Forall_cons. by split_and!.
Qed.

(** [translate] as a descent, where no size bit stands in the way. *)
Lemma translate_descend pm top va :
  (forall pd, descend pm top [a_pml4 va; a_pdp va] = Some pd -> e_large (ent pm pd (a_pd va)) = false) ->
  translate pm top va =
    (pt ← descend pm top [a_pml4 va; a_pdp va; a_pd va]; f ← next_table pm pt (a_pt va); Some (f, a_offset va)).
Proof.
  intros Hl. unfold translate. simpl. simpl in Hl.
  destruct (next_table pm top (a_pml4 va)) as [pdp|]; simpl in *; [| done].
  destruct (next_table pm pdp (a_pdp va)) as [pd|]; simpl in *; [| done].
  rewrite (Hl pd eq_refl), andb_false_r. by destruct (next_table pm pd (a_pd va)).
Qed.

(** * The invariant *)

(** [w] is the top table that the window shows. *)
Record tree_ok (s : vm) (w : Z) : Prop := {
  to_window : next_table (vm_phys s) (vm_cr3 s) 511 = Some w;
  to_self : next_table (vm_phys s) w 511 = Some w;
  to_self_small : e_large (ent (vm_phys s) w 511) = false;
  to_top : forall p, upath p -> descend (vm_phys s) w p = Some (vm_cr3 s) -> p = [];
  to_distinct : forall p q f, upath p -> upath q ->
    descend (vm_phys s) w p = Some f -> descend (vm_phys s) w q = Some f -> p = q;
  to_small : forall p f i, upath p -> (length p <= 2)%nat -> index i ->
    descend (vm_phys s) w p = Some f -> e_large (ent (vm_phys s) f i) = false;
  to_used : forall p f, upath p -> descend (vm_phys s) w p = Some f -> 0 <= f /\ used (vm_man s) f = true;
  to_top_used : 0 <= vm_cr3 s /\ used (vm_man s) (vm_cr3 s) = true;
  to_zero : forall f i, 0 <= f -> used (vm_man s) f = false -> ent (vm_phys s) f i = 0;
  to_frames : frames_ok (vm_man s);
  to_width : _mem_max_blocks (vm_man s) <= 2 ^ 40
}.

(** The next [n] allocations succeed. *)
Fixpoint enough (n : nat) (m : memman) : Prop :=
  match n with
  | O => True
  | S n => let '(block, m) := mem_alloc_block m in block <> 0 /\ enough n m
  end.

Lemma enough_pred n m : enough (S n) m -> enough n m.
Proof.
  revert m; induction n as [|n IH]; intros m; [done |]. intros H.
  change (let '(block, m) := mem_alloc_block m in block <> 0 /\ enough (S n) m) in H. simpl.
  destruct (mem_alloc_block m) as [block m']. destruct H as [? H]. split; [done | by apply IH].
Qed.

(** * The window *)

(** The entry [i] of the table that the path [p] reaches. *)
Record slot (p : list Z) (i : Z) : Prop := {
  sl_path : upath p;
  sl_index : index i;
  sl_first : p = [] -> i <> 511
}.

Definition window_addr (p : list Z) (i : Z) : Z :=
  match p with
  | [] => get_pml4_entry i
  | [a] => get_pdp_entry a i
  | [a; b] => get_pd_entry a b i
  | a :: b :: c :: _ => get_page_entry a b c i
  end.

Lemma slot_snoc p i : slot p i -> (length p <= 2)%nat -> upath (p ++ [i]).
Proof.
  intros [[Hl Hx Hf] Hi H0] Hp. split.
  - rewrite length_app. simpl. lia.
  - apply Forall_app. split; [done | by constructor].
  - intros j Hj. destruct p as [|k p]; simpl in *; simplify_eq; [by apply H0 | by apply Hf].
Qed.

Lemma upath_snoc p i : upath (p ++ [i]) -> slot p i.
Proof.
  intros Hu. pose proof (upath_prefix _ _ Hu) as Hp. destruct Hu as [_ Hx Hf]. split; [done | |].
  - apply Forall_app in Hx as [_ Hx]. by apply Forall_inv in Hx.
  - intros ->. by apply Hf.
Qed.

(** The walk of a window address, from what it reads. *)
Lemma window_walk pm top w p i f :
  next_table pm top 511 = Some w -> next_table pm w 511 = Some w -> e_large (ent pm w 511) = false ->
  (forall q j g, p = q ++ [j] ++ drop (S (length q)) p -> (length q <= 1)%nat -> descend pm w q = Some g ->
     e_large (ent pm g j) = false) ->
  upath p -> index i -> descend pm w p = Some f ->
  translate pm top (window_addr p i) = Some (f, 8 * i).
Proof.
  intros Htop Hself Hsmall Hlarge [Hlen Hix _] Hi Hd.
  assert (index 511) as H511 by (unfold index; lia). unfold index in *.
  destruct p as [|a [|b [|c [|]]]]; simpl in Hlen; try lia; repeat apply Forall_cons in Hix as [? Hix]; simpl in Hd; cbn [window_addr].
  - destruct (window_addresses 0 0 0 i) as (-> & _). unfold translate.
    destruct (vaddr_fields 511 511 511 511 (8 * i)) as (-> & -> & -> & -> & ->); try (unfold index; lia).
    rewrite Htop. simpl. rewrite Hself. simpl. rewrite Hsmall, andb_false_r, Hself. simpl. rewrite Hself. simpl. congruence.
  - destruct (window_addresses 0 0 a i) as (_ & -> & _). unfold translate.
    destruct (vaddr_fields 511 511 511 a (8 * i)) as (-> & -> & -> & -> & ->); try (unfold index; lia).
    rewrite Htop. simpl. rewrite Hself. simpl. rewrite Hsmall, andb_false_r, Hself. simpl.
    destruct (next_table pm w a); simpl in *; congruence.
  - destruct (window_addresses 0 a b i) as (_ & _ & -> & _). unfold translate.
    destruct (vaddr_fields 511 511 a b (8 * i)) as (-> & -> & -> & -> & ->); try (unfold index; lia).
    rewrite Htop. simpl. rewrite Hself. simpl. rewrite (Hlarge [] a w), andb_false_r by (done || simpl; lia).
    destruct (next_table pm w a) as [g|]; simpl in *; [| done].
    destruct (next_table pm g b); simpl in *; congruence.
  - destruct (window_addresses a b c i) as (_ & _ & _ & ->). unfold translate.
    destruct (vaddr_fields 511 a b c (8 * i)) as (-> & -> & -> & -> & ->); try (unfold index; lia).
    rewrite Htop. simpl. destruct (next_table pm w a) as [g|] eqn:Eg; simpl in *; [| done].
    rewrite (Hlarge [a] b g), andb_false_r; [| done | simpl; lia | simpl; by rewrite Eg].
    destruct (next_table pm g b) as [h|]; simpl in *; [| done].
    destruct (next_table pm h c); simpl in *; congruence.
Qed.

Section tree.
Context (s : vm) (w : Z) (Hs : tree_ok s w).
#[local] Abbreviation pm := (vm_phys s).

(** A store to an entry changes only the paths through it. *)
Lemma descend_insert p i v f q :
  upath p -> descend pm w p = Some f -> upath q -> ~ (p ++ [i]) `prefix_of` q ->
  descend (<[(f, i) := v]> pm) w q = descend pm w q.
Proof.
  intros Hp Hf. induction q as [|j q IH] using rev_ind; intros Hq Hpre; [done |].
  pose proof (upath_prefix _ _ Hq) as Hq'. rewrite !descend_snoc, IH; [| done |].
  - destruct (descend pm w q) as [g|] eqn:Eg; simpl; [| done].
    apply next_table_ext, ent_insert_ne. destruct (decide (f = g)) as [->|]; [right | by left].
    intros ->. apply Hpre. rewrite (to_distinct _ _ Hs p q g Hp Hq' Hf Eg). done.
  - intros Hx. apply Hpre. by apply prefix_app_r.
Qed.

Lemma insert_window p i v f :
  slot p i -> descend pm w p = Some f ->
  next_table (<[(f, i) := v]> pm) (vm_cr3 s) 511 = Some w /\
  ent (<[(f, i) := v]> pm) w 511 = ent pm w 511 /\
  next_table (<[(f, i) := v]> pm) w 511 = Some w.
Proof.
  intros [Hp Hi H0] Hf.
  assert (f = w \/ f = vm_cr3 s -> i <> 511) as Hne.
  { intros [-> | ->]; apply H0; [| by apply (to_top _ _ Hs)].
    apply (to_distinct _ _ Hs p [] w); [done | split; simpl; [lia | constructor | done] | done | done]. }
  assert (ent (<[(f, i) := v]> pm) w 511 = ent pm w 511) as Ew.
  { apply ent_insert_ne. destruct (decide (f = w)); [right; auto | by left]. }
  split_and!; [| exact Ew |].
  - rewrite <- (to_window _ _ Hs). apply next_table_ext, ent_insert_ne.
    destruct (decide (f = vm_cr3 s)); [right; auto | by left].
  - rewrite <- (to_self _ _ Hs). by apply next_table_ext.
Qed.

(** The window address of an entry, before and after stores to that entry. *)
Lemma window_pinned p i v f :
  slot p i -> descend pm w p = Some f ->
  translate (<[(f, i) := v]> pm) (vm_cr3 s) (window_addr p i) = Some (f, 8 * i).
Proof.
  intros Hsl Hf. destruct (insert_window p i v f Hsl Hf) as (H1 & H2 & H3).
  pose proof (sl_path _ _ Hsl) as Hp.
  apply (window_walk _ _ w); [done | done | by rewrite H2; apply Hs | | done | apply Hsl |].
  - intros q j g Eq Hq Hg.
    assert (upath (q ++ [j])) as Hqj.
    { apply (upath_prefix _ (drop (S (length q)) p)). rewrite <- app_assoc. by rewrite <- Eq. }
    assert (upath q) as Huq by (by apply upath_prefix in Hqj).
    assert (q <> p) as Hqp by (intros ->; apply (f_equal length) in Eq; rewrite !length_app in Eq; simpl in Eq; lia).
    rewrite (descend_insert p i v f q Hp Hf Huq) in Hg.
    + rewrite ent_insert_ne; [apply (to_small _ _ Hs q); [done | lia | apply (upath_snoc _ _ Hqj) | done] |].
      left. intros ->. apply Hqp. symmetry. by apply (to_distinct _ _ Hs p q g).
    + intros Hx. apply prefix_length in Hx. apply (f_equal length) in Eq.
      rewrite !length_app in *. simpl in *. lia.
  - rewrite (descend_insert p i v f p Hp Hf Hp); [done |].
    intros Hx%prefix_length. rewrite length_app in Hx. simpl in Hx. lia.
Qed.

Lemma window_translate p i f :
  slot p i -> descend pm w p = Some f -> translate pm (vm_cr3 s) (window_addr p i) = Some (f, 8 * i).
Proof.
  intros Hsl Hf. pose proof (sl_path _ _ Hsl) as Hp.
  apply (window_walk _ _ w); try apply Hs; [| done | apply Hsl | done].
  intros q j g Eq Hq Hg. assert (upath (q ++ [j])) as Hqj.
  { apply (upath_prefix _ (drop (S (length q)) p)). rewrite <- app_assoc. by rewrite <- Eq. }
  apply (to_small _ _ Hs q); [by apply upath_prefix in Hqj | lia | apply (upath_snoc _ _ Hqj) | done].
Qed.
End tree.

(** * Stores to an entry through the window *)

Definition page_for (user f e : Z) : Z := bf_set 12 40 f (bf_set 1 1 1 (bf_set 2 1 user (bf_set 0 1 1 e))).

Lemma page_for_fields user f e :
  0 <= f < 2 ^ 40 -> e_present (page_for user f e) = true /\ e_frame (page_for user f e) = f.
Proof.
  intros Hf. unfold page_for, e_present, e_frame.
  rewrite !(bf_get_set_other 12 40), !(bf_get_set_other 1 1), !(bf_get_set_other 2 1) by lia.
  rewrite !bf_get_set_same by lia. split; [done | by apply Z.mod_small].
Qed.

Section stores.
Context (s : vm) (w : Z) (Hs : tree_ok s w).
Context (p : list Z) (i f : Z) (Hsl : slot p i) (Hf : descend (vm_phys s) w p = Some f).
#[local] Abbreviation pm := (vm_phys s).
#[local] Abbreviation va := (window_addr p i).

Lemma offset_index : 8 * i / 8 = i.
Proof. rewrite Z.mul_comm. by apply Z.div_mul. Qed.

Lemma vread_slot man : vread va (Vm pm (vm_cr3 s) man) = Some (ent pm f i).
Proof.
  unfold vread. cbn [vm_phys vm_cr3]. rewrite (window_translate s w Hs p i f Hsl Hf). simpl.
  by rewrite offset_index.
Qed.

Lemma set_field_first off n v man :
  set_field off n v va (Vm pm (vm_cr3 s) man)
    = Some (Vm (<[(f, i) := bf_set off n v (ent pm f i)]> pm) (vm_cr3 s) man).
Proof.
  unfold set_field. rewrite vread_slot. cbn [mbind option_bind]. unfold vwrite. cbn [vm_phys vm_cr3].
  rewrite (window_translate s w Hs p i f Hsl Hf). simpl. by rewrite offset_index.
Qed.

Lemma set_field_next off n v x man :
  set_field off n v va (Vm (<[(f, i) := x]> pm) (vm_cr3 s) man)
    = Some (Vm (<[(f, i) := bf_set off n v x]> pm) (vm_cr3 s) man).
Proof.
  unfold set_field, vread, vwrite. cbn [vm_phys vm_cr3].
  rewrite (window_pinned s w Hs p i x f Hsl Hf). cbn [mbind option_bind].
  unfold upd_phys. cbn [vm_phys vm_cr3 vm_man]. by rewrite !offset_index, ent_insert_eq, insert_insert_eq.
Qed.

Lemma set_page_run user frame man :
  set_page va user frame (Vm pm (vm_cr3 s) man)
    = Some (Vm (<[(f, i) := page_for user frame (ent pm f i)]> pm) (vm_cr3 s) man).
Proof.
  unfold set_page, set_present, set_user, set_rw, set_frame.
  rewrite set_field_first. cbn [mbind option_bind]. rewrite set_field_next. cbn [mbind option_bind].
  rewrite set_field_next. cbn [mbind option_bind]. by rewrite set_field_next.
Qed.

Lemma ensure_present user man :
  e_present (ent pm f i) = true ->
  ensure_table va user (Vm pm (vm_cr3 s) man) = Some (Vm pm (vm_cr3 s) man).
Proof. intros He. unfold ensure_table. rewrite vread_slot. simpl. by rewrite absent_iff, He. Qed.

Lemma ensure_absent user block man :
  e_present (ent pm f i) = false -> mem_alloc_block (vm_man s) = (block, man) ->
  ensure_table va user s
    = Some (Vm (<[(f, i) := entry_for user (block / 0x1000) (ent pm f i)]> pm) (vm_cr3 s) man).
Proof.
  intros He Hb. unfold ensure_table.
  assert (vread va s = Some (ent pm f i)) as -> by exact (vread_slot (vm_man s)).
  cbn [mbind option_bind]. rewrite absent_iff, He. cbn [negb]. rewrite Hb.
  unfold set_man, set_present, set_user, set_rw, set_frame.
  rewrite set_field_first. cbn [mbind option_bind].
  rewrite set_field_next. cbn [mbind option_bind]. rewrite set_field_next. cbn [mbind option_bind].
  by rewrite set_field_next.
Qed.
End stores.

(** * Adding a table and filling a page entry *)

Lemma mem_alloc_block_next m : _kernel_next_block (snd (mem_alloc_block m)) = _kernel_next_block m.
Proof. unfold mem_alloc_block. by repeat case_match. Qed.

(** What an allocation does to the invariant's view of the allocator. *)
Lemma alloc_frame m block m' :
  frames_ok m -> mem_alloc_block m = (block, m') -> block <> 0 ->
  exists F, block = F * 4096 /\ 0 < F < _mem_max_blocks m /\ used m F = false /\ used m' F = true /\
    frames_ok m' /\ _mem_max_blocks m' = _mem_max_blocks m /\
    (forall b, 0 <= b -> used m' b = (b =? F) || used m b)%bool.
Proof.
  intros Hm Hb Hne. pose proof (mem_alloc_block_run m Hm) as Hr. rewrite Hb in Hr. destruct Hr as [Hok Hr].
  inversion Hr as [|F m1 HF Hle Hrun _ [Hmax Hmark]]; subst; [done |]. exists F.
  assert (forall b, 0 <= b -> used m' b = (b =? F) || used m b)%bool as Hu.
  { intros b Hb0. rewrite Hmark by done. f_equal. zbool_cases. }
  split_and!; try done; try lia; [by apply run_free_1 in Hrun | by rewrite Hu, Z.eqb_refl by lia].
Qed.

(** When that many blocks are free: the search leaves out the last [max % 64] blocks. *)
Lemma enough_free (n : nat) m :
  frames_ok m -> Z.of_nat n + _mem_max_blocks m mod 64 <= _mem_max_blocks m - _mem_used_blocks m -> enough n m.
Proof.
  revert m; induction n as [|n IH]; intros m Hm Hle; [done |]. cbn [enough].
  destruct Hm as [Ha H0]. pose proof (acct_max m Ha). pose proof (acct_used m Ha) as Hu.
  pose proof (mem_alloc_block_run m (conj Ha H0)) as Hr. destruct (mem_alloc_block m) as [block m'] eqn:Eb.
  destruct Hr as [Hm' Hr]. inversion Hr as [Hfull|F s' HF]; subst.
  - pose proof (Z_div_mod_eq_full (_mem_max_blocks m') 64). pose proof (Z.mod_pos_bound (_mem_max_blocks m') 64 ltac:(lia)).
    pose proof (count_range_prefix _ (64 * (_mem_max_blocks m' / 64)) (_mem_max_blocks m') ltac:(lia) Hfull). lia.
  - assert (F * MEM_BLOCK_SIZE <> 0) as Hne by (unfold MEM_BLOCK_SIZE; lia). split; [exact Hne |].
    destruct (alloc_frame m _ m' (conj Ha H0) Eb Hne) as (G & _ & HG & Hfree & _ & Hok & Hmax & Hmark).
    apply IH; [done |]. destruct Hok as [Ha' _]. rewrite (acct_used m' Ha'), Hmax.
    rewrite (count_range_set (used m) (used m') _ G); [lia | lia | done |]. intros i Hi. apply Hmark; lia.
Qed.

(** The next address of the kernel is no business of the blocks. *)
Lemma enough_next n f : forall m, enough n m -> enough n (upd_next_block f m).
Proof.
  induction n as [|n IH]; intros m; [done |]. cbn [enough].
  assert (mem_alloc_block (upd_next_block f m) = (fst (mem_alloc_block m), upd_next_block f (snd (mem_alloc_block m)))) as ->.
  { unfold mem_alloc_block. change (mem_free_block_count (upd_next_block f m)) with (mem_free_block_count m).
    cbn [upd_next_block _mem_max_blocks _mem_memory_map]. by repeat case_match. }
  destruct (mem_alloc_block m) as [block m']. intros [Hb He]. split; [done | by apply IH].
Qed.

Section grow.
Context (s : vm) (w : Z) (Hs : tree_ok s w).
Context (p : list Z) (i f : Z) (Hsl : slot p i) (Hf : descend (vm_phys s) w p = Some f).
#[local] Abbreviation pm := (vm_phys s).

Section table.
Context (Hlen : (length p <= 2)%nat) (Habsent : e_present (ent pm f i) = false).
Context (F e : Z) (man : memman).
Context (He : e_present e = true /\ e_frame e = F /\ e_large e = e_large (ent pm f i)).
Context (HF : 0 < F) (Hfree : used (vm_man s) F = false) (Hused : used man F = true).
Context (Hman : frames_ok man) (Hmax : _mem_max_blocks man = _mem_max_blocks (vm_man s)).
Context (Hmark : forall b, 0 <= b -> used man b = ((b =? F) || used (vm_man s) b)%bool).
#[local] Abbreviation pm' := (<[(f, i) := e]> pm).

Lemma fresh_not_table q : upath q -> descend pm w q <> Some F.
Proof. intros Hq Hd. destruct (to_used _ _ Hs q F Hq Hd). congruence. Qed.

Lemma fresh_table_empty j : next_table pm' F j = None.
Proof.
  unfold next_table. rewrite ent_insert_ne.
  - rewrite (to_zero _ _ Hs F j); [done | lia | done].
  - left. intros ->. by apply (fresh_not_table p); [apply Hsl |].
Qed.

Lemma new_table_slot : next_table pm' f i = Some F.
Proof. unfold next_table. rewrite ent_insert_eq. destruct He as (-> & -> & _). done. Qed.

(** The tables after the store: one more, with nothing below it. *)
Lemma descend_table q :
  upath q ->
  descend pm' w q = if decide (q = p ++ [i]) then Some F
                    else if decide ((p ++ [i]) `prefix_of` q) then None else descend pm w q.
Proof.
  pose proof (sl_path _ _ Hsl) as Hp. intros Hq.
  destruct (decide (q = p ++ [i])) as [->|Hne].
  - rewrite descend_snoc. rewrite (descend_insert s w Hs p i e f p Hp Hf Hp).
    + rewrite Hf. apply new_table_slot.
    + intros Hx%prefix_length. rewrite length_app in Hx. simpl in Hx. lia.
  - case_decide as Hpre; [| by apply (descend_insert s w Hs p i e f q)].
    destruct Hpre as [[|j r] ->]; [by rewrite app_nil_r in Hne |].
    rewrite descend_app, descend_snoc. rewrite (descend_insert s w Hs p i e f p Hp Hf Hp).
    + rewrite Hf. simpl. rewrite new_table_slot. simpl. by rewrite fresh_table_empty.
    + intros Hx%prefix_length. rewrite length_app in Hx. simpl in Hx. lia.
Qed.

Lemma descend_table_inv q g :
  upath q -> descend pm' w q = Some g -> q = p ++ [i] /\ g = F \/ descend pm w q = Some g /\ g <> F.
Proof.
  intros Hq. rewrite descend_table by done. repeat case_decide; intros Hd; simplify_eq; [by left | right].
  split; [done |]. intros ->. by apply (fresh_not_table q).
Qed.

Lemma table_old_used b : 0 <= b -> used (vm_man s) b = true -> used man b = true.
Proof. intros Hb Hu. rewrite Hmark, Hu by done. apply orb_true_r. Qed.

Lemma tree_add_table : tree_ok (Vm pm' (vm_cr3 s) man) w.
Proof.
  destruct (insert_window s w Hs p i e f Hsl Hf) as (H1 & H2 & H3).
  split; cbn [vm_phys vm_cr3 vm_man].
  - exact H1.
  - exact H3.
  - rewrite H2. apply Hs.
  - intros q Hq Hd. apply descend_table_inv in Hd as [[-> E]|[Hd _]]; [| by apply (to_top _ _ Hs) | done].
    destruct (to_top_used _ _ Hs) as [_ Hu]. congruence.
  - intros q r g Hq Hr Hdq Hdr.
    apply descend_table_inv in Hdq as [[? ?]|[Hdq ?]]; [| | done];
      (apply descend_table_inv in Hdr as [[? ?]|[Hdr ?]]; [| | done]); try congruence.
    by apply (to_distinct _ _ Hs q r g).
  - intros q g j Hq Hl Hj Hd. rewrite ent_insert. case_decide as E.
    + injection E as <- <-. destruct He as (_ & _ & ->).
      apply (to_small _ _ Hs p); [apply Hsl | done | done | done].
    + apply descend_table_inv in Hd as [[-> ->]|[Hd _]]; [| by apply (to_small _ _ Hs q) | done].
      by rewrite (to_zero _ _ Hs F j) by (done || lia).
  - intros q g Hq Hd. apply descend_table_inv in Hd as [[_ ->]|[Hd _]]; [split; [lia | done] | | done].
    destruct (to_used _ _ Hs q g Hq Hd). split; [done | by apply table_old_used].
  - destruct (to_top_used _ _ Hs). split; [done | by apply table_old_used].
  - intros g j Hg Hu. rewrite Hmark in Hu by done. apply orb_false_elim in Hu as [Hne Hu].
    rewrite ent_insert_ne; [by apply (to_zero _ _ Hs) |].
    left. intros <-. destruct (to_used _ _ Hs p f); [apply Hsl | done | congruence].
  - done.
  - rewrite Hmax. apply Hs.
Qed.

Lemma absent_next : next_table pm f i = None.
Proof. unfold next_table. by rewrite Habsent. Qed.

(** No address is translated differently. *)
Lemma translate_add_table va :
  a_pml4 va <> 511 -> translate pm' w va = translate pm w va.
Proof.
  intros Hva. pose proof (upath_of va Hva) as Hu. destruct (a_indices va) as (Hi4 & Hi3 & Hi2 & Hi1).
  assert (upath [a_pml4 va; a_pdp va]) as Hu2 by (by apply (upath_prefix _ [a_pd va])).
  rewrite !translate_descend.
  - rewrite descend_table by done. case_decide as E; [| case_decide as E2].
    + rewrite E, descend_snoc. rewrite Hf. simpl. rewrite fresh_table_empty.
      by rewrite absent_next.
    + destruct E2 as [r E2]. rewrite E2, descend_app, descend_snoc. rewrite Hf. simpl.
      by rewrite absent_next.
    + destruct (descend pm w [a_pml4 va; a_pdp va; a_pd va]) as [pt|] eqn:Ed; simpl; [| done].
      assert (next_table pm' pt (a_pt va) = next_table pm pt (a_pt va)) as ->; [| done].
      apply next_table_ext, ent_insert_ne. left. intros ->.
      assert (p = [a_pml4 va; a_pdp va; a_pd va]) as -> by (apply (to_distinct _ _ Hs _ _ pt); [apply Hsl | done..]).
      simpl in Hlen. lia.
  - intros pd Hd. by apply (to_small _ _ Hs [a_pml4 va; a_pdp va]).
  - intros pd Hd. by apply (to_small _ _ tree_add_table [a_pml4 va; a_pdp va]).
Qed.
End table.
End grow.

(** * Filling a page entry *)

Section fill.
Context (s : vm) (w : Z) (Hs : tree_ok s w).
Context (a b c d f v : Z) (Hp : upath [a; b; c]) (Hd : index d).
Context (Hf : descend (vm_phys s) w [a; b; c] = Some f).
#[local] Abbreviation pm := (vm_phys s).
#[local] Abbreviation pm' := (<[(f, d) := v]> pm).

Lemma fill_slot : slot [a; b; c] d.
Proof. by split. Qed.

Lemma fill_descend q : upath q -> descend pm' w q = descend pm w q.
Proof.
  intros Hq. apply (descend_insert s w Hs [a; b; c] d v f q Hp Hf Hq).
  intros Hx%prefix_length. destruct Hq as [Hl _ _]. simpl in *. lia.
Qed.

Lemma fill_tree : tree_ok (Vm pm' (vm_cr3 s) (vm_man s)) w.
Proof.
  destruct (insert_window s w Hs _ d v f fill_slot Hf) as (H1 & H2 & H3).
  split; cbn [vm_phys vm_cr3 vm_man]; try apply Hs; try done.
  - rewrite H2. apply Hs.
  - intros q Hq. rewrite fill_descend by done. by apply (to_top _ _ Hs).
  - intros q r g Hq Hr. rewrite !fill_descend by done. by apply (to_distinct _ _ Hs).
  - intros q g j Hq Hl Hj. rewrite fill_descend by done. intros Hg.
    rewrite ent_insert_ne; [by apply (to_small _ _ Hs q) |]. left. intros ->.
    assert (q = [a; b; c]) as -> by (by apply (to_distinct _ _ Hs _ _ g)). simpl in Hl. lia.
  - intros q g Hq. rewrite fill_descend by done. by apply (to_used _ _ Hs).
  - intros g j Hg Hu. rewrite ent_insert_ne; [by apply (to_zero _ _ Hs) |].
    left. intros <-. destruct (to_used _ _ Hs _ f Hp Hf). congruence.
Qed.

Lemma translate_tables pm0 va :
  tree_ok (Vm pm0 (vm_cr3 s) (vm_man s)) w -> a_pml4 va <> 511 ->
  translate pm0 w va =
    (pt ← descend pm0 w [a_pml4 va; a_pdp va; a_pd va]; g ← next_table pm0 pt (a_pt va); Some (g, a_offset va)).
Proof.
  intros H0 Hva. apply translate_descend. intros pd Hpd. destruct (a_indices va) as (_ & _ & ? & _).
  apply (to_small _ _ H0 [a_pml4 va; a_pdp va]); [| simpl; lia | done | done].
  apply (upath_prefix _ [a_pd va]), (upath_of va Hva).
Qed.

Lemma fill_here va :
  a_pml4 va = a -> a_pdp va = b -> a_pd va = c -> a_pt va = d -> e_present v = true ->
  translate pm' w va = Some (e_frame v, a_offset va).
Proof.
  intros Ea Eb Ec Ed He. rewrite translate_tables; [| exact fill_tree | rewrite Ea; by apply (up_first _ Hp)].
  rewrite Ea, Eb, Ec, Ed, fill_descend, Hf by done. simpl.
  unfold next_table. by rewrite ent_insert_eq, He.
Qed.

Lemma fill_elsewhere va :
  a_pml4 va <> 511 -> ~ (a_pml4 va = a /\ a_pdp va = b /\ a_pd va = c /\ a_pt va = d) ->
  translate pm' w va = translate pm w va.
Proof.
  intros Hva Hne. pose proof (upath_of va Hva) as Hu.
  rewrite translate_tables by (exact fill_tree || done).
  rewrite (translate_tables pm) by (by destruct Hs; split || done).
  rewrite fill_descend by done.
  destruct (descend pm w [a_pml4 va; a_pdp va; a_pd va]) as [pt|] eqn:Ept; simpl; [| done].
  assert (next_table pm' pt (a_pt va) = next_table pm pt (a_pt va)) as ->; [| done].
  apply next_table_ext, ent_insert_ne. destruct (decide (f = pt)) as [->|]; [right | by left].
  intros Ed. apply Hne.
  assert ([a; b; c] = [a_pml4 va; a_pdp va; a_pd va]) as [= -> -> ->] by (by apply (to_distinct _ _ Hs _ _ pt)).
  done.
Qed.
End fill.

(** * Creating the tables of an address *)

(** A state that only gained tables. *)
Record grown (s s' : vm) (w : Z) : Prop := {
  gr_tree : tree_ok s' w;
  gr_cr3 : vm_cr3 s' = vm_cr3 s;
  gr_used : forall b, 0 <= b -> used (vm_man s) b = true -> used (vm_man s') b = true;
  gr_max : _mem_max_blocks (vm_man s') = _mem_max_blocks (vm_man s);
  gr_next : _kernel_next_block (vm_man s') = _kernel_next_block (vm_man s);
  gr_translate : forall va, a_pml4 va <> 511 -> translate (vm_phys s') w va = translate (vm_phys s) w va
}.

Lemma grown_refl s w : tree_ok s w -> grown s s w.
Proof. by split. Qed.

Lemma grown_trans s1 s2 s3 w : grown s1 s2 w -> grown s2 s3 w -> grown s1 s3 w.
Proof.
  intros [T1 C1 U1 M1 N1 X1] [T2 C2 U2 M2 N2 X2]. split; [done | congruence | auto | congruence | congruence |].
  intros va Hva. by rewrite X2, X1.
Qed.

Lemma vm_eta s : Vm (vm_phys s) (vm_cr3 s) (vm_man s) = s.
Proof. by destruct s. Qed.

(** One [if (... .present == 0)] of [create_page_for_current]. *)
Lemma ensure_run s w p i f user n :
  tree_ok s w -> slot p i -> (length p <= 2)%nat -> descend (vm_phys s) w p = Some f ->
  enough (S n) (vm_man s) ->
  exists s' g, ensure_table (window_addr p i) user s = Some s' /\ grown s s' w /\
    enough n (vm_man s') /\ descend (vm_phys s') w (p ++ [i]) = Some g.
Proof.
  intros Hs Hsl Hlen Hf Hen. destruct (e_present (ent (vm_phys s) f i)) eqn:He.
  - exists s, (e_frame (ent (vm_phys s) f i)). split_and!; [| by apply grown_refl | by apply enough_pred |].
    + pose proof (ensure_present s w Hs p i f Hsl Hf user (vm_man s) He) as E. by rewrite vm_eta in E.
    + rewrite descend_snoc, Hf. simpl. unfold next_table. by rewrite He.
  - cbn [enough] in Hen. destruct (mem_alloc_block (vm_man s)) as [block man] eqn:Eb. destruct Hen as [Hne Hen].
    destruct (alloc_frame _ _ _ (to_frames _ _ Hs) Eb Hne)
      as (F & -> & HF & Hfree & Hused & Hok & Hmax & Hmark).
    pose proof (to_width _ _ Hs) as Hw.
    pose proof (entry_for_fields user F (ent (vm_phys s) f i) ltac:(lia)) as Hfields.
    eexists _, F. split; [exact (ensure_absent s w Hs p i f Hsl Hf user _ _ He Eb) |].
    change 0x1000 with 4096. rewrite Z.div_mul by lia. split_and!.
    + split; cbn [vm_phys vm_cr3 vm_man].
      * apply (tree_add_table s w Hs p i f Hsl Hf Hlen He F); try done. lia.
      * done.
      * intros b Hb Hu. rewrite Hmark, Hu by done. apply orb_true_r.
      * done.
      * pose proof (mem_alloc_block_next (vm_man s)) as E. by rewrite Eb in E.
      * intros va Hva. apply (translate_add_table s w Hs p i f Hsl Hf Hlen He F _ man); try done. lia.
    + done.
    + cbn [vm_phys]. rewrite (descend_table s w Hs p i f Hsl Hf Hlen He F _ Hfields ltac:(lia) Hfree) by (by apply slot_snoc).
      by rewrite decide_True.
Qed.

Lemma create_page_run s w va user n :
  tree_ok s w -> a_pml4 va <> 511 -> enough (3 + n) (vm_man s) ->
  exists s' pt, create_page_for_current va user s =
      Some (window_addr [a_pml4 va; a_pdp va; a_pd va] (a_pt va), s') /\
    grown s s' w /\ enough n (vm_man s') /\
    descend (vm_phys s') w [a_pml4 va; a_pdp va; a_pd va] = Some pt.
Proof.
  intros Hs Hva Hen. pose proof (upath_of va Hva) as Hu. destruct (a_indices va) as (H4 & H3 & H2 & H1).
  assert (upath [a_pml4 va; a_pdp va]) as Hu2 by (by apply (upath_prefix _ [a_pd va])).
  assert (upath [a_pml4 va]) as Hu1 by (by apply (upath_prefix _ [a_pdp va])).
  destruct (ensure_run s w [] (a_pml4 va) w user (2 + n) Hs) as (s1 & f1 & E1 & G1 & N1 & D1);
    [by apply (upath_snoc []) | simpl; lia | done | done |].
  destruct (ensure_run s1 w [a_pml4 va] (a_pdp va) f1 user (1 + n) (gr_tree _ _ _ G1)) as (s2 & f2 & E2 & G2 & N2 & D2);
    [by apply (upath_snoc [_]) | simpl; lia | done | done |].
  destruct (ensure_run s2 w [a_pml4 va; a_pdp va] (a_pd va) f2 user n (gr_tree _ _ _ G2)) as (s3 & f3 & E3 & G3 & N3 & D3);
    [by apply (upath_snoc [_; _]) | simpl; lia | done | done |].
  exists s3, f3. split_and!; [| | exact N3 | exact D3].
  - unfold create_page_for_current. cbn [window_addr] in E1, E2, E3.
    rewrite E1. cbn [mbind option_bind]. rewrite E2. cbn [mbind option_bind]. rewrite E3. cbn [mbind option_bind].
    do 3 f_equal. cbn [window_addr]. unfold get_page_entry. by rewrite a_frame_indices.
  - eapply grown_trans; [exact G1 |]. by eapply grown_trans.
Qed.

(** * Mapping pages *)

(** A frame that the allocator gives away and that is no table. *)
Lemma tree_take s w F man :
  tree_ok s w -> 0 < F -> frames_ok man -> _mem_max_blocks man = _mem_max_blocks (vm_man s) ->
  (forall b, 0 <= b -> used man b = (b =? F) || used (vm_man s) b)%bool ->
  tree_ok (set_man man s) w.
Proof.
  intros Hs HF Hok Hmax Hmark.
  assert (forall b, 0 <= b -> used (vm_man s) b = true -> used man b = true) as Hu.
  { intros b Hb E. rewrite Hmark, E by done. apply orb_true_r. }
  destruct Hs as [? ? ? ? ? ? Hused [? ?] Hz ? ?]. split; simpl; try done.
  - intros p f Hp Hf. destruct (Hused p f Hp Hf). auto.
  - auto.
  - intros f i Hf E. rewrite Hmark in E by done. apply orb_false_elim in E as [_ E]. auto.
  - by rewrite Hmax.
Qed.

(** One page: the page of [va] is translated to the frame [F], nothing else changes. *)
Record maps (s s' : vm) (w va F : Z) : Prop := {
  mp_tree : tree_ok s' w;
  mp_cr3 : vm_cr3 s' = vm_cr3 s;
  mp_next : _kernel_next_block (vm_man s') = _kernel_next_block (vm_man s);
  mp_free : 0 < F /\ used (vm_man s) F = false /\ used (vm_man s') F = true;
  mp_used : forall b, 0 <= b -> used (vm_man s) b = true -> used (vm_man s') b = true;
  mp_here : forall va', a_frame va' = a_frame va -> translate (vm_phys s') w va' = Some (F, a_offset va');
  mp_elsewhere : forall va', a_pml4 va' <> 511 -> a_frame va' <> a_frame va ->
    translate (vm_phys s') w va' = translate (vm_phys s) w va'
}.

Lemma map_new_page_run s w va user n :
  tree_ok s w -> a_pml4 va <> 511 -> enough (4 + n) (vm_man s) ->
  exists s' F, map_new_page va user s = Some (Some s') /\ maps s s' w va F /\ enough n (vm_man s').
Proof.
  intros Hs Hva Hen. change (4 + n)%nat with (S (3 + n)) in Hen. cbn [enough] in Hen.
  destruct (mem_alloc_block (vm_man s)) as [block man] eqn:Eb. destruct Hen as [Hne Hen].
  destruct (alloc_frame _ _ _ (to_frames _ _ Hs) Eb Hne) as (F & -> & HF & Hfree & Hused & Hok & Hmax & Hmark).
  pose proof (tree_take s w F man Hs ltac:(lia) Hok Hmax Hmark) as Hs1.
  destruct (create_page_run (set_man man s) w va user n Hs1 Hva Hen) as (s2 & pt & Ec & G & Hen2 & Hpt).
  pose proof (upath_of va Hva) as Hu. destruct (a_indices va) as (H4 & H3 & H2 & H1).
  pose proof (gr_tree _ _ _ G) as Hs2. pose proof (to_width _ _ Hs) as Hw.
  set (v := page_for user F (ent (vm_phys s2) pt (a_pt va))).
  destruct (page_for_fields user F (ent (vm_phys s2) pt (a_pt va)) ltac:(lia)) as [Hpres Hframe].
  fold v in Hpres, Hframe.
  exists (Vm (<[(pt, a_pt va) := v]> (vm_phys s2)) (vm_cr3 s2) (vm_man s2)), F. split_and!; [| split | exact Hen2].
  - unfold map_new_page. rewrite Eb. destruct (Z.eqb_spec (F * 4096) 0); [done |].
    rewrite Ec. cbn [mbind option_bind]. change 0x1000 with 4096. rewrite Z.div_mul by lia.
    pose proof (set_page_run s2 w Hs2 _ _ pt (fill_slot _ _ _ _ Hu H1) Hpt user F (vm_man s2)) as E.
    rewrite vm_eta in E. by rewrite E.
  - by apply (fill_tree s2 w Hs2 _ _ _ _ pt v Hu H1 Hpt).
  - exact (gr_cr3 _ _ _ G).
  - pose proof (mem_alloc_block_next (vm_man s)) as E. rewrite Eb in E. cbn [vm_man]. by rewrite (gr_next _ _ _ G).
  - split_and!; [lia | done | by apply (gr_used _ _ _ G); [lia |]].
  - intros b Hb E. apply (gr_used _ _ _ G); [done |]. simpl. rewrite Hmark, E by done. apply orb_true_r.
  - intros va' Hva'. cbn [vm_phys]. destruct (a_frame_indices_inj va' va Hva') as (? & ? & ? & ?).
    rewrite (fill_here s2 w Hs2 _ _ _ _ pt v Hu H1 Hpt va'); try done. by rewrite Hframe.
  - intros va' Hva' Hne'. cbn [vm_phys].
    rewrite (fill_elsewhere s2 w Hs2 _ _ _ _ pt v Hu H1 Hpt va' Hva').
    + by rewrite (gr_translate _ _ _ G).
    + intros (? & ? & ? & ?). by apply Hne', a_frame_inj.
Qed.

(** * A run of pages *)

(** The pages from [va] are translated to the frames [Fs], one by one, and nothing
    else changes. *)
Record mapped (s s' : vm) (w va : Z) (Fs : list Z) : Prop := {
  md_tree : tree_ok s' w;
  md_cr3 : vm_cr3 s' = vm_cr3 s;
  md_next : _kernel_next_block (vm_man s') = _kernel_next_block (vm_man s);
  md_fresh : Forall (fun F => 0 < F /\ used (vm_man s) F = false /\ used (vm_man s') F = true) Fs;
  md_nodup : NoDup Fs;
  md_used : forall b, 0 <= b -> used (vm_man s) b = true -> used (vm_man s') b = true;
  md_here : forall i F off, Fs !! i = Some F -> 0 <= off < 4096 ->
    translate (vm_phys s') w (va + Z.of_nat i * 4096 + off) = Some (F, off);
  md_elsewhere : forall va', 0 <= va' < 511 * 2 ^ 39 -> va' < va \/ va + Z.of_nat (length Fs) * 4096 <= va' ->
    translate (vm_phys s') w va' = translate (vm_phys s) w va'
}.

Lemma enough_weaken k n m : enough (k + n) m -> enough n m.
Proof. induction k as [|k IH]; [done |]. intros H. by apply IH, enough_pred. Qed.

Lemma page_sum va off : va mod 4096 = 0 -> 0 <= off < 4096 -> (va + off) / 4096 = va / 4096 /\ (va + off) mod 4096 = off.
Proof. intros. div_lia. Qed.

Lemma map_new_pages_run (n k : nat) (s : vm) (w va user : Z) :
  tree_ok s w -> 0 <= va -> va mod 4096 = 0 -> va + Z.of_nat n * 4096 < 511 * 2 ^ 39 ->
  enough (4 * n + k) (vm_man s) ->
  exists s' Fs, map_new_pages n va user s = Some (true, s') /\ length Fs = n /\ mapped s s' w va Fs /\
    enough k (vm_man s').
Proof.
  revert k s va; induction n as [|n IH]; intros k s va Hs Hva Hal Hend Hen.
  - exists s, []. split_and!; [done | done | | exact Hen]. split; try done. constructor.
  - replace (4 * S n + k)%nat with (4 + (4 * n + k))%nat in Hen by lia.
    destruct (map_new_page_run s w va user _ Hs (a_pml4_low va ltac:(lia)) Hen) as (s1 & F & E1 & M1 & Hen1).
    destruct (IH k s1 (va + 4096)) as (s2 & Fs & E2 & Hl & M2 & Hen2); [apply M1 | lia | div_lia | lia | done |].
    exists s2, (F :: Fs). cbn [map_new_pages]. rewrite E1. cbn [mbind option_bind].
    change 0x1000 with 4096. rewrite uint64_id by lia. split_and!; [done | simpl; lia | | exact Hen2].
    destruct M1 as [T1 C1 O1 (P1 & U1 & V1) K1 X1 Y1], M2 as [T2 C2 O2 F2 N2 K2 X2 Y2]. split.
    + done.
    + congruence.
    + congruence.
    + constructor; [split_and!; [done | done | by apply K2; [lia |]] |].
      eapply Forall_impl; [exact F2 |]. intros G (HG & HU & HV). split_and!; [done | | done].
      destruct (used (vm_man s) G) eqn:E; [| done]. rewrite K1 in HU by (done || lia). done.
    + constructor; [| done]. intros Hin. rewrite Forall_forall in F2.
      destruct (F2 F Hin) as (_ & HU & _). congruence.
    + intros b Hb E. by apply K2, K1.
    + intros [|i] G off HG Ho; simpl in HG.
      * injection HG as <-. rewrite Z.mul_0_l, Z.add_0_r. destruct (page_sum va off Hal Ho) as [Ed Em].
        rewrite Y2 by lia. rewrite X1 by (rewrite !a_frame_div by lia; done). by rewrite a_offset_mod, Em.
      * replace (va + Z.of_nat (S i) * 4096 + off) with (va + 4096 + Z.of_nat i * 4096 + off) by lia. by apply X2.
    + intros va' Hva' Hout. rewrite length_cons in Hout. rewrite Y2 by lia. apply Y1; [apply a_pml4_low; lia |].
      rewrite !a_frame_div by lia. div_lia.
Qed.

(** * A new address space *)

(** The state that [memman_init] builds before it maps anything: a top table whose
    only entry is the window on itself. *)
Lemma tree_ok_new man w e :
  frames_ok man -> _mem_max_blocks man <= 2 ^ 40 -> 0 <= w -> used man w = true ->
  e_present e = true -> e_frame e = w -> e_large e = false ->
  tree_ok (Vm {[(w, 511) := e]} w man) w.
Proof.
  intros Hok Hmax Hw Hu Hp Hf Hl.
  assert (forall f i, ~ (f = w /\ i = 511) -> ent {[(w, 511) := e]} f i = 0) as Hother.
  { intros f i Hne. unfold ent. rewrite lookup_singleton_ne; [done |]. intros [= <- <-]. by apply Hne. }
  assert (ent {[(w, 511) := e]} w 511 = e) as Hent by (unfold ent; by rewrite lookup_singleton_eq).
  assert (forall p f, upath p -> descend {[(w, 511) := e]} w p = Some f -> p = [] /\ f = w) as Hdesc.
  { intros [|i p] f Hpath; simpl; [by intros [= ->] |]. intros Hd. exfalso.
    unfold next_table in Hd. rewrite Hother in Hd; [done |]. intros [_ ->]. by apply (up_first _ Hpath 511). }
  assert (next_table {[(w, 511) := e]} w 511 = Some w) as Hn by (unfold next_table; by rewrite Hent, Hp, Hf).
  split; cbn [vm_phys vm_cr3 vm_man]; try done.
  - by rewrite Hent.
  - intros p Hpath Hd. by apply (Hdesc p w).
  - intros p q f Hpath Hq H1 H2. destruct (Hdesc p f Hpath H1) as [-> _], (Hdesc q f Hq H2) as [-> _]. done.
  - intros p f i Hpath Hlen Hi Hd. destruct (Hdesc p f Hpath Hd) as [-> ->].
    destruct (decide (i = 511)) as [->|]; [by rewrite Hent |]. rewrite Hother; [done | by intros [_ ?]].
  - intros p f Hpath Hd. by destruct (Hdesc p f Hpath Hd) as [-> ->].
  - intros f i Hf0 Hfree. apply Hother. intros [-> _]. congruence.
Qed.

(** Fields of the state that the tables do not depend on. *)
Lemma tree_ok_next s w f : tree_ok s w -> tree_ok (set_man (upd_next_block f (vm_man s)) s) w.
Proof.
  intros [T1 T2 T3 T4 T5 T6 T7 T8 T9 [[] T0] T11].
  split; [exact T1 | exact T2 | exact T3 | exact T4 | exact T5 | exact T6 | exact T7 | exact T8 | exact T9 | by split; [split |] | exact T11].
Qed.

(** The top table that the window shows is loaded. *)
Lemma tree_ok_switch s w : tree_ok s w -> tree_ok (switch_paging (w * 4096) s) w.
Proof.
  intros [T1 T2 T3 T4 T5 T6 T7 T8 T9 T10 T11]. unfold switch_paging. rewrite Z.div_mul by lia.
  assert (upath []) as Hnil by (split; [simpl; lia | constructor | done]).
  split; cbn [vm_phys vm_cr3 vm_man]; try done.
  - intros p Hp Hd. by apply (T5 p [] w).
  - by apply (T7 []).
Qed.

(** * The allocators of pages *)

(** C12: when the blocks for the pages and for the tables they may need can be had,
    [alloc_page] returns its address; every byte of the [size] pages (one page for
    size 0) is then translated to the same offset of a frame that was free, the
    frames are distinct and marked used, the tables are a tree again, and every
    other address below the window translates as before. *)
Theorem alloc_page_spec (s : vm) (w virtual size : Z)
  (Hs : tree_ok s w) (Hvirtual : 0 <= virtual) (Haligned : virtual mod 4096 = 0)
  (Hsize : 0 <= size) (Hend : virtual + Z.max 1 size * 4096 < 511 * 2 ^ 39)
  (Hblocks : enough (4 * Z.to_nat (Z.max 1 size)) (vm_man s)) :
  exists s' Fs, alloc_page virtual size s = Some (virtual, s') /\
    length Fs = Z.to_nat (Z.max 1 size) /\ mapped s s' w virtual Fs.
Proof.
  unfold alloc_page.
  assert ((if size =? 0 then 1 else size) = Z.max 1 size) as -> by (zbool_cases).
  destruct (map_new_pages_run (Z.to_nat (Z.max 1 size)) 0 s w virtual 1 Hs Hvirtual Haligned) as (s' & Fs & E & Hl & M & _);
    [lia | by rewrite Nat.add_0_r |].
  exists s', Fs. rewrite E. by split_and!.
Qed.

(** The pages of the kernel. *)
Lemma alloc_kernel_page_run (s : vm) (w size : Z)
  (Hs : tree_ok s w) (Hsize : 0 <= size) (Hnext : 0 <= _kernel_next_block (vm_man s))
  (Hend : (_kernel_next_block (vm_man s) + size) * 4096 < 511 * 2 ^ 39)
  (Hblocks : enough (4 * Z.to_nat size) (vm_man s)) :
  let va := _kernel_next_block (vm_man s) * 4096 in
  exists s1 s' Fs, vm_alloc_kernel_page size s = Some (va, s') /\
    length Fs = Z.to_nat size /\ mapped s s1 w va Fs /\
    s' = set_man (upd_next_block (fun _ => _kernel_next_block (vm_man s) + size) (vm_man s1)) s1.
Proof.
  intros va. unfold vm_alloc_kernel_page. change 0x1000 with 4096.
  rewrite uint64_id by lia. fold va.
  destruct (map_new_pages_run (Z.to_nat size) 0 s w va 0 Hs) as (s1 & Fs & E & Hl & M & _);
    [lia | unfold va; div_lia | lia | by rewrite Nat.add_0_r |].
  rewrite E. cbn [mbind option_bind]. rewrite (md_next _ _ _ _ _ M). eexists s1, _, Fs. split_and!; [| done | done | done].
  rewrite (uint64_id (_ + size)) by lia. rewrite (uint64_id (_ + size - size)) by lia.
  rewrite Z.add_simpl_r, uint64_id by lia. done.
Qed.

(** [alloc_kernel_page] does the same for the next [size] pages of the kernel
    and moves [_kernel_next_block] behind them, so that two successful calls never
    return overlapping pages. *)
Theorem alloc_kernel_page_spec (s : vm) (w size : Z)
  (Hs : tree_ok s w) (Hsize : 0 <= size) (Hnext : 0 <= _kernel_next_block (vm_man s))
  (Hend : (_kernel_next_block (vm_man s) + size) * 4096 < 511 * 2 ^ 39)
  (Hblocks : enough (4 * Z.to_nat size) (vm_man s)) :
  let va := _kernel_next_block (vm_man s) * 4096 in
  exists s1 s' Fs, vm_alloc_kernel_page size s = Some (va, s') /\
    length Fs = Z.to_nat size /\ mapped s s1 w va Fs /\
    s' = set_man (upd_next_block (fun _ => _kernel_next_block (vm_man s) + size) (vm_man s1)) s1.
Proof. exact (alloc_kernel_page_run s w size Hs Hsize Hnext Hend Hblocks). Qed.

(** [create_page_for_current] does not look at the result of [mem_alloc_block]: with
    no block left, the entry is made to point at frame 0. *)
Lemma ensure_table_exhausted (s : vm) (w : Z) (p : list Z) (i f user : Z) (man : memman) :
  tree_ok s w -> slot p i -> descend (vm_phys s) w p = Some f ->
  e_present (ent (vm_phys s) f i) = false -> mem_alloc_block (vm_man s) = (0, man) ->
  exists s', ensure_table (window_addr p i) user s = Some s' /\ next_table (vm_phys s') f i = Some 0.
Proof.
  intros Hs Hsl Hf He Hb. eexists. split; [exact (ensure_absent s w Hs p i f Hsl Hf user 0 man He Hb) |].
  cbn [vm_phys]. unfold next_table. rewrite ent_insert_eq.
  by destruct (entry_for_fields user (0 / 0x1000) (ent (vm_phys s) f i) ltac:(done)) as (-> & -> & _).
Qed.

(** * Concrete runs *)

Definition demo_vm : vm := Vm {[(1, 511) := entry_for 0 1 0]} 1 (snd (mem_alloc_block demo_memman)).

Lemma demo_vm_ok : tree_ok demo_vm 1.
Proof.
  pose proof (mem_alloc_block_run demo_memman demo_memman_ok) as H.
  apply tree_ok_new; [| by vm_compute ..].
  revert H. by destruct (mem_alloc_block demo_memman) as [p m]; intros [? _].
Qed.

Lemma demo_vm_enough : enough 12 (vm_man demo_vm).
Proof. vm_compute. repeat split; discriminate. Qed.

(** The program's page at 2 MiB and the next one. *)
Lemma alloc_page_spec_witness :
  (r ← alloc_page 0x200000 2 demo_vm; translate (vm_phys (snd r)) 1 0x201234) = Some (6, 0x234) /\
  exists s' Fs, alloc_page 0x200000 2 demo_vm = Some (0x200000, s') /\
    length Fs = Z.to_nat (Z.max 1 2) /\ mapped demo_vm s' 1 0x200000 Fs.
Proof.
  split; [vm_compute; reflexivity |].
  apply (alloc_page_spec demo_vm 1 0x200000 2 demo_vm_ok); try (vm_compute; done).
Defined.

Lemma alloc_kernel_page_spec_witness :
  let va := _kernel_next_block (vm_man demo_vm) * 4096 in
  exists s1 s' Fs, vm_alloc_kernel_page 3 demo_vm = Some (va, s') /\
    length Fs = Z.to_nat 3 /\ mapped demo_vm s1 1 va Fs /\
    s' = set_man (upd_next_block (fun _ => _kernel_next_block (vm_man demo_vm) + 3) (vm_man s1)) s1.
Proof.
  apply (alloc_kernel_page_spec demo_vm 1 3 demo_vm_ok); try (vm_compute; done).
Defined.
