(* ===== verification/Descriptors.v ===== *)
(** The segment and interrupt descriptors (kernel/gdt.c, kernel/idt.c): how the
    kernel writes them, how the processor reads them, and that the two agree. *)

From S2P Require Import Prelude Words Memory CLib.
#[local] Open Scope Z_scope.

(** * Words made of fields *)

(** The fields [(width, value)] of a structure, from the lowest bit. *)
Definition pack (fields : list (Z * Z)) : Z :=
  foldr (fun '(w, v) rest => v mod 2 ^ w + 2 ^ w * rest) 0 fields.

Definition width (fields : list (Z * Z)) : Z := foldr (fun f n => fst f + n) 0 fields.

(** * Segment descriptors *)

Record gdt_entry := GdtEntry {
  limit_low : Z;    (** int16_t *)
  base_low : Z;     (** int16_t *)
  base_middle : Z;  (** int8_t *)
  access : Z;       (** int8_t *)
  granularity : Z;  (** int8_t *)
  base_high : Z     (** int8_t *)
}.

(** The eight bytes of an entry. *)
Definition entry_word (e : gdt_entry) : Z :=
  pack [(16, limit_low e); (16, base_low e); (8, base_middle e); (8, access e); (8, granularity e); (8, base_high e)].

(** What the processor reads from the eight bytes. *)
Definition seg_limit (d : Z) : Z := bf_get 0 16 d + bf_get 48 4 d * 2 ^ 16.
Definition seg_base (d : Z) : Z := bf_get 16 24 d + bf_get 56 8 d * 2 ^ 24.
Definition seg_access (d : Z) : Z := bf_get 40 8 d.
Definition seg_flags (d : Z) : Z := bf_get 52 4 d.

Definition GDT_ENTRY_NR : Z := 32.
Definition zero_entry : gdt_entry := GdtEntry 0 0 0 0 0 0.
Definition gdt_at (gdt : gmap Z gdt_entry) (num : Z) : gdt_entry := default zero_entry (gdt !! num).

(** The lines that both functions share; [base] and the others are the parameters
    after their conversion. *)
Definition make_entry (base limit access granularity : Z) : gdt_entry :=
  let g := int8_t (Z.land (Z.shiftr limit 16) 0x0F) in
  GdtEntry (int16_t (Z.land limit 0xFFFF)) (int16_t (Z.land base 0xFFFF))
    (int8_t (Z.land (Z.shiftr base 16) 0xFF)) access
    (int8_t (Z.lor g (Z.land granularity 0xF0))) (int8_t (Z.land (Z.shiftr base 24) 0xFF)).

Definition gdt_set_gate (num base limit access granularity : Z) (gdt : gmap Z gdt_entry) : gmap Z gdt_entry :=
  <[num := make_entry (int32_t base) (int32_t limit) (int8_t access) (int8_t granularity)]> gdt.

Definition gdt_set_ss_gate (num base limit access granularity : Z) (gdt : gmap Z gdt_entry) : gmap Z gdt_entry :=
  let base := int64_t base in
  <[num := make_entry base (int32_t limit) (int8_t access) (int8_t granularity)]>
  (<[num + 1 := GdtEntry (int16_t (Z.land (Z.shiftr base 32) 0x0000FFFF))
                         (int16_t (Z.land (Z.shiftr base 48) 0xFFFF)) 0 0 0 0]> gdt).

(** ** The task state segment *)

(** The structure is not packed: a compiler for x86-64 aligns [zero2] and [zero3], and
    the structure takes 112 bytes. The stack pointers are before the first gap. *)
Definition sizeof_tss : Z := 112.

(** The descriptor tables, the processor's registers for them and the memory of
    [tss_entry]. *)
Record tables := Tables {
  gdt : gmap Z gdt_entry;
  gdtr : Z * Z;  (** limit and base *)
  tr : Z;
  tss_mem : mem
}.

Definition upd_gdt (f : gmap Z gdt_entry -> gmap Z gdt_entry) (t : tables) : tables :=
  Tables (f (gdt t)) (gdtr t) (tr t) (tss_mem t).

Section gdt.
(** The addresses of [gdt] and [tss_entry]. *)
Context (gdt_addr tss_addr : Z).

Definition tss_set_gate (num rsp0 rsp1 rsp2 : Z) (t : tables) : option tables :=
  let base := tss_addr in
  let limit := (base + sizeof_tss)%word in
  let t := upd_gdt (gdt_set_ss_gate num base limit 0x89 0x9F) t in
  m ← memset tss_addr 0 sizeof_tss (tss_mem t);
  let m := store32 (tss_addr + 8) (Z.shiftr rsp0 32) m in
  let m := store32 (tss_addr + 4) (Z.land rsp0 0xFFFFFFFF) m in
  let m := store32 (tss_addr + 16) (Z.shiftr rsp1 32) m in
  let m := store32 (tss_addr + 12) (Z.land rsp1 0xFFFFFFFF) m in
  let m := store32 (tss_addr + 24) (Z.shiftr rsp2 32) m in
  let m := store32 (tss_addr + 20) (Z.land rsp2 0xFFFFFFFF) m in
  Some (Tables (gdt t) (gdtr t) (tr t) m).

Definition load_tr (num : Z) (t : tables) : tables :=
  Tables (gdt t) (gdtr t) (uint16_t (num * 8)) (tss_mem t).

Definition gdt_install (t : tables) : option tables :=
  let limit := int16_t (8 * GDT_ENTRY_NR - 1) in
  let t := upd_gdt (gdt_set_gate 0 0 0 0 0) t in
  let t := upd_gdt (gdt_set_gate 1 0 0 0x98 0x20) t in
  let t := upd_gdt (gdt_set_gate 2 0 0 0x92 0x00) t in
  let t := upd_gdt (gdt_set_gate 3 0 0 0xF8 0x20) t in
  let t := upd_gdt (gdt_set_gate 4 0 0 0xF2 0x00) t in
  t ← tss_set_gate 5 0xbffff000 0xbffff000 0xbffff000 t;
  let t := Tables (gdt t) (uint16_t limit, gdt_addr) (tr t) (tss_mem t) in
  Some (load_tr 5 t).

End gdt.

(** * Interrupt descriptors *)

Record idt_descriptor := IdtDescriptor {
  i_base_low : Z;     (** int16_t *)
  i_selector : Z;     (** int16_t *)
  i_ist : Z;          (** int8_t *)
  i_type_attr : Z;    (** int8_t *)
  i_base_middle : Z;  (** int16_t *)
  i_base_high : Z;    (** int32_t *)
  i_zero : Z          (** int32_t *)
}.

Definition gate_word (d : idt_descriptor) : Z :=
  pack [(16, i_base_low d); (16, i_selector d); (8, i_ist d); (8, i_type_attr d); (16, i_base_middle d);
        (32, i_base_high d); (32, i_zero d)].

(** What the processor reads from the sixteen bytes. *)
Definition gate_offset (g : Z) : Z := bf_get 0 16 g + bf_get 48 48 g * 2 ^ 16.
Definition gate_selector (g : Z) : Z := bf_get 16 16 g.
Definition gate_ist (g : Z) : Z := bf_get 32 3 g.
Definition gate_type (g : Z) : Z := bf_get 40 4 g.
Definition gate_dpl (g : Z) : Z := bf_get 45 2 g.
Definition gate_present (g : Z) : Z := bf_get 47 1 g.

Definition IDT_ENTRIES : Z := 256.
Definition zero_descriptor : idt_descriptor := IdtDescriptor 0 0 0 0 0 0 0.
Definition idt_at (idt : gmap Z idt_descriptor) (num : Z) : idt_descriptor := default zero_descriptor (idt !! num).

Definition idt_set_gate (num base selector type ist : Z) (idt : gmap Z idt_descriptor) : gmap Z idt_descriptor :=
  let base := int64_t base in
  <[num := IdtDescriptor (int16_t (Z.land base 0x0FFFF)) (int16_t selector) (int8_t (Z.land (int8_t ist) 0x07))
             (int8_t type) (int16_t (Z.land (Z.shiftr base 16) 0x0FFFF))
             (int32_t (Z.land (Z.shiftr base 32) 0x0FFFFFFFF)) (i_zero (idt_at idt num))]> idt.

(** [isr n] is the address of the stub [isr<n>] of interrupt.asm. [memset] clears all
    entries; the first 34 calls are the loop. *)
Definition idt_install (isr : Z -> Z) (idt : gmap Z idt_descriptor) : gmap Z idt_descriptor :=
  let idt := for_range 0 IDT_ENTRIES (fun i => <[i := zero_descriptor]>) idt in
  let idt := for_range 0 34 (fun i => idt_set_gate i (isr i) 0x08 0x8E 0) idt in
  let idt := idt_set_gate 0x77 (isr 1) 0x08 0x8E 0 idt in
  idt_set_gate 0x80 (isr 128) 0x08 0xEE 0 idt.

(** * Reading what was written *)

Lemma width_nonneg l : Forall (fun f => 0 <= fst f) l -> 0 <= width l.
Proof. induction 1; simpl; lia. Qed.

(** Part of a field, by the fields before it. *)
Lemma pack_get l w v r o n :
  Forall (fun f => 0 <= fst f) l -> 0 <= o -> 0 <= n -> o + n <= w ->
  bf_get (width l + o) n (pack (l ++ (w, v) :: r)) = bf_get o n v.
Proof.
  intros Hl Ho Hn Hw. induction Hl as [|[w0 v0] l Hw0 Hl IH]; simpl in *.
  - rewrite <- (bf_get_uwrap o n w (_ + _)), <- (bf_get_uwrap o n w v) by lia. f_equal. unfold uwrap.
    by rewrite (Z.mul_comm (2 ^ w)), Z.mod_add, Z.mod_mod by lia.
  - rewrite <- IH. pose proof (width_nonneg l Hl). rewrite !bf_get_div, !Z.pow_add_r by lia.
    rewrite <- !Z.mul_assoc, <- (Z.div_div _ (2 ^ w0)) by lia. do 2 f_equal.
    rewrite (Z.mul_comm (2 ^ w0)), Z.div_add by lia.
    rewrite (Z.div_small (v0 mod _)) by (apply Z.mod_pos_bound; lia). lia.
Qed.

(** [pack_field k] rewrites the only reference to the [k]-th field of a packed word. *)
Ltac pack_field k :=
  match goal with
  | |- context [bf_get ?a ?n (pack ?fs)] =>
      let f := eval cbn in (drop k fs) in
      match f with
      | (?w, ?v) :: ?r =>
          let l := eval cbn in (take k fs) in
          let o := eval vm_compute in (a - width l) in
          replace (bf_get a n (pack fs)) with (bf_get o n v)
            by (symmetry; apply (pack_get l w v r o n); [repeat constructor; simpl; lia | lia ..])
      end
  end.

#[local] Ltac strip := unfold int8_t, int16_t, int32_t, int64_t; repeat (rewrite bf_get_swrap by lia).

Section entry.
Context (base limit access granularity : Z).
#[local] Abbreviation e := (entry_word (make_entry base limit access granularity)).

Lemma entry_fields :
  seg_limit e = limit mod 2 ^ 20 /\ seg_base e = base mod 2 ^ 32 /\
  seg_access e = access mod 2 ^ 8 /\ seg_flags e = bf_get 4 4 granularity.
Proof.
  unfold seg_limit, seg_base, seg_access, seg_flags, entry_word, make_entry.
  cbn [limit_low base_low base_middle Descriptors.access Descriptors.granularity base_high]. split_and!.
  - pack_field 0%nat. pack_field 4%nat. strip. rewrite bf_get_lor. strip.
    rewrite !bf_get_masked, bf_get_masked_off, Z.lor_0_r, bf_get_shiftr by (done || lia).
    rewrite (bf_get_join 0 16 4) by lia. by rewrite bf_get_low by lia.
  - rewrite <- (bf_get_join 16 16 8) by lia. pack_field 1%nat. pack_field 2%nat. pack_field 5%nat. strip.
    rewrite !bf_get_masked, !bf_get_shiftr by (done || lia). simpl (16 + 0). simpl (24 + 0).
    rewrite (bf_get_join 0 16 8), (bf_get_join 0 24 8) by lia. by rewrite bf_get_low by lia.
  - pack_field 3%nat. by rewrite bf_get_low by lia.
  - pack_field 4%nat. strip. rewrite bf_get_lor. strip.
    rewrite bf_get_masked_off, Z.lor_0_l, bf_get_masked by done. done.
Qed.
End entry.

(** An interrupt gate. *)
Lemma gate_fields base selector type ist idt num :
  let g := gate_word (idt_at (idt_set_gate num base selector type ist idt) num) in
  gate_offset g = base mod 2 ^ 64 /\ gate_selector g = selector mod 2 ^ 16 /\ gate_ist g = ist mod 8 /\
  gate_type g = bf_get 0 4 type /\ gate_dpl g = bf_get 5 2 type /\ gate_present g = bf_get 7 1 type.
Proof.
  cbv zeta. unfold idt_at, idt_set_gate. rewrite lookup_insert_eq. simpl default.
  unfold gate_offset, gate_selector, gate_ist, gate_type, gate_dpl, gate_present, gate_word.
  cbn [i_base_low i_selector i_ist i_type_attr i_base_middle i_base_high i_zero]. split_and!.
  - rewrite <- (bf_get_join 48 16 32) by lia. pack_field 0%nat. pack_field 4%nat. pack_field 5%nat. strip.
    rewrite !bf_get_masked, !bf_get_shiftr by (done || lia). strip. simpl (16 + 0). simpl (32 + 0).
    rewrite (bf_get_join 16 16 32), (bf_get_join 0 16 48) by lia. by rewrite bf_get_low by lia.
  - pack_field 1%nat. strip. by rewrite bf_get_low by lia.
  - pack_field 2%nat. strip. rewrite bf_get_masked by done. strip. by rewrite bf_get_low by lia.
  - pack_field 3%nat. by strip.
  - pack_field 3%nat. by strip.
  - pack_field 3%nat. by strip.
Qed.

(** * The tables *)

Lemma gdt_at_eq num e gdt : gdt_at (<[num := e]> gdt) num = e.
Proof. unfold gdt_at. by rewrite lookup_insert_eq. Qed.

Lemma gdt_at_ne num n e gdt : n <> num -> gdt_at (<[num := e]> gdt) n = gdt_at gdt n.
Proof. intros. unfold gdt_at. by rewrite lookup_insert_ne. Qed.

Lemma idt_gate_ne num n base selector type ist idt :
  n <> num -> idt_at (idt_set_gate num base selector type ist idt) n = idt_at idt n.
Proof. intros. unfold idt_at, idt_set_gate. by rewrite lookup_insert_ne. Qed.

Lemma idt_gate_same num base selector type ist idt idt' :
  idt_at idt' num = idt_at idt num ->
  idt_at (idt_set_gate num base selector type ist idt') num = idt_at (idt_set_gate num base selector type ist idt) num.
Proof. intros E. unfold idt_set_gate. rewrite E. unfold idt_at. by rewrite !lookup_insert_eq. Qed.

(** The processor reads back from the entry that [gdt_set_gate] writes the low 20
    bits of the limit, the base, the access byte and the four flags of the
    granularity byte, and no other entry changes. *)
Theorem gdt_set_gate_spec (num base limit access granularity : Z) (gdt : gmap Z gdt_entry) :
  let gdt' := gdt_set_gate num base limit access granularity gdt in
  let d := entry_word (gdt_at gdt' num) in
  seg_limit d = limit mod 2 ^ 20 /\ seg_base d = base mod 2 ^ 32 /\
  seg_access d = access mod 2 ^ 8 /\ seg_flags d = bf_get 4 4 granularity /\
  (forall n, n <> num -> gdt_at gdt' n = gdt_at gdt n).
Proof.
  cbv zeta. unfold gdt_set_gate. rewrite gdt_at_eq.
  destruct (entry_fields (int32_t base) (int32_t limit) (int8_t access) (int8_t granularity)) as (-> & -> & -> & ->).
  unfold int8_t, int32_t. split_and!.
  - rewrite <- !bf_get_low by lia. by rewrite bf_get_swrap by lia.
  - by apply (uwrap_swrap 32).
  - by apply (uwrap_swrap 8).
  - by rewrite bf_get_swrap by lia.
  - intros n Hn. by apply gdt_at_ne.
Qed.

(** The fields of segment descriptors in long mode: present, no system segment,
    executable with the long bit set, or writable data. *)
Definition code_segment (dpl d : Z) : Prop :=
  bf_get 47 1 d = 1 /\ bf_get 45 2 d = dpl /\ bf_get 43 2 d = 3 /\ bf_get 53 2 d = 1.
Definition data_segment (dpl d : Z) : Prop :=
  bf_get 47 1 d = 1 /\ bf_get 45 2 d = dpl /\ bf_get 43 2 d = 2 /\ bf_get 41 1 d = 1.

(** The 64-bit base of a system descriptor of two entries. *)
Definition system_base (lo hi : Z) : Z := seg_base lo + bf_get 0 32 hi * 2 ^ 32.

Lemma high_entry base :
  bf_get 0 32 (entry_word (GdtEntry (int16_t (Z.land (Z.shiftr base 32) 0x0000FFFF))
                             (int16_t (Z.land (Z.shiftr base 48) 0xFFFF)) 0 0 0 0)) = bf_get 32 32 base.
Proof.
  unfold entry_word. cbn [limit_low base_low base_middle access granularity base_high].
  rewrite <- (bf_get_join 0 16 16) by lia. simpl (0 + 16). pack_field 0%nat. pack_field 1%nat. strip.
  rewrite !bf_get_masked, !bf_get_shiftr by (done || lia). simpl (32 + 0). simpl (48 + 0).
  by rewrite (bf_get_join 32 16 16) by lia.
Qed.

Lemma base_halves base : 0 <= base < 2 ^ 64 -> base mod 2 ^ 32 + bf_get 32 32 base * 2 ^ 32 = base.
Proof.
  intros Hb. rewrite <- bf_get_low, (bf_get_join 0 32 32), bf_get_low by lia. by apply Z.mod_small.
Qed.

(** A stack pointer of the task state segment, from its halves. *)
Lemma stack_pointer rsp a m :
  0 <= rsp < 2 ^ 64 -> load32 m a = Z.land rsp 0xFFFFFFFF -> load32 m (a + 4) = Z.shiftr rsp 32 ->
  load64 m a = rsp.
Proof.
  intros Hr Hl Hh. rewrite (load_add m 4 4), Hl. change (Z.of_nat 4) with 4. rewrite Hh.
  change 0xFFFFFFFF with (Z.ones 32). rewrite Z.land_ones, Z.shiftr_div_pow2 by lia. div_lia.
Qed.

(** The four fixed segments. *)
Lemma fixed_segments :
  let word access flags := entry_word (make_entry (int32_t 0) (int32_t 0) (int8_t access) (int8_t flags)) in
  word 0 0 = 0 /\ code_segment 0 (word 0x98 0x20) /\ data_segment 0 (word 0x92 0x00) /\
  code_segment 3 (word 0xF8 0x20) /\ data_segment 3 (word 0xF2 0x00).
Proof. repeat split; vm_compute; reflexivity. Qed.

(** After [gdt_install] the null entry is zero, the kernel's and the user's code
    and data segments are the 64-bit segments of their rings, the task register and
    [gdtr] are loaded, and the system descriptor of two entries leads to
    [tss_entry], whose three stack pointers are the fixed address below the user's
    space. Its limit is [tss_addr + sizeof_tss], cut to 20 bits, not the size less
    one. *)
Theorem gdt_install_spec (gdt_addr tss_addr : Z) (t : tables) (Htss : 0 <= tss_addr < 2 ^ 64) :
  exists t', gdt_install gdt_addr tss_addr t = Some t' /\
    let word n := entry_word (gdt_at (gdt t') n) in
    word 0 = 0 /\ code_segment 0 (word 1) /\ data_segment 0 (word 2) /\
    code_segment 3 (word 3) /\ data_segment 3 (word 4) /\
    system_base (word 5) (word 6) = tss_addr /\ seg_access (word 5) = 0x89 /\
    seg_limit (word 5) = (tss_addr + sizeof_tss) mod 2 ^ 20 /\
    (forall k, 0 <= k < 3 -> load64 (tss_mem t') (tss_addr + 4 + 8 * k) = 0xbffff000) /\
    gdtr t' = (255, gdt_addr) /\ tr t' = 0x28.
Proof.
  unfold gdt_install, tss_set_gate, sizeof_tss.
  destruct (memset_result tss_addr 0 112 (tss_mem t) ltac:(lia)) as (m & Em & _ & _).
  cbn [upd_gdt gdt gdtr tr tss_mem]. rewrite Em. cbn [mbind option_bind]. eexists. split; [reflexivity |].
  cbn [load_tr gdt gdtr tr tss_mem]. unfold gdt_set_ss_gate.
  assert (forall n e5 e6 g, n <> 5 -> n <> 6 -> gdt_at (<[5 := e5]> (<[6 := e6]> g)) n = gdt_at g n) as Hn
    by (intros; by rewrite !gdt_at_ne).
  cbv zeta. change (5 + 1) with 6. rewrite !Hn by done. unfold gdt_set_gate.
  pose proof fixed_segments as Hfixed. cbv zeta in Hfixed. destruct Hfixed as (H0 & H1 & H2 & H3 & H4).
  split_and!.
  - rewrite !gdt_at_ne, gdt_at_eq by lia. exact H0.
  - rewrite !gdt_at_ne, gdt_at_eq by lia. exact H1.
  - rewrite !gdt_at_ne, gdt_at_eq by lia. exact H2.
  - rewrite !gdt_at_ne, gdt_at_eq by lia. exact H3.
  - rewrite gdt_at_eq. exact H4.
  - rewrite (gdt_at_ne 5 6), !gdt_at_eq by lia. unfold system_base. rewrite high_entry.
    destruct (entry_fields (int64_t tss_addr) (int32_t (tss_addr + 112)%word) (int8_t 0x89) (int8_t 0x9F)) as (_ & -> & _ & _).
    unfold int64_t. rewrite bf_get_swrap by lia. rewrite <- bf_get_low, bf_get_swrap, bf_get_low by lia. by apply base_halves.
  - rewrite gdt_at_eq.
    by destruct (entry_fields (int64_t tss_addr) (int32_t (tss_addr + 112)%word) (int8_t 0x89) (int8_t 0x9F)) as (_ & _ & -> & _).
  - rewrite gdt_at_eq.
    destruct (entry_fields (int64_t tss_addr) (int32_t (tss_addr + 112)%word) (int8_t 0x89) (int8_t 0x9F)) as (-> & _ & _ & _).
    rewrite <- !bf_get_low by lia. unfold int32_t, uint64_t. by rewrite bf_get_swrap, bf_get_uwrap by lia.
  - intros k Hk. assert (k = 0 \/ k = 1 \/ k = 2) as [-> | [-> | ->]] by lia.
    + replace (tss_addr + 4 + 8 * 0) with (tss_addr + 4) by lia. apply stack_pointer; [done | |].
      * by rewrite !(load_store_other _ 4 4) by lia; apply load_store_same.
      * replace (tss_addr + 4 + 4) with (tss_addr + 8) by lia.
        by rewrite !(load_store_other _ 4 4) by lia; apply load_store_same.
    + replace (tss_addr + 4 + 8 * 1) with (tss_addr + 12) by lia. apply stack_pointer; [done | |].
      * by rewrite !(load_store_other _ 4 4) by lia; apply load_store_same.
      * replace (tss_addr + 12 + 4) with (tss_addr + 16) by lia.
        by rewrite !(load_store_other _ 4 4) by lia; apply load_store_same.
    + replace (tss_addr + 4 + 8 * 2) with (tss_addr + 20) by lia. apply stack_pointer; [done | |].
      * by apply load_store_same.
      * replace (tss_addr + 20 + 4) with (tss_addr + 24) by lia.
        by rewrite !(load_store_other _ 4 4) by lia; apply load_store_same.
  - f_equal.
  - by vm_compute.
Qed.

(** The vectors with a gate, and the stub each leads to. *)
Definition idt_target (v : Z) : option Z :=
  if v <? 34 then Some v else if v =? 0x77 then Some 1 else if v =? 0x80 then Some 128 else None.

Lemma idt_loop isr idt v :
  0 <= v ->
  idt_at (for_range 0 34 (fun i => idt_set_gate i (isr i) 0x08 0x8E 0) idt) v =
    if v <? 34 then idt_at (idt_set_gate v (isr v) 0x08 0x8E 0 idt) v else idt_at idt v.
Proof.
  intros Hv.
  apply (for_range_ind (fun k idt' =>
    idt_at idt' v = if v <? k then idt_at (idt_set_gate v (isr v) 0x08 0x8E 0 idt) v else idt_at idt v)); [lia | |].
  - by replace (v <? 0) with false by lia.
  - intros j idt' Hj IH. destruct (Z.eqb_spec v j) as [->|Hne].
    + replace (j <? j + 1) with true by lia. replace (j <? j) with false in IH by lia.
      by apply idt_gate_same.
    + rewrite idt_gate_ne by done. rewrite IH.
      destruct (Z.ltb_spec v j), (Z.ltb_spec v (j + 1)); done || lia.
Qed.

Lemma idt_clear idt v :
  0 <= v < IDT_ENTRIES -> idt_at (for_range 0 IDT_ENTRIES (fun i => <[i := zero_descriptor]>) idt) v = zero_descriptor.
Proof.
  intros Hv.
  enough (v < IDT_ENTRIES -> idt_at (for_range 0 IDT_ENTRIES (fun i => <[i := zero_descriptor]>) idt) v = zero_descriptor) by tauto.
  apply (for_range_ind (fun k idt' => v < k -> idt_at idt' v = zero_descriptor)); [done | lia |].
  intros j idt' Hj IH Hlt. unfold idt_at in *. destruct (decide (j = v)) as [->|].
  - by rewrite lookup_insert_eq.
  - rewrite lookup_insert_ne by done. apply IH. lia.
Qed.

(** After [idt_install] the gates of vectors 0 to 33, 0x77 and 0x80 are present
    interrupt gates of the kernel's code segment to the stub of [idt_target], the
    system call alone may be raised from ring 3, and no other vector has a gate. *)
Theorem idt_install_spec (isr : Z -> Z) (idt : gmap Z idt_descriptor) (v : Z) (Hv : 0 <= v < IDT_ENTRIES) :
  let g := gate_word (idt_at (idt_install isr idt) v) in
  match idt_target v with
  | Some n =>
      gate_offset g = isr n mod 2 ^ 64 /\ gate_selector g = 0x08 /\ gate_ist g = 0 /\ gate_type g = 0xE /\
      gate_dpl g = (if v =? 0x80 then 3 else 0) /\ gate_present g = 1
  | None => gate_present g = 0
  end.
Proof.
  cbv zeta. unfold idt_install, idt_target.
  set (idt0 := for_range 0 IDT_ENTRIES (fun i => <[i := zero_descriptor]>) idt).
  assert (forall n, gate_present (gate_word zero_descriptor) = 0) as Hz by done.
  destruct (Z.eqb_spec v 0x80) as [->|Hne1].
  { change (0x80 <? 34) with false. change (0x80 =? 0x77) with false. cbv iota. apply gate_fields. }
  rewrite idt_gate_ne by done. destruct (Z.eqb_spec v 0x77) as [->|Hne2].
  { change (0x77 <? 34) with false. cbv iota. apply gate_fields. }
  rewrite idt_gate_ne by done. rewrite idt_loop by lia. destruct (Z.ltb_spec v 34) as [Hlt|Hge].
  - apply gate_fields.
  - unfold idt0. by rewrite idt_clear.
Qed.

(** * Concrete tables *)

Definition demo_tables : tables := Tables ∅ (0, 0) 0 ∅.

Lemma gdt_install_spec_witness :
  exists t', gdt_install 0x100000 0xc0101000 demo_tables = Some t' /\
    system_base (entry_word (gdt_at (gdt t') 5)) (entry_word (gdt_at (gdt t') 6)) = 0xc0101000.
Proof.
  destruct (gdt_install_spec 0x100000 0xc0101000 demo_tables ltac:(lia)) as (t' & E & _ & _ & _ & _ & _ & H & _).
  by exists t'.
Defined.

Lemma idt_install_spec_witness :
  let g := gate_word (idt_at (idt_install (fun n => 0xc0100000 + 16 * n) ∅) 0x80) in
  gate_offset g = 0xc0100800 /\ gate_dpl g = 3.
Proof.
  destruct (idt_install_spec (fun n => 0xc0100000 + 16 * n) ∅ 0x80 ltac:(done)) as (H & _ & _ & _ & Hd & _).
  split; [exact H | exact Hd].
Defined.
