(* ===== verification/Keyboard.v ===== *)
(** The keyboard (kernel/keyboard.c): the interrupt handler, the key map, and
    [readline], which sleeps in [get_char] until the handler wakes it. *)

From S2P Require Import Prelude Words Memory Monitor.
#[local] Open Scope Z_scope.

(** * State *)

(** The string [key], by character codes. *)
Definition key : list Z :=
  [35; 35; 49; 50; 51; 52; 53; 54; 55; 56; 57; 48; 45; 61; 35; 9;
   81; 87; 69; 82; 84; 89; 85; 73; 79; 80; 91; 93; 10; 35;
   65; 83; 68; 70; 71; 72; 74; 75; 76; 59; 39; 96; 35; 92;
   90; 88; 67; 86; 66; 78; 77; 44; 46; 47; 35; 42; 35; 32;
   35; 35; 35; 35; 35; 35; 35; 35; 35; 35; 35; 35; 35; 35;
   55; 56; 57; 45; 52; 53; 54; 43; 49; 50; 51; 35; 35; 35; 35; 35; 35; 35].

(** [key_len = strlen(key)]: this [strlen] counts the terminator. *)
Definition key_len : Z := Z.of_nat (length key) + 1.

Record kbd := Kbd {
  occupant : Z;
  press_code : Z;
  break_code : Z;
  new_press : Z;
  new_break : Z
}.

Definition set_new_press (v : Z) (k : kbd) : kbd := Kbd (occupant k) (press_code k) (break_code k) v (new_break k).
Definition set_occupant (v : Z) (k : kbd) : kbd := Kbd v (press_code k) (break_code k) (new_press k) (new_break k).

(** The calls of other components, in order. *)
Inductive kcall :=
  | Lock_keyboard
  | Unlock_keyboard
  | Change_task_status (pid status : Z)
  | Yield.  (** [int $0x20], the scheduler's vector *)

(** Where the process that reads a line is: at the start of [get_char], behind the
    [int $0x20] in it, or out of [readline]. *)
Inductive phase := At_get_char | In_get_char | Finished.

(** The keyboard, the reading process (its phase, the [i] of [readline] and whether
    its status is that of a blocked task), memory, the screen, and the calls. *)
Record ksys := KSys {
  kb : kbd;
  reader : phase;
  line_i : Z;
  asleep : bool;
  kmem : mem;
  screen : monitor;
  calls : list kcall
}.

Definition upd_kbd (f : kbd -> kbd) (s : ksys) : ksys :=
  KSys (f (kb s)) (reader s) (line_i s) (asleep s) (kmem s) (screen s) (calls s).
Definition set_reader (p : phase) (sleeping : bool) (s : ksys) : ksys :=
  KSys (kb s) p (line_i s) sleeping (kmem s) (screen s) (calls s).
Definition call (l : list kcall) (s : ksys) : ksys :=
  KSys (kb s) (reader s) (line_i s) (asleep s) (kmem s) (screen s) (calls s ++ l).

(** * Operations *)

Definition keyboard_init : kbd := Kbd 0 0 0 0 0.

(** [code] is what [inb(0x60)] returns. *)
Definition keyboard_handler (code : Z) (s : ksys) : ksys :=
  let scancode := int8_t code in
  let s := if negb (Z.land scancode 0x80 =? 0)
           then upd_kbd (fun k => Kbd (occupant k) (press_code k) scancode (new_press k) 1) s
           else upd_kbd (fun k => Kbd (occupant k) scancode (break_code k) 1 (new_break k)) s in
  if negb (occupant (kb s) =? 0) && negb (new_press (kb s) =? 0) then
    call [Change_task_status (occupant (kb s)) 0; Yield] (set_reader (reader s) false s)
  else s.

(** [None] is a read outside [key]. *)
Definition recognize_scancode (scancode : Z) : option Z :=
  if negb (scancode =? 0) && (scancode <? key_len)
  then (key ++ [0]) !! Z.to_nat (uint8_t scancode)
  else Some 0.

Section readline.
Context (buffer : Z).

(** [readline] when it has the lock, up to its first [get_char]; [owner] is what
    [get_lock_owner] returns. *)
Definition readline_start (owner : Z) (s : ksys) : ksys :=
  KSys (Kbd owner (press_code (kb s)) (break_code (kb s)) 0 0) At_get_char 0 (asleep s) (kmem s) (screen s)
    (calls s ++ [Lock_keyboard]).

(** The end of [readline]. *)
Definition readline_end (s : ksys) : ksys :=
  let '(i, m) := if negb (int8_t (load8 (kmem s) (buffer + line_i s)) =? 10)
                 then (line_i s + 1, store8 (buffer + line_i s) 10 (kmem s)) else (line_i s, kmem s) in
  let m := store8 (buffer + i) 0 m in
  KSys (set_occupant 0 (kb s)) Finished i (asleep s) m (putchar 10 (screen s)) (calls s ++ [Unlock_keyboard]).

(** The test of the loop on the character, and the body. *)
Definition readline_char (c : Z) (s : ksys) : ksys :=
  if negb (c =? 10) && (line_i s <? 79) then
    KSys (kb s) At_get_char (line_i s + 1) (asleep s) (store8 (buffer + line_i s) c (kmem s)) (putchar c (screen s)) (calls s)
  else readline_end s.

(** [get_char] from [new_press = 0] on. *)
Definition get_char_end (s : ksys) : option ksys :=
  let s := upd_kbd (set_new_press 0) s in
  c ← recognize_scancode (press_code (kb s));
  Some (readline_char c s).

(** The reading process until it sleeps or leaves [readline]; [None] when it cannot
    run. *)
Definition reader_segment (s : ksys) : option ksys :=
  match reader s with
  | At_get_char =>
      if new_press (kb s) =? 0
      then Some (call [Change_task_status (occupant (kb s)) 1; Yield] (set_reader In_get_char true s))
      else get_char_end s
  | In_get_char => if asleep s then None else get_char_end s
  | Finished => None
  end.

Definition run_reader (s : ksys) : option ksys :=
  s ← reader_segment s;
  match reader s with At_get_char => reader_segment s | _ => Some s end.

(** What happens to the system: an interrupt, or the reader is scheduled. *)
Inductive kevent := Key (code : Z) | Run.

Definition kstep (e : kevent) (s : ksys) : option ksys :=
  match e with
  | Key code => Some (keyboard_handler code s)
  | Run => run_reader s
  end.

Definition ksteps (l : list kevent) (s : ksys) : option ksys := foldl (fun s e => s ← s; kstep e s) (Some s) l.

End readline.

(** * The key map *)

Definition press (k : Z) : Prop := 0 < k < 128.
Definition release (b : Z) : Prop := 128 <= b < 256.

Lemma scancode_check :
  forallb (fun n => (Z.land (int8_t n) 0x80 =? if n <? 128 then 0 else 128) &&
                    (if n <? 128 then (int8_t n =? n) else true)) (seqZ 0 256) = true.
Proof. by vm_compute. Qed.

Lemma scancode_bit code :
  0 <= code < 256 ->
  Z.land (int8_t code) 0x80 = (if code <? 128 then 0 else 128) /\ (code < 128 -> int8_t code = code).
Proof.
  intros Hc. pose proof scancode_check as H. rewrite forallb_forall in H.
  specialize (H code ltac:(apply list_elem_of_In, elem_of_seqZ; lia)). apply andb_prop in H as [H1 H2].
  apply Z.eqb_eq in H1. split; [done |]. intros Hlt. rewrite (proj2 (Z.ltb_lt code 128)) in H2 by done. by apply Z.eqb_eq.
Qed.

Lemma key_map_check :
  forallb (fun n => match recognize_scancode n with Some c => (0 <=? c) && (c <? 128) | None => false end)
    (seqZ 0 128) = true.
Proof. by vm_compute. Qed.

(** Every press has a character of the key map, or 0. *)
Lemma key_map k : 0 <= k < 128 -> exists c, recognize_scancode k = Some c /\ 0 <= c < 128.
Proof.
  intros Hk. pose proof key_map_check as H. rewrite forallb_forall in H.
  specialize (H k ltac:(apply list_elem_of_In, elem_of_seqZ; lia)).
  destruct (recognize_scancode k) as [c|]; [| done]. exists c. split; [done |]. lia.
Qed.

(** * [readline] *)

(** The presses of the characters [cs], each followed by a run of the reader before
    the next; keys may be released at any time. *)
Inductive paced : list kevent -> list Z -> Prop :=
  | paced_nil : paced [] []
  | paced_release b l cs : release b -> paced l cs -> paced (Key b :: l) cs
  | paced_press k c bs l cs :
      press k -> recognize_scancode k = Some c -> Forall release bs -> paced l cs ->
      paced (Key k :: (Key <$> bs) ++ Run :: l) (c :: cs).

Section session.
Context (buffer owner : Z) (s0 : ksys) (t : term) (Howner : owner <> 0) (Hscreen : shows t (screen s0)).

(** The buffer starts with [cs], and nothing else below [n] has changed. *)
Definition holds_line (cs : list Z) (n : Z) (m : mem) : Prop :=
  (forall k c, cs !! k = Some c -> load8 m (buffer + Z.of_nat k) = c) /\
  same_outside buffer (buffer + n) (kmem s0) m.

(** The reader sleeps in [get_char] and has stored [cs]. *)
Record waiting (cs : list Z) (s : ksys) : Prop := {
  wt_occupant : occupant (kb s) = owner;
  wt_press : new_press (kb s) = 0;
  wt_reader : reader s = In_get_char;
  wt_asleep : asleep s = true;
  wt_i : line_i s = Z.of_nat (length cs);
  wt_line : holds_line cs (Z.of_nat (length cs)) (kmem s);
  wt_screen : shows (foldl (flip term_put) t cs) (screen s)
}.

(** A key has been pressed and the reader is awake. *)
Record woken (k : Z) (cs : list Z) (s : ksys) : Prop := {
  wk_occupant : occupant (kb s) = owner;
  wk_press : new_press (kb s) <> 0;
  wk_code : press_code (kb s) = k;
  wk_reader : reader s = In_get_char;
  wk_asleep : asleep s = false;
  wk_i : line_i s = Z.of_nat (length cs);
  wk_line : holds_line cs (Z.of_nat (length cs)) (kmem s);
  wk_screen : shows (foldl (flip term_put) t cs) (screen s)
}.

(** The line has been read. The newline is missing when the buffer held one there. *)
Record finished (cs : list Z) (s : ksys) : Prop := {
  fi_reader : reader s = Finished;
  fi_occupant : occupant (kb s) = 0;
  fi_line : forall k c, cs !! k = Some c -> load8 (kmem s) (buffer + Z.of_nat k) = c;
  fi_end : let n := buffer + Z.of_nat (length cs) in
    if load8 (kmem s0) n =? 10 then load8 (kmem s) n = 0
    else load8 (kmem s) n = 10 /\ load8 (kmem s) (n + 1) = 0;
  fi_bounds : same_outside buffer (buffer + 81) (kmem s0) (kmem s);
  fi_screen : shows (foldl (flip term_put) t (cs ++ [10])) (screen s)
}.

Lemma handler_release b cs s : release b -> waiting cs s -> waiting cs (keyboard_handler b s).
Proof.
  intros Hb [H1 H2 H3 H4 H5 H6 H7]. unfold keyboard_handler, release in *.
  destruct (scancode_bit b ltac:(lia)) as [-> _]. rewrite (proj2 (Z.ltb_ge b 128)) by lia. cbn [negb Z.eqb].
  cbn [upd_kbd kb occupant new_press]. rewrite H2, andb_false_r. by split.
Qed.

Lemma handler_press k cs s : press k -> waiting cs s -> woken k cs (keyboard_handler k s).
Proof.
  intros Hk [H1 H2 H3 H4 H5 H6 H7]. unfold keyboard_handler, press in *.
  destruct (scancode_bit k ltac:(lia)) as [-> E]. rewrite (proj2 (Z.ltb_lt k 128)), E by lia. cbn [negb Z.eqb].
  cbn [upd_kbd kb occupant new_press]. rewrite H1, (proj2 (Z.eqb_neq owner 0)) by done. by split.
Qed.

Lemma handler_release_woken b k cs s : release b -> woken k cs s -> woken k cs (keyboard_handler b s).
Proof.
  intros Hb [H1 H2 H3 H4 H5 H6 H7 H8]. unfold keyboard_handler, release in *.
  destruct (scancode_bit b ltac:(lia)) as [-> _]. rewrite (proj2 (Z.ltb_ge b 128)) by lia. cbn [negb Z.eqb].
  cbn [upd_kbd kb occupant new_press]. rewrite H1, (proj2 (Z.eqb_neq owner 0)), (proj2 (Z.eqb_neq (new_press _) 0)) by done.
  by split.
Qed.

Lemma handler_finished b cs s : release b -> finished cs s -> finished cs (keyboard_handler b s).
Proof.
  intros Hb [H1 H2 H3 H4 H5 H6]. unfold keyboard_handler, release in *.
  destruct (scancode_bit b ltac:(lia)) as [-> _]. rewrite (proj2 (Z.ltb_ge b 128)) by lia. cbn [negb Z.eqb].
  cbn [upd_kbd kb occupant new_press]. rewrite H2. by split.
Qed.

Lemma holds_snoc cs c m :
  holds_line cs (Z.of_nat (length cs)) m -> 0 <= c < 128 ->
  holds_line (cs ++ [c]) (Z.of_nat (length (cs ++ [c]))) (store8 (buffer + Z.of_nat (length cs)) c m).
Proof.
  intros [Hc Ho] Hb. rewrite length_app. cbn [length]. split.
  - intros k d Hk. destruct (decide (k = length cs)) as [->|].
    + rewrite lookup_app_r, Nat.sub_diag in Hk by lia. injection Hk as <-.
      rewrite load8_store8_eq. apply Z.mod_small. lia.
    + pose proof (lookup_lt_Some _ _ _ Hk) as Hlt. rewrite length_app in Hlt. cbn [length] in Hlt.
      rewrite load8_store8_ne by lia. apply Hc. rewrite lookup_app_l in Hk by lia. done.
  - intros a Ha. rewrite load8_store8_ne by lia. apply Ho. lia.
Qed.

Lemma int8_newline v : 0 <= v < 256 -> (int8_t v =? 10) = (v =? 10).
Proof.
  intros Hv. unfold int8_t, swrap. change (2 ^ 8) with 256. change (2 ^ (8 - 1)) with 128. cbv zeta.
  rewrite Z.mod_small by done. destruct (Z.ltb_spec v 128); zbool_cases.
Qed.

Lemma readline_end_run cs s :
  line_i s = Z.of_nat (length cs) -> Z.of_nat (length cs) <= 79 -> holds_line cs (Z.of_nat (length cs)) (kmem s) ->
  shows (foldl (flip term_put) t cs) (screen s) -> finished cs (readline_end buffer s).
Proof.
  intros Hi Hl [Hc Ho] Hs. unfold readline_end. rewrite Hi, int8_newline by apply load8_bounds.
  assert (load8 (kmem s) (buffer + Z.of_nat (length cs)) = load8 (kmem s0) (buffer + Z.of_nat (length cs))) as Eold
    by (apply Ho; lia).
  assert (shows (foldl (flip term_put) t (cs ++ [10])) (putchar 10 (screen s))) as Hshow
    by (rewrite foldl_app; apply (putchar_run _ 10 _ Hs); lia).
  assert (forall k c, cs !! k = Some c -> (k < length cs)%nat) as Hlt by (intros k c; apply lookup_lt_Some).
  rewrite Eold.
  destruct (Z.eqb_spec (load8 (kmem s0) (buffer + Z.of_nat (length cs))) 10) as [E|Hne]; cbn [negb]; split;
    cbn [reader kb set_occupant occupant kmem screen]; try done; cbv zeta.
  - intros k c Hk. pose proof (Hlt _ _ Hk). rewrite load8_store8_ne by lia. by apply Hc.
  - rewrite (proj2 (Z.eqb_eq _ _) E). apply load8_store8_eq.
  - intros a Ha. rewrite load8_store8_ne by lia. apply Ho. lia.
  - intros k c Hk. pose proof (Hlt _ _ Hk). rewrite !load8_store8_ne by lia. by apply Hc.
  - rewrite (proj2 (Z.eqb_neq _ _) Hne). rewrite <- Z.add_assoc, load8_store8_eq. split; [| done].
    rewrite load8_store8_ne by lia. apply load8_store8_eq.
  - intros a Ha. rewrite !load8_store8_ne by lia. apply Ho. lia.
Qed.

(** The reader takes the character and sleeps again, or ends the line. *)
Lemma run_woken k c cs s :
  woken k cs s -> recognize_scancode k = Some c -> 0 <= c < 128 -> Z.of_nat (length cs) <= 79 ->
  exists s', run_reader buffer s = Some s' /\
    if negb (c =? 10) && (Z.of_nat (length cs) <? 79) then waiting (cs ++ [c]) s' else finished cs s'.
Proof.
  intros [H1 H2 H3 H4 H5 H6 H7 H8] Hk Hc Hl. unfold run_reader, reader_segment. rewrite H4, H5.
  unfold get_char_end. cbn [upd_kbd kb set_new_press press_code]. rewrite H3, Hk. cbn [mbind option_bind].
  unfold readline_char. cbn [upd_kbd line_i]. rewrite H6.
  destruct (negb (c =? 10) && (Z.of_nat (length cs) <? 79))%bool eqn:E.
  - cbn [reader kb set_new_press new_press Z.eqb]. eexists. split; [reflexivity |].
    split; cbn [call set_reader kb reader asleep line_i kmem screen set_new_press occupant new_press]; try done.
    + rewrite length_app. cbn [length]. lia.
    + by apply holds_snoc.
    + rewrite foldl_app. apply (putchar_run _ c _ H8). lia.
  - assert (forall s, reader (readline_end buffer s) = Finished) as -> by (intros; unfold readline_end; by case_match).
    eexists. split; [reflexivity |]. by apply readline_end_run.
Qed.

Lemma releases_woken k cs bs s :
  Forall release bs -> woken k cs s ->
  exists s', ksteps buffer (Key <$> bs) s = Some s' /\ woken k cs s'.
Proof.
  intros Hbs. revert s; induction Hbs as [|b bs Hb Hbs IH]; intros s Hs; [by exists s |].
  exact (IH _ (handler_release_woken b k cs s Hb Hs)).
Qed.

Lemma ksteps_app l1 l2 s : ksteps buffer (l1 ++ l2) s = (s' ← ksteps buffer l1 s; ksteps buffer l2 s').
Proof.
  unfold ksteps. rewrite foldl_app. destruct (foldl _ (Some s) l1) as [s'|]; [done |]. simpl.
  induction l2; simpl; done.
Qed.

(** The rest of a session. *)
Lemma session_run l rest : paced l rest -> forall cs c pre s,
  rest = pre ++ [c] -> Forall (fun x => x <> 10) pre -> (c = 10 \/ (length cs + length pre = 79)%nat) ->
  (length cs + length pre <= 79)%nat -> waiting cs s ->
  exists s', ksteps buffer l s = Some s' /\ finished (cs ++ pre) s'.
Proof.
  induction 1 as [|b l rest Hb Hp IH|k d bs l rest Hk Hd Hbs Hp IH]; intros cs c pre s Er Hpre Hc Hl Hs.
  - by destruct pre.
  - exact (IH cs c pre _ Er Hpre Hc Hl (handler_release b cs s Hb Hs)).
  - destruct (releases_woken k cs bs _ Hbs (handler_press k cs s Hk Hs)) as (s1 & E1 & Hs1).
    destruct (key_map k) as (d' & Ed & Hd'); [unfold press in Hk; lia |]. rewrite Hd in Ed. injection Ed as <-.
    destruct (run_woken k d cs s1 Hs1 Hd Hd' ltac:(lia)) as (s2 & E2 & Hs2).
    change (Key k :: (Key <$> bs) ++ Run :: l) with ([Key k] ++ (Key <$> bs) ++ [Run] ++ l).
    rewrite ksteps_app. change (ksteps buffer [Key k] s) with (Some (keyboard_handler k s)). cbn [mbind option_bind].
    rewrite ksteps_app, E1. cbn [mbind option_bind].
    rewrite ksteps_app. change (ksteps buffer [Run] s1) with (run_reader buffer s1). rewrite E2. cbn [mbind option_bind].
    destruct pre as [|p pre]; simpl in Er; injection Er as -> ->.
    + assert (negb (c =? 10) && (Z.of_nat (length cs) <? 79) = false)%bool as E by (destruct Hc as [->|Hc]; [done |]; simpl in Hc; rewrite andb_false_iff; right; lia).
      rewrite E in Hs2.
      rewrite app_nil_r. clear - Hp Hs2. remember [] as none eqn:En.
      revert s2 Hs2; induction Hp as [|b l cs' Hb Hp IH|]; intros s2 Hs2; [by exists s2 | | done].
      exact (IH En _ (handler_finished b cs s2 Hb Hs2)).
    + apply Forall_cons in Hpre as [Hne Hpre]. simpl in Hl, Hc.
      assert (negb (p =? 10) && (Z.of_nat (length cs) <? 79) = true)%bool as E
        by (rewrite (proj2 (Z.eqb_neq p 10)) by done; simpl; lia).
      rewrite E in Hs2.
      destruct (IH (cs ++ [p]) c pre s2) as (s3 & E3 & Hs3); [done | done | | | done |];
        [rewrite length_app; simpl; lia .. |].
      exists s3. split; [exact E3 |]. by rewrite <- app_assoc in Hs3.
Qed.

(** The start of [readline]: it sleeps with an empty line. *)
Lemma start_run : exists s, run_reader buffer (readline_start owner s0) = Some s /\ waiting [] s.
Proof.
  eexists. split; [reflexivity |]. by split.
Qed.

End session.

(** C27: a reader that is scheduled after every key press returns the characters up to
    the newline, at most 79, echoes them, writes only the 81 bytes of the buffer and
    leaves the keyboard free. The line ends in a newline and a zero, unless the
    buffer already held a newline at that place: then the zero replaces it. *)
Theorem readline_spec (buffer owner : Z) (s0 : ksys) (t : term) (l : list kevent) (pre : list Z) (c : Z)
  (Howner : owner <> 0) (Hscreen : shows t (screen s0)) (Hkeys : paced l (pre ++ [c]))
  (Hpre : Forall (fun x => x <> 10) pre) (Hlen : (length pre <= 79)%nat)
  (Hlast : c = 10 \/ (length pre = 79)%nat) :
  exists s', (s ← run_reader buffer (readline_start owner s0); ksteps buffer l s) = Some s' /\
    finished buffer s0 t pre s'.
Proof.
  destruct (start_run buffer owner s0 t Hscreen) as (s & -> & Hs). cbn [mbind option_bind].
  exact (session_run buffer owner s0 t Howner l _ Hkeys [] c pre s eq_refl Hpre Hlast Hlen Hs).
Qed.

(** Two presses before the reader runs: nothing of the first is left. *)
Lemma press_overwrites k1 k2 s :
  press k1 -> press k2 -> occupant (kb s) <> 0 ->
  let s1 := keyboard_handler k2 (keyboard_handler k1 s) in
  let s2 := keyboard_handler k2 s in
  kb s1 = kb s2 /\ reader s1 = reader s2 /\ line_i s1 = line_i s2 /\ asleep s1 = asleep s2 /\
  kmem s1 = kmem s2 /\ screen s1 = screen s2.
Proof.
  intros H1 H2 Ho. unfold press in *. cbv zeta. unfold keyboard_handler.
  destruct (scancode_bit k1 ltac:(lia)) as [-> E1], (scancode_bit k2 ltac:(lia)) as [-> E2].
  rewrite (proj2 (Z.ltb_lt k1 128)), (proj2 (Z.ltb_lt k2 128)) by lia. cbn [negb Z.eqb].
  cbn [upd_kbd kb occupant new_press call set_reader].
  assert ((occupant (kb s) =? 0) = false) as E by (by apply Z.eqb_neq).
  rewrite E. change (negb (1 =? 0)) with true. cbn [negb andb call set_reader upd_kbd kb occupant]. rewrite E.
  by split_and!.
Qed.

(** * A concrete session *)

Definition demo_keyboard : ksys := KSys keyboard_init Finished 0 false ∅ demo_monitor [].

(** The keys H and I, with their releases, and return. *)
Definition demo_typing : list kevent := [Key 0x23; Run; Key 0xA3; Key 0x17; Key 0x97; Run; Key 0x1C; Run].

Lemma demo_paced : paced demo_typing [72; 73; 10].
Proof.
  apply (paced_press 0x23 72 []); [unfold press; lia | done | constructor |].
  apply paced_release; [unfold release; lia |].
  apply (paced_press 0x17 73 [0x97]); [unfold press; lia | done | by repeat constructor |].
  apply (paced_press 0x1C 10 []); [unfold press; lia | done | constructor | constructor].
Qed.

Lemma readline_spec_witness :
  exists s', (s ← run_reader 5000 (readline_start 7 demo_keyboard); ksteps 5000 demo_typing s) = Some s' /\
    load8 (kmem s') 5000 = 72 /\ load8 (kmem s') 5001 = 73 /\ load8 (kmem s') 5002 = 10 /\ load8 (kmem s') 5003 = 0.
Proof.
  destruct (readline_spec 5000 7 demo_keyboard demo_term demo_typing [72; 73] 10 ltac:(done) demo_shows demo_paced
    ltac:(by repeat constructor) ltac:(simpl; lia) ltac:(by left)) as (s' & E & Hf).
  exists s'. split; [exact E |].
  split_and!; [exact (fi_line _ _ _ _ _ Hf 0%nat 72 eq_refl) | exact (fi_line _ _ _ _ _ Hf 1%nat 73 eq_refl) | |];
    apply (fi_end _ _ _ _ _ Hf).
Defined.
