(* ===== verification/Shell.v ===== *)
(** The user programs (user): the shell, which splits a line into words and chooses the
    command, over any lines that are typed, and what the others ask of the kernel. The library
    functions are those of CLib.v. *)

From S2P Require Import Prelude Words Console Memory CLib.
#[local] Open Scope Z_scope.

(** * Definitions *)

(** The locals of [token] that its loop changes. *)
Record scan := Scan {
  s_i : Z;
  s_start : Z;
  s_end : Z;
  s_words : Z;
  s_in_word : bool
}.

(** One round of the loop; [inr] leaves it. [len] is [strlen(str)]. *)
Definition scan_step (m : mem) (str num len : Z) (st : scan) : scan + scan :=
  let '(Scan i start stop words in_word) := st in
  if i <? len + 1 then
    let c := load8 m (str + i) in
    if (c =? 0) || (c =? 10) || (c =? 32) then
      let st := if in_word then Scan i start i (words + 1) false else st in
      if (c =? 0) || (c =? 10) then inr st
      else if s_words st =? num then inr st
      else inl (Scan (i + 1) (s_start st) (s_end st) (s_words st) (s_in_word st))
    else
      let st := if in_word then st else Scan i i stop words true in
      if words =? num then inr st
      else inl (Scan (i + 1) (s_start st) (s_end st) (s_words st) (s_in_word st))
  else inr st.

(** [token] is a pointer, so that [sizeof(token)] is 8. *)
Definition sizeof_pointer : Z := 8.

Definition token (fuel : nat) (str num tok : Z) (m : mem) : option (Z * mem) :=
  if num =? 0 then Some (0, m)
  else
    len ← strlen fuel m str;
    st ← iter_fuel fuel (scan_step m str num len) (Scan 0 0 0 0 false);
    if negb (s_words st =? num) then
      m ← memset tok 0 sizeof_pointer m;
      Some (tok, m)
    else
      let len := s_end st - s_start st in
      m ← strncpy tok (str + s_start st) len m;
      Some (tok, store8 (tok + len) 0 m).

(** What a round of [main_loop] does to the outside, in order. *)
Inductive shell_event :=
  | Say (text : string)
  | Say_at (str : Z)
  | Fork
  | Exec (filename : Z)
  | Exit
  | Sleep.

(** Whether the loop goes on, ends with [running = 0], or the process is a child that
    has left it by [exec] or [syscall_exit]. *)
Inductive shell_next := Next | Stop | Left.

Section main_loop.
(** The buffers [command] and [args[0]] and the literals of the comparisons. *)
Context (command arg exit_text exec_text : Z).

Definition said (fuel : nat) (m : mem) (str : Z) (what : string) : option (list shell_event) :=
  n ← strlen fuel m str;
  Some (if 1 <? n then [Say what; Say_at str; Say nl] else []).

(** A round of [main_loop] after [readline] has returned [line]. [fork] and [exec] are
    the results of the system calls; [exec] only returns when it fails. *)
Definition shell_round (fuel : nat) (line fork exec : Z) (m : mem) :
    option (list shell_event * shell_next * mem) :=
  m ← memset command 0 81 m;
  m ← memset arg 0 81 m;
  '(_, m) ← token fuel line 1 command m;
  '(_, m) ← token fuel line 2 arg m;
  out1 ← said fuel m command "The command is "%string;
  out2 ← said fuel m arg "The first parameter is "%string;
  n ← strlen fuel m command;
  is_exit ← strncmp m command exit_text n;
  is_exec ← strncmp m command exec_text n;
  let next := if negb (is_exit =? 0) then Stop else Next in
  let out3 := if negb (is_exit =? 0) then [Say ("Exit command" +:+ nl)] else [] in
  if negb (is_exec =? 0) then
    if fork =? 0 then
      if exec =? 0
      then Some (out1 ++ out2 ++ out3 ++ [Fork; Exec arg; Say ("Error." +:+ nl); Exit], Left, m)
      else Some (out1 ++ out2 ++ out3 ++ [Fork; Exec arg], Left, m)
    else Some (out1 ++ out2 ++ out3 ++ [Fork], next, m)
  else Some (out1 ++ out2 ++ out3, next, m).

(** A line as [readline] leaves it in the buffer. *)
Fixpoint store_line (a : Z) (l : list Z) (m : mem) : mem :=
  match l with [] => store8 a 0 m | c :: l => store8 a c (store_line (a + 1) l m) end.

(** [main_loop] over the lines that are typed, each with the results of its [fork] and
    [exec]; after the last it waits for another. *)
Fixpoint main_loop (fuel : nat) (buffer : Z) (inputs : list (list Z * Z * Z)) (m : mem) : option (list shell_event * mem) :=
  match inputs with
  | [] => Some ([], m)
  | (l, fork, exec) :: inputs =>
      '(out, next, m) ← shell_round fuel buffer fork exec (store_line buffer l m);
      match next with
      | Next => '(out', m) ← main_loop fuel buffer inputs m; Some (out ++ out', m)
      | Stop => Some (out ++ [Say ("Exiting..." +:+ nl); Exit], m)
      | Left => Some (out, m)
      end
  end.

End main_loop.

(** ** The other programs *)

(** [main] of hello.c and of fork.c. *)
Definition hello_main : list shell_event := [Say ("Hello World!" +:+ nl); Exit].
Definition fork_main : list shell_event := [Say ("Im a user, hai there!" +:+ nl); Exit].

(** [main] of ping.c up to round [n] of its endless loop; [fork] is what the system call
    returns. *)
Definition ping_main (fork : Z) (n : nat) : list shell_event :=
  Fork :: concat (replicate n [Say (nl +:+ (if fork =? 0 then "Pong!" else "Ping?") +:+ nl); Sleep]).

(** * The words of a line *)

Definition flush (cur : list Z) : list (list Z) := match cur with [] => [] | _ => [cur] end.

(** The words before the first newline, where [cur] has been read of the first. *)
Fixpoint split_words (cur l : list Z) : list (list Z) :=
  match l with
  | [] => flush cur
  | c :: l =>
      if c =? 10 then flush cur
      else if c =? 32 then flush cur ++ split_words [] l
      else split_words (cur ++ [c]) l
  end.

Definition words (l : list Z) : list (list Z) := split_words [] l.

(** * [token] *)

Section scan.
Context (m : mem) (str num : Z) (l : list Z) (Hstr : cstr m str l) (Hnum : 0 < num).
#[local] Abbreviation len := (Z.of_nat (length l) + 1).

(** Where the loop stands when [rest] is unread: [cur] is the word it is in. *)
Record scanning (st : scan) (cur rest : list Z) : Prop := {
  sc_i : s_i st = Z.of_nat (length l) - Z.of_nat (length rest);
  sc_words : s_words st < num;
  sc_cur : s_in_word st = match cur with [] => false | _ => true end;
  sc_split : exists a, l = a ++ cur ++ rest /\ (cur <> [] -> s_start st = Z.of_nat (length a))
}.

(** What the loop has found when it ends. *)
Definition scanned (st : scan) (found : option (list Z)) : Prop :=
  match found with
  | Some w => s_words st = num /\ exists a b, l = a ++ w ++ b /\
      s_start st = Z.of_nat (length a) /\ s_end st = Z.of_nat (length a) + Z.of_nat (length w)
  | None => s_words st < num
  end.

(** At a delimiter: the word that ends there is the one, or the search goes on. *)
Lemma scan_delimiter st cur rest :
  scanning st cur rest ->
  let st' := if s_in_word st then Scan (s_i st) (s_start st) (s_i st) (s_words st + 1) false else st in
  s_in_word st' = false /\ s_i st' = s_i st /\
  ((flush cur !! Z.to_nat (num - s_words st - 1) = Some cur /\ s_words st' = num /\ scanned st' (Some cur)) \/
   (s_words st' < num /\ flush cur !! Z.to_nat (num - s_words st - 1) = None /\
    forall ws, (flush cur ++ ws) !! Z.to_nat (num - s_words st - 1) = ws !! Z.to_nat (num - s_words st' - 1))).
Proof.
  intros [Hi Hw Hc (a & El & Hs)]. rewrite Hc. destruct cur as [|c cur]; cbn [flush]; cbv zeta.
  - split_and!; [done | done | right]. by split_and!.
  - cbn [s_in_word s_i s_words s_start s_end]. split_and!; [done | done |].
    destruct (Z.eqb_spec (s_words st + 1) num) as [E|Hne]; [left | right].
    + replace (Z.to_nat _) with 0%nat by lia. split_and!; [done | done |]. split; [done |].
      exists a, rest. cbn [s_start s_end]. rewrite Hs by done. split_and!; [done | done |].
      rewrite Hi, El, !length_app. lia.
    + replace (Z.to_nat (num - s_words st - 1)) with (S (Z.to_nat (num - (s_words st + 1) - 1))) by lia.
      by split_and!; [lia | |].
Qed.

Lemma scan_reads st cur rest :
  scanning st cur rest -> load8 m (str + s_i st) = nth 0 rest 0 /\ (s_i st <? len + 1) = true.
Proof.
  intros [Hi _ _ (a & El & _)]. split; [| lia].
  rewrite (cstr_load m str l) by (done || (rewrite Hi, El, !length_app; lia)).
  rewrite Hi, El, app_assoc, nth_lookup, lookup_app_r by (rewrite !length_app; lia).
  rewrite nth_lookup. do 2 f_equal. rewrite !length_app. lia.
Qed.

(** The loop, from any of its rounds. *)
Lemma scan_loop rest : forall st cur fuel,
  scanning st cur rest -> Forall (fun c => c <> 0) rest -> (length rest < fuel)%nat ->
  exists st', iter_fuel fuel (scan_step m str num len) st = Some st' /\
    scanned st' (split_words cur rest !! Z.to_nat (num - s_words st - 1)).
Proof.
  induction rest as [|c rest IH]; intros st cur fuel Hsc H0 Hfuel.
  all: destruct fuel as [|fuel]; simpl in Hfuel; [lia |]; cbn [iter_fuel].
  all: pose proof (scan_delimiter _ _ _ Hsc) as (Hw' & Hi' & Hd).
  all: pose proof (scan_reads _ _ _ Hsc) as [Hld Hlt].
  all: unfold scan_step at 1; destruct st as [i start stop words in_word].
  all: cbn [s_i s_words s_in_word s_start s_end] in *; rewrite Hlt, Hld; cbn [nth].
  - change ((0 =? 0) || (0 =? 10) || (0 =? 32))%bool with true. cbv iota.
    eexists. split; [done |]. cbn [split_words].
    destruct Hd as [(-> & _ & Hd) | (Hd & -> & _)]; exact Hd.
  - apply Forall_cons in H0 as [Hc0 H0]. rewrite (proj2 (Z.eqb_neq c 0)) by done. cbn [orb split_words].
    destruct (Z.eqb_spec c 10) as [->|Hc10]; cbn [orb].
    { eexists. split; [done |]. destruct Hd as [(-> & _ & Hd) | (Hd & -> & _)]; exact Hd. }
    destruct (Z.eqb_spec c 32) as [->|Hc32].
    + destruct Hd as [(E & Hn & Hd) | (Hd & _ & E)].
      * rewrite (proj2 (Z.eqb_eq _ _) Hn). eexists. split; [done |].
        by rewrite (lookup_app_l_Some _ _ _ _ E).
      * rewrite E, (proj2 (Z.eqb_neq _ _)) by lia.
        apply (IH (Scan _ _ _ _ _)); [| done | lia].
        destruct Hsc as [Hi _ _ (a & El & _)]. split; cbn [s_i s_words s_in_word s_start].
        -- simpl in Hi. lia.
        -- done.
        -- done.
        -- exists (a ++ cur ++ [32]). split; [| done]. by rewrite El, <- !app_assoc.
    + destruct Hsc as [Hi Hw Hcur (a & El & Hs)]. cbn [s_i s_words s_in_word s_start] in *.
      rewrite (proj2 (Z.eqb_neq words num)) by lia.
      set (st' := if in_word then _ else _).
      assert (s_words st' = words /\ s_in_word st' = true) as [Hw1 Hin1] by (by destruct in_word).
      destruct (IH (Scan (i + 1) (s_start st') (s_end st') (s_words st') (s_in_word st')) (cur ++ [c]) fuel)
        as (st2 & E & H2); [| done | lia |].
      * split; cbn [s_i s_words s_in_word s_start].
        -- simpl in Hi. lia.
        -- lia.
        -- rewrite Hin1. by destruct cur.
        -- exists a. split; [by rewrite El, <- !app_assoc |]. intros _. unfold st'. rewrite Hcur.
           destruct cur; cbn [s_start]; [| by apply Hs]. rewrite Hi, El, !length_app. simpl. lia.
      * exists st2. split; [exact E |]. cbn [s_words] in H2. by rewrite Hw1 in H2.
Qed.
End scan.

Lemma cstr_nonzero m s l : cstr m s l -> Forall (fun c => c <> 0) l.
Proof.
  intros Hs. apply Forall_lookup. intros i c Hc. pose proof (lookup_lt_Some _ _ _ Hc).
  destruct (cs_char _ _ _ Hs (Z.of_nat i)) as [_ Hn]; [lia |].
  by rewrite Nat2Z.id, nth_lookup, Hc in Hn.
Qed.

Lemma cstr_suffix m s a b : cstr m s (a ++ b) -> cstr m (s + Z.of_nat (length a)) b.
Proof.
  intros [Hc He]. rewrite length_app in *. split.
  - intros k Hk. replace (s + Z.of_nat (length a) + k) with (s + (Z.of_nat (length a) + k)) by lia.
    destruct (Hc (Z.of_nat (length a) + k)) as [E Hn]; [lia |].
    replace (Z.to_nat (Z.of_nat (length a) + k)) with (length a + Z.to_nat k)%nat in * by lia.
    by rewrite app_nth2_plus in *.
  - rewrite <- He. f_equal. lia.
Qed.

Section token.
Context (m : mem) (str num tok : Z) (l : list Z) (fuel : nat).
Context (Hstr : cstr m str l) (Hnum : 0 < num) (Hlen : Z.of_nat (length l) < 2 ^ 31 - 1) (Hfuel : (length l < fuel)%nat).
#[local] Abbreviation room := (Z.max sizeof_pointer (Z.of_nat (length l) + 1)).
Context (Happart : tok + room <= str \/ str + Z.of_nat (length l) + 1 <= tok).

Lemma token_run :
  exists m', token fuel str num tok m = Some (tok, m') /\ same_outside tok (tok + room) m m' /\
    match words l !! Z.to_nat (num - 1) with
    | Some w => cstr m' tok w
    | None => forall k, 0 <= k < sizeof_pointer -> load8 m' (tok + k) = 0
    end.
Proof.
  unfold token, sizeof_pointer in *. rewrite (proj2 (Z.eqb_neq num 0)) by lia.
  rewrite (strlen_result m str l fuel Hstr Hfuel). cbn [mbind option_bind].
  destruct (scan_loop m str num l Hstr l (Scan 0 0 0 0 false) [] fuel) as (st & -> & Hst);
    [| by eapply cstr_nonzero | done |].
  { split; cbn [s_i s_words s_in_word s_start]; [lia | done | done |]. by exists []. }
  cbn [mbind option_bind]. cbn [s_words] in Hst. rewrite Z.sub_0_r in Hst. fold (words l) in Hst.
  destruct (words l !! Z.to_nat (num - 1)) as [w|]; cbn [scanned] in Hst.
  - destruct Hst as (-> & a & b & El & Hs & He). rewrite Z.eqb_refl. cbn [negb].
    rewrite Hs, He. replace (_ + _ - _) with (Z.of_nat (length w)) by lia.
    rewrite El, !length_app in *.
    destruct (strncpy_run tok (str + Z.of_nat (length a)) (Z.of_nat (length w)) (w ++ b) m) as (m1 & -> & Hout & Hin);
      [by apply cstr_suffix | lia | rewrite length_app; lia |].
    cbn [mbind option_bind]. eexists. split; [done |]. split.
    + intros x Hx. rewrite load8_store8_ne by lia. apply Hout. lia.
    + pose proof (cstr_nonzero _ _ _ Hstr) as H0. rewrite !Forall_app in H0. destruct H0 as (_ & H0 & _). split.
      * intros k Hk. rewrite load8_store8_ne, Hin, app_nth1 by lia. split; [done |].
        rewrite nth_lookup. destruct (lookup_lt_is_Some_2 w (Z.to_nat k)) as [c Hc]; [lia |]. rewrite Hc.
        by apply (Forall_lookup_1 _ _ _ _ H0 Hc).
      * by rewrite load8_store8_eq.
  - rewrite (proj2 (Z.eqb_neq _ _)) by lia. cbn [negb].
    destruct (memset_result tok 0 8 m ltac:(lia)) as (m1 & -> & Hin & Hout).
    cbn [mbind option_bind]. eexists. split; [done |]. split.
    + intros x Hx. apply Hout. lia.
    + intros k Hk. by rewrite Hin.
Qed.
End token.

(** [token] copies the [num]-th word of the line - words are separated by blanks
    and end with the line - as a terminated string; without such a word it clears
    the first eight bytes (the size of a pointer, whatever the buffer's). It writes
    no more than the line's length and its terminator, or those eight bytes. *)
Theorem token_spec (m : mem) (str num tok : Z) (l : list Z) (fuel : nat)
  (Hstr : cstr m str l) (Hnum : 0 < num) (Hlen : Z.of_nat (length l) < 2 ^ 31 - 1) (Hfuel : (length l < fuel)%nat)
  (Hroom : tok + Z.max sizeof_pointer (Z.of_nat (length l) + 1) <= str \/ str + Z.of_nat (length l) + 1 <= tok) :
  exists m', token fuel str num tok m = Some (tok, m') /\
    same_outside tok (tok + Z.max sizeof_pointer (Z.of_nat (length l) + 1)) m m' /\
    match words l !! Z.to_nat (num - 1) with
    | Some w => cstr m' tok w
    | None => forall k, 0 <= k < sizeof_pointer -> load8 m' (tok + k) = 0
    end.
Proof. exact (token_run m str num tok l fuel Hstr Hnum Hlen Hfuel Hroom). Qed.

(** * A round of the main loop *)

Lemma cstr_outside m m' lo hi s l :
  same_outside lo hi m m' -> cstr m s l -> s + Z.of_nat (length l) + 1 <= lo \/ hi <= s -> cstr m' s l.
Proof.
  intros Hout [Hc He] Ha. split.
  - intros k Hk. rewrite Hout by lia. by apply Hc.
  - rewrite Hout by lia. done.
Qed.

Lemma split_words_length cur l w : w ∈ split_words cur l -> (length w <= length cur + length l)%nat.
Proof.
  assert (forall cur w n, w ∈ flush cur -> (length w <= length cur + n)%nat) as Hf.
  { intros [|c cu] v n; cbn [flush]; [by intros ?%elem_of_nil |]. intros ->%list_elem_of_singleton. lia. }
  revert cur; induction l as [|c l IH]; intros cur; cbn [split_words]; [apply Hf |].
  repeat case_match; [apply Hf | |].
  - intros [Hw|Hw]%elem_of_app; [by apply Hf |]. apply IH in Hw. simpl in *. lia.
  - intros Hw%IH. rewrite length_app in Hw. simpl in *. lia.
Qed.

(** Comparing as many characters as the first string and its terminator have. *)
Lemma take_all (c t : list Z) : take (S (length c)) c = take (S (length c)) t <-> c = t.
Proof.
  rewrite (take_ge c) by lia. split; [| by intros ->; rewrite take_ge by lia].
  intros E. destruct (decide (length t <= length c)%nat); [by rewrite take_ge in E by lia |].
  apply (f_equal length) in E. rewrite length_take in E. lia.
Qed.

Definition word (n : nat) (l : list Z) : list Z := default [] (words l !! n).

(** What [token] leaves in a buffer of 81 bytes. *)
Lemma token_filled fuel str num tok m l :
  cstr m str l -> 0 < num -> Z.of_nat (length l) <= 80 -> (length l < fuel)%nat ->
  tok + 81 <= str \/ str + Z.of_nat (length l) + 1 <= tok ->
  exists m', token fuel str num tok m = Some (tok, m') /\ same_outside tok (tok + 81) m m' /\
    cstr m' tok (word (Z.to_nat (num - 1)) l).
Proof.
  intros Hs Hn Hl Hf Ha. destruct (token_run m str num tok l fuel Hs Hn ltac:(lia) Hf) as (m' & E & Hout & Hw);
    [unfold sizeof_pointer; lia |].
  exists m'. unfold sizeof_pointer in Hout. split_and!; [done | |].
  - eapply same_outside_mono; [exact Hout | lia | lia].
  - unfold word. destruct (words l !! _); [exact Hw |]. split; [simpl; lia |].
    apply Hw. unfold sizeof_pointer. simpl. lia.
Qed.

(** A text of [n] characters at [a] that is outside the buffer of 81 bytes at [b]. *)
Definition clear_of (a n b : Z) : Prop := a + n + 1 <= b \/ b + 81 <= a.

Definition EXIT : list Z := [69; 88; 73; 84].
Definition EXEC : list Z := [69; 88; 69; 67].

Section round.
Context (command arg exit_text exec_text line : Z) (l : list Z) (fuel : nat) (m : mem).
Context (Hfuel : (81 < fuel)%nat) (Hl : Z.of_nat (length l) <= 80).
Context (Hline : cstr m line l) (Hexit : cstr m exit_text EXIT) (Hexec : cstr m exec_text EXEC).
(** A text that is outside both buffers. *)
#[local] Abbreviation outside a n := (clear_of a n command /\ clear_of a n arg).
Context (Hbufs : command + 81 <= arg \/ arg + 81 <= command).
Context (Hline_out : outside line (Z.of_nat (length l))) (Hexit_out : outside exit_text 4) (Hexec_out : outside exec_text 4).

Lemma said_run m' str w what :
  cstr m' str w -> Z.of_nat (length w) <= 80 ->
  said fuel m' str what = Some (match w with [] => [] | _ => [Say what; Say_at str; Say nl] end).
Proof.
  intros Hw Hn. unfold said. rewrite (strlen_result m' str w fuel Hw) by lia. cbn [mbind option_bind]. f_equal.
  destruct w as [|c w]; [done |]. by rewrite (proj2 (Z.ltb_lt 1 _)) by (cbn [length]; lia).
Qed.

Lemma is_word_run m' w t text :
  cstr m' command w -> Z.of_nat (length w) <= 80 -> cstr m' t text ->
  strncmp m' command t (Z.of_nat (length w) + 1) = Some (if decide (w = text) then 1 else 0).
Proof.
  intros Hw Hn Ht. rewrite (strncmp_result m' command t w text Hw Ht) by lia. f_equal.
  replace (Z.to_nat (Z.of_nat (length w) + 1)) with (S (length w)) by lia.
  destruct (decide (w = text)) as [E|E].
  - rewrite decide_True; [done |]. by apply take_all.
  - rewrite decide_False; [done |]. by rewrite take_all.
Qed.

Lemma word_length n : Z.of_nat (length (word n l)) <= 80.
Proof.
  unfold word. destruct (words l !! n) as [w|] eqn:E; simpl; [| lia].
  apply list_elem_of_lookup_2, split_words_length in E. simpl in E. lia.
Qed.

(** What a round says and does on the words [cmd] and [par]. *)
Definition round_events (cmd par : list Z) (fork exec : Z) : list shell_event :=
  (match cmd with [] => [] | _ => [Say "The command is "%string; Say_at command; Say nl] end) ++
  (match par with [] => [] | _ => [Say "The first parameter is "%string; Say_at arg; Say nl] end) ++
  (if decide (cmd = EXIT) then [Say ("Exit command" +:+ nl)] else []) ++
  (if decide (cmd = EXEC) then
     Fork :: (if fork =? 0 then Exec arg :: (if exec =? 0 then [Say ("Error." +:+ nl); Exit] else []) else [])
   else []).

Definition round_next (cmd : list Z) (fork : Z) : shell_next :=
  if decide (cmd = EXIT) then Stop else if decide (cmd = EXEC) then if fork =? 0 then Left else Next else Next.

Lemma shell_round_run fork exec :
  exists m', shell_round command arg exit_text exec_text fuel line fork exec m =
      Some (round_events (word 0 l) (word 1 l) fork exec, round_next (word 0 l) fork, m') /\
    cstr m' command (word 0 l) /\ cstr m' arg (word 1 l) /\
    forall a, ~ command <= a < command + 81 -> ~ arg <= a < arg + 81 -> load8 m' a = load8 m a.
Proof.
  unfold shell_round.
  destruct (memset_result command 0 81 m ltac:(lia)) as (m1 & -> & Hz1 & Ho1). cbn [mbind option_bind].
  destruct (memset_result arg 0 81 m1 ltac:(lia)) as (m2 & Em2 & Hz2 & Ho2). rewrite Em2. cbn [mbind option_bind].
  pose proof (word_length 0) as Hw0. pose proof (word_length 1) as Hw1.
  assert (forall a t n, cstr m a t -> Z.of_nat (length t) = n -> outside a n -> cstr m2 a t) as Hkeep.
  { intros a t n Ht En Ha. unfold clear_of in Ha. eapply cstr_outside; [exact Ho2 | | lia]. eapply cstr_outside; [exact Ho1 | exact Ht | lia]. }
  destruct (token_filled fuel line 1 command m2 l (Hkeep line l _ Hline eq_refl Hline_out)) as (m3 & -> & Ho3 & Hc3);
    [unfold clear_of in *; lia.. |].
  cbn [mbind option_bind].
  assert (forall a t n, cstr m a t -> Z.of_nat (length t) = n -> outside a n -> cstr m3 a t) as Hkeep3.
  { intros a t n Ht En Ha. pose proof Ha as Ha'. unfold clear_of in Ha'. eapply cstr_outside; [exact Ho3 | by eapply Hkeep | lia]. }
  destruct (token_filled fuel line 2 arg m3 l (Hkeep3 line l _ Hline eq_refl Hline_out)) as (m4 & -> & Ho4 & Hc4);
    [unfold clear_of in *; lia.. |].
  cbn [mbind option_bind].
  assert (forall a t n, cstr m a t -> Z.of_nat (length t) = n -> outside a n -> cstr m4 a t) as Hkeep4.
  { intros a t n Ht En Ha. pose proof Ha as Ha'. unfold clear_of in Ha'. eapply cstr_outside; [exact Ho4 | by eapply Hkeep3 | lia]. }
  change (Z.to_nat (1 - 1)) with 0%nat in Hc3. change (Z.to_nat (2 - 1)) with 1%nat in Hc4.
  assert (cstr m4 command (word 0 l)) as Hc by (eapply cstr_outside; [exact Ho4 | exact Hc3 | lia]).
  rewrite (said_run m4 command _ _ Hc Hw0), (said_run m4 arg _ _ Hc4 Hw1). cbn [mbind option_bind].
  rewrite (strlen_result m4 command _ fuel Hc) by lia. cbn [mbind option_bind].
  rewrite (is_word_run m4 _ exit_text EXIT Hc Hw0 (Hkeep4 _ _ 4 Hexit eq_refl Hexit_out)). cbn [mbind option_bind].
  rewrite (is_word_run m4 _ exec_text EXEC Hc Hw0 (Hkeep4 _ _ 4 Hexec eq_refl Hexec_out)). cbn [mbind option_bind].
  exists m4. split; [| split; [done | split; [done | intros a H1 H2; by rewrite Ho4, Ho3, Ho2, Ho1]]]. unfold round_events, round_next.
  destruct (decide (word 0 l = EXIT)) as [E|], (decide (word 0 l = EXEC)) as [E'|]; [by rewrite E in E' | | |].
  - by rewrite !app_nil_r.
  - cbn [negb Z.eqb]. destruct (fork =? 0), (exec =? 0); by rewrite <- ?app_assoc.
  - by rewrite !app_nil_r.
Qed.

End round.

(** A round of the shell on a line of at most 80 characters puts the first word
    into [command] and the second into [args[0]], stops exactly when the command is
    EXIT, and forks exactly when it is EXEC, where the child executes the file that
    the second word names and leaves; all other commands are only repeated. *)
Theorem shell_round_spec (command arg exit_text exec_text line : Z) (l : list Z) (fuel : nat) (m : mem) (fork exec : Z)
  (Hfuel : (81 < fuel)%nat) (Hl : Z.of_nat (length l) <= 80)
  (Hline : cstr m line l) (Hexit : cstr m exit_text EXIT) (Hexec : cstr m exec_text EXEC)
  (Hbufs : command + 81 <= arg \/ arg + 81 <= command)
  (Hline_out : clear_of line (Z.of_nat (length l)) command /\ clear_of line (Z.of_nat (length l)) arg)
  (Hexit_out : clear_of exit_text 4 command /\ clear_of exit_text 4 arg)
  (Hexec_out : clear_of exec_text 4 command /\ clear_of exec_text 4 arg) :
  exists m', shell_round command arg exit_text exec_text fuel line fork exec m =
      Some (round_events command arg (word 0 l) (word 1 l) fork exec, round_next (word 0 l) fork, m') /\
    cstr m' command (word 0 l) /\ cstr m' arg (word 1 l).
Proof.
  destruct (shell_round_run command arg exit_text exec_text line l fuel m Hfuel Hl Hline Hexit Hexec Hbufs
    Hline_out Hexit_out Hexec_out fork exec) as (m' & E & Hc & Ha & _). by exists m'.
Qed.

(** * A session *)

Lemma store_line_outside l : forall a m b, ~ a <= b <= a + Z.of_nat (length l) -> load8 (store_line a l m) b = load8 m b.
Proof.
  induction l as [| c l IH]; intros a m b Hb; cbn [store_line length] in *; rewrite load8_store8_ne by lia; [done |].
  apply IH. lia.
Qed.

Lemma store_line_inside l : forall a m (k : nat),
  (k <= length l)%nat -> load8 (store_line a l m) (a + Z.of_nat k) = nth k l 0 mod 256.
Proof.
  induction l as [| c l IH]; intros a m k Hk; cbn [store_line length] in *.
  - destruct k; [| lia]. rewrite Z.add_0_r. apply load8_store8_eq.
  - destruct k as [| k]; [rewrite Z.add_0_r; apply load8_store8_eq |]. rewrite load8_store8_ne by lia.
    cbn [nth]. rewrite <- (IH (a + 1) m k) by lia. f_equal. lia.
Qed.

Lemma store_line_cstr a l m : Forall (fun c => 0 < c < 256) l -> cstr (store_line a l m) a l.
Proof.
  intros Hl. split.
  - intros k Hk. destruct (lookup_lt_is_Some_2 l (Z.to_nat k)) as [c Hc]; [lia |].
    pose proof (Forall_lookup_1 _ _ _ _ Hl Hc) as Hb. cbn beta in Hb. rewrite (nth_lookup_Some _ _ 0 _ Hc).
    replace (a + k) with (a + Z.of_nat (Z.to_nat k)) by lia. rewrite store_line_inside by lia.
    rewrite (nth_lookup_Some _ _ 0 _ Hc), Z.mod_small by lia. lia.
  - rewrite store_line_inside by lia. by rewrite nth_overflow by lia.
Qed.

(** What the shell does outside, by the words of the lines alone. *)
Fixpoint session (command arg : Z) (inputs : list (list Z * Z * Z)) : list shell_event :=
  match inputs with
  | [] => []
  | (l, fork, exec) :: inputs =>
      round_events command arg (word 0 l) (word 1 l) fork exec ++
      match round_next (word 0 l) fork with
      | Next => session command arg inputs
      | Stop => [Say ("Exiting..." +:+ nl); Exit]
      | Left => []
      end
  end.

(** C28: over any lines of at most 80 characters, the shell repeats the first two words of
    each, forks and executes for those whose command is EXEC, and ends at the first whose
    command is EXIT or, in a child, at the first EXEC; it writes only to its buffers. *)
Theorem main_loop_spec (command arg exit_text exec_text buffer : Z) (fuel : nat) (Hfuel : (81 < fuel)%nat)
  (Hbufs : command + 81 <= arg \/ arg + 81 <= command)
  (Hline_out : clear_of buffer 80 command /\ clear_of buffer 80 arg)
  (Hexit_out : clear_of exit_text 4 command /\ clear_of exit_text 4 arg /\ clear_of exit_text 4 buffer)
  (Hexec_out : clear_of exec_text 4 command /\ clear_of exec_text 4 arg /\ clear_of exec_text 4 buffer)
  (inputs : list (list Z * Z * Z)) (Hinputs : Forall (fun i => Z.of_nat (length (i.1.1)) <= 80 /\ Forall (fun c => 0 < c < 256) (i.1.1)) inputs)
  (m : mem) (Hexit : cstr m exit_text EXIT) (Hexec : cstr m exec_text EXEC) :
  exists m', main_loop command arg exit_text exec_text fuel buffer inputs m = Some (session command arg inputs, m') /\
    forall a, ~ command <= a < command + 81 -> ~ arg <= a < arg + 81 -> ~ buffer <= a < buffer + 81 -> load8 m' a = load8 m a.
Proof.
  revert m Hexit Hexec. induction Hinputs as [| [[l fork] exec] inputs [Hl Hc] _ IH]; intros m Hexit Hexec; [by exists m |].
  cbn [main_loop session fst snd] in *. unfold clear_of in *.
  assert (forall t x, cstr m t x -> length x = 4%nat -> (t + 4 + 1 <= buffer \/ buffer + 81 <= t) -> cstr (store_line buffer l m) t x) as Hkeep.
  { intros t x Ht E4 Hb. eapply (cstr_outside m _ buffer (buffer + 81)); [| exact Ht | lia].
    intros a Ha. apply store_line_outside. lia. }
  destruct (shell_round_run command arg exit_text exec_text buffer l fuel (store_line buffer l m) Hfuel Hl (store_line_cstr _ _ _ Hc)
    (Hkeep _ _ Hexit eq_refl ltac:(lia)) (Hkeep _ _ Hexec eq_refl ltac:(lia)) Hbufs) with (fork := fork) (exec := exec)
    as (m1 & E1 & _ & _ & Hout); [unfold clear_of; lia.. |].
  assert (forall a, ~ command <= a < command + 81 -> ~ arg <= a < arg + 81 -> ~ buffer <= a < buffer + 81 -> load8 m1 a = load8 m a) as Hout1.
  { intros a H1 H2 H3. rewrite Hout by done. apply store_line_outside. lia. }
  rewrite E1, bind_Some_eq. destruct (round_next (word 0 l) fork); [| by exists m1 | exists m1; by rewrite app_nil_r].
  assert (forall t x, cstr m t x -> length x = 4%nat -> (t + 4 + 1 <= buffer \/ buffer + 81 <= t) ->
    (t + 4 + 1 <= command \/ command + 81 <= t) -> (t + 4 + 1 <= arg \/ arg + 81 <= t) -> cstr m1 t x) as Hkeep1.
  { intros t x [Hx He] E4 H1 H2 H3. split; [intros k Hk; rewrite Hout1 by lia; by apply Hx | rewrite Hout1 by lia; exact He]. }
  destruct (IH m1) as (m2 & E2 & Hout2); [by apply Hkeep1; [| | lia..] | by apply Hkeep1; [| | lia..] |].
  rewrite E2, bind_Some_eq. exists m2. split; [done |]. intros a H1 H2 H3. by rewrite Hout2, Hout1.
Qed.

(** ** The other programs *)

(** Neither process of ping.c reaches its [exit]. *)
Lemma ping_never_exits fork n : Exit ∉ ping_main fork n.
Proof.
  unfold ping_main. rewrite elem_of_cons. intros [? | Hin]; [done |].
  apply list_elem_of_In, in_concat in Hin as (l & Hl & Hin). apply list_elem_of_In, elem_of_replicate in Hl as [-> _].
  destruct Hin as [? | [? | []]]; done.
Qed.

(** * A concrete line *)

(** The line "EXEC PING" at 1000, its two literals at 1100 and 1200. *)
Definition demo_line : list Z := [69; 88; 69; 67; 32; 80; 73; 78; 71; 10].
Definition put_text (a : Z) (l : list Z) (m : mem) : mem := foldr (fun '(k, c) => store8 (a + Z.of_nat k) c) m (zip (seq 0 (length l)) l).
Definition demo_shell : mem := put_text 1000 demo_line (put_text 1100 EXIT (put_text 1200 EXEC ∅)).

Lemma demo_texts : cstr demo_shell 1000 demo_line /\ cstr demo_shell 1100 EXIT /\ cstr demo_shell 1200 EXEC.
Proof. split_and!; apply cstr_check; by vm_compute. Qed.

Lemma token_spec_witness :
  exists m', token 11 1000 2 2000 demo_shell = Some (2000, m') /\ cstr m' 2000 [80; 73; 78; 71].
Proof.
  destruct demo_texts as (H & _ & _).
  destruct (token_spec demo_shell 1000 2 2000 demo_line 11 H ltac:(lia) ltac:(simpl; lia) ltac:(simpl; lia)
    ltac:(right; simpl; lia)) as (m' & E & _ & Hw).
  exists m'. split; [exact E | exact Hw].
Defined.

Lemma shell_round_spec_witness :
  exists m', shell_round 2000 3000 1100 1200 100 1000 0 0 demo_shell =
      Some ([Say "The command is "%string; Say_at 2000; Say nl;
             Say "The first parameter is "%string; Say_at 3000; Say nl;
             Fork; Exec 3000; Say ("Error." +:+ nl); Exit], Left, m') /\
    cstr m' 3000 [80; 73; 78; 71].
Proof.
  destruct demo_texts as (H1 & H2 & H3).
  destruct (shell_round_spec 2000 3000 1100 1200 1000 demo_line 100 demo_shell 0 0 ltac:(lia) ltac:(simpl; lia) H1 H2 H3
    ltac:(lia) ltac:(split; left; simpl; lia) ltac:(split; left; lia) ltac:(split; left; lia)) as (m' & E & _ & Ha).
  exists m'. split; [exact E | exact Ha].
Defined.

(** "EXEC PING" in the parent, then "EXIT". *)
Lemma main_loop_spec_witness :
  exists m', main_loop 2000 3000 1100 1200 100 4000 [(demo_line, 2, 0); (EXIT, 0, 0); (demo_line, 0, 0)] demo_shell =
    Some ([Say "The command is "%string; Say_at 2000; Say nl; Say "The first parameter is "%string; Say_at 3000; Say nl; Fork;
           Say "The command is "%string; Say_at 2000; Say nl; Say ("Exit command" +:+ nl); Say ("Exiting..." +:+ nl); Exit], m').
Proof.
  destruct demo_texts as (_ & H2 & H3).
  destruct (main_loop_spec 2000 3000 1100 1200 4000 100 ltac:(lia) ltac:(lia) ltac:(split; right; lia)
    ltac:(split_and!; left; lia) ltac:(split_and!; left; lia) [(demo_line, 2, 0); (EXIT, 0, 0); (demo_line, 0, 0)]) with (m := demo_shell)
    as (m' & E & _); [| exact H2 | exact H3 | by exists m'].
  repeat (constructor; [split; [cbn; lia | repeat (constructor; [lia |]); constructor] |]). constructor.
Defined.
