(* ===== verification/Fat32.v ===== *)
(** The FAT32 reader (kernel/fat32.c) with the disk access of kernel/diskio.c and
    kernel/read_sectors.asm. The drive is a parameter; buffers come from an
    allocator of blocks (Allocator.v). *)

From S2P Require Import Prelude Words Console Allocator Memory CLib.
#[local] Open Scope Z_scope.

(** * The disk *)

Section disk.
(** [disk n k] is byte [k] of the sector that the drive sends first after a read
    command with the register value [n]. *)
Context (disk : Z -> Z -> Z).

(** The sector count goes to the drive, but [rep insw] reads 256 words whatever it
    is, so one sector arrives; the carry flag is clear, and the result is 1. *)
Definition read_sectors (lba address size : Z) (m : mem) : Z * mem :=
  (1, for_range 0 512 (fun k => store8 (address + k) (disk (uint32_t lba) k)) m).

Definition read_sector (lba address : Z) (m : mem) : Z * mem := read_sectors lba address 1 m.

(** * State *)

(** The structures of fat32.h are packed. *)
Definition bytes_per_sector (m : mem) (v : Z) : Z := load 2 m (v + 11).
Definition sectors_per_cluster (m : mem) (v : Z) : Z := load8 m (v + 13).
Definition reserved_sectors (m : mem) (v : Z) : Z := load 2 m (v + 14).
Definition number_of_fats (m : mem) (v : Z) : Z := load8 m (v + 16).
Definition sectors_per_fat2 (m : mem) (v : Z) : Z := load32 m (v + 36).
Definition root_cluster (m : mem) (v : Z) : Z := load32 m (v + 44).
Definition label (v : Z) : Z := v + 71.
Definition partition_lba (m : mem) (table : Z) : Z := load32 m (table + 446 + 8).
Definition table_magic (m : mem) (table : Z) : Z := load 2 m (table + 510).
Definition sizeof_dir_entry : Z := 32.

Context {H : Type} `{Allocator H}.

(** The globals of fat32.c, memory, the heap and the output. *)
Record fsys := Fsys {
  f_mem : mem;
  f_heap : H;
  _partition : Z;
  _partition_begin_lba : Z;
  _cluster_begin_lba : Z;
  _fat_begin_lba : Z;
  f_out : list out
}.
Implicit Types (s : fsys).

Definition upd (f : mem -> mem) s : fsys :=
  Fsys (f (f_mem s)) (f_heap s) (_partition s) (_partition_begin_lba s) (_cluster_begin_lba s) (_fat_begin_lba s) (f_out s).
Definition set_heap (h : H) s : fsys :=
  Fsys (f_mem s) h (_partition s) (_partition_begin_lba s) (_cluster_begin_lba s) (_fat_begin_lba s) (f_out s).
Definition say (l : list out) s : fsys :=
  Fsys (f_mem s) (f_heap s) (_partition s) (_partition_begin_lba s) (_cluster_begin_lba s) (_fat_begin_lba s) (f_out s ++ l).

Definition alloc_buffer (size : Z) s : option (Z * fsys) := '(p, h) ← kmalloc size (f_heap s); Some (p, set_heap h s).
Definition free_buffer (p : Z) s : fsys := set_heap (kfree p (f_heap s)) s.

(** A read of one sector into memory. *)
Definition read (lba address : Z) s : Z * fsys :=
  let '(ok, m) := read_sector lba address (f_mem s) in (ok, upd (fun _ => m) s).

Definition bps s : Z := bytes_per_sector (f_mem s) (_partition s).
Definition spc s : Z := sectors_per_cluster (f_mem s) (_partition s).

(** * Operations *)

Definition fat32_init s : option fsys :=
  '(table, s) ← alloc_buffer 512 s;
  '(volume, s) ← alloc_buffer 512 s;
  let s := say [Putsln "Initializing file system..."%string] s in
  if (table =? 0) || (volume =? 0) then Some (say [Putsln "Not enough memory!"%string] s)
  else
    let '(ok, s) := read 0 table s in
    if ok =? 0 then Some (say [Putsln "Can't read disk!"%string] s)
    else
      let s := if negb (table_magic (f_mem s) table =? 0xAA55)
               then say [Putsln "Warning! MBR probably damaged!"%string] s else s in
      let lba := partition_lba (f_mem s) table in
      let s := say [Puts "First partition located at "%string; Putint lba; Putsln " sector on disk"%string] s in
      let s := Fsys (f_mem s) (f_heap s) (_partition s) lba (_cluster_begin_lba s) (_fat_begin_lba s) (f_out s) in
      let '(ok, s) := read lba volume s in
      if ok =? 0 then Some (say [Puts "Can't read FAT32 volume id!"%string] s)
      else
        let s := upd (store8 (label volume + 10) 0) s in
        let s := say [Puts "Partition loaded... (Label="%string; Puts (text (f_mem s) (label volume)); Putsln ")"%string] s in
        let m := f_mem s in
        let fats := uint32_t (number_of_fats m volume * sectors_per_fat2 m volume) in
        Some (Fsys m (f_heap s) volume lba (lba + reserved_sectors m volume + fats)%word
                (lba + reserved_sectors m volume)%word (f_out s)).

Definition cluster2lba (cluster : Z) s : Z :=
  (_cluster_begin_lba s + ((cluster - 2)%word * spc s)%word)%word.

Definition read_cluster (cluster address : Z) s : Z * fsys :=
  let '(ok, m) := read_sectors (cluster2lba cluster s) address (spc s) (f_mem s) in (ok, upd (fun _ => m) s).

(** [None] when [bytes_per_sector] is zero: the division faults. *)
Definition find_next_cluster (cluster : Z) s : option (Z * fsys) :=
  if 0x0ffffff8 <=? cluster then Some (0x0fffffff, s)
  else
    '(fat, s) ← alloc_buffer (bps s) s;
    if bps s =? 0 then None
    else
      let '(ok, s) := read (_fat_begin_lba s + cluster / bps s / 4)%word fat s in
      if ok =? 0 then Some (0, free_buffer fat (say [Puts "Error!"%string] s))
      else
        let r := load32 (f_mem s) (fat + 4 * (cluster mod bps s)) in
        Some (r, free_buffer fat s).

(** The loop of [read_file], where [cluster] has been read to [address]. *)
Definition read_file_step (st : Z * Z * fsys) : (Z * Z * fsys) + option fsys :=
  let '(cluster, address, s) := st in
  match find_next_cluster cluster s with
  | None => inr None
  | Some (cluster, s) =>
      if cluster <? 0x0ffffff8 then
        let address := (address + spc s * bps s)%word in
        inl (cluster, address, snd (read_cluster cluster address s))
      else inr (Some s)
  end.

Definition read_file (fuel : nat) (cluster address : Z) s : option fsys :=
  mjoin (iter_fuel fuel read_file_step (cluster, address, snd (read_cluster cluster address s))).

(** The entries of one cluster of the directory, from the [i]-th: the address of the
    first whose name starts with the string [name]. *)
Fixpoint find_in_cluster (fuel n : nat) (i list name : Z) s : option (option Z * fsys) :=
  match n with
  | O => Some (None, s)
  | S n =>
      let entry := list + sizeof_dir_entry * i in
      let s := upd (store8 (entry + 10) 0) s in
      len ← strlen fuel (f_mem s) name;
      same ← strncmp (f_mem s) entry name (len - 1);
      if negb (same =? 0) then
        '(file, s) ← alloc_buffer sizeof_dir_entry s;
        m ← memcpy file entry sizeof_dir_entry (f_mem s);
        Some (Some file, free_buffer list (upd (fun _ => m) s))
      else find_in_cluster fuel n (i + 1) list name s
  end.

(** The [do] loop of [find_file]. *)
Definition find_file_step (fuel entries : nat) (list name : Z) (st : Z * fsys) : (Z * fsys) + option (Z * fsys) :=
  let '(cluster, s) := st in
  match find_in_cluster fuel entries 0 list name (snd (read_cluster cluster list s)) with
  | None => inr None
  | Some (Some file, s) => inr (Some (file, s))
  | Some (None, s) =>
      match find_next_cluster cluster s with
      | None => inr None
      | Some (cluster, s) =>
          if cluster <? 0x0ffffff8 then inl (cluster, s) else inr (Some (0, free_buffer list s))
      end
  end.

Definition find_file (fuel : nat) (name : Z) s : option (Z * fsys) :=
  '(list, s) ← alloc_buffer (spc s * bps s) s;
  if list =? 0 then Some (0, s)
  else
    let entries := Z.to_nat (spc s * bps s / 32) in
    mjoin (iter_fuel fuel (find_file_step fuel entries list name) (root_cluster (f_mem s) (_partition s), s)).

(** * What the disk holds *)

(** [n] bytes of a sector, in little-endian order. *)
Fixpoint disk_load (n : nat) (lba k : Z) : Z :=
  match n with
  | O => 0
  | S n => disk (uint32_t lba) k mod 256 + 256 * disk_load n lba (k + 1)
  end.

(** The entry of cluster [c] in the file allocation table, 128 entries to the sector. *)
Definition fat_entry s (c : Z) : Z := disk_load 4 (_fat_begin_lba s + c / 128)%word (4 * (c mod 128)).

(** The entry that [find_next_cluster] reads for [c]: the sector and the index are those of a
    table with 2048 entries to the sector, 512 of them in the buffer. *)
Definition fat_read s (c : Z) : Z := disk_load 4 (_fat_begin_lba s + c / 2048)%word (4 * (c mod 512)).

(** The clusters for which it reads inside its buffer. *)
Definition in_buffer (c : Z) : Prop := 0 <= c < 0x0ffffff8 /\ c mod 512 < 128.

(** The clusters of a file, along the entries. *)
Inductive chain (next : Z -> Z) : Z -> list Z -> Prop :=
  | chain_last c : 0x0ffffff8 <= next c -> chain next c [c]
  | chain_more c l : next c < 0x0ffffff8 -> chain next (next c) l -> chain next c (c :: l).

(** Byte [k] of a cluster of one sector. *)
Definition cluster_byte s (c k : Z) : Z :=
  disk (uint32_t (_cluster_begin_lba s + (c - 2)%word)%word) k mod 256.

(** * Proofs *)

Lemma read_sectors_run lba a size m :
  let '(ok, m') := read_sectors lba a size m in
  ok = 1 /\ (forall k, 0 <= k < 512 -> load8 m' (a + k) = disk (uint32_t lba) k mod 256) /\
  same_outside a (a + 512) m m'.
Proof.
  split; [done |].
  apply (for_range_ind (fun n m' =>
    (forall k, 0 <= k < n -> load8 m' (a + k) = disk (uint32_t lba) k mod 256) /\ same_outside a (a + 512) m m'));
    [lia | by split; [lia |] |].
  intros j m' Hj [Hin Hout]. split.
  - intros k Hk. destruct (decide (k = j)) as [->|]; [apply load8_store8_eq |].
    rewrite load8_store8_ne by lia. apply Hin. lia.
  - intros b Hb. rewrite load8_store8_ne by lia. by apply Hout.
Qed.

Lemma disk_load_run lba a m n k :
  (forall k, 0 <= k < 512 -> load8 m (a + k) = disk (uint32_t lba) k mod 256) ->
  0 <= k -> k + Z.of_nat n <= 512 -> load n m (a + k) = disk_load n lba k.
Proof.
  intros Hin. revert k; induction n as [|n IH]; intros k Hk Hn; [done |].
  change (load (S n) m (a + k)) with (load8 m (a + k) + 256 * load n m (a + k + 1)). cbn [disk_load].
  by rewrite Hin, <- Z.add_assoc, IH by lia.
Qed.

Context `{!SizedAllocator H, !HeapBudget H}.

(** Blocks of the heap, with their sizes, that the caller owns. *)
Context (own : gmap Z Z).

Definition owns (h : H) : Prop := forall q n, own !! q = Some n -> q ∈ live h /\ extent h q = n.

(** Addresses that no new block of the heap covers: those outside its area and those in
    an owned block. *)
Definition safe (a : Z) : Prop :=
  ~ (fst area <= a < snd area) \/ exists q n, own !! q = Some n /\ q <= a < q + n.

(** The volume's record is safe; sectors of 512 bytes, clusters of one sector. *)
Record fs_ok s : Prop := {
  fo_heap : heap_ok (f_heap s);
  fo_owns : owns (f_heap s);
  fo_bps : bps s = 512;
  fo_spc : spc s = 1;
  fo_safe : forall b, _partition s <= b < _partition s + 90 -> safe b
}.

(** [s'] differs from [s] in the heap's state, at addresses that are not safe and in
    [lo, hi). *)
Record fs_same (lo hi : Z) s s' : Prop := {
  fm_partition : _partition s' = _partition s;
  fm_cluster : _cluster_begin_lba s' = _cluster_begin_lba s;
  fm_fat : _fat_begin_lba s' = _fat_begin_lba s;
  fm_mem : forall a, safe a -> ~ (lo <= a < hi) -> load8 (f_mem s') a = load8 (f_mem s) a
}.

Lemma fs_ok_same lo hi s s' :
  fs_ok s -> fs_same lo hi s s' -> heap_ok (f_heap s') -> owns (f_heap s') ->
  hi <= lo \/ hi <= _partition s \/ _partition s + 90 <= lo -> fs_ok s'.
Proof.
  intros [Hh Ho Hb Hs Ha] [Hp _ _ Hm] Hh' Ho' Hr. split; [done | done | | | by rewrite Hp].
  - rewrite <- Hb. unfold bps, bytes_per_sector. rewrite Hp. apply load_ext. intros b Hb'. apply Hm; [apply Ha |]; lia.
  - rewrite <- Hs. unfold spc, sectors_per_cluster. rewrite Hp. apply Hm; [apply Ha |]; lia.
Qed.

(** A new block is not owned, and none of its addresses is safe. *)
Lemma fresh_block sz h p h' :
  heap_ok h -> owns h -> 0 < sz -> kmalloc sz h = Some (p, h') ->
  heap_ok h' /\ owns h' /\ 0 < p /\ p ∈ live h' /\ extent h' p = sz /\ own !! p = None /\
  (forall b, p <= b < p + sz -> ~ safe b).
Proof.
  intros Hh Ho Hsz Ek. destruct (kmalloc_spec _ _ _ _ Hh Hsz Ek) as (Hh' & Hp & Hnew & Hlive).
  destruct (kmalloc_extent _ _ _ _ Hh Hsz Ek) as (Hlo & Hhi & Hext & Hothers).
  split; [done |]. split; [| split; [lia | split; [| split; [done | split]]]].
  - intros q n Hq. destruct (Ho q n Hq) as [Hql <-]. rewrite Hlive. split; [by apply elem_of_union_r | by apply Hothers].
  - rewrite Hlive. by apply elem_of_union_l, elem_of_singleton.
  - apply eq_None_not_Some. intros [n Hn]. by apply Hnew, (Ho p n).
  - intros b Hb [Hout|(q & n & Hq & Hin)]; [lia |]. destruct (Ho q n Hq) as [Hql <-].
    destruct (Hothers q Hql) as [_ Hd]. lia.
Qed.

Lemma give_back_block p h : heap_ok h -> owns h -> p ∈ live h -> own !! p = None -> heap_ok (kfree p h) /\ owns (kfree p h).
Proof.
  intros Hh Ho Hp Hno. destruct (kfree_spec p h Hh Hp) as [Hh' Hl]. split; [done |].
  intros q n Hq. destruct (Ho q n Hq) as [Hql <-]. assert (q <> p) by congruence. split; [| by apply kfree_extent].
  rewrite Hl. apply elem_of_difference. by rewrite elem_of_singleton.
Qed.

(** A block without safe addresses does not touch the volume's record. *)
Lemma volume_apart s p n :
  fs_ok s -> 0 < n -> (forall b, p <= b < p + n -> ~ safe b) -> p + n <= _partition s \/ _partition s + 90 <= p.
Proof.
  intros Hs Hn Hun. pose proof (fo_safe _ Hs (Z.max p (_partition s))) as Hsafe. specialize (Hun (Z.max p (_partition s))).
  destruct (Z.le_gt_cases (p + n) (_partition s)); [lia |].
  destruct (Z.le_gt_cases (_partition s + 90) p); [lia |]. exfalso.
  apply Hun; [lia | apply Hsafe; lia].
Qed.

(** What a buffer that is taken and given back leaves of the others. *)
Lemma buffer_kept h p h' q :
  heap_ok h -> kmalloc 512 h = Some (p, h') -> q ∈ live h ->
  heap_ok (kfree p h') /\ q ∈ live (kfree p h') /\ extent (kfree p h') q = extent h q.
Proof.
  intros Hh Ek Hq. destruct (kmalloc_spec _ _ _ _ Hh (eq_refl : 0 < 512) Ek) as (Hh1 & _ & Hp & Hlive).
  destruct (kmalloc_extent _ _ _ _ Hh (eq_refl : 0 < 512) Ek) as (_ & _ & _ & Hext). specialize (Hext q Hq) as [He _].
  assert (p ∈ live h') as Hpl by (rewrite Hlive; by apply elem_of_union_l, elem_of_singleton).
  assert (q <> p) as Hne by (intros ->; done). destruct (kfree_spec p h' Hh1 Hpl) as [Hh2 Hl2]. split_and!; [done | |].
  - rewrite Hl2, Hlive. apply elem_of_difference. split; [by apply elem_of_union_r | by rewrite elem_of_singleton].
  - by rewrite kfree_extent.
Qed.

Lemma find_next_core s c p h :
  fs_ok s -> 0 <= c < 0x0ffffff8 -> c mod 512 < 128 -> kmalloc 512 (f_heap s) = Some (p, h) ->
  exists s', find_next_cluster c s = Some (disk_load 4 (_fat_begin_lba s + c / 2048)%word (4 * (c mod 512)), s') /\
    fs_same 0 0 s s' /\ fs_ok s' /\ f_heap s' = kfree p h.
Proof.
  intros Hs Hc Hj Ek. pose proof Hs as [Hh Ho Hb Hsp Ha].
  destruct (fresh_block _ _ _ _ Hh Ho (eq_refl : 0 < 512) Ek) as (Hh1 & Ho1 & Hp & Hlive & _ & Hno & Hunsafe).
  destruct (give_back_block p h Hh1 Ho1 Hlive Hno) as [Hh2 Ho2].
  unfold find_next_cluster. rewrite (proj2 (Z.leb_gt _ c)) by lia. unfold alloc_buffer. rewrite Hb, Ek. cbn [mbind option_bind].
  change (bps (set_heap h s)) with (bps s). rewrite Hb. cbn [Z.eqb]. unfold read, read_sector.
  replace (c / 512 / 4) with (c / 2048) by div_lia.
  cbn [set_heap _fat_begin_lba f_mem].
  pose proof (read_sectors_run (_fat_begin_lba s + c / 2048)%word p 1 (f_mem s)) as Hr.
  destruct (read_sectors _ p 1 (f_mem s)) as [ok m]. destruct Hr as (-> & Hin & Hout). cbn [Z.eqb upd f_mem].
  assert (forall b, safe b -> load8 m b = load8 (f_mem s) b) as Hkeep.
  { intros b Hsafe. apply Hout. intros Hb'. by apply (Hunsafe b). }
  eexists. split.
  - do 2 f_equal. change (bps (upd (fun _ => m) (set_heap h s))) with (bytes_per_sector m (_partition s)).
    assert (bytes_per_sector m (_partition s) = 512) as ->.
    { rewrite <- Hb. apply load_ext. intros b Hb'. apply Hkeep, Ha. lia. }
    pose proof (Z.mod_pos_bound c 512). apply disk_load_run; [done | lia | simpl; lia].
  - assert (fs_same 0 0 s (free_buffer p (upd (fun _ => m) (set_heap h s)))) as Hsame.
    { split; [done.. |]. intros a Harea _. by apply Hkeep. }
    split_and!; [exact Hsame | | done]. eapply fs_ok_same; [exact Hs | exact Hsame | exact Hh2 | exact Ho2 | lia].
Qed.

(** A buffer of a sector, or a copy of an entry. *)
Lemma small_request n sz h :
  heap_ok h -> budget (S n) h -> 0 < sz <= 512 -> exists p h', kmalloc sz h = Some (p, h') /\ budget n h'.
Proof. intros Hh Hb Hsz. apply budget_kmalloc; [done | done |]. pose proof request_max_sector. lia. Qed.

Lemma find_next_run s c n :
  fs_ok s -> in_buffer c -> budget (S n) (f_heap s) ->
  exists s', find_next_cluster c s = Some (fat_read s c, s') /\
    fs_same 0 0 s s' /\ fs_ok s' /\ budget n (f_heap s') /\
    exists p h, kmalloc 512 (f_heap s) = Some (p, h) /\ f_heap s' = kfree p h.
Proof.
  intros Hs [Hc Hj] Hn. destruct (small_request n 512 (f_heap s) (fo_heap _ Hs) Hn) as (p & h & Ek & Hb); [lia |].
  destruct (find_next_core s c p h Hs Hc Hj Ek) as (s' & E & Hsame & Hs' & Hh). exists s'. rewrite Hh.
  destruct (fresh_block _ _ _ _ (fo_heap _ Hs) (fo_owns _ Hs) (eq_refl : 0 < 512) Ek) as (Hh1 & _ & _ & Hlive & _).
  split_and!; [done | done | done | by apply budget_kfree | by exists p, h].
Qed.

Lemma fs_same_read lo hi s s' c : fs_same lo hi s s' -> fat_read s' c = fat_read s c.
Proof. intros [_ _ Hf _]. unfold fat_read. by rewrite Hf. Qed.

(** For the clusters of the first sector of the table it is the cluster's own entry. *)
Lemma fat_read_small s c : 0 <= c < 128 -> fat_read s c = fat_entry s c.
Proof. intros Hc. unfold fat_read, fat_entry. by rewrite !Z.mod_small, !Z.div_small by lia. Qed.

Lemma chain_small s c l : Forall (fun c => 0 <= c < 128) l -> chain (fat_read s) c l -> chain (fat_entry s) c l.
Proof.
  intros Hl. induction 1 as [c Hc|c l Hlt Hch IH]; apply Forall_cons in Hl as [Hc0 Hl]; rewrite fat_read_small in * by done.
  - by constructor.
  - constructor; [done | by apply IH].
Qed.

Lemma clusters_ext f g c l : (forall c, f c = g c) -> chain f c l -> chain g c l.
Proof.
  intros Hfg. induction 1 as [c Hc|c l Hlt Hch IH]; [constructor; by rewrite <- Hfg |].
  rewrite Hfg in *. by constructor.
Qed.

(** A cluster is read to [a]. *)
Lemma read_cluster_run s c a :
  fs_ok s -> a + 512 <= _partition s \/ _partition s + 90 <= a ->
  let s' := snd (read_cluster c a s) in
  (forall k, 0 <= k < 512 -> load8 (f_mem s') (a + k) = cluster_byte s c k) /\
  (forall b, ~ (a <= b < a + 512) -> load8 (f_mem s') b = load8 (f_mem s) b) /\
  fs_same a (a + 512) s s' /\ fs_ok s' /\ f_heap s' = f_heap s.
Proof.
  intros Hs Ha. unfold read_cluster, cluster2lba. rewrite (fo_spc _ Hs).
  pose proof (read_sectors_run (_cluster_begin_lba s + ((c - 2) * 1)%word)%word a 1 (f_mem s)) as Hr.
  destruct (read_sectors _ a 1 (f_mem s)) as [ok m]. destruct Hr as (_ & Hin & Hout). cbn [snd].
  assert (fs_same a (a + 512) s (upd (fun _ => m) s)) as Hsame.
  { split; [done.. |]. intros b _ Hb. by apply Hout. }
  split_and!; [| exact Hout | exact Hsame | | done].
  - intros k Hk. unfold cluster_byte. cbn [upd f_mem]. rewrite Hin by done. do 3 f_equal.
    rewrite Z.mul_1_r. f_equal. f_equal. unfold uint64_t, uwrap. by rewrite Z.mod_mod.
  - eapply fs_ok_same; [exact Hs | exact Hsame | apply Hs | apply Hs | lia].
Qed.

(** Where the clusters of [l] have been put one after the other. *)
Definition holds_clusters s (l : list Z) (a : Z) (m : mem) : Prop :=
  forall i c k, l !! i = Some c -> 0 <= k < 512 ->
    load8 m (a + 512 * Z.of_nat i + k) = cluster_byte s c k.

Lemma fs_same_trans lo hi s1 s2 s3 : fs_same lo hi s1 s2 -> fs_same lo hi s2 s3 -> fs_same lo hi s1 s3.
Proof.
  intros [A1 B1 C1 M1] [A2 B2 C2 M2]. split; [congruence.. |]. intros a Ha Hb. by rewrite M2, M1.
Qed.

Lemma fs_same_mono lo hi lo' hi' s s' : fs_same lo hi s s' -> hi <= lo \/ (lo' <= lo /\ hi <= hi') -> fs_same lo' hi' s s'.
Proof. intros [A B C M] ?. split; [done.. |]. intros a Ha Hb. apply M; [done | lia]. Qed.

(** The rest of a file whose cluster [c] has been read to [a]. *)
Lemma read_file_loop (more : nat) l : forall c s a fuel,
  fs_ok s -> chain (fat_read s) c l -> Forall in_buffer l -> budget (length l + more) (f_heap s) ->
  (length l <= fuel)%nat -> 0 <= a -> a + 512 * Z.of_nat (length l) < 2 ^ 64 ->
  a + 512 * Z.of_nat (length l) <= _partition s \/ _partition s + 90 <= a ->
  (forall b, a <= b < a + 512 * Z.of_nat (length l) -> safe b) ->
  (forall k, 0 <= k < 512 -> load8 (f_mem s) (a + k) = cluster_byte s c k) ->
  exists s', iter_fuel fuel read_file_step (c, a, s) = Some (Some s') /\
    holds_clusters s l a (f_mem s') /\ fs_same (a + 512) (a + 512 * Z.of_nat (length l)) s s' /\ fs_ok s' /\ budget more (f_heap s').
Proof.
  intros c s a fuel Hs Hch. revert a fuel Hs. remember (fat_read s) as next eqn:En. revert s En.
  induction Hch as [c Hc|c l Hc Hch IH]; intros s -> a fuel Hs Hall Hbuf Hfuel Ha Hlim Hvol Harea Hdata.
  all: apply Forall_cons in Hall as [Hc128 Hall]; cbn [length] in *.
  all: destruct fuel as [|fuel]; [lia |]; cbn [iter_fuel]; unfold read_file_step at 1.
  all: destruct (find_next_run s c _ Hs Hc128 Hbuf) as (s1 & -> & Hsame & Hs1 & Hbuf1 & _).
  - rewrite (proj2 (Z.ltb_ge _ _)) by done. exists s1. split_and!; [done | | | done | done].
    + intros [|i] c' j Hi Hk; [| done]. injection Hi as <-. rewrite Z.mul_0_r, Z.add_0_r, <- Hdata by done.
      apply Hsame; [apply Harea |]; lia.
    + eapply fs_same_mono; [exact Hsame | by left].
  - rewrite (proj2 (Z.ltb_lt _ _)) by done. rewrite (fo_spc _ Hs1), (fo_bps _ Hs1).
    change (uint64_t (1 * 512)) with 512. rewrite uint64_id by lia.
    assert (1 <= length l)%nat as Hl1 by (inversion Hch; simpl; lia).
    destruct (read_cluster_run s1 (fat_read s c) (a + 512) Hs1) as (Hin & Hout & Hsame2 & Hs2 & Hh2);
      [rewrite (fm_partition _ _ _ _ Hsame); lia |].
    set (s2 := snd (read_cluster (fat_read s c) (a + 512) s1)) in *.
    assert (fs_same (a + 512) (a + 512 * Z.of_nat (S (length l))) s s2) as Hsame12.
    { eapply fs_same_trans; [eapply fs_same_mono; [exact Hsame | by left] |].
      eapply fs_same_mono; [exact Hsame2 | right; lia]. }
    assert (forall c k, cluster_byte s2 c k = cluster_byte s c k) as Hcb
      by (intros; unfold cluster_byte; by rewrite (fm_cluster _ _ _ _ Hsame12)).
    assert (forall c k, cluster_byte s1 c k = cluster_byte s c k) as Hcb1
      by (intros; unfold cluster_byte; by rewrite (fm_cluster _ _ _ _ Hsame)).
    destruct (IH s2) with (a := a + 512) (fuel := fuel) as (s3 & -> & Hcl & Hsame3 & Hs3 & Hb3);
      [unfold fat_read; by rewrite (fm_fat _ _ _ _ Hsame12) | done | done | by rewrite Hh2 | lia | lia | lia
      | rewrite (fm_partition _ _ _ _ Hsame12); lia | intros b Hb; apply Harea; lia | intros k Hk; by rewrite Hin, Hcb, Hcb1 by done |].
    exists s3. split_and!; [done | | | done | done].
    + intros [|i] c' j Hi Hk.
      * injection Hi as <-. rewrite Z.mul_0_r, Z.add_0_r, <- Hdata by done.
        assert (safe (a + j)) by (apply Harea; lia).
        rewrite (fm_mem _ _ _ _ Hsame3) by (done || lia). rewrite Hout by lia. apply (fm_mem _ _ _ _ Hsame); [done | lia].
      * rewrite <- Hcb, <- (Hcl i c' j Hi Hk). f_equal. lia.
    + eapply fs_same_trans; [exact Hsame12 |]. eapply fs_same_mono; [exact Hsame3 | right; lia].
Qed.

(** ** The directory *)

Fixpoint until_zero (l : list Z) : list Z :=
  match l with [] => [] | x :: l => if x =? 0 then [] else x :: until_zero l end.

(** The name of entry [i] of cluster [c], as [find_file] reads it: the eleventh
    character is overwritten. *)
Definition entry_name s (c i : Z) : list Z :=
  until_zero ((fun k => cluster_byte s c (32 * i + k)) <$> seqZ 0 10).

(** [strncmp] with the length of [name]: the entry's name starts with it. *)
Definition starts_with s (name : list Z) (c i : Z) : bool :=
  bool_decide (take (length name) (entry_name s c i) = name).

Fixpoint first_entry s (name : list Z) (c : Z) (n : nat) (i : Z) : option Z :=
  match n with
  | O => None
  | S n => if starts_with s name c i then Some i else first_entry s name c n (i + 1)
  end.

(** The first entry in the order of the directory's clusters. *)
Fixpoint search s (name : list Z) (l : list Z) : option (Z * Z) :=
  match l with
  | [] => None
  | c :: l => match first_entry s name c 16 0 with Some i => Some (c, i) | None => search s name l end
  end.

Lemma find_in_cluster_S fuel n i list name s :
  find_in_cluster fuel (S n) i list name s =
    (let entry := list + sizeof_dir_entry * i in
     let s := upd (store8 (entry + 10) 0) s in
     len ← strlen fuel (f_mem s) name;
     same ← strncmp (f_mem s) entry name (len - 1);
     if negb (same =? 0) then
       '(file, s) ← alloc_buffer sizeof_dir_entry s;
       m ← memcpy file entry sizeof_dir_entry (f_mem s);
       Some (Some file, free_buffer list (upd (fun _ => m) s))
     else find_in_cluster fuel n (i + 1) list name s).
Proof. reflexivity. Qed.

Lemma cstr_until_zero m a l :
  (forall k x, l !! k = Some x -> load8 m (a + Z.of_nat k) = x) -> load8 m (a + Z.of_nat (length l)) = 0 ->
  cstr m a (until_zero l).
Proof.
  revert a; induction l as [|x l IH]; intros a Hin Hend.
  - split; [simpl; lia | exact Hend].
  - cbn [until_zero]. pose proof (Hin 0%nat x eq_refl) as Hx. rewrite Z.add_0_r in Hx.
    destruct (Z.eqb_spec x 0) as [->|Hne].
    + split; [simpl; lia | by rewrite Z.add_0_r].
    + destruct (IH (a + 1)) as [Hc He].
      * intros k y Hk. rewrite <- (Hin (S k) y Hk). f_equal. lia.
      * rewrite <- Hend. f_equal. cbn [length]. lia.
      * split; cbn [length].
        -- intros k Hk. destruct (decide (k = 0)) as [->|]; [by rewrite Z.add_0_r |].
           replace (a + k) with (a + 1 + (k - 1)) by lia. destruct (Hc (k - 1)) as [E Hn]; [lia |].
           rewrite E. replace (Z.to_nat k) with (S (Z.to_nat (k - 1))) by lia. by split.
        -- rewrite <- He. f_equal. lia.
Qed.

Lemma starts_with_same s s' text c i :
  _cluster_begin_lba s' = _cluster_begin_lba s -> starts_with s' text c i = starts_with s text c i.
Proof. intros E. unfold starts_with, entry_name, cluster_byte. by rewrite E. Qed.

Lemma first_entry_same s s' text c n i :
  _cluster_begin_lba s' = _cluster_begin_lba s -> first_entry s' text c n i = first_entry s text c n i.
Proof.
  intros E. revert i; induction n as [|n IH]; intros i; cbn [first_entry]; [done |].
  by rewrite (starts_with_same _ _ _ _ _ E), IH.
Qed.

Lemma search_same s s' text l :
  _cluster_begin_lba s' = _cluster_begin_lba s -> search s' text l = search s text l.
Proof.
  intros E. induction l as [|c l IH]; cbn [search]; [done |]. by rewrite (first_entry_same _ _ _ _ _ _ E), IH.
Qed.

Section directory.
Context (list name : Z) (text : Datatypes.list Z) (fuel : nat).
Context (Htext : (length text < fuel)%nat) (Hshort : Z.of_nat (length text) < 2 ^ 31 - 1).

Context (Hlist : own !! list = None) (Hunsafe : forall b, list <= b < list + 512 -> ~ safe b).
Context (Hnamesafe : forall b, name <= b <= name + Z.of_nat (length text) -> safe b).

(** The state of the search in cluster [c] before entry [i]: the buffer is one of the
    heap's, and the entries from [i] on are as read. *)
Record searching s (c i : Z) : Prop := {
  se_ok : fs_ok s;
  se_live : list ∈ live (f_heap s);
  se_extent : extent (f_heap s) list = 512;
  se_name : cstr (f_mem s) name text;
  se_data : forall k, 32 * i <= k < 512 -> load8 (f_mem s) (list + k) = cluster_byte s c k
}.

(** A safe address is not in the buffer. *)
Lemma not_in_list b k : safe b -> 0 <= k < 512 -> list + k <> b.
Proof. intros Hb Hk <-. apply (Hunsafe (list + k)); [lia | done]. Qed.

Lemma name_kept m m' : (forall b, safe b -> load8 m' b = load8 m b) -> cstr m name text -> cstr m' name text.
Proof.
  intros Hm [Hc He]. split.
  - intros k Hk. rewrite Hm by (apply Hnamesafe; lia). by apply Hc.
  - by rewrite Hm by (apply Hnamesafe; lia).
Qed.

(** The entry without its eleventh character is what the buffer holds. *)
Lemma entry_cstr s c i :
  searching s c i -> 0 <= i < 16 -> cstr (store8 (list + 32 * i + 10) 0 (f_mem s)) (list + 32 * i) (entry_name s c i).
Proof.
  intros Hs Hi. apply cstr_until_zero.
  - intros k x Hk. apply list_lookup_fmap_Some in Hk as (y & -> & Hy). apply lookup_seqZ in Hy as [-> Hk].
    rewrite load8_store8_ne by lia. rewrite <- Z.add_assoc, (se_data _ _ _ Hs) by lia. f_equal.
  - rewrite length_fmap, length_seqZ. apply load8_store8_eq.
Qed.

Lemma compare_entry s c i :
  searching s c i -> 0 <= i < 16 ->
  let m := store8 (list + 32 * i + 10) 0 (f_mem s) in
  strlen fuel m name = Some (Z.of_nat (length text) + 1) /\
  strncmp m (list + 32 * i) name (Z.of_nat (length text)) = Some (if starts_with s text c i then 1 else 0) /\
  cstr m name text.
Proof.
  intros Hs Hi. cbv zeta.
  assert (cstr (store8 (list + 32 * i + 10) 0 (f_mem s)) name text) as Hname.
  { apply (name_kept (f_mem s)); [| apply Hs]. intros b Hb. apply load8_store8_ne. rewrite <- Z.add_assoc.
    apply not_in_list; [done | lia]. }
  split_and!; [by apply strlen_result | | done].
  rewrite (strncmp_result _ _ _ _ _ (entry_cstr s c i Hs Hi) Hname) by lia. f_equal.
  rewrite Nat2Z.id, (take_ge text) by lia. unfold starts_with.
  destruct (decide _) as [E|E]; [by rewrite bool_decide_true | by rewrite bool_decide_false].
Qed.

Lemma searching_next s c i :
  searching s c i -> 0 <= i < 16 ->
  searching (upd (store8 (list + 32 * i + 10) 0) s) c (i + 1) /\
  fs_same 0 0 s (upd (store8 (list + 32 * i + 10) 0) s).
Proof.
  intros Hs Hi. destruct (compare_entry s c i Hs Hi) as (_ & _ & Hname).
  assert (fs_same 0 0 s (upd (store8 (list + 32 * i + 10) 0) s)) as Hsame.
  { split; [done.. |]. intros a Hna _. cbn [upd f_mem]. apply load8_store8_ne. rewrite <- Z.add_assoc.
    apply not_in_list; [done | lia]. }
  split; [| done]. destruct Hs. split; try done.
  - eapply fs_ok_same; [done | exact Hsame | apply se_ok0 | apply se_ok0 | lia].
  - intros k Hk. cbn [upd f_mem]. rewrite load8_store8_ne by lia. apply se_data0. lia.
Qed.

(** The copy of an entry that [find_file] returns. *)
Definition entry_copy s (c i file : Z) (m : mem) : Prop :=
  forall k, 0 <= k < sizeof_dir_entry ->
    load8 m (file + k) = if k =? 10 then 0 else cluster_byte s c (32 * i + k).

(** The copy of the entry [i] that matches. *)
Lemma take_entry s c i p h :
  searching s c i -> 0 <= i < 16 -> kmalloc sizeof_dir_entry (f_heap s) = Some (p, h) ->
  let m := store8 (list + 32 * i + 10) 0 (f_mem s) in
  exists m', memcpy p (list + 32 * i) sizeof_dir_entry m = Some m' /\ entry_copy s c i p m' /\
    forall a, safe a -> load8 m' a = load8 m a.
Proof.
  intros Hs Hi Ek. pose proof (se_ok _ _ _ Hs) as [Hh Ho _ _ _].
  destruct (fresh_block _ _ _ _ Hh Ho (eq_refl : 0 < 32) Ek) as (_ & _ & Hp & _ & _ & _ & Hun).
  destruct (kmalloc_extent _ _ _ _ Hh (eq_refl : 0 < 32) Ek) as (_ & _ & _ & Hext).
  destruct (Hext list (se_live _ _ _ Hs)) as [_ Hdis]. rewrite (se_extent _ _ _ Hs) in Hdis. cbv zeta.
  unfold sizeof_dir_entry in *.
  destruct (memcpy_result p (list + 32 * i) 32 (store8 (list + 32 * i + 10) 0 (f_mem s))) as (m & -> & Hcopy & Hout);
    [lia | lia |].
  exists m. split_and!; [done | | intros a Ha; apply Hout; intros Hin; by apply (Hun a)].
  intros k Hk. unfold sizeof_dir_entry in Hk. rewrite Hcopy, load8_store8 by done.
  destruct (Z.eqb_spec k 10) as [->|Hne]; [by rewrite decide_True |].
  rewrite decide_False by lia. rewrite <- Z.add_assoc. apply (se_data _ _ _ Hs). lia.
Qed.

(** The entry that is returned, in a block of its own. *)
Record returned s (c i file : Z) s' : Prop := {
  rt_copy : entry_copy s c i file (f_mem s');
  rt_ok : fs_ok s';
  rt_same : fs_same 0 0 s s';
  rt_file : 0 < file;
  rt_live : file ∈ live (f_heap s');
  rt_extent : extent (f_heap s') file = sizeof_dir_entry;
  rt_new : own !! file = None;
  rt_area : fst area <= file /\ file + sizeof_dir_entry <= snd area
}.

Lemma returned_after s1 s c i file s' : fs_same 0 0 s1 s -> returned s c i file s' -> returned s1 c i file s'.
Proof.
  intros Hsame [Hc Hok Hs H1 H2 H3 H4 H5]. split; try done; [| by eapply fs_same_trans].
  intros k Hk. rewrite Hc by done. unfold cluster_byte. by rewrite (fm_cluster _ _ _ _ Hsame).
Qed.

(** What one entry does. *)
Lemma find_in_cluster_miss s c i n :
  searching s c i -> 0 <= i < 16 -> starts_with s text c i = false ->
  find_in_cluster fuel (S n) i list name s =
    find_in_cluster fuel n (i + 1) list name (upd (store8 (list + 32 * i + 10) 0) s).
Proof.
  intros Hs Hi Hno. destruct (compare_entry s c i Hs Hi) as (El & Ec & _). rewrite Hno in Ec.
  rewrite find_in_cluster_S. cbv zeta. change (list + sizeof_dir_entry * i) with (list + 32 * i).
  change (f_mem (upd (store8 (list + 32 * i + 10) 0) s)) with (store8 (list + 32 * i + 10) 0 (f_mem s)).
  rewrite El, bind_Some_eq. replace (Z.of_nat (length text) + 1 - 1) with (Z.of_nat (length text)) by lia.
  by rewrite Ec, bind_Some_eq.
Qed.

(** The heap after the copy is made and the buffer given back. *)
Lemma entry_taken s c i p h :
  searching s c i -> kmalloc sizeof_dir_entry (f_heap s) = Some (p, h) ->
  heap_ok (kfree list h) /\ owns (kfree list h) /\ 0 < p /\ p ∈ live (kfree list h) /\
  extent (kfree list h) p = sizeof_dir_entry /\ own !! p = None /\
  fst area <= p /\ p + sizeof_dir_entry <= snd area.
Proof.
  intros Hs Ek. pose proof (se_ok _ _ _ Hs) as [Hh Ho _ _ _].
  destruct (fresh_block _ _ _ _ Hh Ho (eq_refl : 0 < 32) Ek) as (Hh1 & Ho1 & Hp & Hlive & Hext & Hnop & _).
  destruct (kmalloc_spec _ _ _ _ Hh (eq_refl : 0 < 32) Ek) as (_ & _ & Hnew & Hl).
  assert (list ∈ live h) as Hlive1 by (rewrite Hl; apply elem_of_union_r, Hs).
  assert (p <> list) as Hne by (intros ->; by apply Hnew, Hs).
  destruct (give_back_block list h Hh1 Ho1 Hlive1 Hlist) as [Hh2 Ho2]. destruct (kmalloc_extent _ _ _ _ Hh (eq_refl : 0 < 32) Ek) as (Hlo & Hhi & _ & _).
  split_and!; [done | done | done | | | done | done | done].
  - rewrite (proj2 (kfree_spec list h Hh1 Hlive1)). apply elem_of_difference. by rewrite elem_of_singleton.
  - by rewrite kfree_extent.
Qed.

Lemma find_in_cluster_hit s c i n p h :
  searching s c i -> 0 <= i < 16 -> starts_with s text c i = true ->
  kmalloc sizeof_dir_entry (f_heap s) = Some (p, h) ->
  exists s', find_in_cluster fuel (S n) i list name s = Some (Some p, s') /\ returned s c i p s' /\ f_heap s' = kfree list h.
Proof.
  intros Hs Hi Hyes Ek. destruct (compare_entry s c i Hs Hi) as (El & Ec & _). rewrite Hyes in Ec.
  destruct (take_entry s c i p h Hs Hi Ek) as (m & Em & Hcopy & Hout).
  destruct (searching_next s c i Hs Hi) as [_ Hsame].
  destruct (entry_taken s c i p h Hs Ek) as (Hh & Ho & Hp & Hlive & Hext & Hnop & Harea).
  rewrite find_in_cluster_S. cbv zeta. change (list + sizeof_dir_entry * i) with (list + 32 * i).
  change (f_mem (upd (store8 (list + 32 * i + 10) 0) s)) with (store8 (list + 32 * i + 10) 0 (f_mem s)).
  rewrite El, bind_Some_eq. replace (Z.of_nat (length text) + 1 - 1) with (Z.of_nat (length text)) by lia.
  rewrite Ec, bind_Some_eq. change (negb (1 =? 0)) with true. cbv iota.
  unfold alloc_buffer. change (f_heap (upd (store8 (list + 32 * i + 10) 0) s)) with (f_heap s).
  rewrite Ek, !bind_Some_eq. cbv iota beta.
  change (f_mem (set_heap h _)) with (store8 (list + 32 * i + 10) 0 (f_mem s)).
  rewrite Em, bind_Some_eq. eexists. split; [reflexivity |].
  match goal with |- returned _ _ _ _ ?s' /\ _ => assert (fs_same 0 0 s s') as Hsame' end.
  { eapply fs_same_trans; [exact Hsame |]. split; [reflexivity.. |]. intros a Hna _. by apply Hout. }
  split; [| done]. split; [exact Hcopy | | exact Hsame' | done | exact Hlive | exact Hext | done | exact Harea].
  eapply fs_ok_same; [apply Hs | exact Hsame' | exact Hh | exact Ho | lia].
Qed.

Lemma find_in_cluster_run (k n : nat) : forall s c i,
  searching s c i -> i = 16 - Z.of_nat n -> 0 <= i ->
  budget (S k) (f_heap s) ->
  match first_entry s text c n i with
  | Some j => exists file s', find_in_cluster fuel n i list name s = Some (Some file, s') /\
      returned s c j file s' /\ budget k (f_heap s')
  | None => exists s', find_in_cluster fuel n i list name s = Some (None, s') /\
      searching s' c 16 /\ fs_same 0 0 s s' /\ f_heap s' = f_heap s
  end.
Proof.
  induction n as [|n IH]; intros s c i Hs Hin Hi Hroom; cbn [first_entry].
  - exists s. split; [reflexivity |]. split_and!; [| done | done]. by replace 16 with i by lia.
  - destruct (starts_with s text c i) eqn:Est.
    + pose proof (se_ok _ _ _ Hs) as [Hh Ho _ _ _].
      destruct (small_request k sizeof_dir_entry (f_heap s) Hh Hroom) as (p & h & Ek & Hb); [by split |].
      destruct (find_in_cluster_hit s c i n p h Hs ltac:(lia) Est Ek) as (s' & E & Hret & Hheap).
      exists p, s'. split; [exact E |]. split; [exact Hret |]. rewrite Hheap.
      destruct (fresh_block _ _ _ _ Hh Ho (eq_refl : 0 < 32) Ek) as (Hh1 & _).
      apply budget_kfree; [done | | done]. destruct (kmalloc_spec _ _ _ _ Hh (eq_refl : 0 < 32) Ek) as (_ & _ & _ & ->).
      apply elem_of_union_r, Hs.
    + rewrite (find_in_cluster_miss s c i n Hs ltac:(lia) Est).
      destruct (searching_next s c i Hs ltac:(lia)) as [Hs1 Hsame1].
      specialize (IH _ c (i + 1) Hs1 ltac:(lia) ltac:(lia) Hroom).
      rewrite (first_entry_same s _ text c n (i + 1)) in IH by reflexivity.
      destruct (first_entry s text c n (i + 1)) as [j|].
      * destruct IH as (file & s' & E & Hret & Hb). exists file, s'. split; [exact E |]. split; [by eapply returned_after | done].
      * destruct IH as (s' & E & Hs' & Hsame & Hh). exists s'.
        split; [exact E |]. split; [exact Hs' |]. split; [by eapply fs_same_trans | exact Hh].
Qed.

(** What holds between two clusters. *)
Record between s : Prop := {
  bt_ok : fs_ok s;
  bt_live : list ∈ live (f_heap s);
  bt_extent : extent (f_heap s) list = 512;
  bt_name : cstr (f_mem s) name text
}.

Lemma between_read s c : between s -> searching (snd (read_cluster c list s)) c 0 /\
  fs_same 0 0 s (snd (read_cluster c list s)) /\ f_heap (snd (read_cluster c list s)) = f_heap s.
Proof.
  intros [Hs Hl He Hn].
  pose proof (volume_apart s list 512 Hs eq_refl Hunsafe) as Hap.
  destruct (read_cluster_run s c list Hs Hap) as (Hin & Hout & Hsame & Hs' & Hh).
  assert (fs_same 0 0 s (snd (read_cluster c list s))) as Hsame0.
  { destruct Hsame as [A B C M]. split; [done.. |]. intros a Hna _. apply M; [done |]. intros Ha. by apply (Hunsafe a). }
  split; [| done]. split; [done | by rewrite Hh | by rewrite Hh | | exact Hin].
  apply (name_kept (f_mem s)); [| done]. intros b Hb. by apply (fm_mem _ _ _ _ Hsame0); [| lia].
Qed.

Lemma find_file_step_eq c s :
  find_file_step fuel 16 list name (c, s) =
    match find_in_cluster fuel 16 0 list name (snd (read_cluster c list s)) with
    | None => inr None
    | Some (Some file, s) => inr (Some (file, s))
    | Some (None, s) =>
        match find_next_cluster c s with
        | None => inr None
        | Some (cluster, s) =>
            if cluster <? 0x0ffffff8 then inl (cluster, s) else inr (Some (0, free_buffer list s))
        end
    end.
Proof. reflexivity. Qed.

(** One cluster of the directory: the entry is there, or the next cluster is known. *)
Lemma find_file_step_run (k : nat) c s :
  between s -> in_buffer c -> budget (S k) (f_heap s) ->
  match first_entry s text c 16 0 with
  | Some j => exists file s', find_file_step fuel 16 list name (c, s) = inr (Some (file, s')) /\
      returned s c j file s' /\ budget k (f_heap s')
  | None => exists s', find_file_step fuel 16 list name (c, s) =
        (if fat_read s c <? 0x0ffffff8 then inl (fat_read s c, s') else inr (Some (0, free_buffer list s'))) /\
      between s' /\ fs_same 0 0 s s' /\ budget k (f_heap s')
  end.
Proof.
  intros Hs Hc Hbud. rewrite find_file_step_eq.
  destruct (between_read s c Hs) as (Hse & Hsame & Hh).
  pose proof (find_in_cluster_run k 16 _ c 0 Hse eq_refl ltac:(lia) ltac:(by rewrite Hh)) as Hrun.
  rewrite (first_entry_same s _ _ _ _ _ (fm_cluster _ _ _ _ Hsame)) in Hrun.
  destruct (first_entry s text c 16 0) as [j|].
  - destruct Hrun as (file & s2 & -> & Hret & Hb). exists file, s2. split; [reflexivity |]. split; [by eapply returned_after | done].
  - destruct Hrun as (s2 & -> & Hse2 & Hsame2 & Hh2). rewrite Hh in Hh2.
    destruct (find_next_run s2 c k (se_ok _ _ _ Hse2) Hc ltac:(by rewrite Hh2))
      as (s3 & -> & Hsame3 & Hs3 & Hb3 & p & h & Ek & Hh3). rewrite Hh2 in Ek.
    assert (fs_same 0 0 s s2) as Hsame02 by (by eapply fs_same_trans).
    assert (fs_same 0 0 s s3) as Hsame03 by (by eapply fs_same_trans).
    rewrite (fs_same_read _ _ _ _ c Hsame02). exists s3. split; [reflexivity |]. split; [| done].
    destruct (buffer_kept _ _ _ list (fo_heap _ (bt_ok _ Hs)) Ek (bt_live _ Hs)) as (Hk1 & Hk2 & Hk3).
    split; [done | by rewrite Hh3 | rewrite Hh3, Hk3; exact (bt_extent _ Hs) |].
    apply (name_kept (f_mem s)); [| apply Hs]. intros b Hb. by apply (fm_mem _ _ _ _ Hsame03); [| lia].
Qed.

Lemma find_file_loop (k : nat) l : forall c s gas,
  between s -> chain (fat_read s) c l -> Forall in_buffer l -> budget (length l + k) (f_heap s) ->
  (length l <= gas)%nat ->
  match search s text l with
  | Some (d, j) => exists file s', iter_fuel gas (find_file_step fuel 16 list name) (c, s) = Some (Some (file, s')) /\
      returned s d j file s' /\ budget k (f_heap s')
  | None => exists s', iter_fuel gas (find_file_step fuel 16 list name) (c, s) = Some (Some (0, s')) /\
      fs_same 0 0 s s' /\ fs_ok s' /\ budget k (f_heap s')
  end.
Proof.
  intros c s gas Hs Hch. revert gas Hs. remember (fat_read s) as next eqn:En. revert s En.
  induction Hch as [c Hc|c l Hc Hch IH]; intros s -> gas Hs Hall Hbud Hgas.
  all: apply Forall_cons in Hall as [Hc128 Hall]; cbn [length Nat.add] in *.
  all: destruct gas as [|gas]; [lia |]; cbn [iter_fuel search].
  all: pose proof (find_file_step_run _ c s Hs Hc128 Hbud) as Hstep.
  all: destruct (first_entry s text c 16 0) as [j|];
    [destruct Hstep as (file & s' & -> & Hret & Hb); exists file, s'; split_and!; [done | done | first [exact Hb | exact (budget_le _ _ _ Hb)]] |].
  all: destruct Hstep as (s1 & -> & Hs1 & Hsame & Hb1).
  - rewrite (proj2 (Z.ltb_ge _ _)) by done. eexists. split; [reflexivity |].
    assert (fs_same 0 0 s1 (free_buffer list s1)) as Hfree by (by split).
    split; [by eapply fs_same_trans |]. pose proof (fo_heap _ (bt_ok _ Hs1)) as Hh1.
    destruct (give_back_block list (f_heap s1) Hh1 (fo_owns _ (bt_ok _ Hs1)) (bt_live _ Hs1) Hlist) as [Hf1 Hf2].
    split; [| by apply budget_kfree; [| apply Hs1 |]].
    eapply fs_ok_same; [apply Hs1 | exact Hfree | exact Hf1 | exact Hf2 | lia].
  - rewrite (proj2 (Z.ltb_lt _ _)) by done.
    specialize (IH s1 ltac:(unfold fat_read; by rewrite (fm_fat _ _ _ _ Hsame)) gas Hs1 Hall Hb1 ltac:(lia)).
    rewrite (search_same s s1 _ _ (fm_cluster _ _ _ _ Hsame)) in IH. destruct (search s text l) as [[d j]|].
    + destruct IH as (file & s2 & E & Hret & Hb). exists file, s2.
      split; [exact E |]. split; [by eapply returned_after | done].
    + destruct IH as (s2 & E & Hsame2 & Hok2). exists s2. split; [exact E |]. split; [by eapply fs_same_trans | done].
Qed.

End directory.

End disk.

(** C40: [find_next_cluster] ends the chain for the clusters from 0x0ffffff8 on. Below
    2048 it reads the table's first sector, at the index modulo 512: for the
    clusters of that sector, 0 to 127, this is the entry of the cluster, but for
    those 512 above, 1024 above and 1536 above it is the entry of another cluster.
    It gives its buffer back and changes nothing outside the heap's area and nothing in
    the blocks that its caller owns. *)
Theorem find_next_cluster_spec (disk : Z -> Z -> Z) {H : Type} `{SizedAllocator H, !HeapBudget H} (own : gmap Z Z)
  (s : fsys (H := H)) (c : Z) (n : nat)
  (Hs : fs_ok own s) (Hn : budget (S n) (f_heap s)) (Hc : 0 <= c) :
  (0x0ffffff8 <= c -> find_next_cluster disk c s = Some (0x0fffffff, s)) /\
  (c < 2048 -> c mod 512 < 128 -> exists s',
     find_next_cluster disk c s = Some (fat_entry disk s (c mod 512), s') /\
     fs_same own 0 0 s s' /\ fs_ok own s' /\ budget n (f_heap s')).
Proof.
  split.
  - intros Hbig. unfold find_next_cluster. by rewrite (proj2 (Z.leb_le _ c)) by done.
  - intros Hlt Hmod. destruct (find_next_run disk own s c n Hs ltac:(split; [lia | done]) Hn) as (s' & E & Hsame & Hs' & Hb & _).
    exists s'. split; [| by split_and!]. rewrite E. unfold fat_entry, fat_read. pose proof (Z.mod_pos_bound c 512).
    by rewrite (Z.mod_small (c mod 512) 128), (Z.div_small c 2048), (Z.div_small (c mod 512) 128) by lia.
Qed.

Section runs.
Context (disk : Z -> Z -> Z) {H : Type} `{SizedAllocator H, !HeapBudget H} (own : gmap Z Z) (s : fsys (H := H)) (l : list Z) (fuel more : nat).
Context (Hs : fs_ok own s) (Hfirst : Forall in_buffer l) (Hfuel : (length l <= fuel)%nat).

Lemma read_file_run (c address : Z) :
  chain (fat_read disk s) c l -> budget (length l + more) (f_heap s) ->
  0 <= address -> address + 512 * Z.of_nat (length l) < 2 ^ 64 ->
  address + 512 * Z.of_nat (length l) <= _partition s \/ _partition s + 90 <= address ->
  (forall b, address <= b < address + 512 * Z.of_nat (length l) -> safe own b) ->
  exists s', read_file disk fuel c address s = Some s' /\
    holds_clusters disk s l address (f_mem s') /\
    fs_same own address (address + 512 * Z.of_nat (length l)) s s' /\ fs_ok own s' /\ budget more (f_heap s').
Proof.
  intros Hchain Hbuffers Haddress Hlimit Hvolume Hsafe.
  assert (1 <= length l)%nat as Hl by (inversion Hchain; simpl; lia).
  unfold read_file. destruct (read_cluster_run disk own s c address Hs) as (Hin & _ & Hsame & Hs1 & Hh1); [lia |].
  set (s1 := snd (read_cluster disk c address s)) in *.
  assert (forall c k, cluster_byte disk s1 c k = cluster_byte disk s c k) as Hcb
    by (intros; unfold cluster_byte; by rewrite (fm_cluster _ _ _ _ _ Hsame)).
  destruct (read_file_loop disk own more l c s1 address fuel Hs1) as (s2 & -> & Hcl & Hsame2 & Hs2 & Hb2);
    [eapply clusters_ext; [| exact Hchain]; intros x; symmetry; by eapply fs_same_read | done | by rewrite Hh1
    | done | done | done | by rewrite (fm_partition _ _ _ _ _ Hsame) | done | intros k Hk; by rewrite Hin, Hcb |].
  exists s2. split_and!; [done | | | done | done].
  - intros i c' k Hi Hk. by rewrite <- Hcb, <- (Hcl i c' k Hi Hk).
  - eapply fs_same_trans; (eapply fs_same_mono; [eassumption | right; lia]).
Qed.

Lemma find_file_run (name : Z) (text : list Z) :
  budget (S (length l + more)) (f_heap s) ->
  chain (fat_read disk s) (root_cluster (f_mem s) (_partition s)) l ->
  cstr (f_mem s) name text -> Z.of_nat (length text) < 2 ^ 31 - 1 ->
  (forall b, name <= b <= name + Z.of_nat (length text) -> safe own b) -> (length text < fuel)%nat ->
  match search disk s text l with
  | Some (d, j) => exists file s', find_file disk fuel name s = Some (file, s') /\
      returned disk own s d j file s' /\ budget more (f_heap s')
  | None => exists s', find_file disk fuel name s = Some (0, s') /\
      fs_same own 0 0 s s' /\ fs_ok own s' /\ budget more (f_heap s')
  end.
Proof.
  intros Hroom Hchain Hname Hshort Hapart Htext.
  destruct (small_request _ 512 (f_heap s) (fo_heap _ _ Hs) Hroom) as (p & h & Hlist & Hbud); [lia |].
  destruct (fresh_block own _ _ _ _ (fo_heap _ _ Hs) (fo_owns _ _ Hs) (eq_refl : 0 < 512) Hlist)
    as (Hh & Ho & Hp & Hlive & Hext & Hno & Hun).
  assert (fs_same own 0 0 s (set_heap h s)) as Hsame by (by split).
  assert (between own p name text (set_heap h s)) as Hbt.
  { split; [| done | done | done]. eapply fs_ok_same; [exact Hs | exact Hsame | exact Hh | exact Ho | lia]. }
  unfold find_file, alloc_buffer. rewrite (fo_spc _ _ Hs), (fo_bps _ _ Hs). change (1 * 512) with 512.
  rewrite Hlist, !bind_Some_eq, (proj2 (Z.eqb_neq p 0)) by lia.
  change (spc (set_heap h s)) with (spc s). change (bps (set_heap h s)) with (bps s).
  rewrite (fo_spc _ _ Hs), (fo_bps _ _ Hs). change (Z.to_nat (1 * 512 / 32)) with 16%nat.
  pose proof (find_file_loop disk own p name text fuel Htext Hshort Hno Hun Hapart more l _ _ fuel Hbt Hchain Hfirst Hbud Hfuel) as Hrun.
  rewrite (search_same disk s (set_heap h s) _ _ eq_refl) in Hrun.
  destruct (search disk s text l) as [[d j]|].
  - destruct Hrun as (file & s' & E & Hret & Hb). exists file, s'.
    split; [exact (f_equal mjoin E) |]. split; [by eapply returned_after | done].
  - destruct Hrun as (s' & E & Hsame' & Hok). exists s'.
    split; [exact (f_equal mjoin E) |]. split; [by eapply fs_same_trans | done].
Qed.

End runs.

(** A new block that the caller keeps. *)
Lemma own_block {H : Type} `{SizedAllocator H} (own : gmap Z Z) sz h p h' :
  heap_ok h -> owns own h -> 0 < sz -> kmalloc sz h = Some (p, h') ->
  owns (<[p := sz]> own) h' /\ own !! p = None /\ forall b, p <= b < p + sz -> safe (<[p := sz]> own) b.
Proof.
  intros Hh Ho Hsz Ek. destruct (fresh_block own _ _ _ _ Hh Ho Hsz Ek) as (_ & Ho' & _ & Hl & He & Hno & _).
  split; [| split; [done |]].
  - intros q n. rewrite lookup_insert. case_decide as Eq; [intros [= <-]; by subst | apply Ho'].
  - intros b Hb. right. exists p, sz. by rewrite lookup_insert_eq.
Qed.

(** With two buffers to be had and a volume of 512-byte sectors and one-sector
    clusters behind the first entry of the disk's partition table, [fat32_init] ends:
    the volume's record stays in a block of the heap, the table and the clusters begin
    where its fields say, and the other operations can run. Memory that was safe is as
    it was. *)
Theorem fat32_init_spec (disk : Z -> Z -> Z) {H : Type} `{SizedAllocator H, !HeapBudget H} (own : gmap Z Z)
  (s : fsys (H := H)) (more : nat) :
  let lba := disk_load disk 4 0 454 in
  heap_ok (f_heap s) -> owns own (f_heap s) ->
  budget (S (S more)) (f_heap s) ->
  disk_load disk 2 lba 11 = 512 -> disk_load disk 1 lba 13 = 1 ->
  exists volume s', fat32_init disk s = Some s' /\ fs_ok (<[volume := 512]> own) s' /\ own !! volume = None /\
    _partition s' = volume /\ _partition_begin_lba s' = lba /\
    _fat_begin_lba s' = (lba + disk_load disk 2 lba 14)%word /\
    _cluster_begin_lba s' =
      (lba + disk_load disk 2 lba 14 + uint32_t (disk_load disk 1 lba 16 * disk_load disk 4 lba 36))%word /\
    root_cluster (f_mem s') volume = disk_load disk 4 lba 44 /\
    budget more (f_heap s') /\ forall a, safe own a -> load8 (f_mem s') a = load8 (f_mem s) a.
Proof.
  intros lba Hh Ho Hb0 Hbps Hspc.
  destruct (small_request _ 512 (f_heap s) Hh Hb0) as (table & h1 & E1 & Hb1); [lia |].
  destruct (fresh_block own _ _ _ _ Hh Ho (eq_refl : 0 < 512) E1) as (Hh1 & Ho1 & Hp1 & _ & _ & _ & Hun1).
  destruct (small_request _ 512 h1 Hh1 Hb1) as (volume & h2 & E2 & Hb2); [lia |].
  destruct (fresh_block own _ _ _ _ Hh1 Ho1 (eq_refl : 0 < 512) E2) as (Hh2 & _ & Hp2 & _ & _ & Hno & Hun2).
  destruct (own_block own _ _ _ _ Hh1 Ho1 (eq_refl : 0 < 512) E2) as (Ho2 & _ & Hsafe2).
  unfold fat32_init, alloc_buffer. rewrite E1, !bind_Some_eq. cbn [f_heap set_heap]. rewrite E2, !bind_Some_eq.
  rewrite (proj2 (Z.eqb_neq table 0)), (proj2 (Z.eqb_neq volume 0)) by lia. cbn [orb]. unfold read, read_sector.
  cbn [f_mem set_heap say].
  pose proof (read_sectors_run disk 0 table 1 (f_mem s)) as Hr. destruct (read_sectors disk 0 table 1 (f_mem s)) as [ok m1].
  destruct Hr as (-> & Hin1 & Hout1). cbn [Z.eqb].
  match goal with |- context [negb (table_magic ?m ?t =? ?x)] => set (warn := negb (table_magic m t =? x)) end.
  match goal with |- context [if warn then ?a else ?b] => set (s1 := if warn then a else b) end.
  assert (f_mem s1 = m1 /\ f_heap s1 = h2) as [Em1 Eh1] by (unfold s1; by destruct warn). rewrite ?Em1.
  assert (partition_lba m1 table = lba) as ->.
  { unfold partition_lba. rewrite <- Z.add_assoc. apply disk_load_run; [exact Hin1 | lia | simpl; lia]. }
  cbn [f_mem f_heap say]. rewrite ?Em1.
  pose proof (read_sectors_run disk lba volume 1 m1) as Hr. destruct (read_sectors disk lba volume 1 m1) as [ok m2].
  destruct Hr as (-> & Hin2 & Hout2). cbn [Z.eqb]. cbn [f_mem f_heap f_out upd say]. rewrite Eh1.
  set (m3 := store8 (label volume + 10) 0 m2).
  assert (forall n k, 0 <= k -> k + Z.of_nat n <= 81 -> load n m3 (volume + k) = disk_load disk n lba k) as Hfield.
  { intros n k Hk Hn. unfold m3, label. rewrite load_store8_other by lia. apply disk_load_run; [exact Hin2 | lia | lia]. }
  assert (load8 m3 (volume + 13) = 1 /\ load8 m3 (volume + 16) = disk_load disk 1 lba 16) as [E13 E16].
  { pose proof (Hfield 1%nat 13 ltac:(lia) ltac:(lia)) as E. pose proof (Hfield 1%nat 16 ltac:(lia) ltac:(lia)) as E'.
    rewrite Hspc in E. unfold load in E, E'. lia. }
  exists volume. eexists. split; [reflexivity |]. cbn [f_mem f_heap _partition _partition_begin_lba _fat_begin_lba _cluster_begin_lba].
  unfold reserved_sectors, number_of_fats, sectors_per_fat2, root_cluster. rewrite !Hfield, E16 by lia.
  split_and!; try done.
  - split; [exact Hh2 | exact Ho2 | | exact E13 |].
    + unfold bps, bytes_per_sector. cbn [f_mem _partition]. by rewrite Hfield by lia.
    + intros b Hb. apply Hsafe2. cbn [_partition] in Hb. lia.
  - intros a Ha. unfold m3, label. rewrite load8_store8_ne.
    2:{ intros <-. apply (Hun2 (volume + 71 + 10)); [lia | done]. }
    rewrite Hout2 by (intros Hb; by apply (Hun2 a)). apply Hout1. intros Hb. by apply (Hun1 a).
Qed.

(** C26: on a volume of 512-byte sectors and one-sector clusters, [read_file] follows the
    entries that [find_next_cluster] reads ([fat_read]), whatever the numbers of the clusters,
    as long as it reads inside its buffer ([in_buffer]); when all of them are below 128,
    these are the file's clusters ([fat_entry]), otherwise they can be those of another file. It
    puts their bytes one after the other at [address], in a block that the
    caller owns or outside the heap's area, ends, and changes no other memory outside
    that area and in the blocks the caller owns. *)
Theorem read_file_spec (disk : Z -> Z -> Z) {H : Type} `{SizedAllocator H, !HeapBudget H} (own : gmap Z Z)
  (s : fsys (H := H)) (c address : Z) (l : list Z) (fuel more : nat)
  (Hs : fs_ok own s) (Hchain : chain (fat_read disk s) c l) (Hfirst : Forall in_buffer l)
  (Hbudget : budget (length l + more) (f_heap s)) (Hfuel : (length l <= fuel)%nat)
  (Haddress : 0 <= address) (Hlimit : address + 512 * Z.of_nat (length l) < 2 ^ 64)
  (Hvolume : address + 512 * Z.of_nat (length l) <= _partition s \/ _partition s + 90 <= address)
  (Hsafe : forall b, address <= b < address + 512 * Z.of_nat (length l) -> safe own b) :
  exists s', read_file disk fuel c address s = Some s' /\
    holds_clusters disk s l address (f_mem s') /\
    fs_same own address (address + 512 * Z.of_nat (length l)) s s' /\ fs_ok own s' /\ budget more (f_heap s') /\
    (Forall (fun c => 0 <= c < 128) l -> chain (fat_entry disk s) c l).
Proof.
  destruct (read_file_run disk own s l fuel more Hs Hfirst Hfuel c address Hchain Hbudget Haddress Hlimit Hvolume Hsafe)
    as (s' & E & Hcl & Hsame & Hok & Hb). exists s'.
  repeat (split; [done |]). intros Hsmall. by apply chain_small.
Qed.

(** C29: on a volume of 512-byte sectors and one-sector clusters, [find_file] searches the
    clusters that it finds from the root directory's first one on with [find_next_cluster]
    ([fat_read]), as long as that reads inside its buffer; when all are below 128 they are the
    directory's. It ends; it returns a copy of
    the first entry, in the order of the chain, whose first ten characters (up to a 0)
    start with the string, in a block of its own and with a 0 in place of the eleventh
    character; it returns 0 when there is none. Its buffer is given back, and nothing
    changes outside the heap's area and in the blocks that the caller owns. *)
Theorem find_file_spec (disk : Z -> Z -> Z) {H : Type} `{SizedAllocator H, !HeapBudget H} (own : gmap Z Z)
  (s : fsys (H := H)) (name : Z) (text l : list Z) (fuel more : nat)
  (Hs : fs_ok own s) (Hbudget : budget (S (length l + more)) (f_heap s))
  (Hchain : chain (fat_read disk s) (root_cluster (f_mem s) (_partition s)) l)
  (Hfirst : Forall in_buffer l)
  (Hname : cstr (f_mem s) name text) (Hshort : Z.of_nat (length text) < 2 ^ 31 - 1)
  (Hapart : forall b, name <= b <= name + Z.of_nat (length text) -> safe own b)
  (Hfuel : (length l <= fuel)%nat) (Htext : (length text < fuel)%nat) :
  match search disk s text l with
  | Some (d, j) => exists file s', find_file disk fuel name s = Some (file, s') /\
      returned disk own s d j file s' /\ budget more (f_heap s')
  | None => exists s', find_file disk fuel name s = Some (0, s') /\
      fs_same own 0 0 s s' /\ fs_ok own s' /\ budget more (f_heap s')
  end /\
  (Forall (fun c => 0 <= c < 128) l -> chain (fat_entry disk s) (root_cluster (f_mem s) (_partition s)) l).
Proof.
  split; [by eapply find_file_run |]. intros Hsmall. by apply chain_small.
Qed.

(** * A concrete disk *)

(** A table whose entries 3 and 5 chain a file to cluster 521, for which the code reads the entry 9;
    cluster [c] is filled with [c]. *)
Definition demo_disk (n k : Z) : Z :=
  if n =? 100 then
    if k =? 12 then 5 else if k =? 20 then 9 else if k =? 21 then 2 else if (36 <=? k) && (k <? 40) then 255 else 0
  else n - 198.

Definition demo_volume : mem := store 2 (0x1000 + 11) 512 (store8 (0x1000 + 13) 1 ∅).
Definition demo_fs : fsys (H := sized_bump) := Fsys demo_volume (SizedBump 0xC0100000 ∅) 0x1000 80 200 100 [].

(** Below the area of the heap. *)
Lemma low_safe (own : gmap Z Z) a : a < 0xC0100000 -> safe (H := sized_bump) own a.
Proof. intros Ha. left. change (fst area) with 0xC0100000. lia. Qed.

Lemma demo_fs_ok : fs_ok ∅ demo_fs.
Proof.
  split; [split; [by vm_compute |] | done | by vm_compute | by vm_compute |].
  2:{ intros b Hb. apply low_safe. change (_partition demo_fs) with 0x1000 in Hb. lia. }
  intros p n Hp. simpl in Hp. by rewrite lookup_empty in Hp.
Qed.

Lemma in_buffer_list l : Forall (fun c => 0 <= c < 128) l -> Forall in_buffer l.
Proof. intros Hl. apply (Forall_impl _ _ _ Hl). intros c Hc. split; [lia |]. rewrite Z.mod_small; lia. Qed.

Lemma demo_chain : chain (fat_read demo_disk demo_fs) 3 [3; 5; 521].
Proof.
  constructor; [by vm_compute |]. change (fat_read demo_disk demo_fs 3) with 5.
  constructor; [by vm_compute |]. change (fat_read demo_disk demo_fs 5) with 521.
  constructor. by vm_compute.
Qed.

Lemma find_next_cluster_spec_witness :
  (exists s', find_next_cluster demo_disk 3 demo_fs = Some (5, s')) /\
  (exists s', find_next_cluster demo_disk 515 demo_fs = Some (5, s')).
Proof.
  assert (budget 2 (f_heap demo_fs)) as Hn by (by vm_compute). split.
  - destruct (find_next_cluster_spec demo_disk ∅ demo_fs 3 1 demo_fs_ok Hn ltac:(lia)) as [_ Hf].
    destruct (Hf ltac:(lia) ltac:(done)) as (s' & E & _). by exists s'.
  - destruct (find_next_cluster_spec demo_disk ∅ demo_fs 515 1 demo_fs_ok Hn ltac:(lia)) as [_ Hf].
    destruct (Hf ltac:(lia) ltac:(done)) as (s' & E & _). by exists s'.
Defined.

Lemma read_file_spec_witness :
  exists s', read_file demo_disk 3 3 0x8000 demo_fs = Some s' /\
    load8 (f_mem s') (0x8000 + 512 * Z.of_nat 2 + 7) = 521 mod 256.
Proof.
  assert (budget 3 (f_heap demo_fs)) as Hbud by (by vm_compute).
  destruct (read_file_spec demo_disk ∅ demo_fs 3 0x8000 [3; 5; 521] 3 0 demo_fs_ok demo_chain
    ltac:(repeat constructor; vm_compute; congruence) Hbud ltac:(simpl; lia) ltac:(lia) ltac:(simpl; lia)
    ltac:(right; simpl; lia) ltac:(intros b Hb; apply low_safe; simpl in Hb; lia)) as (s' & E & Hc & _).
  exists s'. split; [exact E |]. rewrite (Hc 2%nat 521 7 eq_refl) by lia. by vm_compute.
Defined.

(** A directory of two clusters, 2 and 4; the second entry of the second is HELLO.TXT. *)
Definition hello_txt : list Z := [72; 69; 76; 76; 79; 32; 32; 32; 84; 88; 84].

Definition dir_disk (n k : Z) : Z :=
  if n =? 100 then
    if k =? 8 then 4 else if (16 <=? k) && (k <? 20) then 255 else 0
  else if n =? 202 then default 0 (hello_txt !! Z.to_nat (k - 32)) * Z.b2z (32 <=? k)
  else 0.

Definition dir_fs : fsys (H := sized_bump) :=
  Fsys (store8 0x9000 72 (store8 0x9001 69 (store 4 (0x1000 + 44) 2 demo_volume)))
    (SizedBump 0xC0100000 ∅) 0x1000 80 200 100 [].

Lemma dir_fs_ok : fs_ok ∅ dir_fs.
Proof.
  split; [split; [by vm_compute |] | done | by vm_compute | by vm_compute |].
  2:{ intros b Hb. apply low_safe. change (_partition dir_fs) with 0x1000 in Hb. lia. }
  intros p n Hp. simpl in Hp. by rewrite lookup_empty in Hp.
Qed.

Lemma dir_chain : chain (fat_read dir_disk dir_fs) (root_cluster (f_mem dir_fs) (_partition dir_fs)) [2; 4].
Proof.
  change (root_cluster _ _) with 2. constructor; [by vm_compute |].
  change (fat_read dir_disk dir_fs 2) with 4. constructor. by vm_compute.
Qed.

Lemma dir_name : cstr (f_mem dir_fs) 0x9000 [72; 69].
Proof. apply cstr_check; vm_compute; done. Qed.

Lemma find_file_spec_witness : exists file s', find_file dir_disk 3 0x9000 dir_fs = Some (file, s') /\
  load8 (f_mem s') (file + 4) = 79.
Proof.
  assert (budget 3 (f_heap dir_fs)) as Hbud by (by vm_compute).
  destruct (find_file_spec dir_disk ∅ dir_fs 0x9000 [72; 69] [2; 4] 3 0
    dir_fs_ok Hbud dir_chain ltac:(apply in_buffer_list; repeat constructor; lia) dir_name ltac:(simpl; lia)
    ltac:(intros b Hb; apply low_safe; simpl in Hb; lia) ltac:(simpl; lia) ltac:(simpl; lia)) as [Hf _].
  change (search dir_disk dir_fs [72; 69] [2; 4]) with (Some (4, 1)) in Hf.
  destruct Hf as (file & s' & E & [Hcopy _ _ _ _ _ _ _] & _). exists file, s'. split; [exact E |].
  rewrite Hcopy by (unfold sizeof_dir_entry; lia). by vm_compute.
Defined.

(** A disk with that volume behind sector 68. *)
Definition init_disk (n k : Z) : Z :=
  if n =? 0 then if k =? 454 then 68 else if k =? 510 then 0x55 else if k =? 511 then 0xAA else 0
  else if n =? 68 then if k =? 12 then 2 else if k =? 13 then 1 else if k =? 14 then 32 else if k =? 16 then 2
    else if k =? 36 then 50 else if k =? 44 then 2 else 0
  else 0.

Definition init_fs : fsys (H := sized_bump) := Fsys ∅ (SizedBump 0xC0100000 ∅) 0 0 0 0 [].

Lemma fat32_init_spec_witness :
  exists volume s', fat32_init init_disk init_fs = Some s' /\
    fs_ok {[volume := 512]} s' /\ _fat_begin_lba s' = 100 /\ _cluster_begin_lba s' = 200.
Proof.
  destruct (fat32_init_spec init_disk ∅ init_fs 0) as (volume & s' & E & Hok & _ & _ & _ & Ef & Ec & _).
  - split; [by vm_compute |]. intros p n Hp. simpl in Hp. by rewrite lookup_empty in Hp.
  - intros q n Hq. by rewrite lookup_empty in Hq.
  - by vm_compute.
  - vm_compute. reflexivity.
  - vm_compute. reflexivity.
  - exists volume, s'. split; [exact E |]. split; [exact Hok |].
    split; [rewrite Ef; vm_compute; reflexivity | rewrite Ec; vm_compute; reflexivity].
Defined.
