(* ===== verification/Ata.v ===== *)
(** The disk driver (kernel/read_sectors.asm): the routine as a program for the processor's
    registers, flags and stack, over a drive behind its ports. The drive is an interface that
    states the protocol of a read command; against it the routine is proved to do what
    [read_sectors] of Fat32.v says. *)

From S2P Require Import Prelude Words Console Allocator Memory CLib Fat32.
#[local] Open Scope Z_scope.

(** * The drive *)

(** The bytes of a sector as the data port gives them. *)
Definition sector_words (b : Z -> Z) : list Z := (fun i => b (2 * i) mod 256 + 256 * (b (2 * i + 1) mod 256)) <$> seqZ 0 256.

(** An ATA drive that is programmed through its ports: the sector count (0x1f2), three
    bytes of the sector number (0x1f3 to 0x1f5), the select register (0x1f6), the command
    or status (0x1f7) and the data (0x1f0). [sector low mid high sel k] is byte [k] of the
    sector that those registers name. *)
Class Drive (D : Type) := {
  out8 : Z -> Z -> D -> D;
  in8 : Z -> D -> Z * D;
  in16 : Z -> D -> Z * D;
  sector : Z -> Z -> Z -> Z -> Z -> Z;

  idle : D -> Prop;
  busy : D -> nat -> list Z -> Prop;  (** so many polls until the words are ready *)
  ready : D -> list Z -> Prop;        (** the words that the data port still gives *)

  (** The read command: some polls later the sector's words are ready, and those of the
      [count - 1] sectors behind it. *)
  drive_command d count low mid high sel :
    idle d ->
    exists n more,
      busy (out8 0x1f7 0x20 (out8 0x1f6 sel (out8 0x1f5 high (out8 0x1f4 mid (out8 0x1f3 low (out8 0x1f2 count d)))))) n
        (sector_words (sector low mid high sel) ++ more) /\
      (count = 1 -> more = []);
  drive_wait d n l : busy d (S n) l -> Z.land (fst (in8 0x1f7 d)) 8 = 0 /\ busy (snd (in8 0x1f7 d)) n l;
  drive_done d l : busy d 0 l -> Z.land (fst (in8 0x1f7 d)) 8 <> 0 /\ ready (snd (in8 0x1f7 d)) l;
  drive_data d x l : ready d (x :: l) -> fst (in16 0x1f0 d) = x /\ ready (snd (in16 0x1f0 d)) l;
  drive_idle d : ready d [] -> idle d
}.

#[global] Hint Mode Drive ! : typeclass_instances.

(** * The processor *)

Inductive reg := RAX | RCX | RDX | RSI | RDI.

Record cpu := Cpu { rax : Z; rcx : Z; rdx : Z; rsi : Z; rdi : Z; cf : bool; zf : bool; stack : list Z }.

Definition get (r : reg) (c : cpu) : Z :=
  match r with RAX => rax c | RCX => rcx c | RDX => rdx c | RSI => rsi c | RDI => rdi c end.

Definition set (r : reg) (v : Z) (c : cpu) : cpu :=
  match r with
  | RAX => Cpu v (rcx c) (rdx c) (rsi c) (rdi c) (cf c) (zf c) (stack c)
  | RCX => Cpu (rax c) v (rdx c) (rsi c) (rdi c) (cf c) (zf c) (stack c)
  | RDX => Cpu (rax c) (rcx c) v (rsi c) (rdi c) (cf c) (zf c) (stack c)
  | RSI => Cpu (rax c) (rcx c) (rdx c) v (rdi c) (cf c) (zf c) (stack c)
  | RDI => Cpu (rax c) (rcx c) (rdx c) (rsi c) v (cf c) (zf c) (stack c)
  end.

Definition set_flags (carry zero : bool) (c : cpu) : cpu := Cpu (rax c) (rcx c) (rdx c) (rsi c) (rdi c) carry zero (stack c).
Definition set_stack (l : list Z) (c : cpu) : cpu := Cpu (rax c) (rcx c) (rdx c) (rsi c) (rdi c) (cf c) (zf c) l.

(** The parts of a register: [al], [ch], [dx], [ecx]. *)
Definition low8 (v : Z) : Z := v mod 256.
Definition high8 (v : Z) : Z := v / 256 mod 256.
Definition low16 (v : Z) : Z := v mod 65536.
Definition with_low8 (b v : Z) : Z := v - v mod 256 + b mod 256.
Definition with_low16 (w v : Z) : Z := v - v mod 65536 + w mod 65536.

Definition bswap32 (v : Z) : Z :=
  v mod 256 * 2 ^ 24 + v / 2 ^ 8 mod 256 * 2 ^ 16 + v / 2 ^ 16 mod 256 * 2 ^ 8 + v / 2 ^ 24 mod 256.

(** The instructions that the routine uses; a write to 32 bits of a register clears the
    others. *)
Inductive instr :=
  | Push (r : reg)
  | Pop (r : reg)
  | Mov_r32 (dst src : reg)
  | Mov_al_low (src : reg)
  | Mov_al_high (src : reg)
  | Mov_al (v : Z)
  | Mov_dx (v : Z)
  | Mov_r64 (dst : reg) (v : Z)
  | Inc_r32 (r : reg)
  | Bswap_r32 (r : reg)
  | Or_al (v : Z)
  | Test_al (v : Z)
  | Out_dx_al
  | In_al_dx
  | Rep_insw.

Section machine.
Context {D : Type} `{Drive D}.

Record pc := Pc { p_cpu : cpu; p_mem : mem; p_drive : D }.

Definition upd_cpu (f : cpu -> cpu) (s : pc) : pc := Pc (f (p_cpu s)) (p_mem s) (p_drive s).

(** [rep insw]: [rcx] words from the port [dx] to the memory at [rdi]. *)
Fixpoint rep_insw (n : nat) (s : pc) : pc :=
  match n with
  | O => s
  | S n =>
      let c := p_cpu s in
      let '(w, d) := in16 (low16 (rdx c)) (p_drive s) in
      rep_insw n (Pc (set RCX (rcx c - 1)%word (set RDI (rdi c + 2)%word c)) (store 2 (rdi c) w (p_mem s)) d)
  end.

Definition exec_instr (s : pc) (i : instr) : pc :=
  let c := p_cpu s in
  match i with
  | Push r => upd_cpu (set_stack (get r c :: stack c)) s
  | Pop r => upd_cpu (fun c => set_stack (tail (stack c)) (set r (hd 0 (stack c)) c)) s
  | Mov_r32 dst src => upd_cpu (set dst (uint32_t (get src c))) s
  | Mov_al_low src => upd_cpu (set RAX (with_low8 (low8 (get src c)) (rax c))) s
  | Mov_al_high src => upd_cpu (set RAX (with_low8 (high8 (get src c)) (rax c))) s
  | Mov_al v => upd_cpu (set RAX (with_low8 v (rax c))) s
  | Mov_dx v => upd_cpu (set RDX (with_low16 v (rdx c))) s
  | Mov_r64 dst v => upd_cpu (set dst v) s
  | Inc_r32 r => let v := uint32_t (get r c + 1) in upd_cpu (fun c => set_flags (cf c) (v =? 0) (set r v c)) s
  | Bswap_r32 r => upd_cpu (set r (bswap32 (get r c))) s
  | Or_al v => let b := Z.lor (low8 (rax c)) v in upd_cpu (fun c => set_flags false (b =? 0) (set RAX (with_low8 b (rax c)) c)) s
  | Test_al v => upd_cpu (set_flags false (Z.land (low8 (rax c)) v =? 0)) s
  | Out_dx_al => Pc c (p_mem s) (out8 (low16 (rdx c)) (low8 (rax c)) (p_drive s))
  | In_al_dx => let '(v, d) := in8 (low16 (rdx c)) (p_drive s) in Pc (set RAX (with_low8 v (rax c)) c) (p_mem s) d
  | Rep_insw => rep_insw (Z.to_nat (rcx c)) s
  end.

Definition exec_all (l : list instr) (s : pc) : pc := foldl exec_instr s l.

(** ** The routine *)

(** [read_sectors]: the parameters are moved to where [read] expects them. *)
Definition read_sectors_entry : list instr := [Push RDI; Push RSI; Pop RDI; Pop RAX].

(** [read], up to the command. *)
Definition read_command : list instr :=
  [Push RDX; Push RCX; Mov_r32 RCX RAX; Mov_al_low RDX;
   Mov_dx 0x1f2; Out_dx_al;
   Mov_al_low RCX; Inc_r32 RDX; Out_dx_al;
   Mov_al_high RCX; Inc_r32 RDX; Out_dx_al;
   Bswap_r32 RCX; Mov_al_high RCX; Inc_r32 RDX; Out_dx_al;
   Mov_al_low RCX; Or_al 0xe0; Inc_r32 RDX; Out_dx_al;
   Inc_r32 RDX; Mov_al 0x20; Out_dx_al].

(** [still_going]: the loop that polls the status. *)
Definition still_going (s : pc) : pc + pc :=
  let s := exec_all [In_al_dx; Test_al 8] s in if zf (p_cpu s) then inl s else inr s.

Definition read_data : list instr := [Mov_r64 RCX 256; Mov_dx 0x1f0; Rep_insw; Mov_r64 RAX 1].

(** [jnc goodEnd] around [mov rax, 0], and [goodEnd]. *)
Definition read_end (s : pc) : pc :=
  exec_all [Pop RCX; Pop RDX] (if cf (p_cpu s) then exec_instr s (Mov_r64 RAX 0) else s).

(** A call: [None] when the drive is not ready within [fuel] polls. *)
Definition read_sectors_asm (fuel : nat) (s : pc) : option pc :=
  s ← iter_fuel fuel still_going (exec_all read_command (exec_all read_sectors_entry s));
  Some (read_end (exec_all read_data s)).

End machine.

Arguments pc D : clear implicits.

(** What Fat32.v takes for the drive: the sector that the registers name when the routine
    is called with the number [n]. *)
Definition disk_of {D : Type} `{Drive D} (n k : Z) : Z :=
  sector (D := D) (n mod 256) (n / 2 ^ 8 mod 256) (n / 2 ^ 16 mod 256) (Z.lor (n / 2 ^ 24 mod 256) 0xe0) k.

Arguments disk_of D {_} n k.

(** * Parts of registers *)

Lemma low8_with b v : low8 (with_low8 b v) = b mod 256.
Proof. unfold low8, with_low8. rewrite Zplus_mod, Zminus_mod, !Z.mod_mod by lia. rewrite Z.sub_diag, Z.mod_0_l, Z.add_0_l, Z.mod_mod by lia. done. Qed.

Lemma low16_with w v : low16 (with_low16 w v) = w mod 65536.
Proof. unfold low16, with_low16. rewrite Zplus_mod, Zminus_mod, !Z.mod_mod by lia. rewrite Z.sub_diag, Z.mod_0_l, Z.add_0_l, Z.mod_mod by lia. done. Qed.

Lemma low16_inc v : low16 (uint32_t (v + 1)) = (low16 v + 1) mod 65536.
Proof.
  unfold low16, uint32_t, uwrap. change (2 ^ 32) with (65536 * 65536).
  rewrite Z.rem_mul_r by lia. rewrite Z.mul_comm, Z_mod_plus_full, Z.mod_mod by lia.
  by rewrite Zplus_mod_idemp_l.
Qed.

Lemma low8_byte v : low8 (low8 v) = low8 v.
Proof. apply Z.mod_mod. lia. Qed.

Lemma low8_high8 v : low8 (high8 v) = high8 v.
Proof. apply Z.mod_mod. lia. Qed.

Lemma bswap_low v : low8 (bswap32 v) = v / 2 ^ 24 mod 256.
Proof.
  unfold low8, bswap32. pose proof (Z.mod_pos_bound (v / 2 ^ 24) 256).
  replace (_ + _ + _ + _) with (v / 2 ^ 24 mod 256 + (v mod 256 * 2 ^ 16 + v / 2 ^ 8 mod 256 * 2 ^ 8 + v / 2 ^ 16 mod 256) * 256) by lia.
  rewrite Z_mod_plus_full. by apply Z.mod_mod.
Qed.

Lemma bswap_high v : high8 (bswap32 v) = v / 2 ^ 16 mod 256.
Proof.
  unfold high8, bswap32. pose proof (Z.mod_pos_bound (v / 2 ^ 24) 256 ltac:(lia)).
  replace (_ + _ + _ + _) with ((v mod 256 * 2 ^ 16 + v / 2 ^ 8 mod 256 * 2 ^ 8 + v / 2 ^ 16 mod 256) * 256 + v / 2 ^ 24 mod 256) by lia.
  rewrite Z.div_add_l, (Z.div_small (_ mod 256) 256) by lia. rewrite Z.add_0_r.
  replace (_ + _ + _) with (v / 2 ^ 16 mod 256 + (v mod 256 * 2 ^ 8 + v / 2 ^ 8 mod 256) * 256) by lia.
  rewrite Z_mod_plus_full. by apply Z.mod_mod.
Qed.

Lemma select_byte b : 0 <= b < 256 -> Z.lor b 0xe0 mod 256 = Z.lor b 0xe0.
Proof.
  intros Hb. apply Z.mod_small. split; [apply Z.lor_nonneg; lia |].
  change 256 with (2 ^ 8). apply Z.log2_lt_pow2.
  - assert (Z.lor b 0xe0 <> 0) by (rewrite Z.lor_eq_0_iff; lia). pose proof (proj2 (Z.lor_nonneg b 0xe0) ltac:(lia)). lia.
  - rewrite Z.log2_lor by lia. apply Z.max_lub_lt; [| done].
    destruct (decide (b = 0)) as [->|]; [done |]. apply Z.log2_lt_pow2; lia.
Qed.

Create Rewrite HintDb asm.
#[export] Hint Rewrite low8_with low16_with low16_inc low8_byte low8_high8 bswap_low bswap_high : asm.

(** * Words in memory *)

Fixpoint store_words (a : Z) (l : list Z) (m : mem) : mem :=
  match l with [] => m | w :: l => store_words (a + 2) l (store 2 a w m) end.

Lemma store_words_app l1 l2 : forall a m, store_words a (l1 ++ l2) m = store_words (a + 2 * Z.of_nat (length l1)) l2 (store_words a l1 m).
Proof.
  induction l1 as [|w l1 IH]; intros a m; simpl; [f_equal; lia |]. rewrite IH. f_equal. lia.
Qed.

Lemma store_word a b0 b1 m : store 2 a (b0 mod 256 + 256 * (b1 mod 256)) m = store8 (a + 1) b1 (store8 a b0 m).
Proof.
  change (store 2 a ?w m) with (store8 a w (store8 (a + 1) (w / 256) m)). unfold store8.
  rewrite insert_insert_ne by lia. pose proof (Z.mod_pos_bound b0 256 ltac:(lia)).
  rewrite (Z.mul_comm 256), Z.div_add, (Z.div_small (b0 mod 256)), Z.add_0_l, Z_mod_plus_full, !Z.mod_mod by lia. done.
Qed.

Lemma store_sector (b : Z -> Z) a m n :
  0 <= n ->
  store_words a ((fun i => b (2 * i) mod 256 + 256 * (b (2 * i + 1) mod 256)) <$> seqZ 0 n) m =
    for_range 0 (2 * n) (fun k => store8 (a + k) (b k)) m.
Proof.
  intros Hn. pattern n. apply natlike_ind; [done | | done]. clear n Hn. intros n Hn IH.
  unfold Z.succ. rewrite seqZ_app by lia. rewrite fmap_app, store_words_app, IH, length_fmap, length_seqZ, Z2Nat.id by lia.
  replace (2 * (n + 1)) with (2 * n + 1 + 1) by lia. rewrite !for_range_snoc by lia.
  change (seqZ (0 + n) 1) with [0 + n]. rewrite Z.add_0_l. cbn [fmap list_fmap store_words]. rewrite store_word.
  by rewrite <- Z.add_assoc.
Qed.

(** * The routine against the drive *)

Section driver.
Context {D : Type} `{Drive D}.
Implicit Types (s : pc D) (d : D).

Lemma rep_insw_run (more : list Z) l : forall s,
  ready (p_drive s) (l ++ more) -> low16 (rdx (p_cpu s)) = 0x1f0 ->
  0 <= rdi (p_cpu s) -> rdi (p_cpu s) + 2 * Z.of_nat (length l) < 2 ^ 64 ->
  let s' := rep_insw (length l) s in
  p_mem s' = store_words (rdi (p_cpu s)) l (p_mem s) /\ ready (p_drive s') more /\ stack (p_cpu s') = stack (p_cpu s) /\
  cf (p_cpu s') = cf (p_cpu s).
Proof.
  induction l as [|w l IH]; intros s Hready Hdx H0 Hlim; [done |]. cbv zeta. cbn [length rep_insw store_words].
  cbn [length] in Hlim.
  destruct (drive_data _ _ _ Hready) as [Ew Hr]. rewrite Hdx.
  destruct (in16 0x1f0 (p_drive s)) as [w' d]. cbn [fst snd] in Ew, Hr. subst w'.
  rewrite (uint64_id (rdi (p_cpu s) + 2)) by lia.
  match goal with |- context [rep_insw (length l) ?s1] => destruct (IH s1) as (E1 & E2 & E3 & E4) end;
    [exact Hr | exact Hdx | cbn; lia | cbn; lia |]. split; [exact E1 |]. split; [exact E2 |]. by split.
Qed.

(** The loop over the status. *)
Lemma still_going_run l n : forall fuel s,
  (n < fuel)%nat -> busy (p_drive s) n l -> low16 (rdx (p_cpu s)) = 0x1f7 ->
  exists s', iter_fuel fuel still_going s = Some s' /\ ready (p_drive s') l /\ p_mem s' = p_mem s /\
    rdi (p_cpu s') = rdi (p_cpu s) /\ stack (p_cpu s') = stack (p_cpu s) /\ cf (p_cpu s') = false.
Proof.
  assert (forall s, low16 (rdx (p_cpu s)) = 0x1f7 ->
    exec_all [In_al_dx; Test_al 8] s =
      Pc (set_flags false (Z.land (low8 (fst (in8 0x1f7 (p_drive s)))) 8 =? 0)
        (set RAX (with_low8 (fst (in8 0x1f7 (p_drive s))) (rax (p_cpu s))) (p_cpu s))) (p_mem s) (snd (in8 0x1f7 (p_drive s)))) as Hexec.
  { intros s Hdx. cbn [exec_all foldl exec_instr]. rewrite Hdx. destruct (in8 0x1f7 (p_drive s)) as [v d].
    cbn [fst snd upd_cpu p_cpu p_mem p_drive set rax]. by rewrite low8_with. }
  assert (forall v, Z.land (low8 v) 8 = Z.land v 8) as Hbit.
  { intros v. unfold low8. change 256 with (2 ^ 8). rewrite <- Z.land_ones, <- Z.land_assoc by lia. done. }
  induction n as [|n IH]; intros [|fuel] s Hfuel Hb Hdx; try lia; cbn [iter_fuel]; unfold still_going at 1; rewrite (Hexec s Hdx), Hbit.
  - destruct (drive_done _ _ Hb) as [Hst Hr]. rewrite (proj2 (Z.eqb_neq _ _) Hst). cbn [p_cpu zf set_flags].
    eexists. split; [reflexivity |]. by split_and!.
  - destruct (drive_wait _ _ _ Hb) as [Hst Hb']. rewrite Hst. cbn [p_cpu zf set_flags Z.eqb].
    match goal with |- context [iter_fuel fuel _ ?s1] => destruct (IH fuel s1 ltac:(lia) Hb' Hdx) as (s' & E & Hr & Em & Edi & Est & Ec) end.
    exists s'. split; [exact E |]. by split_and!.
Qed.

(** The parameters in the registers, and the command. *)
Lemma command_run s :
  let n := uint32_t (rdi (p_cpu s)) in
  let s' := exec_all read_command (exec_all read_sectors_entry s) in
  p_drive s' = out8 0x1f7 0x20 (out8 0x1f6 (Z.lor (n / 2 ^ 24 mod 256) 0xe0) (out8 0x1f5 (n / 2 ^ 16 mod 256)
    (out8 0x1f4 (n / 2 ^ 8 mod 256) (out8 0x1f3 (n mod 256) (out8 0x1f2 (rdx (p_cpu s) mod 256) (p_drive s)))))) /\
  p_mem s' = p_mem s /\ rdi (p_cpu s') = rsi (p_cpu s) /\ low16 (rdx (p_cpu s')) = 0x1f7 /\
  stack (p_cpu s') = [rcx (p_cpu s); rdx (p_cpu s)] ++ stack (p_cpu s).
Proof.
  destruct s as [[ax cx dx si di c z st] m d]. cbn -[low8 high8 low16 with_low8 with_low16 bswap32 Z.lor].
  set (n := uint32_t di). autorewrite with asm.
  split; [| split_and!; [done | done | reflexivity | done]]. unfold low8, high8. rewrite !Z.mod_mod by lia.
  rewrite (select_byte (n / 2 ^ 24 mod 256)) by (apply Z.mod_pos_bound; lia). reflexivity.
Qed.

(** The words of a sector in memory are its bytes. *)
Lemma sector_stored (b : Z -> Z) a m :
  store_words a (sector_words b) m = for_range 0 512 (fun k => store8 (a + k) (b k)) m.
Proof. change 512 with (2 * 256). apply store_sector. lia. Qed.

Lemma sector_words_length (b : Z -> Z) : length (sector_words b) = Z.to_nat 256.
Proof. unfold sector_words. by rewrite length_fmap, length_seqZ. Qed.

(** The transfer. *)
Definition before_insw s : pc D :=
  Pc (set RDX (with_low16 0x1f0 (rdx (p_cpu s))) (set RCX 256 (p_cpu s))) (p_mem s) (p_drive s).

Lemma data_run s : exec_all read_data s = upd_cpu (set RAX 1) (rep_insw (Z.to_nat 256) (before_insw s)).
Proof.
  unfold read_data, exec_all. cbn [foldl exec_instr upd_cpu p_cpu p_mem p_drive set rcx rdx]. unfold before_insw.
  generalize (Z.to_nat 256). done.
Qed.

(** After the transfer. *)
Lemma read_end_run s x y l :
  cf (p_cpu s) = false -> stack (p_cpu s) = x :: y :: l ->
  let s' := read_end (upd_cpu (set RAX 1) s) in
  rax (p_cpu s') = 1 /\ p_mem s' = p_mem s /\ rcx (p_cpu s') = x /\ rdx (p_cpu s') = y /\ stack (p_cpu s') = l /\
  p_drive s' = p_drive s.
Proof. destruct s as [[ax cx dx si di c z st] m d]. cbn. intros -> ->. by split_and!. Qed.

End driver.

(** C18: on an idle drive that obeys the protocol, with its registers saved and restored,
    [read_sectors] ends once the drive has the sector ready, in [rax] the 1 and in memory the
    512 bytes that the model of Fat32.v gives for the sector number in [rdi] and the address in
    [rsi], whatever count [rdx] holds. With a count of 1 the drive is idle again. *)
Theorem read_sectors_asm_spec {D : Type} `{Drive D} (s : pc D) :
  idle (p_drive s) -> 0 <= rsi (p_cpu s) -> rsi (p_cpu s) + 512 < 2 ^ 64 ->
  exists n, forall fuel, (n < fuel)%nat -> exists s', read_sectors_asm fuel s = Some s' /\
    (rax (p_cpu s'), p_mem s') =
      read_sectors (disk_of D) (rdi (p_cpu s)) (rsi (p_cpu s)) (rdx (p_cpu s)) (p_mem s) /\
    rcx (p_cpu s') = rcx (p_cpu s) /\ rdx (p_cpu s') = rdx (p_cpu s) /\ stack (p_cpu s') = stack (p_cpu s) /\
    (rdx (p_cpu s) mod 256 = 1 -> idle (p_drive s')).
Proof.
  intros Hidle H0 Hlim. destruct (command_run s) as (Ed & Em & Edi & Edx & Est).
  set (num := uint32_t (rdi (p_cpu s))) in *. set (s1 := exec_all read_command (exec_all read_sectors_entry s)) in *.
  destruct (drive_command (p_drive s) (rdx (p_cpu s) mod 256) (num mod 256) (num / 2 ^ 8 mod 256) (num / 2 ^ 16 mod 256)
    (Z.lor (num / 2 ^ 24 mod 256) 0xe0) Hidle) as (n & more & Hbusy & Hone).
  rewrite <- Ed in Hbusy. set (b := sector _ _ _ _) in Hbusy.
  exists n. intros fuel Hfuel.
  destruct (still_going_run _ n fuel s1 Hfuel Hbusy Edx) as (s2 & E2 & Hr & Em2 & Edi2 & Est2 & Ecf).
  destruct (rep_insw_run more (sector_words b) (before_insw s2) Hr) as (Emem & Hready & Estk & Ecf3).
  { cbn [before_insw p_cpu set rdx]. by rewrite low16_with. }
  { cbn [before_insw p_cpu set rdi]. by rewrite Edi2, Edi. }
  { cbn [before_insw p_cpu set rdi]. rewrite Edi2, Edi, sector_words_length, Z2Nat.id by lia. lia. }
  pose proof (data_run s2) as E4. rewrite <- (sector_words_length b) in E4.
  cbn [before_insw p_cpu p_mem set rdi stack cf] in Emem, Estk, Ecf3.
  fold (before_insw s2) in Emem, Estk, Ecf3.
  generalize dependent (rep_insw (length (sector_words b)) (before_insw s2)). intros s4 Emem Hready Estk Ecf3 E4.
  rewrite Edi2, Edi, Em2, Em in Emem. rewrite Est2, Est in Estk. rewrite Ecf in Ecf3.
  destruct (read_end_run s4 _ _ _ Ecf3 Estk) as (R1 & R2 & R3 & R4 & R5 & R6). rewrite <- E4 in R1, R2, R3, R4, R5, R6.
  exists (read_end (exec_all read_data s2)). split; [unfold read_sectors_asm; fold s1; by rewrite E2, bind_Some_eq |].
  rewrite R1, R2, R3, R4, R5, R6. split_and!; [| done | done | done | intros E; apply drive_idle; by rewrite <- (Hone E)].
  unfold read_sectors. rewrite Emem, sector_stored. reflexivity.
Qed.

(** * A concrete drive *)

(** A drive with the sectors [bytes], and three polls to every command; a count of zero asks for
    256 sectors, of which those behind the first hold zeros. [a_early] says whether a command
    came while words of the last one waited to be read. *)
Record ata (bytes : Z -> Z -> Z -> Z -> Z -> Z) := AtaDrive { a_regs : gmap Z Z; a_wait : nat; a_words : list Z; a_early : bool }.

Arguments AtaDrive {_}.
Arguments a_regs {_}.
Arguments a_wait {_}.
Arguments a_words {_}.
Arguments a_early {_}.

Section concrete.
Context {bytes : Z -> Z -> Z -> Z -> Z -> Z}.

Definition a_reg (p : Z) (d : ata bytes) : Z := default 0 (a_regs d !! p).

Definition more_words (count : Z) : list Z := replicate (Z.to_nat (256 * ((count - 1) mod 256))) 0.
Definition waiting (d : ata bytes) : bool := match a_words d with [] => false | _ => true end.

Definition ata_out8 (p v : Z) (d : ata bytes) : ata bytes :=
  if p =? 0x1f7
  then AtaDrive (a_regs d) 3 (sector_words (bytes (a_reg 0x1f3 d) (a_reg 0x1f4 d) (a_reg 0x1f5 d) (a_reg 0x1f6 d))
    ++ more_words (a_reg 0x1f2 d)) (a_early d || waiting d)
  else AtaDrive (<[p := v]> (a_regs d)) (a_wait d) (a_words d) (a_early d).

Definition ata_in8 (p : Z) (d : ata bytes) : Z * ata bytes :=
  match a_wait d with O => (8, d) | S n => (0, AtaDrive (a_regs d) n (a_words d) (a_early d)) end.

Definition ata_in16 (p : Z) (d : ata bytes) : Z * ata bytes :=
  match a_words d with [] => (0, d) | x :: l => (x, AtaDrive (a_regs d) (a_wait d) l (a_early d)) end.

Lemma ata_out8_reg p v r w l e : p <> 0x1f7 -> ata_out8 p v (AtaDrive r w l e) = AtaDrive (<[p := v]> r) w l e.
Proof. intros Hp. unfold ata_out8. by rewrite (proj2 (Z.eqb_neq p 0x1f7) Hp). Qed.

Lemma ata_read r w l e v :
  ata_out8 0x1f7 v (AtaDrive r w l e) =
    AtaDrive r 3 (sector_words (bytes (default 0 (r !! 0x1f3)) (default 0 (r !! 0x1f4)) (default 0 (r !! 0x1f5)) (default 0 (r !! 0x1f6)))
      ++ more_words (default 0 (r !! 0x1f2))) (e || waiting (AtaDrive r w l e)).
Proof. reflexivity. Qed.

Lemma ata_command d count low mid high sel :
  let d' := ata_out8 0x1f7 0x20 (ata_out8 0x1f6 sel (ata_out8 0x1f5 high (ata_out8 0x1f4 mid (ata_out8 0x1f3 low (ata_out8 0x1f2 count d))))) in
  a_wait d' = 3%nat /\
  a_words d' = sector_words (bytes low mid high sel) ++ more_words count.
Proof.
  destruct d as [r w l e]. rewrite !ata_out8_reg by done. rewrite ata_read. cbn [a_wait a_words]. split; [done |].
  by rewrite !lookup_insert.
Qed.

#[global] Instance ata_drive : Drive (ata bytes).
Proof.
  refine {|
    out8 := ata_out8; in8 := ata_in8; in16 := ata_in16; sector := bytes;
    idle d := a_words d = [];
    busy d n l := a_wait d = n /\ a_words d = l;
    ready d l := a_words d = l
  |}.
  - intros d count low mid high sel _. destruct (ata_command d count low mid high sel) as [Ew El].
    exists 3%nat, (more_words count). split; [by split |]. intros ->. reflexivity.
  - intros d n l [Hw Hl]. unfold ata_in8. rewrite Hw. by split.
  - intros d l [Hw Hl]. unfold ata_in8. by rewrite Hw.
  - intros d x l Hl. unfold ata_in16. rewrite Hl. by split.
  - done.
Defined.

End concrete.

(** Sectors whose bytes depend on their number and place. *)
Definition demo_sector (low mid high sel k : Z) : Z := low + 3 * mid + 5 * high + 7 * sel + k.

Definition ata_start : pc (ata demo_sector) := Pc (Cpu 0 7 1 0x8000 0x12345 false false []) ∅ (AtaDrive ∅ 0 [] false).

Lemma read_sectors_asm_spec_witness :
  exists fuel s', read_sectors_asm fuel ata_start = Some s' /\ rax (p_cpu s') = 1 /\ rcx (p_cpu s') = 7 /\
    load8 (p_mem s') (0x8000 + 2) = (0x45 + 3 * 0x23 + 5 * 1 + 7 * 0xe0 + 2) mod 256 /\ a_words (p_drive s') = [].
Proof.
  destruct (read_sectors_asm_spec ata_start) as (n & Hn); [done | cbn; lia | cbn; lia |].
  destruct (Hn (S n) ltac:(lia)) as (s' & E & Em & Ec & _ & _ & Hidle). exists (S n), s'. split; [exact E |].
  pose proof (read_sectors_run (disk_of (ata demo_sector)) 0x12345 0x8000 1 ∅) as Hr.
  change (read_sectors (disk_of (ata demo_sector)) 0x12345 0x8000 1 ∅) with
    (read_sectors (disk_of (ata demo_sector)) (rdi (p_cpu ata_start)) (rsi (p_cpu ata_start)) (rdx (p_cpu ata_start)) (p_mem ata_start)) in Hr.
  rewrite <- Em in Hr. destruct Hr as (Hok & Hin & _).
  split; [exact Hok |]. split; [exact Ec |]. split; [rewrite Hin by lia; vm_compute; reflexivity |].
  apply Hidle. reflexivity.
Defined.
