(* ===== verification/Devices.v ===== *)
(** The interrupt controllers and the firmware's tables (kernel/apic.c, kernel/ioapic.c,
    kernel/msr.c, kernel/io.c, kernel/acpi.c). The kernel's accesses go to a machine
    that has the registers of the local APIC and of the I/O APIC. *)

From S2P Require Import Prelude Words Console Memory CLib.
#[local] Open Scope Z_scope.

(** * The machine *)

Definition APIC_BASE : Z := 0xfee00000.
Definition IOAPIC_BASE : Z := 0xfec00000.

(** The local APIC keeps its registers by their offset and sends an interrupt when
    register 0x300 is written: [ipis] are the high and the low word of each. The I/O
    APIC has a select register and a data window. [ports] are the writes to ports,
    [pages] the calls of [brute_create_page]. *)
Record machine := Machine {
  ports : list (Z * Z);
  msrs : gmap Z (Z * Z);
  apic : gmap Z Z;
  ipis : list (Z * Z);
  ioapic_select : Z;
  ioapic : gmap Z Z;
  pages : list (Z * Z * Z * Z);
  said : list out
}.

Definition apic_reg (m : machine) (offset : Z) : Z := default 0 (apic m !! offset).
Definition ioapic_reg (m : machine) (i : Z) : Z := default 0 (ioapic m !! i).

(** A 32-bit store to and load from device memory. *)
Definition mmio_write (addr val : Z) (m : machine) : machine :=
  if addr =? IOAPIC_BASE then
    Machine (ports m) (msrs m) (apic m) (ipis m) (uint8_t val) (ioapic m) (pages m) (said m)
  else if addr =? IOAPIC_BASE + 0x10 then
    Machine (ports m) (msrs m) (apic m) (ipis m) (ioapic_select m) (<[ioapic_select m := val]> (ioapic m)) (pages m) (said m)
  else
    let offset := addr - APIC_BASE in
    Machine (ports m) (msrs m) (<[offset := val]> (apic m))
      (if offset =? 0x300 then ipis m ++ [(apic_reg m 0x310, val)] else ipis m)
      (ioapic_select m) (ioapic m) (pages m) (said m).

Definition mmio_read (addr : Z) (m : machine) : Z :=
  if addr =? IOAPIC_BASE then ioapic_select m
  else if addr =? IOAPIC_BASE + 0x10 then ioapic_reg m (ioapic_select m)
  else apic_reg m (addr - APIC_BASE).

Definition outb (port value : Z) (m : machine) : machine :=
  Machine (ports m ++ [(uint16_t port, uint8_t value)]) (msrs m) (apic m) (ipis m) (ioapic_select m) (ioapic m)
    (pages m) (said m).

Definition rdmsr (msr : Z) (m : machine) : Z * Z := default (0, 0) (msrs m !! msr).
Definition wrmsr (msr low high : Z) (m : machine) : machine :=
  Machine (ports m) (<[msr := (low, high)]> (msrs m)) (apic m) (ipis m) (ioapic_select m) (ioapic m) (pages m) (said m).

Definition say (l : list out) (m : machine) : machine :=
  Machine (ports m) (msrs m) (apic m) (ipis m) (ioapic_select m) (ioapic m) (pages m) (said m ++ l).
Definition map_page (physical virtual size user : Z) (m : machine) : machine :=
  Machine (ports m) (msrs m) (apic m) (ipis m) (ioapic_select m) (ioapic m)
    (pages m ++ [(physical, virtual, size, user)]) (said m).

(** * apic.c *)

Definition disable_legacy_pic (m : machine) : machine := outb 0x21 0xff (outb 0xa1 0xff m).

Definition write_apicr (offset val : Z) (m : machine) : machine :=
  mmio_write (APIC_BASE + uint16_t offset) (uint32_t val) m.
Definition read_apicr (offset : Z) (m : machine) : Z := mmio_read (APIC_BASE + uint16_t offset) m.

Definition puts_apic_info (m : machine) : machine :=
  let var := int32_t (read_apicr 0x20 m) in
  say [Puts "[APIC] ID: "; Puthex (uint64_t (Z.shiftr var 24)); Puts nl] m.

Definition puts_apic_register (offset : Z) (m : machine) : machine :=
  say [Puts "[APIC] APIC register "; Puthex (uint64_t offset); Puts ": "; Puthex (read_apicr offset m); Puts nl] m.

Definition enable_apic (m : machine) : machine :=
  let '(lo, hi) := rdmsr 0x1B m in wrmsr 0x1B (Z.lor lo 0x00000800) hi m.

Definition apic_init (m : machine) : machine :=
  let m := disable_legacy_pic m in
  let m := map_page APIC_BASE APIC_BASE 1 0 m in
  let m := enable_apic m in
  let m := write_apicr 0xf0 0x00000100 m in
  puts_apic_info m.

Definition timer_init (vector counter divider periodic : Z) (m : machine) : machine :=
  let timer_lvt := uint32_t (Z.lor 0 (int32_t vector)) in
  let timer_lvt := if negb (periodic =? 0) then Z.lor timer_lvt 0x0020000 else timer_lvt in
  let m := write_apicr 0x3e0 divider m in
  let m := write_apicr 0x320 timer_lvt m in
  let m := write_apicr 0x380 counter m in
  say [Putsln "[APIC] Local timer initialised."] m.

(** The stores to the bit-fields of [startupipi]. Those of [delstat], [zero1], [rrs],
    [zero2] and [zero3] are not written: they keep what the stack held. *)
Definition icr_low (vector msgtype low : Z) : Z :=
  bf_set 18 2 0 (bf_set 15 1 0 (bf_set 14 1 0 (bf_set 11 1 0 (bf_set 8 3 msgtype (bf_set 0 8 vector low))))).
Definition icr_high (dest high : Z) : Z := bf_set 24 8 dest high.

Definition start_ap (stack_low stack_high apicid vector : Z) (m : machine) : machine :=
  let low := icr_low 0x0 0x5 stack_low in
  let high := icr_high apicid stack_high in
  let m := write_apicr 0x310 high m in
  let m := write_apicr 0x300 low m in
  let low := icr_low vector 0x6 low in
  let high := icr_high apicid high in
  let m := write_apicr 0x310 high m in
  write_apicr 0x300 low m.

(** * ioapic.c *)

Definition write_ioapicr (offset val : Z) (m : machine) : machine :=
  mmio_write (IOAPIC_BASE + 0x10) (uint32_t val) (mmio_write IOAPIC_BASE (uint8_t offset) m).

Definition read_ioapicr (offset : Z) (m : machine) : Z * machine :=
  let m := mmio_write IOAPIC_BASE (uint8_t offset) m in (mmio_read (IOAPIC_BASE + 0x10) m, m).

(** One line of the loop. *)
Definition puts_irq (i : Z) (m : machine) : machine :=
  let m := say [Puts "IRQ "; Putint i; Puts ": "] m in
  let '(lo, m) := read_ioapicr (0x10 + 2 * i) m in
  let '(hi, m) := read_ioapicr (0x10 + 2 * i + 1) m in
  say ([Puthex lo; Puts " "; Puthex hi; Puts " "] ++ if (i + 1) mod 3 =? 0 then [Puts nl] else []) m.

Definition puts_ioapic_info (m : machine) : machine :=
  let m := say [Puts "[IOAPIC] ID: "] m in
  let '(id, m) := read_ioapicr 0x0 m in
  let m := say [Puthex id; Puts " Version: "] m in
  let '(version, m) := read_ioapicr 0x1 m in
  let m := say [Puthex version; Puts " AID: "] m in
  let '(aid, m) := read_ioapicr 0x2 m in
  let m := say [Puthex aid; Puts nl] m in
  say [Puts nl] (for_range 0 24 puts_irq m).

(** The stores to the bit-fields of [irq1]; [delivs] and [rirr] keep what the stack
    held. *)
Definition redirect_low (vector low : Z) : Z :=
  bf_set 17 15 0 (bf_set 16 1 0 (bf_set 15 1 0 (bf_set 13 1 0 (bf_set 11 1 0 (bf_set 8 3 0 (bf_set 0 8 vector low)))))).
Definition redirect_high (dest high : Z) : Z := bf_set 24 8 dest (bf_set 0 24 0 high).

Definition ioapic_init (stack_low stack_high : Z) (m : machine) : machine :=
  let m := map_page IOAPIC_BASE IOAPIC_BASE 1 0 m in
  let low := redirect_low 0x21 stack_low in
  let high := redirect_high 0x0 stack_high in
  let m := write_ioapicr 0x12 low m in
  let m := write_ioapicr 0x13 high m in
  puts_ioapic_info m.

(** * acpi.c *)

Definition sizeof_sdt_header : Z := 36.
Definition sdt_length (m : mem) (h : Z) : Z := load32 m (h + 4).
Definition sdt_ptr (m : mem) (rsdt i : Z) : Z := load32 m (rsdt + sizeof_sdt_header + 4 * i).

Section acpi.
(** The addresses of the literals in memory. *)
Context (rsd_ptr_text : Z).

(** The address of the signature. *)
Definition find_rsd_ptr (m : mem) : option Z :=
  for_first 0 ((0xFFFFF - 0xC0000 + 15) / 16) (fun k =>
    let i := 0xC0000 + 16 * k in
    match strncmp m i rsd_ptr_text 8 with
    | Some same => if negb (same =? 0) then Some i else None
    | None => None
    end).

(** The address of the table is read from 8 bytes at offset 16; 0 is [NULL]. *)
Definition get_rsdt (m : mem) (w : machine) : Z * machine :=
  match find_rsd_ptr m with
  | Some i =>
      let ptr := load64 m (i + 16) in
      (ptr, say [Puts "[ACPI] RSD PTR found at "; Puthex i; Puts " and it points to "; Puthex ptr; Puts nl] w)
  | None => (0, w)
  end.

(** [n] is an [int]: the length in bytes less the header, in [uint64_t], over 4. *)
Definition sdt_count (m : mem) (rsdt : Z) : Z := int32_t ((sdt_length m rsdt - sizeof_sdt_header)%word / 4).

Definition find_sdt (m : mem) (rsdt signature : Z) : Z :=
  default 0 (for_first 0 (sdt_count m rsdt) (fun i =>
    let h := sdt_ptr m rsdt i in
    match strncmp m h signature 4 with
    | Some same => if negb (same =? 0) then Some h else None
    | None => None
    end)).

(** [madt] and the machine; memory is only read. *)
Definition acpi_init (madt_text : Z) (m : mem) (w : machine) : Z * machine :=
  let w := map_page 0x1FF0000 0x1FF0000 16 0 w in
  let w := map_page 0x3FF0000 0x3FF0000 15 0 w in
  let '(rsdt, w) := get_rsdt m w in
  let madt := find_sdt m rsdt madt_text in
  (madt, say [Puts "[ACPI] MADT found at "; Puthex madt; Puts nl] w).

End acpi.

(** * What the registers mean *)

(** The interrupt command, as its two words. *)
Definition ipi_vector (i : Z * Z) : Z := bf_get 0 8 (snd i).
Definition ipi_type (i : Z * Z) : Z := bf_get 8 3 (snd i).
Definition ipi_logical (i : Z * Z) : Z := bf_get 11 1 (snd i).
Definition ipi_shorthand (i : Z * Z) : Z := bf_get 18 2 (snd i).
Definition ipi_dest (i : Z * Z) : Z := bf_get 24 8 (fst i).

(** A redirection entry, by the low and the high word. *)
Definition irq_vector (low : Z) : Z := bf_get 0 8 low.
Definition irq_delivery (low : Z) : Z := bf_get 8 3 low.
Definition irq_logical (low : Z) : Z := bf_get 11 1 low.
Definition irq_active_low (low : Z) : Z := bf_get 13 1 low.
Definition irq_level (low : Z) : Z := bf_get 15 1 low.
Definition irq_masked (low : Z) : Z := bf_get 16 1 low.
Definition irq_dest (high : Z) : Z := bf_get 24 8 high.

(** * Proofs *)

(** [fields] reads a field through the stores around it. *)
Ltac fields :=
  unfold uint32_t, id; rewrite ?bf_get_uwrap by lia;
  repeat ((rewrite bf_get_set_same by lia) || (rewrite bf_get_set_other by lia));
  try reflexivity.

Lemma write_apicr_run offset val m :
  0 <= offset < 0x1000 ->
  write_apicr offset val m =
    Machine (ports m) (msrs m) (<[offset := uint32_t val]> (apic m))
      (if offset =? 0x300 then ipis m ++ [(apic_reg m 0x310, uint32_t val)] else ipis m)
      (ioapic_select m) (ioapic m) (pages m) (said m).
Proof.
  intros Ho. unfold write_apicr, mmio_write. replace (uint16_t offset) with offset by (symmetry; apply (uwrap_id 16); unfold is_word; lia).
  unfold APIC_BASE, IOAPIC_BASE.
  rewrite (proj2 (Z.eqb_neq _ _)), (proj2 (Z.eqb_neq _ _)) by lia.
  by replace (0xfee00000 + offset - 0xfee00000) with offset by lia.
Qed.

Lemma write_ioapicr_run offset val m :
  0 <= offset < 256 ->
  write_ioapicr offset val m =
    Machine (ports m) (msrs m) (apic m) (ipis m) offset (<[offset := uint32_t val]> (ioapic m)) (pages m) (said m).
Proof.
  intros Ho. unfold write_ioapicr, mmio_write. replace (uint8_t (uint8_t offset)) with offset; [done |].
  by rewrite !(uwrap_id 8) by (rewrite ?(uwrap_id 8); unfold is_word; lia).
Qed.

(** Reading and printing change the select register and the output. *)
Record same_devices (m m' : machine) : Prop := {
  sd_ports : ports m' = ports m;
  sd_msrs : msrs m' = msrs m;
  sd_apic : apic m' = apic m;
  sd_ipis : ipis m' = ipis m;
  sd_ioapic : ioapic m' = ioapic m;
  sd_pages : pages m' = pages m
}.

#[export] Instance same_devices_preorder : PreOrder same_devices.
Proof.
  split; [by intros m; split |]. intros m1 m2 m3 [] []. split; congruence.
Qed.

Lemma say_same l m : same_devices m (say l m).
Proof. by split. Qed.

Lemma read_ioapicr_same offset m : same_devices m (snd (read_ioapicr offset m)).
Proof. by split. Qed.

Lemma puts_irq_same i m : same_devices m (puts_irq i m).
Proof. by split. Qed.

Lemma puts_ioapic_info_same m : same_devices m (puts_ioapic_info m).
Proof.
  unfold puts_ioapic_info. cbn [read_ioapicr]. etransitivity; [| apply say_same].
  apply (for_range_ind (fun _ m' => same_devices m m')); [lia | by split |].
  intros j m' _ IH. etransitivity; [exact IH | apply puts_irq_same].
Qed.

(** [start_ap] sends two interrupts, an INIT and then a start-up with the vector,
    both to the given APIC alone by its physical number, whatever the stack held where
    the code leaves bits of the command unwritten. *)
Theorem start_ap_spec (stack_low stack_high apicid vector : Z) (m : machine)
  (Hid : 0 <= apicid < 256) (Hvector : 0 <= vector < 256) :
  exists init startup, ipis (start_ap stack_low stack_high apicid vector m) = ipis m ++ [init; startup] /\
    ipi_type init = 5 /\ ipi_vector init = 0 /\ ipi_type startup = 6 /\ ipi_vector startup = vector /\
    Forall (fun i => ipi_dest i = apicid /\ ipi_logical i = 0 /\ ipi_shorthand i = 0) [init; startup].
Proof.
  unfold start_ap. rewrite !write_apicr_run by lia. cbn [Z.eqb Pos.eqb ipis apic]. unfold apic_reg. cbn [apic].
  rewrite !lookup_insert_eq. cbn [default].
  rewrite <- app_assoc. eexists _, _. split; [reflexivity |].
  unfold ipi_type, ipi_vector, ipi_dest, ipi_logical, ipi_shorthand, icr_low, icr_high. cbn [fst snd].
  assert (vector mod 2 ^ 8 = vector /\ apicid mod 2 ^ 8 = apicid) as [Hv Hi] by (split; by apply Z.mod_small).
  rewrite !Forall_cons, Forall_nil. cbn [fst snd]. split_and!; try done; fields; try assumption.
Qed.

(** [timer_init] programs the divider, the timer's entry and the counter: for a
    vector of 8 bits the entry is unmasked, has the vector, and bit 17 is set exactly
    for a periodic timer. No other register changes and no interrupt is sent. *)
Theorem timer_init_spec (vector counter divider periodic : Z) (m : machine) (Hvector : 0 <= vector < 256) :
  let m' := timer_init vector counter divider periodic m in
  apic_reg m' 0x320 = vector + (if periodic =? 0 then 0 else 2 ^ 17) /\
  apic_reg m' 0x3e0 = uint32_t divider /\ apic_reg m' 0x380 = uint32_t counter /\
  (forall o, o <> 0x320 -> o <> 0x3e0 -> o <> 0x380 -> apic_reg m' o = apic_reg m o) /\ ipis m' = ipis m.
Proof.
  cbv zeta. unfold timer_init. rewrite !write_apicr_run by lia. cbn [Z.eqb Pos.eqb]. unfold apic_reg. cbn [apic say ipis].
  split; [| split; [| split; [| split; [| done]]]].
  - rewrite lookup_insert_ne, lookup_insert_eq by lia. cbn [default].
    assert (int32_t vector = vector) as -> by (apply swrap_id; lia).
    rewrite Z.lor_0_l. assert (uint32_t vector = vector) as -> by (apply uwrap_id; unfold is_word; lia).
    destruct (periodic =? 0); cbn [negb]; [rewrite Z.add_0_r; apply uwrap_id; unfold is_word; lia |].
    assert (Z.lor vector 0x0020000 = vector + 2 ^ 17) as ->; [| apply uwrap_id; unfold is_word; lia].
    change 0x0020000 with (Z.shiftl 1 17). symmetry. apply Z.add_nocarry_lor, Z.eqb_eq.
    rewrite testbit_mask by lia. by rewrite (testbit_above 8).
  - rewrite lookup_insert_ne, lookup_insert_ne, lookup_insert_eq by lia. done.
  - by rewrite lookup_insert_eq.
  - intros o H1 H2 H3. by rewrite !lookup_insert_ne by lia.
Qed.

(** After [ioapic_init] the keyboard's line has an unmasked entry with vector 0x21,
    fixed delivery to APIC 0 by its physical number, edge triggered and active high,
    whatever the stack held; the entries of the other lines are as they were. *)
Theorem ioapic_init_spec (stack_low stack_high : Z) (m : machine) :
  let m' := ioapic_init stack_low stack_high m in
  let low := ioapic_reg m' 0x12 in
  irq_vector low = 0x21 /\ irq_delivery low = 0 /\ irq_logical low = 0 /\ irq_active_low low = 0 /\
  irq_level low = 0 /\ irq_masked low = 0 /\ irq_dest (ioapic_reg m' 0x13) = 0 /\
  (forall i, i <> 0x12 -> i <> 0x13 -> ioapic_reg m' i = ioapic_reg m i) /\
  pages m' = pages m ++ [(IOAPIC_BASE, IOAPIC_BASE, 1, 0)].
Proof.
  cbv zeta. unfold ioapic_init. rewrite !write_ioapicr_run by lia.
  match goal with |- context [puts_ioapic_info ?m0] => destruct (puts_ioapic_info_same m0) as [_ _ _ _ Hio Hpages] end.
  unfold ioapic_reg. rewrite Hio, Hpages. cbn [ioapic pages map_page].
  rewrite (lookup_insert_ne _ 0x13 0x12), !lookup_insert_eq by lia. cbn [default].
  unfold irq_vector, irq_delivery, irq_logical, irq_active_low, irq_level, irq_masked, irq_dest, redirect_low, redirect_high.
  split_and!; [by fields.. | | done]. intros i H1 H2. by rewrite !lookup_insert_ne by lia.
Qed.

(** ** The tables *)

(** [n] bytes of memory. *)
Definition bytes (m : mem) (a : Z) (n : Z) : list Z := (fun k => load8 m (a + k)) <$> seqZ 0 n.

(** Comparing memory with a literal. *)
Lemma strncmp_literal m a s l n :
  cstr m s l -> Z.of_nat (length l) = n -> n < 2 ^ 31 ->
  strncmp m a s n = Some (if decide (bytes m a n = l) then 1 else 0).
Proof.
  intros Hs Hl Hn. unfold strncmp, int_count. rewrite (proj2 (Z.ltb_lt n (2 ^ 31))) by lia. f_equal.
  assert (forall k, 0 <= k < n -> load8 m (s + k) = nth (Z.to_nat k) l 0 /\ load8 m (s + k) <> 0) as Hc.
  { intros k Hk. destruct (cs_char _ _ _ Hs k) as [E Hz]; [lia |]. by rewrite E. }
  assert (bytes m a n = l <-> forall k, 0 <= k < n -> load8 m (a + k) = load8 m (s + k)) as Heq.
  { split.
    - intros E k Hk. destruct (Hc k Hk) as [-> _]. rewrite <- E. unfold bytes.
      rewrite (nth_lookup_Some _ _ _ (load8 m (a + k))); [done |].
      rewrite list_lookup_fmap, lookup_seqZ_lt by lia. simpl. do 2 f_equal. lia.
    - intros E. apply (nth_ext _ _ 0 0); unfold bytes; [rewrite length_fmap, length_seqZ; lia |].
      intros j Hj. rewrite length_fmap, length_seqZ in Hj.
      rewrite (nth_lookup_Some _ _ _ (load8 m (a + Z.of_nat j))).
      + rewrite E by lia. destruct (Hc (Z.of_nat j)) as [-> _]; [lia |]. by rewrite Nat2Z.id.
      + rewrite list_lookup_fmap, lookup_seqZ_lt by lia. done. }
  match goal with |- default 1 ?e = _ => destruct e as [r|] eqn:Ef end; cbn [default]; unfold id.
  - apply for_first_Some in Ef as (k & Hk & Hf & _). destruct (Hc k Hk) as [_ Hz].
    rewrite decide_False.
    + cbv zeta in Hf. rewrite (proj2 (Z.eqb_neq _ _) Hz), andb_false_r, orb_false_r in Hf.
      destruct (_ =? 0); [congruence |]. destruct (negb _); congruence.
    + rewrite Heq. intros E. cbv zeta in Hf. rewrite (E k Hk), (proj2 (Z.eqb_neq _ _) Hz), Z.eqb_refl in Hf. done.
  - rewrite decide_True; [done |]. apply Heq. rewrite for_first_None in Ef. intros k Hk. specialize (Ef k Hk). cbv zeta in Ef.
    destruct (Hc k Hk) as [_ Hz]. rewrite (proj2 (Z.eqb_neq _ _) Hz), andb_false_r, orb_false_r in Ef.
    destruct (_ =? 0); [done |]. destruct (load8 m (a + k) =? load8 m (s + k)) eqn:E; [by apply Z.eqb_eq | done].
Qed.

(** A search for a literal: the first index at which it is found. *)
Lemma first_match {A} m (addr : Z -> Z) (f : Z -> A) s l n lo hi :
  cstr m s l -> Z.of_nat (length l) = n -> n < 2 ^ 31 ->
  let found i := bytes m (addr i) n = l in
  match for_first lo hi (fun i => match strncmp m (addr i) s n with
                                  | Some same => if negb (same =? 0) then Some (f i) else None
                                  | None => None end) with
  | Some r => exists i, lo <= i < hi /\ r = f i /\ found i /\ forall j, lo <= j < i -> ~ found j
  | None => forall j, lo <= j < hi -> ~ found j
  end.
Proof.
  intros Hs Hl Hn found.
  assert (forall i, match strncmp m (addr i) s n with
                    | Some same => if negb (same =? 0) then Some (f i) else None
                    | None => None end = if decide (found i) then Some (f i) else None) as Hm.
  { intros i. rewrite (strncmp_literal m _ s l n Hs Hl Hn). unfold found. by destruct (decide _). }
  destruct (for_first _ _ _) as [r|] eqn:E.
  - apply for_first_Some in E as (i & Hi & Hf & Hbefore). rewrite Hm in Hf.
    destruct (decide (found i)) as [Hfi|]; [| done]. injection Hf as <-. exists i. split_and!; [lia | lia | done | done |].
    intros j Hj. specialize (Hbefore j Hj). rewrite Hm in Hbefore. by destruct (decide (found j)).
  - rewrite for_first_None in E. intros j Hj. specialize (E j Hj). rewrite Hm in E. by destruct (decide (found j)).
Qed.

(** The number of pointers is that of the length; there are none when the length is
    shorter than a header, where the subtraction wraps. *)
Lemma sdt_count_run m rsdt :
  let n := (sdt_length m rsdt - sizeof_sdt_header) / 4 in
  sdt_count m rsdt = n \/ (n < 0 /\ sdt_count m rsdt < 0).
Proof.
  cbv zeta. unfold sdt_count. pose proof (load_bounds m 4 (rsdt + 4)) as Hb. fold (sdt_length m rsdt) in Hb.
  change (2 ^ (8 * Z.of_nat 4)) with 4294967296 in Hb. unfold sizeof_sdt_header.
  destruct (decide (36 <= sdt_length m rsdt)).
  - left. rewrite uint64_id by lia. apply swrap_id; [lia |]. div_lia.
  - right. split; [div_lia |]. unfold uint64_t, uwrap.
    replace ((sdt_length m rsdt - 36) mod 2 ^ 64) with (sdt_length m rsdt - 36 + 2 ^ 64) by
      (apply (Z.mod_unique _ _ (-1)); lia).
    unfold int32_t, swrap. replace ((sdt_length m rsdt - 36 + 2 ^ 64) / 4) with ((sdt_length m rsdt - 36) / 4 + 2 ^ 30 * 2 ^ 32) by div_lia.
    rewrite Z.mod_add by lia. replace ((sdt_length m rsdt - 36) / 4 mod 2 ^ 32) with ((sdt_length m rsdt - 36) / 4 + 2 ^ 32) by
      (apply (Z.mod_unique _ _ (-1)); div_lia).
    rewrite (proj2 (Z.ltb_ge _ _)) by div_lia. div_lia.
Qed.

(** [find_sdt] returns the first header of the table whose four characters are the
    signature's, and [NULL] when there is none; the table has a quarter as many entries
    as bytes behind its header, and none when its length is less than a header's. *)
Theorem find_sdt_spec (m : mem) (rsdt signature : Z) (l : list Z)
  (Hsignature : cstr m signature l) (Hlength : length l = 4%nat) :
  let n := (sdt_length m rsdt - sizeof_sdt_header) / 4 in
  let found i := bytes m (sdt_ptr m rsdt i) 4 = l in
  (exists i, 0 <= i < n /\ find_sdt m rsdt signature = sdt_ptr m rsdt i /\ found i /\ forall j, 0 <= j < i -> ~ found j) \/
  (find_sdt m rsdt signature = 0 /\ forall j, 0 <= j < n -> ~ found j).
Proof.
  cbv zeta. unfold find_sdt. pose proof (sdt_count_run m rsdt) as Hn. cbv zeta in Hn.
  pose proof (first_match m (sdt_ptr m rsdt) (sdt_ptr m rsdt) signature l 4 0 (sdt_count m rsdt) Hsignature
    ltac:(lia) ltac:(lia)) as Hf. cbv zeta in Hf.
  destruct (for_first _ _ _) as [r|]; cbn [default].
  - destruct Hf as (i & Hi & -> & Hfi & Hbefore). left. exists i. split_and!; [lia | lia | done | done | done].
  - right. split; [done |]. intros j Hj. apply Hf. lia.
Qed.

(** The search for the root pointer goes through the firmware's area in steps of 16. *)
Lemma find_rsd_ptr_spec (rsd_ptr_text : Z) (m : mem) (l : list Z) :
  cstr m rsd_ptr_text l -> length l = 8%nat ->
  match find_rsd_ptr rsd_ptr_text m with
  | Some i => 0xC0000 <= i < 0x100000 /\ i mod 16 = 0 /\ bytes m i 8 = l /\
      forall j, 0xC0000 <= j < i -> j mod 16 = 0 -> bytes m j 8 <> l
  | None => forall j, 0xC0000 <= j < 0x100000 -> j mod 16 = 0 -> bytes m j 8 <> l
  end.
Proof.
  intros Hs Hl. unfold find_rsd_ptr.
  pose proof (first_match m (fun k => 0xC0000 + 16 * k) (fun k => 0xC0000 + 16 * k) rsd_ptr_text l 8
    0 ((0xFFFFF - 0xC0000 + 15) / 16) Hs ltac:(lia) ltac:(lia)) as Hf. cbv zeta in Hf |- *.
  change ((0xFFFFF - 0xC0000 + 15) / 16) with 0x4000 in *.
  destruct (for_first _ _ _) as [r|].
  - destruct Hf as (i & Hi & -> & Hfi & Hbefore). split_and!; [lia | lia | div_lia | done |].
    intros j Hj Hm. replace j with (0xC0000 + 16 * ((j - 0xC0000) / 16)) by div_lia. apply Hbefore. div_lia.
  - intros j Hj Hm. replace j with (0xC0000 + 16 * ((j - 0xC0000) / 16)) by div_lia. apply Hf. div_lia.
Qed.

(** * Concrete runs *)

Definition demo_machine : machine := Machine [] ∅ ∅ [] 0 ∅ [] [].

Lemma start_ap_spec_witness :
  exists init startup, ipis (start_ap 0x12345678 0x9abcdef 3 9 demo_machine) = [init; startup] /\ ipi_vector startup = 9.
Proof.
  destruct (start_ap_spec 0x12345678 0x9abcdef 3 9 demo_machine ltac:(lia) ltac:(lia)) as (i & s & E & _ & _ & _ & Hv & _).
  by exists i, s.
Defined.

Lemma timer_init_spec_witness : apic_reg (timer_init 0x20 0x002fffff 0xB 1 demo_machine) 0x320 = 0x20020.
Proof. apply (timer_init_spec 0x20 0x002fffff 0xB 1 demo_machine). lia. Defined.

(** A table at 0x1000 of three headers, of which the second has the signature APIC. *)
Definition put_bytes (a : Z) (l : list Z) (m : mem) : mem :=
  foldr (fun '(k, c) => store8 (a + Z.of_nat k) c) m (zip (seq 0 (length l)) l).
Definition apic_text : list Z := [65; 80; 73; 67].
Definition demo_tables : mem :=
  put_bytes 0x3000 apic_text (put_bytes 0x9000 apic_text
    (store 4 0x1004 48 (store 4 0x1024 0x2000 (store 4 0x1028 0x3000 (store 4 0x102c 0x3000 ∅))))).

Lemma find_sdt_spec_witness : find_sdt demo_tables 0x1000 0x9000 = 0x3000.
Proof.
  assert (cstr demo_tables 0x9000 apic_text) as Hs by (apply cstr_check; by vm_compute).
  destruct (find_sdt_spec demo_tables 0x1000 0x9000 apic_text Hs eq_refl) as [(i & Hi & -> & Hf & _) | [_ Hf]].
  - change ((sdt_length demo_tables 0x1000 - sizeof_sdt_header) / 4) with 3 in Hi.
    assert (i = 0 \/ i = 1 \/ i = 2) as [-> | [-> | ->]] by lia; [exfalso; revert Hf; by vm_compute | by vm_compute..].
  - exfalso. apply (Hf 1); [by vm_compute | by vm_compute].
Defined.
