(* ===== verification/Elf.v ===== *)
(** The loader of executables (kernel/elf.c, kernel/elf.h), over the file system, the
    heap and the pages of a user's address space. *)

From S2P Require Import Prelude Words Console Allocator Memory CLib Fat32.
#[local] Open Scope Z_scope.

(** * User pages *)

(** What the loader expects of [alloc_page] (kernel/memman.h): from the page of the
    address on, [n] pages are backed by memory, whose content is that of the frames
    they got. Everything else keeps its content. The addresses are below the window on
    the page tables; the result 0 is a failure. *)
Class UserPages (P : Type) := {
  alloc_page : Z -> Z -> P -> mem -> option (Z * P * mem);
  backed : P -> Z -> Prop;
  pages_left : P -> Z -> Prop;  (** the next calls for that many pages succeed *)

  alloc_page_done va n k p m :
    0 <= va -> va + 4096 * n < 511 * 2 ^ 39 -> 0 < n -> 0 <= k -> pages_left p (n + k) ->
    exists p' m', alloc_page va n p m = Some (va, p', m') /\ pages_left p' k /\
      (forall a, va / 4096 <= a / 4096 < va / 4096 + n -> backed p' a) /\
      (forall a, backed p a -> backed p' a) /\
      (forall a, ~ (va / 4096 <= a / 4096 < va / 4096 + n) -> load8 m' a = load8 m a)
}.

#[global] Hint Mode UserPages ! : typeclass_instances.

(** * The file's structures *)

(** [Elf64_Ehdr] and [Elf64_Phdr] are packed. *)
Definition e_ident (m : mem) (h i : Z) : Z := load8 m (h + i).
Definition e_type (m : mem) (h : Z) : Z := load 2 m (h + 16).
Definition e_machine (m : mem) (h : Z) : Z := load 2 m (h + 18).
Definition e_version (m : mem) (h : Z) : Z := load 4 m (h + 20).
Definition e_entry (m : mem) (h : Z) : Z := load 8 m (h + 24).
Definition e_phoff (m : mem) (h : Z) : Z := load 8 m (h + 32).
Definition e_phnum (m : mem) (h : Z) : Z := load 2 m (h + 56).

Definition sizeof_phdr : Z := 56.
Definition p_type (m : mem) (p : Z) : Z := load 4 m p.
Definition p_offset (m : mem) (p : Z) : Z := load 8 m (p + 8).
Definition p_vaddr (m : mem) (p : Z) : Z := load 8 m (p + 16).
Definition p_filesz (m : mem) (p : Z) : Z := load 8 m (p + 32).
Definition p_memsz (m : mem) (p : Z) : Z := load 8 m (p + 40).

(** [dir_entry] of fat32.h. *)
Definition file_cluster_high (m : mem) (d : Z) : Z := load 2 m (d + 20).
Definition file_cluster_low (m : mem) (d : Z) : Z := load 2 m (d + 26).
Definition file_size (m : mem) (d : Z) : Z := load 4 m (d + 28).

(** * Operations *)

Definition elf_check (m : mem) (src : Z) : Z :=
  if negb (e_ident m src 0 =? 0x7F) then 1
  else if negb (e_ident m src 1 =? 69) then 1
  else if negb (e_ident m src 2 =? 76) then 1
  else if negb (e_ident m src 3 =? 70) then 1
  else if negb (e_type m src =? 2) then 1
  else if negb (e_machine m src =? 62) then 1
  else if e_version m src =? 0 then 1
  else 0.

Section loader.
Context (disk : Z -> Z -> Z) {H : Type} `{Allocator H} {P : Type} `{UserPages P}.
Implicit Types (s : fsys (H := H)) (p : P).

(** One round of the loop over the program headers at [ph]: [inr None] is a call that does not
    return, [inr (Some false)] the [return 0], [inr (Some true)] the end of the loop. *)
Definition load_segment (buffer ph : Z) (st : Z * P * mem) : (Z * P * mem) + option (bool * P * mem) :=
  let '(i, p, m) := st in
  if i <? e_phnum m buffer then
    let ph := (ph + sizeof_phdr * i)%word in
    if p_type m ph =? 1 then
      match alloc_page (p_vaddr m ph) (p_memsz m ph / 4096 + 1)%word p m with
      | None => inr None
      | Some (r, p', m') =>
          if r =? 0 then inr (Some (false, p', m'))
          else
            match memcpy (p_vaddr m' ph) (buffer + p_offset m' ph)%word (int64_t (p_filesz m' ph)) m' with
            | None => inr None
            | Some m'' => inl ((i + 1)%word, p', m'')
            end
      end
    else inl ((i + 1)%word, p, m)
  else inr (Some (true, p, m)).

Definition load_segments (fuel : nat) (buffer : Z) (p : P) (m : mem) : option (bool * P * mem) :=
  mjoin (iter_fuel fuel (load_segment buffer (buffer + e_phoff m buffer)%word) (0, p, m)).

(** The number of the file's first cluster, as the code computes it. *)
Definition first_cluster (m : mem) (file : Z) : Z := file_cluster_high m file * 0x100 + file_cluster_low m file.

Definition load_executable (fuel : nat) (filename : Z) (s : fsys (H := H)) (p : P) : option (Z * fsys (H := H) * P) :=
  '(file, s) ← find_file disk fuel filename s;
  if file =? 0 then Some (0, s, p)
  else
    '(buffer, s) ← alloc_buffer (uint32_t (file_size (f_mem s) file + spc s * bps s)) s;
    s ← read_file disk fuel (first_cluster (f_mem s) file) buffer s;
    if negb (elf_check (f_mem s) buffer =? 0) then Some (0, s, p)
    else
      '(ok, p, m) ← load_segments fuel buffer p (f_mem s);
      let s := upd (fun _ => m) s in
      if negb ok then Some (0, s, p)
      else
        let s := free_buffer buffer s in
        Some (e_entry (f_mem s) buffer, s, p).

End loader.

(** * The check of the header *)

(** The magic number of the format, an executable, for x86-64, with a version. *)
Definition is_executable (m : mem) (h : Z) : Prop :=
  (e_ident m h <$> [0; 1; 2; 3]) = [0x7F; 69; 76; 70] /\ e_type m h = 2 /\ e_machine m h = 62 /\ e_version m h <> 0.

Lemma elf_check_run m h : (elf_check m h = 0 /\ is_executable m h) \/ (elf_check m h = 1 /\ ~ is_executable m h).
Proof.
  unfold elf_check, is_executable. cbn [fmap list_fmap].
  repeat match goal with
  | |- context [?x =? ?y] => destruct (Z.eqb_spec x y) as [?|?]; cbn [negb]
  end; [right | left | right..].
  all: split; [reflexivity | try (intros ([=] & ? & ? & ?); congruence)].
  split_and!; [congruence | done..].
Qed.

(** * The segments *)

Section segments.
Context (m0 : mem) (buffer len : Z).

(** The image is in [buffer, buffer + len), and the headers lie in it. *)
Definition phnum : Z := e_phnum m0 buffer.
Definition phdr (i : Z) : Z := buffer + e_phoff m0 buffer + sizeof_phdr * i.

Definition loaded (i : Z) : Prop := 0 <= i < phnum /\ p_type m0 (phdr i) = 1.
Definition seg_pages (i : Z) : Z := p_memsz m0 (phdr i) / 4096 + 1.

(** The pages that are allocated for a segment. *)
Definition in_pages (i a : Z) : Prop :=
  p_vaddr m0 (phdr i) / 4096 <= a / 4096 < p_vaddr m0 (phdr i) / 4096 + seg_pages i.

(** The pages of [n] segments from the [i]-th on. *)
Fixpoint pages_from (n : nat) (i : Z) : Z :=
  match n with
  | O => 0
  | S n => (if p_type m0 (phdr i) =? 1 then seg_pages i else 0) + pages_from n (i + 1)
  end.

(** An image whose segments can be loaded: each fits the pages that are allocated for it, which does
    not follow from their number (elf.c:38 does not count the offset of the segment in its first
    page). Segments may share pages. *)
Record loadable : Prop := {
  ld_buffer : 0 <= buffer /\ buffer + len < 2 ^ 64 /\ 58 <= len;
  ld_headers : e_phoff m0 buffer + sizeof_phdr * phnum <= len;
  ld_file i : loaded i -> p_offset m0 (phdr i) + p_filesz m0 (phdr i) <= len;
  ld_size i : loaded i -> p_filesz m0 (phdr i) <= p_memsz m0 (phdr i) < 2 ^ 31;
  ld_vaddr i : loaded i -> 0 < p_vaddr m0 (phdr i) /\ p_vaddr m0 (phdr i) + 4096 * seg_pages i < 511 * 2 ^ 39;
  ld_fits i : loaded i -> p_vaddr m0 (phdr i) mod 4096 + p_filesz m0 (phdr i) <= 4096 * seg_pages i;
  ld_apart i a : loaded i -> buffer <= a < buffer + len -> ~ in_pages i a
}.

Context (Hld : loadable).

(** No segment between [i] and [n] gets pages at [a]: new frames are not those of the segments before. *)
Definition last_to (n i a : Z) : Prop := forall j, loaded j -> i < j < n -> ~ in_pages j a.

(** A segment's bytes are where its header says, but on the pages that a later segment gets too:
    these pages are allocated again, and what was copied to them before is lost. *)
Definition has_segment_to (n : Z) (m : mem) (i : Z) : Prop :=
  forall k, 0 <= k < p_filesz m0 (phdr i) -> last_to n i (p_vaddr m0 (phdr i) + k) ->
    load8 m (p_vaddr m0 (phdr i) + k) = load8 m0 (buffer + p_offset m0 (phdr i) + k).
Definition has_segment : mem -> Z -> Prop := has_segment_to phnum.

(** The image is as it was. *)
Definition image_kept (m : mem) : Prop := same_inside buffer (buffer + len) m0 m.

Lemma field_bounds n a : 0 <= load n m0 a.
Proof. apply load_bounds. Qed.

Lemma segment_in_pages i k : loaded i -> 0 <= k < p_filesz m0 (phdr i) -> in_pages i (p_vaddr m0 (phdr i) + k).
Proof.
  intros Hi Hk. pose proof (ld_fits Hld i Hi). pose proof (ld_vaddr Hld i Hi). unfold in_pages. div_lia.
Qed.

(** The fields that the loop reads. *)
Lemma image_load m n a : image_kept m -> buffer <= a -> a + Z.of_nat n <= buffer + len -> load n m a = load n m0 a.
Proof. intros Hk. by apply same_inside_load. Qed.

Lemma phnum_kept m : image_kept m -> e_phnum m buffer = phnum.
Proof. intros Hk. pose proof (ld_buffer Hld). apply image_load; [done | lia | simpl; lia]. Qed.

Lemma phdr_address i :
  0 <= i < phnum ->
  ((buffer + e_phoff m0 buffer)%word + sizeof_phdr * i)%word = phdr i /\
  buffer <= phdr i /\ phdr i + sizeof_phdr <= buffer + len.
Proof.
  intros Hi. destruct (ld_buffer Hld) as (Hb & Hlim & Hlen). pose proof (ld_headers Hld) as Hh.
  pose proof (field_bounds 8 (buffer + 32)) as Ho. fold (e_phoff m0 buffer) in Ho. unfold phdr, sizeof_phdr in *.
  rewrite (uint64_id (buffer + _)), (uint64_id (56 * i)) by lia. split; [apply uint64_id; lia | lia].
Qed.

Lemma phdr_kept m i :
  image_kept m -> 0 <= i < phnum ->
  p_type m (phdr i) = p_type m0 (phdr i) /\ p_offset m (phdr i) = p_offset m0 (phdr i) /\
  p_vaddr m (phdr i) = p_vaddr m0 (phdr i) /\ p_filesz m (phdr i) = p_filesz m0 (phdr i) /\
  p_memsz m (phdr i) = p_memsz m0 (phdr i).
Proof.
  intros Hk Hi. destruct (phdr_address i Hi) as (_ & Hlo & Hhi). unfold sizeof_phdr in Hhi.
  split_and!; (apply image_load; [done | lia | simpl; lia]).
Qed.

Context {P : Type} `{UserPages P} (p0 : P).

(** After the first [i] headers. *)
Record segments_done (i : Z) (p : P) (m : mem) : Prop := {
  sd_index : 0 <= i <= phnum;
  sd_left : pages_left p (pages_from (Z.to_nat (phnum - i)) i);
  sd_loaded j : loaded j -> j < i -> has_segment_to i m j /\ forall a, in_pages j a -> backed p a;
  sd_others a : (forall j, loaded j -> j < i -> ~ in_pages j a) -> load8 m a = load8 m0 a;
  sd_backed a : backed p0 a -> backed p a
}.

Lemma segments_done_image i p m : segments_done i p m -> image_kept m.
Proof. intros Hd a Ha. apply (sd_others _ _ _ Hd). intros j Hj _. by apply (ld_apart Hld j). Qed.

Lemma pages_from_cons i :
  0 <= i < phnum ->
  pages_from (Z.to_nat (phnum - i)) i =
    (if p_type m0 (phdr i) =? 1 then seg_pages i else 0) + pages_from (Z.to_nat (phnum - (i + 1))) (i + 1).
Proof. intros Hi. by replace (Z.to_nat (phnum - i)) with (S (Z.to_nat (phnum - (i + 1)))) by lia. Qed.

Lemma pages_from_nonneg n i : 0 <= pages_from n i.
Proof.
  revert i; induction n as [|n IH]; intros i; cbn [pages_from]; [lia |]. specialize (IH (i + 1)).
  assert (0 <= seg_pages i); [| destruct (_ =? 1); lia].
  unfold seg_pages. pose proof (field_bounds 8 (phdr i + 40)) as Hm. fold (p_memsz m0 (phdr i)) in Hm. div_lia.
Qed.

(** A header that is not that of a segment to load. *)
Lemma segment_skipped i p m :
  segments_done i p m -> 0 <= i < phnum -> p_type m0 (phdr i) <> 1 -> segments_done (i + 1) p m.
Proof.
  intros Hd Hi Ht. assert (forall j, loaded j -> j < i + 1 -> j < i) as Hj.
  { intros j [_ Hl] Hlt. destruct (decide (j = i)) as [->|]; [done | lia]. }
  destruct Hd as [Hix Hleft Hload Hoth Hbk]. split; [lia | | | | done].
  - rewrite pages_from_cons, (proj2 (Z.eqb_neq _ _) Ht), Z.add_0_l in Hleft by done. done.
  - intros j Hl Hlt. destruct (Hload j Hl (Hj j Hl Hlt)) as [Hseg Hb]. split; [| exact Hb].
    intros k Hk Hlast. apply Hseg; [done |]. intros j' Hl' Hj'. apply Hlast; [done | lia].
  - intros a Ha. apply Hoth. intros j Hl Hlt. apply Ha; [done | lia].
Qed.

(** The pages of a segment, and its bytes. *)
Lemma segment_allocated i p m :
  segments_done i p m -> loaded i ->
  exists p' m' m'', alloc_page (p_vaddr m0 (phdr i)) (seg_pages i) p m = Some (p_vaddr m0 (phdr i), p', m') /\
    image_kept m' /\
    memcpy (p_vaddr m0 (phdr i)) (buffer + p_offset m0 (phdr i)) (p_filesz m0 (phdr i)) m' = Some m'' /\
    segments_done (i + 1) p' m''.
Proof.
  intros Hd [Hi Ht]. pose proof (conj Hi Ht : loaded i) as Hl. pose proof (segments_done_image _ _ _ Hd) as Himg.
  destruct (ld_vaddr Hld i Hl) as [Hv Hlim]. pose proof (ld_size Hld i Hl) as Hsz. pose proof (ld_file Hld i Hl) as Hfile.
  pose proof (field_bounds 8 (phdr i + 8)) as Hoff. fold (p_offset m0 (phdr i)) in Hoff.
  pose proof (field_bounds 8 (phdr i + 32)) as Hfsz. fold (p_filesz m0 (phdr i)) in Hfsz.
  destruct Hd as [Hix Hleft Hload Hoth Hbk]. rewrite pages_from_cons, Ht in Hleft by done. cbn [Z.eqb Pos.eqb] in Hleft.
  destruct (alloc_page_done (p_vaddr m0 (phdr i)) (seg_pages i) _ p m ltac:(lia) Hlim
    ltac:(unfold seg_pages; div_lia) (pages_from_nonneg _ _) Hleft) as (p' & m' & Ea & Hleft' & Hnew & Hold & Hkeep).
  fold (in_pages i) in *.
  assert (image_kept m') as Himg'.
  { intros a Ha. rewrite Hkeep; [by apply Himg |]. by apply (ld_apart Hld i). }
  destruct (memcpy_result (p_vaddr m0 (phdr i)) (buffer + p_offset m0 (phdr i)) (p_filesz m0 (phdr i)) m')
    as (m'' & Ec & Hcopy & Hout); [lia | |].
  { pose proof (ld_apart Hld i (p_vaddr m0 (phdr i)) Hl) as Hap. unfold in_pages in Hap.
    assert (0 < seg_pages i) by (unfold seg_pages; div_lia). lia. }
  assert (forall a, ~ in_pages i a -> load8 m'' a = load8 m' a) as Hcopied.
  { intros a Ha. apply Hout. intros Hr. apply Ha.
    replace a with (p_vaddr m0 (phdr i) + (a - p_vaddr m0 (phdr i))) by lia. apply segment_in_pages; [done | lia]. }
  exists p', m', m''. split_and!; [done | done | done |]. split; [lia | done | | |].
  - intros j Hj Hlt. destruct (decide (j = i)) as [->|Hne].
    + split; [| exact Hnew]. intros k Hk _. rewrite Hcopy by done. apply Himg'. lia.
    + destruct (Hload j Hj ltac:(lia)) as [Hseg Hbj]. split; [| auto]. intros k Hk Hlast.
      pose proof (Hlast i Hl ltac:(lia)) as Hnot.
      rewrite Hcopied, Hkeep by done. apply Hseg; [done |]. intros j' Hl' Hj'. apply Hlast; [done | lia].
  - intros a Ha. rewrite Hcopied, Hkeep by (apply Ha; [done | lia]). apply Hoth. intros j Hj Hlt. apply Ha; [done | lia].
  - auto.
Qed.

(** The loop. *)
Lemma load_segments_run fuel :
  pages_left p0 (pages_from (Z.to_nat phnum) 0) -> phnum < Z.of_nat fuel ->
  exists p m, load_segments fuel buffer p0 m0 = Some (true, p, m) /\ segments_done phnum p m.
Proof.
  intros Hleft Hfuel. assert (0 <= phnum < 2 ^ 16) as Hn by apply (load_bounds m0 2).
  unfold load_segments. set (ph := (buffer + e_phoff m0 buffer)%word).
  destruct (iter_fuel_total (load_segment buffer ph) (fun st => segments_done (fst (fst st)) (snd (fst st)) (snd st))
    (fun r => exists p m, r = Some (true, p, m) /\ segments_done phnum p m) (fun st => phnum - fst (fst st)) (0, p0, m0) fuel)
    as (r & -> & p & m & -> & Hd); [| | simpl; lia | simpl; lia | by exists p, m].
  - intros [[i p] m] Hd. cbn [fst snd] in *. pose proof (segments_done_image _ _ _ Hd) as Himg.
    unfold load_segment. rewrite (phnum_kept m Himg).
    destruct (Z.ltb_spec i phnum) as [Hlt|Hge].
    2:{ exists p, m. split; [done |]. pose proof (sd_index _ _ _ Hd). by replace phnum with i by lia. }
    assert (0 <= i < phnum) as Hi by (pose proof (sd_index _ _ _ Hd); lia).
    destruct (phdr_address i Hi) as (Hp & _ & _). fold ph in Hp. rewrite Hp.
    destruct (phdr_kept m i Himg Hi) as (Et & Eo & Ev & Ef & Em). rewrite Et, Ev, Em.
    rewrite (uint64_id (i + 1)) by lia.
    destruct (Z.eqb_spec (p_type m0 (phdr i)) 1) as [Ht|Ht]; [| split; [by apply segment_skipped | cbn [fst]; lia]].
    destruct (segment_allocated i p m Hd (conj Hi Ht)) as (p' & m' & m'' & Ea & Himg' & Ec & Hd').
    assert ((p_memsz m0 (phdr i) / 4096 + 1)%word = seg_pages i) as ->.
    { apply uint64_id. unfold seg_pages. pose proof (field_bounds 8 (phdr i + 32)). fold (p_filesz m0 (phdr i)) in *.
      pose proof (ld_size Hld i (conj Hi Ht)). div_lia. }
    rewrite Ea, (proj2 (Z.eqb_neq _ _)) by (pose proof (ld_vaddr Hld i (conj Hi Ht)); lia).
    destruct (phdr_kept m' i Himg' Hi) as (_ & Eo' & Ev' & Ef' & _). rewrite Eo', Ev', Ef'.
    assert (int64_t (p_filesz m0 (phdr i)) = p_filesz m0 (phdr i)) as ->.
    { pose proof (field_bounds 8 (phdr i + 32)). fold (p_filesz m0 (phdr i)) in *.
      pose proof (ld_size Hld i (conj Hi Ht)). apply swrap_id; lia. }
    rewrite (uint64_id (buffer + p_offset m0 (phdr i))).
    2:{ pose proof (ld_file Hld i (conj Hi Ht)). pose proof (ld_buffer Hld). pose proof (field_bounds 8 (phdr i + 8)).
        pose proof (field_bounds 8 (phdr i + 32)). fold (p_filesz m0 (phdr i)) in *. fold (p_offset m0 (phdr i)) in *. lia. }
    rewrite Ec. split; [exact Hd' | cbn [fst]; lia].
  - cbn [fst snd]. split; [lia | by rewrite Z.sub_0_r | intros j [Hj _] ?; lia | done | done].
Qed.

End segments.

(** * The theorems *)

(** The run of [load_executable] on an image that can be loaded. *)
Lemma load_executable_run (disk : Z -> Z -> Z) {H : Type} `{Allocator H} {P : Type} `{UserPages P}
  (fuel : nat) (filename file buffer len : Z) (s s1 s2 s3 : fsys (H := H)) (p : P)
  (Hfind : find_file disk fuel filename s = Some (file, s1)) (Hfile : file <> 0)
  (Halloc : alloc_buffer (uint32_t (file_size (f_mem s1) file + spc s1 * bps s1)) s1 = Some (buffer, s2))
  (Hread : read_file disk fuel (first_cluster (f_mem s2) file) buffer s2 = Some s3)
  (Hexec : is_executable (f_mem s3) buffer) (Hld : loadable (f_mem s3) buffer len)
  (Hleft : pages_left p (pages_from (f_mem s3) buffer (Z.to_nat (phnum (f_mem s3) buffer)) 0))
  (Hfuel : phnum (f_mem s3) buffer < Z.of_nat fuel) :
  exists s' p', load_executable disk fuel filename s p = Some (e_entry (f_mem s3) buffer, s', p') /\
    f_heap s' = kfree buffer (f_heap s3) /\
    (forall i, loaded (f_mem s3) buffer i ->
      has_segment (f_mem s3) buffer (f_mem s') i /\ forall a, in_pages (f_mem s3) buffer i a -> backed p' a) /\
    (forall a, (forall i, loaded (f_mem s3) buffer i -> ~ in_pages (f_mem s3) buffer i a) ->
      load8 (f_mem s') a = load8 (f_mem s3) a).
Proof.
  destruct (load_segments_run (f_mem s3) buffer len Hld p fuel Hleft Hfuel) as (p' & m & Eload & Hd).
  exists (free_buffer buffer (upd (fun _ => m) s3)), p'.
  unfold load_executable. rewrite Hfind, bind_Some_eq, (proj2 (Z.eqb_neq _ _) Hfile), Halloc, bind_Some_eq.
  rewrite Hread, bind_Some_eq. destruct (elf_check_run (f_mem s3) buffer) as [[-> _] | [_ Hno]]; [| done].
  cbn [negb Z.eqb]. rewrite Eload, bind_Some_eq. cbn [negb].
  pose proof (ld_buffer _ _ _ Hld). split; [| split; [done | split]].
  - do 3 f_equal. change (f_mem (free_buffer buffer (upd (fun _ => m) s3))) with m.
    apply (same_inside_load buffer (buffer + len) (f_mem s3) m); [| lia | simpl; lia].
    by apply (segments_done_image _ _ _ Hld p _ _ _ Hd).
  - intros i Hi. apply (sd_loaded _ _ _ _ _ _ Hd i Hi). apply Hi.
  - intros a Ha. apply (sd_others _ _ _ _ _ _ Hd). intros j Hj _. by apply Ha.
Qed.

(** When the file is found, read to the buffer and an executable, its segments fit
    their pages, and there are enough pages, [load_executable]
    ends and returns the entry point: the bytes of every segment to load are at its
    address but on pages that a later segment shares, its pages are backed, the rest of memory is as after reading the file, and
    the buffer has been given back. Bytes between the segment's size in the file and
    its size in memory keep what the new frames held. *)
Theorem load_executable_spec (disk : Z -> Z -> Z) {H : Type} `{Allocator H} {P : Type} `{UserPages P}
  (fuel : nat) (filename file buffer len : Z) (s s1 s2 s3 : fsys (H := H)) (p : P)
  (Hfind : find_file disk fuel filename s = Some (file, s1)) (Hfile : file <> 0)
  (Halloc : alloc_buffer (uint32_t (file_size (f_mem s1) file + spc s1 * bps s1)) s1 = Some (buffer, s2))
  (Hread : read_file disk fuel (first_cluster (f_mem s2) file) buffer s2 = Some s3)
  (Hexec : is_executable (f_mem s3) buffer) (Hld : loadable (f_mem s3) buffer len)
  (Hleft : pages_left p (pages_from (f_mem s3) buffer (Z.to_nat (phnum (f_mem s3) buffer)) 0))
  (Hfuel : phnum (f_mem s3) buffer < Z.of_nat fuel) :
  exists s' p', load_executable disk fuel filename s p = Some (e_entry (f_mem s3) buffer, s', p') /\
    f_heap s' = kfree buffer (f_heap s3) /\
    (forall i, loaded (f_mem s3) buffer i ->
      has_segment (f_mem s3) buffer (f_mem s') i /\ forall a, in_pages (f_mem s3) buffer i a -> backed p' a) /\
    (forall a, (forall i, loaded (f_mem s3) buffer i -> ~ in_pages (f_mem s3) buffer i a) ->
      load8 (f_mem s') a = load8 (f_mem s3) a).
Proof. exact (load_executable_run disk fuel filename file buffer len s s1 s2 s3 p Hfind Hfile Halloc Hread Hexec Hld Hleft Hfuel). Qed.

(** The runs of [load_executable] that return 0. *)
Lemma load_executable_stops (disk : Z -> Z -> Z) {H : Type} `{Allocator H} {P : Type} `{UserPages P}
  (fuel : nat) (filename : Z) (s : fsys (H := H)) (p : P) :
  (forall s1, find_file disk fuel filename s = Some (0, s1) ->
    load_executable disk fuel filename s p = Some (0, s1, p)) /\
  (forall file buffer s1 s2 s3, find_file disk fuel filename s = Some (file, s1) -> file <> 0 ->
    alloc_buffer (uint32_t (file_size (f_mem s1) file + spc s1 * bps s1)) s1 = Some (buffer, s2) ->
    read_file disk fuel (first_cluster (f_mem s2) file) buffer s2 = Some s3 ->
    (~ is_executable (f_mem s3) buffer -> load_executable disk fuel filename s p = Some (0, s3, p)) /\
    (forall p' m', is_executable (f_mem s3) buffer ->
      load_segments fuel buffer p (f_mem s3) = Some (false, p', m') ->
      load_executable disk fuel filename s p = Some (0, upd (fun _ => m') s3, p'))).
Proof.
  unfold load_executable. split.
  - intros s1 ->. by rewrite bind_Some_eq.
  - intros file buffer s1 s2 s3 -> Hfile Ha Hr. rewrite bind_Some_eq, (proj2 (Z.eqb_neq _ _) Hfile), Ha, bind_Some_eq.
    rewrite Hr, bind_Some_eq. destruct (elf_check_run (f_mem s3) buffer) as [[-> Hyes] | [-> Hno]]; cbn [negb Z.eqb Pos.eqb].
    + split; [done |]. intros p' m' _ ->. by rewrite bind_Some_eq.
    + split; done.
Qed.

(** [load_executable] returns 0 when the file is not found, when the header is not
    that of an executable for x86-64, and when the pages run out. It changes nothing
    but by reading: in the last two cases the buffer stays allocated, and in the last
    one the pages and the bytes of the segments before stay as well. *)
Theorem load_executable_fails (disk : Z -> Z -> Z) {H : Type} `{Allocator H} {P : Type} `{UserPages P}
  (fuel : nat) (filename : Z) (s : fsys (H := H)) (p : P) :
  (forall s1, find_file disk fuel filename s = Some (0, s1) ->
    load_executable disk fuel filename s p = Some (0, s1, p)) /\
  (forall file buffer s1 s2 s3, find_file disk fuel filename s = Some (file, s1) -> file <> 0 ->
    alloc_buffer (uint32_t (file_size (f_mem s1) file + spc s1 * bps s1)) s1 = Some (buffer, s2) ->
    read_file disk fuel (first_cluster (f_mem s2) file) buffer s2 = Some s3 ->
    (~ is_executable (f_mem s3) buffer -> load_executable disk fuel filename s p = Some (0, s3, p)) /\
    (forall p' m', is_executable (f_mem s3) buffer ->
      load_segments fuel buffer p (f_mem s3) = Some (false, p', m') ->
      load_executable disk fuel filename s p = Some (0, upd (fun _ => m') s3, p'))).
Proof. exact (load_executable_stops disk fuel filename s p). Qed.

(** * A concrete executable *)

(** So many pages, filled with [0xCC]; the numbers of those in use. *)
Record page_pool := PagePool { pool_left : Z; pool_used : gset Z }.

#[export] Instance pool_pages : UserPages page_pool.
Proof.
  refine {|
    alloc_page va n p m :=
      if n <=? pool_left p
      then Some (va, PagePool (pool_left p - n) (list_to_set (seqZ (va / 4096) n) ∪ pool_used p),
                 for_range 0 (4096 * n) (fun k => store8 (va / 4096 * 4096 + k) 0xCC) m)
      else Some (0, p, m);
    backed p a := a / 4096 ∈ pool_used p;
    pages_left p n := n <= pool_left p
  |}.
  intros va n k p m Hva Hlim Hn Hk Hleft. rewrite (proj2 (Z.leb_le n _)) by lia.
  eexists _, _. split; [reflexivity |]. cbn [pool_left pool_used]. split_and!; [lia | | |].
  - intros a Ha. apply elem_of_union_l, elem_of_list_to_set, elem_of_seqZ. done.
  - intros a Ha. by apply elem_of_union_r.
  - intros a Ha.
    apply (for_range_ind (fun _ m' => load8 m' a = load8 m a)); [lia | done |].
    intros j m' Hj IH. rewrite load8_store8_ne; [done |]. intros <-. apply Ha. div_lia.
Defined.

(** A file A of one cluster: the header, one program header at 64, and at 120 four
    bytes that go to 0x400000. *)
Definition le (n : nat) (v : Z) : list Z := (fun k => v / 2 ^ (8 * Z.of_nat k) mod 256) <$> seq 0 n.
Definition demo_elf : list Z := Eval vm_compute in
  [0x7F; 69; 76; 70] ++ replicate 12 0 ++ le 2 2 ++ le 2 62 ++ le 4 1 ++ le 8 0x400000 ++ le 8 64 ++ le 8 0 ++
  le 4 0 ++ le 2 64 ++ le 2 56 ++ le 2 1 ++ replicate 6 0 ++
  le 4 1 ++ le 4 5 ++ le 8 120 ++ le 8 0x400000 ++ le 8 0 ++ le 8 4 ++ le 8 8 ++ le 8 0x1000 ++ [0x90; 0x90; 0xEB; 0xFE].
Definition demo_entry : list Z := Eval vm_compute in [65] ++ replicate 25 0 ++ le 2 3 ++ le 4 124.

Definition elf_disk (n k : Z) : Z :=
  if n =? 100 then if (8 <=? k) && (k <? 16) then 255 else 0
  else if n =? 200 then default 0 (demo_entry !! Z.to_nat k)
  else if n =? 201 then default 0 (demo_elf !! Z.to_nat k)
  else 0.

Definition elf_fs : fsys (H := sized_bump) :=
  Fsys (store8 0x9000 65 (store 4 (0x1000 + 44) 2 demo_volume)) (SizedBump 0xC0100000 ∅) 0x1000 80 200 100 [].

Definition elf_found : Z * fsys := default (0, elf_fs) (find_file elf_disk 3 0x9000 elf_fs).
Definition elf_buffer : Z * fsys := default (0, elf_fs) (alloc_buffer (124 + 512) (snd elf_found)).
Definition elf_read : fsys := default elf_fs (read_file elf_disk 3 3 (fst elf_buffer) (snd elf_buffer)).
Abbreviation elf_image := (f_mem elf_read).

Lemma elf_runs :
  find_file elf_disk 3 0x9000 elf_fs = Some (0xC0100200, snd elf_found) /\
  alloc_buffer (uint32_t (file_size (f_mem (snd elf_found)) 0xC0100200 + spc (snd elf_found) * bps (snd elf_found))) (snd elf_found) =
    Some (0xC0100220, snd elf_buffer) /\
  read_file elf_disk 3 (first_cluster (f_mem (snd elf_buffer)) 0xC0100200) 0xC0100220 (snd elf_buffer) = Some elf_read.
Proof. split_and!; [apply run_pair | apply run_pair | apply run_total]; vm_compute; reflexivity. Qed.

#[local] Opaque elf_found elf_buffer elf_read.

Lemma elf_fields :
  phnum elf_image 0xC0100220 = 1 /\ phdr elf_image 0xC0100220 0 = 0xC0100260 /\ e_phoff elf_image 0xC0100220 = 64 /\
  p_type elf_image 0xC0100260 = 1 /\ p_offset elf_image 0xC0100260 = 120 /\ p_vaddr elf_image 0xC0100260 = 0x400000 /\
  p_filesz elf_image 0xC0100260 = 4 /\ p_memsz elf_image 0xC0100260 = 8.
Proof. split_and!; by vm_compute. Qed.

Lemma elf_loaded i : loaded elf_image 0xC0100220 i -> i = 0.
Proof. intros [Hi _]. destruct elf_fields as (En & _). rewrite En in Hi. lia. Qed.

Lemma elf_loadable : loadable elf_image 0xC0100220 512.
Proof.
  destruct elf_fields as (En & Ep & Eh & Et & Eo & Ev & Ef & Em).
  assert (seg_pages elf_image 0xC0100220 0 = 1) as Es by (unfold seg_pages; rewrite Ep, Em; reflexivity).
  split; [lia | rewrite En, Eh; unfold sizeof_phdr; lia | ..]; unfold in_pages.
  1-4: intros i ->%elf_loaded; rewrite ?Ep, ?Es, ?Eo, ?Ev, ?Ef, ?Em; div_lia.
  - intros i a ->%elf_loaded Ha. rewrite Ep, Es, Ev. change (0x400000 / 4096) with 0x400.
    pose proof (Z.div_mod a 4096). pose proof (Z.mod_pos_bound a 4096). lia.
Qed.

Lemma load_executable_spec_witness :
  exists s' p', load_executable elf_disk 3 0x9000 elf_fs (PagePool 8 ∅) = Some (0x400000, s', p') /\
    load8 (f_mem s') 0x400002 = 0xEB /\ 0x400 ∈ pool_used p'.
Proof.
  destruct elf_runs as (Hfind & Halloc & Hread). pose proof elf_fields as (En & Ep & _ & Et & Eo & Ev & Ef & Em).
  assert (is_executable (f_mem elf_read) 0xC0100220) as Hexec by (vm_compute; repeat split; discriminate).
  assert (pages_left (PagePool 8 ∅) (pages_from (f_mem elf_read) 0xC0100220
    (Z.to_nat (phnum (f_mem elf_read) 0xC0100220)) 0)) as Hleft
    by (vm_compute; discriminate).
  destruct (load_executable_spec elf_disk 3 0x9000 0xC0100200 0xC0100220 512 elf_fs _ _ elf_read (PagePool 8 ∅)
    Hfind ltac:(lia) Halloc Hread Hexec elf_loadable Hleft ltac:(rewrite En; lia))
    as (s' & p' & E & _ & Hseg & _).
  assert (loaded elf_image 0xC0100220 0) as Hl by (split; [rewrite En; lia | rewrite Ep; exact Et]).
  destruct (Hseg 0 Hl) as [Hb Hp]. exists s', p'. split; [exact E |]. split.
  - specialize (Hb 2).  rewrite Ep, Ev, Ef, Eo in Hb.
    change 0x400002 with (0x400000 + 2). rewrite (Hb ltac:(lia)); [vm_compute; reflexivity |]. intros i Hi%elf_loaded. lia.
  - apply (Hp 0x400000). unfold in_pages, seg_pages.  rewrite Ep, Ev, Em. change (0x400000 / 4096) with 0x400.
    change (8 / 4096) with 0. lia.
Defined.
