(* ===== verification/Isolation.v ===== *)
(** Isolation of pages: over any sequence of calls of [alloc_page] and
    [alloc_kernel_page] (kernel/memman.c) the tables stay a tree and no two pages share a
    frame. *)

From S2P Require Import Prelude Words FrameMap FrameAlloc Paging PageTree.
#[local] Open Scope Z_scope.

(** Addresses outside the window. *)
Definition ordinary (va : Z) : Prop := 0 <= va < 511 * 2 ^ 39.

(** Every page has a frame in use, and no other page has the same. *)
Record isolated (s : vm) (w : Z) : Prop := {
  is_tree : tree_ok s w;
  is_used va F off : ordinary va -> translate (vm_phys s) w va = Some (F, off) -> 0 <= F /\ used (vm_man s) F = true;
  is_apart va va' F off off' : ordinary va -> ordinary va' ->
    translate (vm_phys s) w va = Some (F, off) -> translate (vm_phys s) w va' = Some (F, off') -> va / 4096 = va' / 4096
}.

(** One call that succeeds, with the conditions of the theorems of PageTree.v. *)
Inductive map_step (s : vm) : vm -> Prop :=
  | step_user va n s' :
      0 <= va -> va mod 4096 = 0 -> 0 <= n -> va + Z.max 1 n * 4096 < 511 * 2 ^ 39 ->
      enough (4 * Z.to_nat (Z.max 1 n)) (vm_man s) ->
      alloc_page va n s = Some (va, s') -> map_step s s'
  | step_kernel n r s' :
      0 <= n -> 0 <= _kernel_next_block (vm_man s) -> (_kernel_next_block (vm_man s) + n) * 4096 < 511 * 2 ^ 39 ->
      enough (4 * Z.to_nat n) (vm_man s) ->
      vm_alloc_kernel_page n s = Some (r, s') -> map_step s s'.

(** * Proofs *)

(** A page of the new range, or one of before. *)
Lemma mapped_cases s s' w va Fs x F off :
  mapped s s' w va Fs -> 0 <= va -> va mod 4096 = 0 -> ordinary x -> translate (vm_phys s') w x = Some (F, off) ->
  (exists i : nat, Fs !! i = Some F /\ x / 4096 = va / 4096 + Z.of_nat i) \/ translate (vm_phys s) w x = Some (F, off).
Proof.
  intros M Hva Hal Hx Ht. destruct (decide (va <= x < va + Z.of_nat (length Fs) * 4096)) as [Hin | Hout].
  - left. set (i := Z.to_nat ((x - va) / 4096)).
    assert (Z.of_nat i = (x - va) / 4096) as Hi by (unfold i; div_lia).
    assert (i < length Fs)%nat as Hlt by div_lia.
    destruct (lookup_lt_is_Some_2 Fs i Hlt) as [G HG]. exists i.
    pose proof (md_here _ _ _ _ _ M i G ((x - va) mod 4096) HG ltac:(div_lia)) as Hh.
    replace (va + Z.of_nat i * 4096 + (x - va) mod 4096) with x in Hh by (rewrite Hi; div_lia).
    rewrite Ht in Hh. injection Hh as -> _. split; [done | rewrite Hi; div_lia].
  - right. by rewrite <- (md_elsewhere _ _ _ _ _ M x Hx ltac:(lia)).
Qed.

Lemma mapped_isolated s s' w va Fs :
  isolated s w -> 0 <= va -> va mod 4096 = 0 -> mapped s s' w va Fs -> isolated s' w.
Proof.
  intros [_ Hused Hapart] Hva Hal M. pose proof (md_fresh _ _ _ _ _ M) as Hfresh. rewrite Forall_lookup in Hfresh.
  split; [apply M | |].
  - intros x F off Hx Ht. destruct (mapped_cases _ _ _ _ _ _ _ _ M Hva Hal Hx Ht) as [(i & Hi & _) | Hold].
    + destruct (Hfresh i F Hi) as (? & _ & ?). split; [lia | done].
    + destruct (Hused x F off Hx Hold) as [H0 Hu]. split; [done | by apply (md_used _ _ _ _ _ M)].
  - intros x y F off off' Hx Hy Htx Hty.
    destruct (mapped_cases _ _ _ _ _ _ _ _ M Hva Hal Hx Htx) as [(i & Hi & Ex) | Holdx],
             (mapped_cases _ _ _ _ _ _ _ _ M Hva Hal Hy Hty) as [(j & Hj & Ey) | Holdy].
    + assert (i = j) as -> by exact (NoDup_lookup _ _ _ _ (md_nodup _ _ _ _ _ M) Hi Hj). lia.
    + destruct (Hfresh i F Hi) as (_ & Hf & _), (Hused y F off' Hy Holdy) as [_ Hu]. congruence.
    + destruct (Hfresh j F Hj) as (_ & Hf & _), (Hused x F off Hx Holdx) as [_ Hu]. congruence.
    + by apply (Hapart x y F off off').
Qed.

Lemma isolated_next s w f : isolated s w -> isolated (set_man (upd_next_block f (vm_man s)) s) w.
Proof. intros [Ht Hu Ha]. split; [by apply tree_ok_next | exact Hu | exact Ha]. Qed.

Lemma map_step_isolated s s' w : map_step s s' -> isolated s w -> isolated s' w.
Proof.
  intros Hstep Hs. pose proof (is_tree _ _ Hs) as Ht. destruct Hstep as [va n s' Hva Hal Hn Hend Hen E | n r s' Hn Hnext Hend Hen E].
  - destruct (map_new_pages_run (Z.to_nat (Z.max 1 n)) 0 s w va 1 Ht Hva Hal) as (s1 & Fs & E1 & _ & M & _);
      [lia | by rewrite Nat.add_0_r |].
    unfold alloc_page in E. assert ((if n =? 0 then 1 else n) = Z.max 1 n) as En by (zbool_cases). rewrite En, E1 in E.
    cbn [mbind option_bind] in E. injection E as <-. by apply (mapped_isolated s s1 w va Fs).
  - set (va := _kernel_next_block (vm_man s) * 4096).
    assert (va mod 4096 = 0) as Hal by (unfold va; div_lia).
    destruct (map_new_pages_run (Z.to_nat n) 0 s w va 0 Ht ltac:(lia) Hal) as (s1 & Fs & E1 & _ & M & _);
      [lia | by rewrite Nat.add_0_r |].
    unfold vm_alloc_kernel_page in E. change 0x1000 with 4096 in E. rewrite (uint64_id (_ * 4096)) in E by lia.
    fold va in E. rewrite E1 in E. cbn [mbind option_bind] in E. injection E as _ <-.
    apply isolated_next. apply (mapped_isolated s s1 w va Fs); [done | lia | done | done].
Qed.

(** C13: whatever [alloc_page] and [alloc_kernel_page] are called for, in any order, as
    long as blocks are left: the page tables stay a tree under the same top table, every
    page has a frame that the allocator counts as used, and no two pages, of the program
    or of the kernel, have the same frame. *)
Theorem pages_stay_isolated (s s' : vm) (w : Z) : rtc map_step s s' -> isolated s w -> isolated s' w.
Proof. induction 1 as [|s1 s2 s3 Hstep _ IH]; [done |]. intros Hs. apply IH. by apply (map_step_isolated s1 s2). Qed.

(** A new space without pages is isolated. *)
Lemma demo_vm_isolated : isolated demo_vm 1.
Proof.
  assert (forall va, ordinary va -> translate (vm_phys demo_vm) 1 va = None) as Hnone.
  { intros va Hva. pose proof (a_pml4_low va Hva) as Hne.
    assert (ent (vm_phys demo_vm) 1 (a_pml4 va) = 0) as E.
    { unfold ent, demo_vm. cbn [vm_phys]. rewrite lookup_singleton_ne; [done | congruence]. }
    unfold translate, next_table. by rewrite E. }
  split; [exact demo_vm_ok | |]; intros *; intros Hva; [rewrite (Hnone _ Hva) | intros _; rewrite (Hnone _ Hva)]; done.
Qed.

(** Two pages of a program, then one of the kernel. *)
Definition demo_two : vm := snd (default (0, demo_vm) (alloc_page 0x200000 2 demo_vm)).
Definition demo_three : vm := snd (default (0, demo_vm) (vm_alloc_kernel_page 1 demo_two)).

Lemma pages_stay_isolated_witness : isolated demo_three 1 /\ translate (vm_phys demo_three) 1 0x201234 = Some (6, 0x234).
Proof.
  split; [| vm_compute; reflexivity]. apply (pages_stay_isolated demo_vm _ 1); [| exact demo_vm_isolated].
  apply (rtc_l _ _ demo_two); [| apply rtc_once].
  - apply (step_user demo_vm 0x200000 2); vm_compute; done.
  - apply (step_kernel demo_two 1 (_kernel_next_block (vm_man demo_two) * 4096)); vm_compute; done.
Defined.
