(* ===== verification/PagingInit.v ===== *)
(** The start of the memory manager ([memman_init], kernel/memman.c): the accounting of
    blocks from the firmware's map and then the first page tables of the kernel, with
    the address space that they make. *)

From S2P Require Import Prelude Words Console FrameMap FrameAlloc Paging PageTree Isolation.
#[local] Open Scope Z_scope.

(** [memman_init]: the top table in [cr3] is the boot loader's. [None] is a page
    fault. *)
Definition memman_init (kernel_start kernel_end : Z) (memory_map : list memory_region) (m0 : gmap Z Z)
    (pm : phys) (cr3 : Z) : option (Z * vm) :=
  let man := fst (memman_init_frames kernel_start kernel_end memory_map m0) in
  memman_init_paging (blocks_used_by_kernel kernel_start kernel_end (_mem_max_blocks man)) (Vm pm cr3 man).

(** * The space it builds *)

(** The [blocks] pages of the kernel's image from 3 GiB on, the page of video memory
    behind them, and the last page below 4 GiB. *)
Definition init_translation (blocks va : Z) : option (Z * Z) :=
  let p := va / 4096 in
  if (0xC0000 <=? p) && (p <? 0xC0000 + blocks) then Some (0x200 + (p - 0xC0000), va mod 4096)
  else if p =? 0xC0000 + blocks then Some (0xB8, va mod 4096)
  else if p =? 0xFFFFF then Some (8, va mod 4096)
  else None.

(** * Walks *)

Lemma present_entry (pm : phys) f i e : ent pm f i = e -> e mod 2 = 1 -> next_table pm f i = Some (e / 4096 mod 2 ^ 40).
Proof.
  intros E Hp. unfold next_table, e_present, e_frame. rewrite E, bf_get_low, bf_get_div by lia.
  change (2 ^ 1) with 2. by rewrite Hp.
Qed.

Lemma absent_entry (pm : phys) f i e : ent pm f i = e -> e mod 2 = 0 -> next_table pm f i = None.
Proof. intros E Hp. unfold next_table, e_present. rewrite E, bf_get_low by lia. change (2 ^ 1) with 2. by rewrite Hp. Qed.

(** A 2 MiB page: the entry [k * 2 MiB + 0x83] of a page directory. *)
Lemma large_page (pm : phys) f va k :
  ent pm f (a_pd va) = 0x83 + 0x200000 * k -> 0 <= k < 2 ^ 31 ->
  (if e_present (ent pm f (a_pd va)) && e_large (ent pm f (a_pd va))
   then Some (Z.shiftl (bf_get 21 31 (ent pm f (a_pd va))) 9 + a_pt va, a_offset va)
   else pt ← next_table pm f (a_pd va); F ← next_table pm pt (a_pt va); Some (F, a_offset va)) =
  Some (512 * k + a_pt va, a_offset va).
Proof.
  intros He Hk. rewrite He. unfold e_present, e_large. rewrite !bf_get_div by lia.
  replace ((0x83 + 0x200000 * k) / 2 ^ 0 mod 2 ^ 1) with 1 by div_lia.
  replace ((0x83 + 0x200000 * k) / 2 ^ 7 mod 2 ^ 1) with 1 by div_lia.
  replace ((0x83 + 0x200000 * k) / 2 ^ 21 mod 2 ^ 31) with k by div_lia.
  cbn [Z.eqb andb Pos.eqb]. rewrite Z.shiftl_mul_pow2 by lia. do 2 f_equal. lia.
Qed.

(** * Stores through the starting tables *)

(** An entry that is not present is on no walk, so that a store to it changes none. *)
Lemma next_table_absent pm f i e g j t :
  next_table pm g j = Some t -> e_present (ent pm f i) = false -> next_table (<[(f, i) := e]> pm) g j = Some t.
Proof.
  intros Hn Ha. rewrite (next_table_ext pm); [done |]. apply ent_insert_ne.
  destruct (decide (f = g)) as [->|]; [right | by left]. intros ->. unfold next_table in Hn. by rewrite Ha in Hn.
Qed.

Lemma translate_absent pm top va f i e r :
  translate pm top va = Some r -> e_present (ent pm f i) = false -> translate (<[(f, i) := e]> pm) top va = Some r.
Proof.
  intros Ht Ha. unfold translate in *.
  apply bind_Some in Ht as (pdp & E4 & Ht). rewrite (next_table_absent _ _ _ _ _ _ _ E4 Ha), bind_Some_eq.
  apply bind_Some in Ht as (pd & E3 & Ht). rewrite (next_table_absent _ _ _ _ _ _ _ E3 Ha), bind_Some_eq.
  assert (e_present (ent pm pd (a_pd va)) = true -> ent (<[(f, i) := e]> pm) pd (a_pd va) = ent pm pd (a_pd va)) as He.
  { intros Hp. apply ent_insert_ne. destruct (decide (f = pd)) as [->|]; [right | by left]. intros ->. congruence. }
  destruct (e_present (ent pm pd (a_pd va))) eqn:Ep; cbn [andb] in Ht.
  - rewrite (He eq_refl), Ep. cbn [andb]. destruct (e_large (ent pm pd (a_pd va))); [done |].
    apply bind_Some in Ht as (pt & E2 & Ht). rewrite (next_table_absent _ _ _ _ _ _ _ E2 Ha), bind_Some_eq.
    apply bind_Some in Ht as (F & E1 & Ht). by rewrite (next_table_absent _ _ _ _ _ _ _ E1 Ha), bind_Some_eq.
  - unfold next_table in Ht. rewrite Ep in Ht. done.
Qed.

(** The four stores to an entry that is not present, through an address that the
    tables in use translate to it. *)
Lemma link_self_run s f target :
  translate (vm_phys s) (vm_cr3 s) (f * 4096 + 8 * 511) = Some (f, 8 * 511) -> e_present (ent (vm_phys s) f 511) = false ->
  link_self (f * 4096) target s = Some (upd_phys <[(f, 511) := entry_for 0 target (ent (vm_phys s) f 511)]> s).
Proof.
  intros Ht Ha. destruct s as [pm top man]. cbn [vm_phys vm_cr3] in Ht, Ha.
  assert (forall off n v, set_field off n v (f * 4096 + 8 * 511) (Vm pm top man) =
    Some (Vm (<[(f, 511) := bf_set off n v (ent pm f 511)]> pm) top man)) as Efirst.
  { intros off n v. unfold set_field, vread, vwrite. cbn [vm_phys vm_cr3]. rewrite Ht.
    cbn [mbind option_bind upd_phys vm_phys vm_cr3 vm_man]. by rewrite offset_index. }
  assert (forall off n v x, set_field off n v (f * 4096 + 8 * 511) (Vm (<[(f, 511) := x]> pm) top man) =
    Some (Vm (<[(f, 511) := bf_set off n v x]> pm) top man)) as Enext.
  { intros off n v x. unfold set_field, vread, vwrite. cbn [vm_phys vm_cr3].
    rewrite (translate_absent _ _ _ f 511 x _ Ht Ha). cbn [mbind option_bind upd_phys vm_phys vm_cr3 vm_man].
    rewrite offset_index, ent_insert_eq. unfold upd_phys. cbn [vm_phys vm_cr3 vm_man]. by rewrite insert_insert_eq. }
  unfold link_self, set_frame, set_present, set_rw, set_user. rewrite Efirst. cbn [mbind option_bind].
  rewrite !Enext. cbn [mbind option_bind]. rewrite !Enext. cbn [mbind option_bind]. by rewrite Enext.
Qed.

(** The allocator takes the lowest free block. *)
Lemma alloc_frame_first m F m' :
  frames_ok m -> mem_alloc_block m = (F * 4096, m') -> 0 < F -> forall b, 0 <= b < F -> used m b = true.
Proof.
  intros Hm Hb HF. pose proof (mem_alloc_block_run m Hm) as Hr. rewrite Hb in Hr. destruct Hr as [Hok Hr].
  inversion Hr as [|F' m1 HF' _ _ Hno _ E]; subst; [lia |]. unfold MEM_BLOCK_SIZE in E.
  replace F with F' by lia. by apply no_run_below_1.
Qed.

(** * The first table *)

(** A top table whose only entry is the window on itself, seen from the table in
    [cr3]. *)
Lemma tree_ok_window (s : vm) (w : Z) :
  frames_ok (vm_man s) -> _mem_max_blocks (vm_man s) <= 2 ^ 40 ->
  0 <= w -> used (vm_man s) w = true -> 0 <= vm_cr3 s -> used (vm_man s) (vm_cr3 s) = true ->
  next_table (vm_phys s) (vm_cr3 s) 511 = Some w -> next_table (vm_phys s) w 511 = Some w ->
  e_large (ent (vm_phys s) w 511) = false -> (forall i, i <> 511 -> ent (vm_phys s) w i = 0) ->
  (forall f i, 0 <= f -> used (vm_man s) f = false -> ent (vm_phys s) f i = 0) ->
  tree_ok s w /\ forall va, a_pml4 va <> 511 -> translate (vm_phys s) w va = None.
Proof.
  intros Hok Hmax Hw Huw Hc Huc Hcw Hww Hsmall Hempty Hzero.
  assert (forall i, i <> 511 -> next_table (vm_phys s) w i = None) as Hnext.
  { intros i Hi. unfold next_table. by rewrite Hempty. }
  assert (forall p f, upath p -> descend (vm_phys s) w p = Some f -> p = [] /\ f = w) as Hdesc.
  { intros [|i p] f Hpath; simpl; [by intros [= ->] |]. intros Hd. exfalso.
    rewrite Hnext in Hd; [done |]. by apply (up_first _ Hpath). }
  split.
  - split; try done.
    + intros p Hp Hd. by apply (Hdesc p (vm_cr3 s) Hp).
    + intros p q f Hp Hq H1 H2. destruct (Hdesc p f Hp H1) as [-> _], (Hdesc q f Hq H2) as [-> _]. done.
    + intros p f i Hp Hl Hi Hd. destruct (Hdesc p f Hp Hd) as [-> ->].
      destruct (decide (i = 511)) as [->|]; [done |]. by rewrite Hempty.
    + intros p f Hp Hd. by destruct (Hdesc p f Hp Hd) as [-> ->].
  - intros va Hva. unfold translate. by rewrite Hnext.
Qed.

(** * One page with a given frame *)

Definition init_entry (f e : Z) : Z := bf_set 1 1 1 (bf_set 2 1 0 (bf_set 0 1 1 (bf_set 12 40 f e))).

Lemma init_entry_fields f e : 0 <= f < 2 ^ 40 -> e_present (init_entry f e) = true /\ e_frame (init_entry f e) = f.
Proof.
  intros Hf. unfold init_entry, e_present, e_frame.
  rewrite !(bf_get_set_other 1 1), !(bf_get_set_other 2 1), bf_get_set_same by lia.
  rewrite (bf_get_set_other 0 1), bf_get_set_same by lia. split; [done | by apply Z.mod_small].
Qed.

Lemma init_page_run s w p i f frame :
  tree_ok s w -> slot p i -> descend (vm_phys s) w p = Some f ->
  init_page (window_addr p i) frame s = Some (upd_phys <[(f, i) := init_entry frame (ent (vm_phys s) f i)]> s).
Proof.
  intros Hs Hsl Hf. unfold init_page, set_present, set_user, set_rw, set_frame.
  pose proof (set_field_first s w Hs p i f Hsl Hf 12 40 frame (vm_man s)) as E. rewrite vm_eta in E. rewrite E.
  cbn [mbind option_bind]. rewrite (set_field_next s w Hs p i f Hsl Hf). cbn [mbind option_bind].
  rewrite (set_field_next s w Hs p i f Hsl Hf). cbn [mbind option_bind].
  by rewrite (set_field_next s w Hs p i f Hsl Hf).
Qed.

(** The page of [va] is translated to the frame [F], nothing else changes. *)
Record placed (s s' : vm) (w va F : Z) : Prop := {
  pl_tree : tree_ok s' w;
  pl_cr3 : vm_cr3 s' = vm_cr3 s;
  pl_next : _kernel_next_block (vm_man s') = _kernel_next_block (vm_man s);
  pl_used : forall b, 0 <= b -> used (vm_man s) b = true -> used (vm_man s') b = true;
  pl_here : forall va', a_frame va' = a_frame va -> translate (vm_phys s') w va' = Some (F, a_offset va');
  pl_elsewhere : forall va', a_pml4 va' <> 511 -> a_frame va' <> a_frame va ->
    translate (vm_phys s') w va' = translate (vm_phys s) w va'
}.

Lemma place_page_run s w va F n :
  tree_ok s w -> a_pml4 va <> 511 -> 0 <= F < 2 ^ 40 -> enough (3 + n) (vm_man s) ->
  exists page s1 s', create_page_for_current va 0 s = Some (page, s1) /\ init_page page F s1 = Some s' /\
    placed s s' w va F /\ enough n (vm_man s').
Proof.
  intros Hs Hva HF Hen. destruct (create_page_run s w va 0 n Hs Hva Hen) as (s1 & pt & Ec & G & Hen1 & Hpt).
  pose proof (upath_of va Hva) as Hu. destruct (a_indices va) as (_ & _ & _ & H1).
  pose proof (gr_tree _ _ _ G) as Hs1. set (v := init_entry F (ent (vm_phys s1) pt (a_pt va))).
  destruct (init_entry_fields F (ent (vm_phys s1) pt (a_pt va)) HF) as [Hpres Hframe]. fold v in Hpres, Hframe.
  eexists _, s1, _. split; [exact Ec |]. split; [exact (init_page_run s1 w _ _ pt F Hs1 (fill_slot _ _ _ _ Hu H1) Hpt) |].
  fold v. split; [| exact Hen1]. split; cbn [upd_phys vm_phys vm_cr3 vm_man].
  - exact (fill_tree s1 w Hs1 _ _ _ _ pt v Hu H1 Hpt).
  - exact (gr_cr3 _ _ _ G).
  - exact (gr_next _ _ _ G).
  - exact (gr_used _ _ _ G).
  - intros va' Hva'. destruct (a_frame_indices_inj va' va Hva') as (? & ? & ? & ?).
    rewrite (fill_here s1 w Hs1 _ _ _ _ pt v Hu H1 Hpt va'); try done. by rewrite Hframe.
  - intros va' Hva' Hne. rewrite (fill_elsewhere s1 w Hs1 _ _ _ _ pt v Hu H1 Hpt va' Hva').
    + by rewrite (gr_translate _ _ _ G).
    + intros (? & ? & ? & ?). by apply Hne, a_frame_inj.
Qed.

(** * The pages of the kernel *)

Section kernel.
Context (s0 : vm) (w blocks : Z) (Hblocks : 0 <= blocks < 0x3FFFE).

(** The translation while the loop has mapped [i] pages of the image. *)
Definition image_translation (i va : Z) : option (Z * Z) :=
  if (0xC0000 <=? a_frame va) && (a_frame va <? 0xC0000 + i) then Some (0x200 + (a_frame va - 0xC0000), a_offset va) else None.

Record image_mapped (i : Z) (n : nat) (s : vm) : Prop := {
  im_tree : tree_ok s w;
  im_cr3 : vm_cr3 s = vm_cr3 s0;
  im_next : _kernel_next_block (vm_man s) = _kernel_next_block (vm_man s0);
  im_used : forall b, 0 <= b -> used (vm_man s0) b = true -> used (vm_man s) b = true;
  im_enough : enough (Z.to_nat (3 * (blocks - i)) + n) (vm_man s);
  im_translate : forall va, a_pml4 va <> 511 -> translate (vm_phys s) w va = image_translation i va
}.

(** The page number of an address below 2^48 that is not in the window. *)
Lemma page_number va p : 0 <= p < 511 * 2 ^ 27 -> va = p * 4096 -> 0 <= va /\ va < 2 ^ 64 /\ a_frame va = p /\ a_pml4 va <> 511.
Proof.
  intros Hp ->. split; [lia |]. split; [lia |]. split; [| apply a_pml4_low; lia].
  rewrite a_frame_div by lia. by rewrite Z.div_mul.
Qed.

Lemma map_kernel_block_run i n s :
  0 <= i < blocks -> image_mapped i n s -> exists s', map_kernel_block i s = Some s' /\ image_mapped (i + 1) n s'.
Proof.
  intros Hi [Ht Hc Hn Hu He Htr]. unfold map_kernel_block, MEM_BLOCK_SIZE.
  destruct (page_number ((0xC0000 + i) * 4096) (0xC0000 + i)) as (H0 & Hlt & Hfr & Hva); [lia | done |].
  rewrite !(uint64_id (i * 4096)), (uint64_id (3221225472 + i * 4096)) by lia.
  replace (3221225472 + i * 4096) with ((0xC0000 + i) * 4096) by lia.
  replace (Z.to_nat (3 * (blocks - i)) + n)%nat with (3 + (Z.to_nat (3 * (blocks - (i + 1))) + n))%nat in He by lia.
  destruct (place_page_run s w _ (0x200 + i) _ Ht Hva ltac:(lia) He) as (page & s1 & s' & Ec & Ei & P & He').
  rewrite Ec. cbn [mbind option_bind]. rewrite (uint64_id (0x200000 + i * 4096)) by lia.
  replace ((0x200000 + i * 4096) / 0x1000) with (0x200 + i) by div_lia.
  exists s'. split; [exact Ei |]. split.
  - apply P.
  - by rewrite (pl_cr3 _ _ _ _ _ P).
  - by rewrite (pl_next _ _ _ _ _ P).
  - intros b Hb Hub. apply (pl_used _ _ _ _ _ P); [done |]. by apply Hu.
  - exact He'.
  - intros va Hva'. unfold image_translation. destruct (decide (a_frame va = 0xC0000 + i)) as [E|Hne].
    + rewrite (pl_here _ _ _ _ _ P) by congruence. rewrite E. zbool_cases. simpl. f_equal. f_equal. lia.
    + rewrite (pl_elsewhere _ _ _ _ _ P) by congruence. rewrite Htr by done. unfold image_translation. zbool_cases.
Qed.

Lemma map_kernel_run n s :
  image_mapped 0 n s ->
  exists s', for_range 0 blocks (fun i s => s ← s; map_kernel_block i s) (Some s) = Some s' /\ image_mapped blocks n s'.
Proof.
  intros Hs. apply (for_range_ind (fun i os => exists s', os = Some s' /\ image_mapped i n s')); [lia | by exists s |].
  intros i os Hi (s' & -> & Hs'). cbn [mbind option_bind]. by apply map_kernel_block_run.
Qed.

End kernel.

(** * The whole start *)

(** What [memman_init] needs of the tables it starts with: the first [low] blocks are
    mapped to themselves, and entry 511 of the top table is not present. *)
Record starts (pm : phys) (cr3 low : Z) : Prop := {
  st_identity : forall va, 0 <= va < low * 4096 -> translate pm cr3 va = Some (va / 4096, va mod 4096);
  st_window : e_present (ent pm cr3 511) = false
}.

(** A free block becomes the top table: [w], with [n] more allocations ahead. *)
Lemma first_table_run s0 blocks low (n : nat) :
  frames_ok (vm_man s0) -> _mem_max_blocks (vm_man s0) <= 2 ^ 40 ->
  0 <= vm_cr3 s0 < low -> used (vm_man s0) (vm_cr3 s0) = true -> starts (vm_phys s0) (vm_cr3 s0) low ->
  (exists b, 0 <= b < low /\ used (vm_man s0) b = false) ->
  (forall f i, 0 <= f -> used (vm_man s0) f = false -> ent (vm_phys s0) f i = 0) ->
  enough (S (Z.to_nat (3 * blocks) + n)) (vm_man s0) ->
  exists w man s1 s2, mem_alloc_block (vm_man s0) = (w * 4096, man) /\ used (vm_man s0) w = false /\
    link_self (get_current_pml4 s0) w (set_man man s0) = Some s1 /\ link_self (w * 4096) w s1 = Some s2 /\
    image_mapped s0 w blocks 0 n s2.
Proof.
  intros Hok Hmax Hc Huc [Hid Hwin] (b0 & Hb0 & Hfree0) Hzero Hen. cbn [enough] in Hen.
  destruct (mem_alloc_block (vm_man s0)) as [block man] eqn:Ea. destruct Hen as [Hne Hen].
  destruct (alloc_frame _ _ _ Hok Ea Hne) as (w & -> & Hw & Hfree & Huw & Hok' & Hmax' & Hmark).
  assert (vm_cr3 s0 <> w) as Hcw by congruence.
  assert (w < low) as Hlow.
  { destruct (Z.lt_ge_cases w low) as [|Hge]; [done |].
    by rewrite (alloc_frame_first _ _ _ Hok Ea ltac:(lia) b0 ltac:(lia)) in Hfree0. }
  set (e1 := entry_for 0 w (ent (vm_phys s0) (vm_cr3 s0) 511)). set (pm1 := <[(vm_cr3 s0, 511) := e1]> (vm_phys s0)).
  set (e2 := entry_for 0 w (ent pm1 w 511)). set (pm2 := <[(w, 511) := e2]> pm1).
  exists w, man, (Vm pm1 (vm_cr3 s0) man), (Vm pm2 (vm_cr3 s0) man). split; [done |]. split; [done |].
  assert (forall F, 0 <= F < low -> translate (vm_phys s0) (vm_cr3 s0) (F * 4096 + 8 * 511) = Some (F, 8 * 511)) as Hid'.
  { intros F HF. rewrite Hid by lia. do 2 f_equal; div_lia. }
  split; [exact (link_self_run (set_man man s0) (vm_cr3 s0) w (Hid' _ Hc) Hwin) |].
  assert (ent pm1 w 511 = 0) as Hw0 by (unfold pm1; rewrite ent_insert_ne by (by left); apply Hzero; [lia | done]).
  split.
  { apply (link_self_run (Vm pm1 (vm_cr3 s0) man) w w); cbn [vm_phys vm_cr3 vm_man]; [| by rewrite Hw0].
    apply translate_absent; [apply Hid'; lia | exact Hwin]. }
  assert (0 <= w < 2 ^ 40) as Hw40 by lia.
  destruct (entry_for_fields 0 w (ent (vm_phys s0) (vm_cr3 s0) 511) Hw40) as (Hp1 & Hf1 & _).
  destruct (entry_for_fields 0 w (ent pm1 w 511) Hw40) as (Hp2 & Hf2 & Hl2). fold e1 in Hp1, Hf1. fold e2 in Hp2, Hf2, Hl2.
  assert (forall i, ent pm1 w i = 0) as Hnew.
  { intros i. unfold pm1. rewrite ent_insert_ne by (by left). apply Hzero; [lia | done]. }
  assert (ent pm2 (vm_cr3 s0) 511 = e1) as E1 by (unfold pm2; rewrite ent_insert_ne by (left; congruence); apply ent_insert_eq).
  assert (ent pm2 w 511 = e2) as E2 by apply ent_insert_eq.
  assert (forall b, 0 <= b -> used (vm_man s0) b = true -> used man b = true) as Hold.
  { intros b Hb Hub. rewrite Hmark, Hub by done. apply orb_true_r. }
  destruct (tree_ok_window (Vm pm2 (vm_cr3 s0) man) w) as [Ht Htr]; cbn [vm_phys vm_cr3 vm_man]; try done.
  - by rewrite Hmax'.
  - lia.
  - apply Hc.
  - apply Hold; [apply Hc | done].
  - unfold next_table. by rewrite E1, Hp1, Hf1.
  - unfold next_table. by rewrite E2, Hp2, Hf2.
  - by rewrite E2, Hl2, Hnew.
  - intros i Hi. unfold pm2. rewrite ent_insert_ne by (right; congruence). apply Hnew.
  - intros f i Hf Huf. assert (f <> w /\ f <> vm_cr3 s0 /\ used (vm_man s0) f = false) as (H1 & H2 & H3).
    { rewrite Hmark in Huf by done. apply orb_false_elim in Huf as [Hfw Huf].
      split; [by intros ->; rewrite Z.eqb_refl in Hfw |]. split; [congruence | done]. }
    unfold pm2, pm1. rewrite !ent_insert_ne by (left; congruence). by apply Hzero.
  - split; cbn [vm_phys vm_cr3 vm_man]; try done.
    + pose proof (mem_alloc_block_next (vm_man s0)) as Hn. by rewrite Ea in Hn.
    + by replace (blocks - 0) with blocks by lia.
    + intros va Hva. rewrite Htr by done. unfold image_translation. zbool_cases.
Qed.

Lemma memman_init_paging_run s0 blocks low (n : nat) :
  0 <= blocks < 0x3FFFE -> frames_ok (vm_man s0) -> _mem_max_blocks (vm_man s0) <= 2 ^ 40 ->
  0 <= vm_cr3 s0 < low -> used (vm_man s0) (vm_cr3 s0) = true -> starts (vm_phys s0) (vm_cr3 s0) low ->
  (exists b, 0 <= b < low /\ used (vm_man s0) b = false) ->
  (forall f i, 0 <= f -> used (vm_man s0) f = false -> ent (vm_phys s0) f i = 0) ->
  _kernel_next_block (vm_man s0) = 0xC0000 + blocks ->
  enough (S (Z.to_nat (3 * blocks) + (6 + n))) (vm_man s0) ->
  exists w s', memman_init_paging blocks s0 = Some ((0xC0000 + blocks) * 4096, s') /\
    vm_cr3 s' = w /\ used (vm_man s0) w = false /\ tree_ok s' w /\
    _kernel_next_block (vm_man s') = 0xC0000 + blocks + 1 /\
    (forall b, 0 <= b -> used (vm_man s0) b = true -> used (vm_man s') b = true) /\
    enough n (vm_man s') /\
    forall va, ordinary va -> translate (vm_phys s') w va = init_translation blocks va.
Proof.
  intros Hb Hok Hmax Hc Huc Hst Hlow Hzero Hnext Hen.
  destruct (first_table_run s0 blocks low (6 + n) Hok Hmax Hc Huc Hst Hlow Hzero Hen)
    as (w & man & u1 & u2 & Ea & Hfree & El1 & El2 & Hi).
  unfold memman_init_paging. rewrite Ea. change 0x1000 with 4096 at 1 2. rewrite Z.div_mul by lia.
  rewrite El1, bind_Some_eq, El2, bind_Some_eq.
  destruct (map_kernel_run s0 w blocks Hb (6 + n) _ Hi) as (s1 & E1 & [Ht1 Hc1 Hn1 Hu1 He1 Htr1]).
  rewrite E1. cbn [mbind option_bind].
  destruct (page_number 0xfffff000 0xFFFFF) as (H0 & Hlt & Hfr & Hva); [lia | done |].
  replace (Z.to_nat (3 * (blocks - blocks)) + (6 + n))%nat with (3 + (3 + n))%nat in He1 by lia.
  destruct (place_page_run s1 w 0xfffff000 8 _ Ht1 Hva ltac:(lia) He1) as (pg & t1 & s2 & Ec & Ei & P2 & He2).
  rewrite Ec. cbn [mbind option_bind]. rewrite Ei. cbn [mbind option_bind].
  assert (_kernel_next_block (vm_man s2) = 0xC0000 + blocks) as Hn2 by (rewrite (pl_next _ _ _ _ _ P2), Hn1; exact Hnext).
  rewrite Hn2, (uint64_id ((0xC0000 + blocks) * 0x1000)) by lia.
  destruct (page_number ((0xC0000 + blocks) * 0x1000) (0xC0000 + blocks)) as (H0' & Hlt' & Hfr' & Hva'); [lia | done |].
  destruct (place_page_run s2 w _ 0xB8 n (pl_tree _ _ _ _ _ P2) Hva' ltac:(lia) He2) as (pg' & t2 & s3 & Ec' & Ei' & P3 & He3).
  rewrite Ec'. cbn [mbind option_bind]. rewrite Ei'. cbn [mbind option_bind].
  assert (_kernel_next_block (vm_man s3) = 0xC0000 + blocks) as Hn3 by (by rewrite (pl_next _ _ _ _ _ P3)).
  exists w. eexists. split; [reflexivity |]. split; [apply Z.div_mul; lia |]. split; [done |].
  split; [apply tree_ok_switch, tree_ok_next, P3 |].
  split; [cbn; rewrite Hn3; apply uint64_id; lia |].
  split; [intros b Hb0 Hub; by apply (pl_used _ _ _ _ _ P3), (pl_used _ _ _ _ _ P2), Hu1 |].
  split; [exact (enough_next n _ _ He3) |].
  intros va Hord. change (translate (vm_phys s3) w va = init_translation blocks va).
  pose proof (a_pml4_low va Hord) as Hp. unfold ordinary in Hord. unfold init_translation.
  rewrite <- (a_frame_div va), <- (a_offset_mod va) by lia.
  destruct (decide (a_frame va = 0xC0000 + blocks)) as [Ev|Hv].
  { rewrite (pl_here _ _ _ _ _ P3) by congruence. rewrite Ev. zbool_cases. }
  rewrite (pl_elsewhere _ _ _ _ _ P3) by congruence.
  destruct (decide (a_frame va = 0xFFFFF)) as [Ef|Hf].
  { rewrite (pl_here _ _ _ _ _ P2) by congruence. rewrite Ef. zbool_cases. }
  rewrite (pl_elsewhere _ _ _ _ _ P2) by congruence. rewrite Htr1 by done.
  unfold image_translation. zbool_cases.
Qed.

(** What the boot loader leaves: a top table in the first megabyte under which the first
    [low] blocks, one of them free, are mapped to themselves; no window yet; and no entry
    in a free block. *)
Record clean_start (pm : phys) (cr3 low : Z) (man : memman) : Prop := {
  cs_cr3 : 0 <= cr3 < 256;
  cs_low : 256 <= low;
  cs_starts : starts pm cr3 low;
  cs_free : exists b, 0 <= b < low /\ used man b = false;
  cs_zero : forall f i, 0 <= f -> used man f = false -> ent pm f i = 0
}.

(** The frames of the kernel's pages are the image's own blocks, video memory and
    block 8: all are used, and no two pages share one. *)
Lemma init_isolated s w blocks :
  0 <= blocks < 0x3FFFE -> tree_ok s w ->
  (forall b, 0 <= b < 256 \/ 0x200 <= b < 0x200 + blocks -> used (vm_man s) b = true) ->
  (forall va, ordinary va -> translate (vm_phys s) w va = init_translation blocks va) -> isolated s w.
Proof.
  intros Hb Ht Hu Htr.
  assert (forall va F off, ordinary va -> init_translation blocks va = Some (F, off) ->
    0 <= F /\ used (vm_man s) F = true) as Hused.
  { intros va F off _. unfold init_translation. zbool_cases; intros [= <- <-]; (split; [lia |]; apply Hu; lia). }
  split; [done | |].
  - intros va F off Hva. rewrite Htr by done. by apply Hused.
  - intros va va' F off off' Hva Hva'. rewrite !Htr by done. unfold init_translation.
    zbool_cases; intros [= <- <-] [= E _]; lia.
Qed.

(** The run, with [n] allocations left. *)
Lemma memman_init_run (kernel_start kernel_end : Z) (memory_map : list memory_region) (m0 : gmap Z Z)
    (pm : phys) (cr3 low : Z) (n : nat) (Hm0 : map_wf m0) (Hmap : Forall region_wf memory_map) :
  let man := (memman_init_frames kernel_start kernel_end memory_map m0).1 in
  let max := (analyze_memory_map memory_map).2 / MEM_BLOCK_SIZE in
  let blocks := blocks_used_by_kernel kernel_start kernel_end max in
  blocks < 0x3FFFE -> blocks + 0x200 <= max <= 2 ^ 40 ->
  3 * blocks + 70 + Z.of_nat n <= mem_free_block_count man -> clean_start pm cr3 low man ->
  exists w s', memman_init kernel_start kernel_end memory_map m0 pm cr3 = Some ((0xC0000 + blocks) * 4096, s') /\
    vm_cr3 s' = w /\ used man w = false /\ isolated s' w /\
    _kernel_next_block (vm_man s') = 0xC0000 + blocks + 1 /\ enough n (vm_man s') /\
    forall va, ordinary va -> translate (vm_phys s') w va = init_translation blocks va.
Proof.
  intros man max blocks Hsmall Hmax Hfree [Hcr3 Hlow Hst Hlf Hzero].
  destruct (memman_init_frames_run kernel_start kernel_end memory_map m0 Hm0 Hmap (proj1 Hmax)) as (Hok & Emax & Hnext & Hbits).
  fold man in Hok, Emax, Hnext, Hbits. fold max in Emax. rewrite Emax in Hnext, Hbits. fold blocks in Hnext, Hbits.
  assert (0 <= blocks) as Hb0 by apply uint64_bounds.
  assert (forall b, 0 <= b < 256 \/ 0x200 <= b < 0x200 + blocks -> used man b = true) as Hkern.
  { intros b Hb. destruct (used man b) eqn:E; [done |]. destruct (Hbits b) as (? & ? & _); [lia | done | lia]. }
  rewrite uint64_id in Hnext by lia. rewrite mem_free_block_count_spec in Hfree by apply Hok.
  destruct (memman_init_paging_run (Vm pm cr3 man) blocks low n) as (w & s' & E & Ecr3 & Hw & Ht & Hn & Hu & He & Htr);
    cbn [vm_phys vm_cr3 vm_man]; try done.
  - lia.
  - lia.
  - apply Hkern. lia.
  - apply enough_free; [done |]. pose proof (Z.mod_pos_bound (_mem_max_blocks man) 64 ltac:(lia)). lia.
  - exists w, s'. split; [unfold memman_init; fold man; rewrite Emax; exact E |]. split; [done |]. split; [done |]. split; [| done].
    apply (init_isolated s' w blocks); [lia | done | | done]. intros b Hb. apply Hu; [lia |]. by apply Hkern.
Qed.

(** C10: on a sane firmware map, with enough free blocks for the tables, and from tables
    that map the first [low] blocks to themselves, one of them free, [memman_init]
    returns without a page fault, although it stores to the old and to the new top table
    through their physical addresses: the new top table, a block that was free, is in
    [cr3], the tables are a tree in which the kernel's image, video memory and the last
    page below 4 GiB are mapped and nothing else, no two pages share a frame, every frame that is
    mapped is marked used, and the next kernel page is the one behind video memory. *)
Theorem memman_init_spec (kernel_start kernel_end : Z) (memory_map : list memory_region) (m0 : gmap Z Z)
    (pm : phys) (cr3 low : Z) (Hm0 : map_wf m0) (Hmap : Forall region_wf memory_map) :
  let man := (memman_init_frames kernel_start kernel_end memory_map m0).1 in
  let max := (analyze_memory_map memory_map).2 / MEM_BLOCK_SIZE in
  let blocks := blocks_used_by_kernel kernel_start kernel_end max in
  blocks < 0x3FFFE -> blocks + 0x200 <= max <= 2 ^ 40 ->
  3 * blocks + 70 <= mem_free_block_count man -> clean_start pm cr3 low man ->
  exists w s', memman_init kernel_start kernel_end memory_map m0 pm cr3 = Some ((0xC0000 + blocks) * 4096, s') /\
    vm_cr3 s' = w /\ used man w = false /\ isolated s' w /\
    _kernel_next_block (vm_man s') = 0xC0000 + blocks + 1 /\
    forall va, ordinary va -> translate (vm_phys s') w va = init_translation blocks va.
Proof.
  intros man max blocks Hsmall Hmax Hfree Hclean.
  destruct (memman_init_run kernel_start kernel_end memory_map m0 pm cr3 low 0 Hm0 Hmap Hsmall Hmax) as (w & s' & E & Hc & Hw & Hi & Hn & _ & Ht);
    [fold man max blocks; lia | exact Hclean |].
  exists w, s'. split_and!; [exact E | exact Hc | exact Hw | exact Hi | exact Hn | exact Ht].
Qed.

(** * A concrete run *)

(** Tables in blocks 8 to 10 that map the first four megabytes to themselves. *)
Definition demo_start : phys :=
  <[(8, 0) := 0x9003]> (<[(9, 0) := 0xA003]> (<[(10, 0) := 0x83]> {[(10, 1) := 0x200083]})).

Lemma demo_start_identity va : 0 <= va < 0x400 * 4096 -> translate demo_start 8 va = Some (va / 4096, va mod 4096).
Proof.
  intros Hva. rewrite <- a_offset_mod, <- a_frame_div by lia.
  pose proof (a_frame_indices va) as Hp. rewrite a_frame_div in Hp |- * by lia.
  destruct (a_indices va) as (H4 & H3 & H2 & H1). unfold index in H4, H3, H2, H1.
  assert (0 <= va / 4096 < 0x400) by div_lia.
  assert (a_pml4 va = 0 /\ a_pdp va = 0) as [E4 E3] by lia. rewrite E4, E3 in Hp.
  unfold translate. rewrite E4, E3. rewrite (present_entry _ _ _ 0x9003) by done.
  rewrite bind_Some_eq. change (0x9003 / 4096 mod 2 ^ 40) with 9. rewrite (present_entry _ _ _ 0xA003) by done.
  rewrite bind_Some_eq. change (0xA003 / 4096 mod 2 ^ 40) with 10. cbv zeta.
  rewrite (large_page demo_start 10 va (a_pd va)); [do 2 f_equal; lia | | lia].
  assert (a_pd va = 0 \/ a_pd va = 1) as [-> | ->] by lia; reflexivity.
Qed.

(** The blocks of the tables and those of an entry that is not zero are used. *)
Lemma demo_start_clean man :
  map_Forall (fun (k : Z * Z) _ => used man (fst k) = true) demo_start -> used man 256 = false ->
  clean_start demo_start 8 0x400 man.
Proof.
  intros Hall Hfree. split; [lia | lia | split; [apply demo_start_identity | done] | by exists 256 |].
  intros f i _ Hf. unfold ent. destruct (demo_start !! (f, i)) as [e|] eqn:E; [| done].
  specialize (Hall _ _ E). simpl in Hall. congruence.
Qed.

(** Eight megabytes and a kernel of seventeen pages. *)
Lemma memman_init_spec_witness :
  let man := (memman_init_frames 0xc0000000 0xc0010000 demo_map ∅).1 in
  let blocks := blocks_used_by_kernel 0xc0000000 0xc0010000 ((analyze_memory_map demo_map).2 / MEM_BLOCK_SIZE) in
  exists w s', memman_init 0xc0000000 0xc0010000 demo_map ∅ demo_start 8 = Some ((0xC0000 + blocks) * 4096, s') /\
    vm_cr3 s' = w /\ used man w = false /\ isolated s' w /\
    _kernel_next_block (vm_man s') = 0xC0000 + blocks + 1 /\
    forall va, ordinary va -> translate (vm_phys s') w va = init_translation blocks va.
Proof.
  apply (memman_init_spec 0xc0000000 0xc0010000 demo_map ∅ demo_start 8 0x400).
  - intros i. done.
  - repeat (constructor; [unfold region_wf; simpl; lia |]). constructor.
  - vm_compute. reflexivity.
  - split; vm_compute; discriminate.
  - vm_compute. discriminate.
  - apply demo_start_clean; [apply (bool_decide_unpack _) |]; vm_compute; [exact I | reflexivity].
Defined.

(** Without the identity mapping the first store faults. *)
Lemma memman_init_unmapped : memman_init 0xc0000000 0xc0010000 demo_map ∅ ∅ 8 = None.
Proof. vm_compute. reflexivity. Qed.
