(* ===== verification/Boot.v ===== *)
(** The kernel's memory from the boot on: [memman_init] (kernel/memman.c), then
    [kheap_init] (kernel/kheap.c) on the pages that [alloc_kernel_page] maps, as
    [kernel_entry] (kernel/main.c) calls them. *)

From S2P Require Import Prelude Words Console Memory Allocator FrameMap FrameAlloc Paging PageTree Isolation PagingInit KHeap HeapInv HeapRuns HeapTrace.
#[local] Open Scope Z_scope.

(** [memman_init], then [kheap_init]; [m] is what the kernel reads at its addresses. *)
Definition boot_memory (kernel_start kernel_end : Z) (memory_map : list memory_region) (m0 : gmap Z Z)
    (pm : phys) (cr3 lt_addr : Z) (m : mem) : option (hstate vm) :=
  '(_, v) ← memman_init kernel_start kernel_end memory_map m0 pm cr3;
  kheap_init lt_addr (HState m v 0 []).

(** * The first heap on the kernel's pages *)

Lemma kheap_init_run (lt_addr : Z) (m : mem) (v : vm) (w : Z) :
  let start := _kernel_next_block (vm_man v) * 4096 in
  isolated v w -> vm_cr3 v = w -> 0 < start -> start + 0x9000 < 2 ^ 32 -> enough 128 (vm_man v) ->
  ftr_magic m (start + 0x9000 - 16) <> HEAP_MAGIC ->
  exists s, kheap_init lt_addr (HState m v 0 []) = Some s /\ kheap s = start /\
    isolated (hs_pages s) w /\ vm_cr3 (hs_pages s) = w /\
    heap_view start (start + 0x9000) (start + 0x20000) (hs_mem s) ∅ /\
    (forall a, start <= a < start + 0x20000 -> exists F, translate (vm_phys (hs_pages s)) w a = Some (F, a mod 4096)) /\
    (forall a, ordinary a -> ~ (start <= a < start + 0x20000) ->
      translate (vm_phys (hs_pages s)) w a = translate (vm_phys v) w a).
Proof.
  intros start Hiso Hcr3 Hpos Hlow Hen Hguard.
  assert (start mod 4096 = 0) as Hal by (unfold start; div_lia).
  destruct (alloc_kernel_page_run v w 32 (is_tree _ _ Hiso)) as (v1 & v2 & Fs & E & Hlen & M & ->);
    [lia | unfold start in *; lia | unfold start in *; lia | exact Hen |]. fold start in E, M.
  set (v2 := set_man _ v1) in *. pose proof (mapped_isolated v v1 w start Fs Hiso ltac:(lia) Hal M) as Hiso1.
  assert (isolated v2 w) as Hiso2 by (by apply isolated_next).
  destruct (create_heap_run lt_addr start (start + 0x20000) 0xd0000000 (HState m v2 0 []))
    as (s & Ec & Ep & Hi); [done | done | done | lia | exact Hguard |].
  assert (kheap_init lt_addr (HState m v 0 []) =
    Some (print true "[KHEAP] kernel heap initialized."%string (HState (hs_mem s) (hs_pages s) start (hs_out s)))) as Ek.
  { unfold kheap_init. change (_ <? HEAP_MIN_SIZE) with false. cbn [hs_pages].
    change (KHEAP_INITIAL_SIZE / HEAP_BLOCK_SIZE) with 32. cbv iota.
    change (alloc_kernel_page 32 v) with (vm_alloc_kernel_page 32 v). rewrite E, bind_Some_eq.
    unfold KHEAP_INITIAL_SIZE. rewrite uint64_id by lia.
    change (set_pages v2 (HState m v 0 [])) with (HState m v2 0 []). by rewrite Ec, bind_Some_eq. }
  eexists. split; [exact Ek |]. rewrite print_mem, print_pages. cbn [hs_pages hs_mem]. rewrite Ep. cbn [hs_pages].
  split; [done |]. split; [exact Hiso2 |]. split; [exact (eq_trans (md_cr3 _ _ _ _ _ M) Hcr3) |].
  assert (Z.of_nat (length Fs) * 4096 = 0x20000) as Hsize by (rewrite Hlen; done).
  split; [| split].
  - eexists. split; [exact Hi |]. intros p bs. rewrite lookup_empty. split; [done |].
    by intros (b & ->%list_elem_of_singleton & Hf & _).
  - intros a Ha. change (vm_phys v2) with (vm_phys v1). set (i := Z.to_nat ((a - start) / 4096)).
    assert (Z.of_nat i = (a - start) / 4096) as Hi' by (unfold i; div_lia).
    destruct (lookup_lt_is_Some_2 Fs i) as [F HF]; [div_lia |]. exists F.
    rewrite <- (md_here _ _ _ _ _ M i F (a mod 4096) HF) by (apply Z.mod_pos_bound; lia). f_equal. rewrite Hi'. div_lia.
  - intros a Ha Hout. change (vm_phys v2) with (vm_phys v1). apply (md_elsewhere _ _ _ _ _ M); [exact Ha | lia].
Qed.

(** C8: on a sane firmware map with enough free blocks, and from tables that map the first
    [low] blocks to themselves, one of them free, [memman_init] and [kheap_init] run to
    their end: the heap lies behind video memory, empty and well-formed, so that the traces
    of HeapTrace.v start from it; every address of the heap has a page; the image, video memory and
    the last page below 4 GiB are mapped as before and nothing else is; no two pages
    share a frame, and every frame in use is marked. *)
Theorem boot_memory_spec (kernel_start kernel_end : Z) (memory_map : list memory_region) (m0 : gmap Z Z)
    (pm : phys) (cr3 low lt_addr : Z) (m : mem) (Hm0 : map_wf m0) (Hmap : Forall region_wf memory_map) :
  let man := (memman_init_frames kernel_start kernel_end memory_map m0).1 in
  let max := (analyze_memory_map memory_map).2 / MEM_BLOCK_SIZE in
  let blocks := blocks_used_by_kernel kernel_start kernel_end max in
  let start := (0xC0000 + blocks + 1) * 4096 in
  blocks < 0x3FFD0 -> blocks + 0x200 <= max <= 2 ^ 40 ->
  3 * blocks + 198 <= mem_free_block_count man -> clean_start pm cr3 low man ->
  ftr_magic m (start + 0x9000 - 16) <> HEAP_MAGIC ->
  exists w s, boot_memory kernel_start kernel_end memory_map m0 pm cr3 lt_addr m = Some s /\
    kheap s = start /\ vm_cr3 (hs_pages s) = w /\ isolated (hs_pages s) w /\
    heap_view start (start + 0x9000) (start + 0x20000) (hs_mem s) ∅ /\
    (forall a, start <= a < start + 0x20000 -> exists F, translate (vm_phys (hs_pages s)) w a = Some (F, a mod 4096)) /\
    (forall a, ordinary a -> ~ (start <= a < start + 0x20000) ->
      translate (vm_phys (hs_pages s)) w a = init_translation blocks a).
Proof.
  intros man max blocks start Hsmall Hmax Hfree Hclean Hguard.
  destruct (memman_init_run kernel_start kernel_end memory_map m0 pm cr3 low 128 Hm0 Hmap) as (w & v & E & Hc & _ & Hiso & Hn & Hen & Ht);
    fold man max blocks; [lia | exact Hmax | lia | exact Hclean |].
  fold max blocks in E, Hn, Ht. assert (0 <= blocks) as Hb0 by apply uint64_bounds.
  assert (_kernel_next_block (vm_man v) * 4096 = start) as Es by (rewrite Hn; done).
  destruct (kheap_init_run lt_addr m v w Hiso Hc) as (s & Ek & Hk & Hiso' & Hc' & Hview & Hhere & Helse);
    rewrite ?Es; [unfold start; lia | unfold start; lia | exact Hen | exact Hguard |]. rewrite Es in Hk, Hview, Hhere, Helse.
  exists w, s. split; [unfold boot_memory; rewrite E, bind_Some_eq; exact Ek |].
  split_and!; [exact Hk | exact Hc' | exact Hiso' | exact Hview | exact Hhere |].
  intros a Ha Hout. rewrite Helse by done. by apply Ht.
Qed.

(** The machine of PagingInit.v. *)
Lemma boot_memory_spec_witness :
  let start := (0xC0000 + blocks_used_by_kernel 0xc0000000 0xc0010000 ((analyze_memory_map demo_map).2 / MEM_BLOCK_SIZE) + 1) * 4096 in
  exists w s, boot_memory 0xc0000000 0xc0010000 demo_map ∅ demo_start 8 7 ∅ = Some s /\ kheap s = start /\ isolated (hs_pages s) w.
Proof.
  destruct (boot_memory_spec 0xc0000000 0xc0010000 demo_map ∅ demo_start 8 0x400 7 ∅) as (w & s & E & Hk & _ & Hi & _).
  - intros i. done.
  - repeat (constructor; [unfold region_wf; simpl; lia |]). constructor.
  - vm_compute. reflexivity.
  - split; vm_compute; discriminate.
  - vm_compute. discriminate.
  - apply demo_start_clean; [apply (bool_decide_unpack _) |]; vm_compute; [exact I | reflexivity].
  - vm_compute. discriminate.
  - exists w, s. split; [exact E |]. split; [exact Hk | exact Hi].
Defined.
