(* ===== verification/UserSpace.v ===== *)
(** Giving back the pages of a program: [clean_user_space] (kernel/memman.c) on the
    tables of PageTree.v, and what stays behind in the frames it frees. *)

From S2P Require Import Prelude Words FrameMap FrameAlloc Paging PageTree.
#[local] Open Scope Z_scope.

(** * Tables that are read but not changed *)

Section unchanged.
Context (s : vm) (w : Z) (Hs : tree_ok s w).
#[local] Abbreviation pm := (vm_phys s).

(** [pm'] has the tables of [pm]; only entries of the last level may differ. *)
Definition same_tables (pm' : phys) : Prop :=
  (forall p f i, upath p -> (length p <= 2)%nat -> descend pm w p = Some f -> ent pm' f i = ent pm f i) /\
  ent pm' (vm_cr3 s) 511 = ent pm (vm_cr3 s) 511.

Lemma same_tables_descend pm' q : same_tables pm' -> upath q -> descend pm' w q = descend pm w q.
Proof.
  intros [Hsame _]. induction q as [|j q IH] using rev_ind; intros Hq; [done |].
  pose proof (upath_prefix _ _ Hq) as Hq'. rewrite !descend_snoc, IH by done.
  destruct (descend pm w q) as [g|] eqn:Eg; simpl; [| done]. apply next_table_ext.
  apply (Hsame q); [done | | done]. apply up_length in Hq. rewrite length_app in Hq. simpl in Hq. lia.
Qed.

Lemma same_tables_window pm' p i f :
  same_tables pm' -> slot p i -> descend pm w p = Some f ->
  translate pm' (vm_cr3 s) (window_addr p i) = Some (f, 8 * i).
Proof.
  intros Hsame Hsl Hf. pose proof (sl_path _ _ Hsl) as Hp. pose proof Hsame as [He Hc].
  assert (upath []) as Hnil by (split; [simpl; lia | constructor | done]).
  assert (ent pm' w 511 = ent pm w 511) as Ew by (apply (He []); [done | simpl; lia | done]).
  apply (window_walk _ _ w).
  - rewrite <- (to_window _ _ Hs). by apply next_table_ext.
  - rewrite <- (to_self _ _ Hs). by apply next_table_ext.
  - rewrite Ew. apply Hs.
  - intros q j g Eq Hq Hg. assert (upath (q ++ [j])) as Hqj.
    { apply (upath_prefix _ (drop (S (length q)) p)). rewrite <- app_assoc. by rewrite <- Eq. }
    pose proof (upath_prefix _ _ Hqj) as Huq. rewrite same_tables_descend in Hg by done.
    rewrite (He q) by (done || lia). apply (to_small _ _ Hs q); [done | lia | apply (upath_snoc _ _ Hqj) | done].
  - done.
  - apply Hsl.
  - by rewrite same_tables_descend.
Qed.

(** The translation is that of [pm] where the last entry is. *)
Lemma same_tables_translate pm' va :
  same_tables pm' -> a_pml4 va <> 511 ->
  translate pm' w va =
    (pt ← descend pm w [a_pml4 va; a_pdp va; a_pd va]; f ← next_table pm' pt (a_pt va); Some (f, a_offset va)).
Proof.
  intros Hsame Hva. pose proof (upath_of va Hva) as Hu. rewrite translate_descend.
  - by rewrite same_tables_descend.
  - intros pd Hpd. assert (upath [a_pml4 va; a_pdp va]) as Hu2 by (by apply (upath_prefix _ [a_pd va])).
    rewrite same_tables_descend in Hpd by done. rewrite (proj1 Hsame [a_pml4 va; a_pdp va]) by (done || (simpl; lia)).
    destruct (a_indices va) as (_ & _ & ? & _). apply (to_small _ _ Hs [a_pml4 va; a_pdp va]); [done | simpl; lia | done | done].
Qed.
End unchanged.

(** * [clean_user_space] *)

Section clean.
Context (s : vm) (w top0 : Z) (Hs : tree_ok s w) (Htop0 : next_table (vm_phys s) w 0 = Some top0).
#[local] Abbreviation pm := (vm_phys s).

(** The last table of the directory [i], slot [z], and the frame of its page [y]. *)
Definition user_table (i z : Z) : option Z := descend pm w [0; i; z].
Definition user_page (i z y : Z) : option Z := t ← user_table i z; next_table pm t y.

(** The pages that the test selects. *)
Definition cleanable (i z y : Z) : Prop := 0 <= i < 2 /\ 0 <= z < 511 /\ 0 <= y < 510.

(** The place of a page in the order of the loops. *)
Definition place (i z y : Z) : Z := (i * 512 + z) * 512 + y.

(** Every page to clean has a frame of its own. *)
Record own_frames : Prop := {
  of_used i z y F : cleanable i z y -> user_page i z y = Some F -> used (vm_man s) F = true /\ 0 < F < _mem_max_blocks (vm_man s);
  of_inj i z y i' z' y' F : cleanable i z y -> cleanable i' z' y' ->
    user_page i z y = Some F -> user_page i' z' y' = Some F -> place i z y = place i' z' y'
}.
Context (Hown : own_frames).

(** Entry [j] of the table [f] is that of a page that is cleaned before the place [n]. *)
Definition gone (n f j : Z) : Prop :=
  exists i z, cleanable i z j /\ place i z j < n /\ user_table i z = Some f /\ next_table pm f j <> None.

(** After the places before [n]. *)
Record cleaned (n : Z) (s' : vm) : Prop := {
  cl_cr3 : vm_cr3 s' = vm_cr3 s;
  cl_gone f j : gone n f j -> ent (vm_phys s') f j = 0;
  cl_kept f j : ~ gone n f j -> ent (vm_phys s') f j = ent pm f j;
  cl_frames : frames_ok (vm_man s');
  cl_max : _mem_max_blocks (vm_man s') = _mem_max_blocks (vm_man s);
  cl_used b : 0 <= b -> used (vm_man s') b = true <->
    used (vm_man s) b = true /\ ~ exists i z y, cleanable i z y /\ place i z y < n /\ user_page i z y = Some b
}.

Lemma path_ok i z : 0 <= i < 3 -> 0 <= z < 512 -> upath [0; i; z].
Proof.
  intros Hi Hz. split; [simpl; lia | | by intros ? [= <-]]. unfold index. repeat constructor; lia.
Qed.

(** A table is reached in one way. *)
Lemma user_table_inj i z i' z' t :
  0 <= i < 3 -> 0 <= z < 512 -> 0 <= i' < 3 -> 0 <= z' < 512 ->
  user_table i z = Some t -> user_table i' z' = Some t -> i = i' /\ z = z'.
Proof.
  intros ? ? ? ? H1 H2.
  by assert ([0; i; z] = [0; i'; z']) as [= -> ->] by (apply (to_distinct _ _ Hs _ _ t); auto using path_ok).
Qed.

Lemma gone_table n t i z y :
  0 <= i < 3 -> 0 <= z < 512 -> user_table i z = Some t ->
  gone n t y <-> cleanable i z y /\ place i z y < n /\ next_table pm t y <> None.
Proof.
  intros Hi Hz Ht. split.
  - intros (i' & z' & Hc & Hn & Ht' & Hp). unfold cleanable in *.
    destruct (user_table_inj i z i' z' t) as [<- <-]; [lia.. | done | done | done].
  - intros (Hc & Hn & Hp). by exists i, z.
Qed.

Lemma cleaned_tables n s' : cleaned n s' -> same_tables s w (vm_phys s').
Proof.
  intros Hc. split.
  - intros p f i Hp Hl Hf. apply (cl_kept _ _ Hc). intros (i' & z' & Hcl & _ & Ht & _). unfold cleanable in Hcl.
    assert (p = [0; i'; z']) as -> by (apply (to_distinct _ _ Hs _ _ f); [done | apply path_ok; lia | done | done]).
    simpl in Hl. lia.
  - apply (cl_kept _ _ Hc). intros (i' & z' & Hcl & _). unfold cleanable in Hcl. lia.
Qed.

Lemma cleaned_refl : cleaned 0 s.
Proof.
  split; try done.
  - intros f j (i & z & Hc & Hn & _). unfold cleanable, place in *. lia.
  - apply Hs.
  - intros b Hb. split; [| by intros []]. intros Hu. split; [done |]. intros (i & z & y & Hc & Hn & _).
    unfold cleanable, place in *. lia.
Qed.

(** Places without a page to clean are passed over. *)
Lemma cleaned_skip n n' s' :
  n <= n' -> (forall i z y, cleanable i z y -> n <= place i z y < n' -> user_page i z y = None) ->
  cleaned n s' -> cleaned n' s'.
Proof.
  intros Hle Hnone Hc.
  assert (forall i z y F, cleanable i z y -> place i z y < n' -> user_page i z y = Some F -> place i z y < n) as Hlt.
  { intros i z y F Hcl Hn Hp. destruct (decide (place i z y < n)); [done |].
    by rewrite (Hnone i z y Hcl ltac:(lia)) in Hp. }
  assert (forall f j, gone n' f j <-> gone n f j) as Hg.
  { intros f j. split; intros (i & z & Hcl & Hn & Ht & Hp); exists i, z; (split_and!; [done | | done | done]); [| lia].
    destruct (next_table pm f j) as [F|] eqn:EF; [| done]. apply (Hlt i z j F); [done | done |].
    unfold user_page. by rewrite Ht. }
  destruct Hc as [C1 C2 C3 C4 C5 C6]. split; try done.
  - intros f j Hgn. by apply C2, Hg.
  - intros f j Hgn. apply C3. by rewrite <- Hg.
  - intros b Hb. rewrite C6 by done. split; intros [Hu Hne]; (split; [done |]); intros (i & z & y & Hcl & Hn & Hp); apply Hne;
      exists i, z, y; (split_and!; [done | | done]); [by apply (Hlt i z y b) | lia].
Qed.

(** Reading and writing an entry through the window. *)
Lemma vread_entry n s' p i f :
  cleaned n s' -> slot p i -> descend pm w p = Some f -> vread (window_addr p i) s' = Some (ent (vm_phys s') f i).
Proof.
  intros Hc Hsl Hf. unfold vread. rewrite (cl_cr3 _ _ Hc).
  rewrite (same_tables_window s w Hs _ p i f (cleaned_tables n s' Hc) Hsl Hf). simpl. by rewrite offset_index.
Qed.

Lemma page_slot i z y : 0 <= i < 3 -> 0 <= z < 512 -> 0 <= y < 512 -> slot [0; i; z] y.
Proof. intros. split; [by apply path_ok | done | done]. Qed.

Lemma place_inj i z y i' z' y' :
  0 <= z < 512 -> 0 <= y < 512 -> 0 <= z' < 512 -> 0 <= y' < 512 ->
  place i z y = place i' z' y' -> i = i' /\ z = z' /\ y = y'.
Proof. unfold place. lia. Qed.

(** A page that is cleaned. *)
Lemma clean_page_hit i z y t F s' :
  cleaned (place i z y) s' -> cleanable i z y -> user_table i z = Some t -> next_table pm t y = Some F ->
  cleaned (place i z y + 1) (Vm (<[(t, y) := 0]> (vm_phys s')) (vm_cr3 s') (mem_free_block (F * 0x1000)%word (vm_man s'))).
Proof.
  intros Hc Hcl Ht HF. pose proof Hc as [C1 C2 C3 [Cok Cz] C5 C6].
  assert (user_page i z y = Some F) as Hpage by (unfold user_page; by rewrite Ht).
  destruct (of_used Hown i z y F Hcl Hpage) as [Hu HFb].
  assert (0 <= i < 3 /\ 0 <= z < 512 /\ 0 <= y < 512) as (Hi & Hz & Hy) by (unfold cleanable in Hcl; lia).
  assert (used (vm_man s') F = true) as Hu'.
  { apply C6; [lia |]. split; [done |]. intros (i' & z' & y' & Hcl' & Hn & Hp).
    pose proof (of_inj Hown _ _ _ _ _ _ _ Hcl Hcl' Hpage Hp). lia. }
  assert (forall f j, gone (place i z y + 1) f j <-> gone (place i z y) f j \/ f = t /\ j = y) as Hgone.
  { intros f j. split.
    - intros (i' & z' & Hcl' & Hn & Ht' & Hp). destruct (decide (place i' z' j = place i z y)) as [E|Hne].
      + right. unfold cleanable in Hcl'. apply place_inj in E as (-> & -> & ->); [| lia..]. split; congruence.
      + left. exists i', z'. split_and!; [done | lia | done | done].
    - intros [(i' & z' & Hcl' & Hn & Ht' & Hp) | [-> ->]].
      + exists i', z'. split_and!; [done | lia | done | done].
      + exists i, z. split_and!; [done | lia | done | by rewrite HF]. }
  assert ((F * 0x1000)%word = F * MEM_BLOCK_SIZE) as Ha by (apply (block_address (vm_man s')); [done | lia]).
  assert (F * MEM_BLOCK_SIZE / MEM_BLOCK_SIZE = F) as Hd by (by apply Z.div_mul).
  assert (forall b, 0 <= b -> used (mem_free_block (F * 0x1000)%word (vm_man s')) b = (negb (b =? F) && used (vm_man s') b)%bool) as Hbits.
  { intros b Hb. unfold mem_free_block. rewrite Ha, Hd. apply bit_used_unset; [apply Cok | lia | lia]. }
  split; cbn [vm_phys vm_cr3 vm_man].
  - done.
  - intros f j [Hg | [-> ->]]%Hgone; [| by rewrite ent_insert_eq].
    rewrite ent_insert. case_decide; [done |]. by apply C2.
  - intros f j Hg. rewrite ent_insert_ne; [apply C3; intros ?; apply Hg, Hgone; by left |].
    destruct (decide (t = f)) as [->|]; [right | by left]. intros ->. apply Hg, Hgone. by right.
  - split; [unfold mem_free_block; rewrite Ha, Hd; apply acct_ok_unset; [done | lia | done] |].
    rewrite Hbits, Cz by lia. destruct (Z.eqb_spec 0 F); [lia | done].
  - done.
  - intros b Hb. rewrite Hbits by done. destruct (Z.eqb_spec b F) as [->|Hne]; simpl.
    + split; [done |]. intros [_ Hno]. exfalso. apply Hno. exists i, z, y. split_and!; [done | lia | done].
    + rewrite C6 by done. split; intros [Hub Hno]; (split; [done |]); intros (i' & z' & y' & Hcl' & Hn & Hp); apply Hno;
        exists i', z', y'; (split_and!; [done | | done]); [| lia].
      destruct (decide (place i' z' y' = place i z y)) as [E|]; [| lia]. exfalso. apply Hne.
      unfold cleanable in Hcl'. apply place_inj in E as (-> & -> & ->); [| lia..]. congruence.
Qed.

Lemma clean_page_run i z y t s' :
  cleaned (place i z y) s' -> 0 <= i < 3 -> 0 <= z < 512 -> 0 <= y < 512 -> user_table i z = Some t ->
  exists s'', clean_page i z y s' = Some s'' /\ cleaned (place i z y + 1) s''.
Proof.
  intros Hc Hi Hz Hy Ht. unfold clean_page.
  change (get_page_entry 0 i z y) with (window_addr [0; i; z] y).
  rewrite (vread_entry _ s' [0; i; z] y t Hc (page_slot i z y Hi Hz Hy) Ht). cbn [mbind option_bind].
  rewrite (cl_kept _ _ Hc) by (rewrite (gone_table _ t i z y Hi Hz Ht); lia).
  destruct (_ && _)%bool eqn:Et.
  - apply andb_prop in Et as [[[Ep Hy510]%andb_prop Hz511]%andb_prop Hi2].
    apply Z.ltb_lt in Hy510. apply negb_true_iff, Z.eqb_neq in Hz511. apply negb_true_iff, Z.eqb_neq in Hi2.
    assert (cleanable i z y) as Hcl by (unfold cleanable; lia).
    set (e := ent pm t y) in *. assert (next_table pm t y = Some (e_frame e)) as HF
      by (unfold next_table, e_present; fold e; by rewrite Ep).
    eexists. split; [| by apply (clean_page_hit i z y t (e_frame e) s' Hc Hcl Ht HF)].
    unfold vwrite, set_man. cbn [vm_phys vm_cr3]. rewrite (cl_cr3 _ _ Hc).
    rewrite (same_tables_window s w Hs _ [0; i; z] y t (cleaned_tables _ s' Hc) (page_slot i z y Hi Hz Hy) Ht).
    cbn [mbind option_bind]. rewrite offset_index. reflexivity.
  - eexists. split; [reflexivity |]. apply (cleaned_skip (place i z y)); [lia | | done].
    intros i' z' y' Hcl Hn. assert (place i' z' y' = place i z y) as E by lia. unfold cleanable in Hcl.
    apply place_inj in E as (-> & -> & ->); [| lia..]. unfold user_page. rewrite Ht. simpl. unfold next_table, e_present.
    destruct (bf_get 0 1 (ent pm t y) =? 1); [| done]. exfalso. revert Et.
    rewrite (proj2 (Z.ltb_lt y 510)), (proj2 (Z.eqb_neq z 511)), (proj2 (Z.eqb_neq i 2)) by lia. done.
Qed.

(** The three loops. *)
Lemma clean_table_run i z s' :
  cleaned (place i z 0) s' -> 0 <= i < 3 -> 0 <= z < 512 -> (exists d, descend pm w [0; i] = Some d) ->
  exists s'', clean_table i z s' = Some s'' /\ cleaned (place i (z + 1) 0) s''.
Proof.
  intros Hc Hi Hz [d Hd]. unfold clean_table. change (get_pd_entry 0 i z) with (window_addr [0; i] z).
  assert (upath [0; i]) as Hp by (by apply (upath_prefix [0; i] [z]), path_ok).
  rewrite (vread_entry _ s' [0; i] z d Hc) by (done || (by split)). cbn [mbind option_bind].
  rewrite (proj1 (cleaned_tables _ s' Hc) [0; i] d z Hp ltac:(simpl; lia) Hd).
  assert (user_table i z = next_table pm d z) as Ht.
  { unfold user_table. change [0; i; z] with ([0; i] ++ [z]). by rewrite descend_snoc, Hd. }
  unfold next_table, e_present in Ht. destruct (bf_get 0 1 (ent pm d z) =? 1).
  - replace (place i (z + 1) 0) with (place i z 0 + 512) by (unfold place; lia).
    apply (for_range_ind (fun y os => exists s'', os = Some s'' /\ cleaned (place i z 0 + y) s'')).
    + lia.
    + exists s'. by rewrite Z.add_0_r.
    + intros y os Hy (s'' & -> & Hc''). cbn [mbind option_bind].
      replace (place i z 0 + y) with (place i z y) in Hc'' by (unfold place; lia).
      destruct (clean_page_run i z y _ s'' Hc'' Hi Hz Hy Ht) as (s3 & E & Hc3). exists s3. split; [done |].
      by replace (place i z 0 + (y + 1)) with (place i z y + 1) by (unfold place; lia).
  - eexists. split; [reflexivity |]. apply (cleaned_skip (place i z 0)); [unfold place; lia | | done].
    intros i' z' y' Hcl Hn. unfold cleanable, place in *. assert (i' = i /\ z' = z) as [-> ->] by lia.
    unfold user_page. by rewrite Ht.
Qed.

Lemma clean_directory_run i s' :
  cleaned (place i 0 0) s' -> 0 <= i < 3 ->
  exists s'', clean_directory i s' = Some s'' /\ cleaned (place (i + 1) 0 0) s''.
Proof.
  intros Hc Hi. unfold clean_directory. change (get_pdp_entry 0 i) with (window_addr [0] i).
  assert (upath [0; i]) as Hp2 by (by apply (upath_prefix [0; i] [0]), path_ok).
  assert (upath [0]) as Hp by (by apply (upath_prefix [0] [i])).
  assert (descend pm w [0] = Some top0) as Hd by (simpl; by rewrite Htop0).
  rewrite (vread_entry _ s' [0] i top0 Hc) by (done || (split; [done | unfold index; lia | done])). cbn [mbind option_bind].
  rewrite (proj1 (cleaned_tables _ s' Hc) [0] top0 i Hp ltac:(simpl; lia) Hd).
  assert (descend pm w [0; i] = next_table pm top0 i) as Ht.
  { change [0; i] with ([0] ++ [i]). by rewrite descend_snoc, Hd. }
  destruct (bf_get 0 1 (ent pm top0 i) =? 1) eqn:Ep.
  - replace (place (i + 1) 0 0) with (place i 512 0) by (unfold place; lia).
    apply (for_range_ind (fun z os => exists s'', os = Some s'' /\ cleaned (place i z 0) s'')).
    + lia.
    + by exists s'.
    + intros z os Hz (s'' & -> & Hc''). cbn [mbind option_bind]. apply (clean_table_run i z s'' Hc'' Hi Hz).
      exists (e_frame (ent pm top0 i)). rewrite Ht. unfold next_table, e_present. by rewrite Ep.
  - eexists. split; [reflexivity |]. apply (cleaned_skip (place i 0 0)); [unfold place; lia | | done].
    intros i' z' y' Hcl Hn. unfold cleanable, place in *. assert (i' = i) as -> by lia.
    unfold user_page, user_table. change [0; i; z'] with ([0; i] ++ [z']). rewrite descend_snoc, Ht.
    unfold next_table, e_present. by rewrite Ep.
Qed.

Lemma clean_user_space_run : exists s', clean_user_space s = Some s' /\ cleaned (place 3 0 0) s'.
Proof.
  unfold clean_user_space.
  apply (for_range_ind (fun i os => exists s', os = Some s' /\ cleaned (place i 0 0) s')).
  - lia.
  - exists s. split; [done |]. exact cleaned_refl.
  - intros i os Hi (s' & -> & Hc). cbn [mbind option_bind]. by apply clean_directory_run.
Qed.

End clean.

#[export] Instance cleanable_dec i z y : Decision (cleanable i z y).
Proof. unfold cleanable. apply _. Defined.

(** C19: when every page that [clean_user_space] selects (directories 0 and 1, without
    their last table and without the last two pages of a table) has a frame of its own,
    it ends without a page fault. Exactly the addresses of those pages lose their
    translation, exactly their frames are free afterwards, the accounting of blocks
    holds, and physical memory changes only in their entries: what the program left in
    the frames stays there. *)
Theorem clean_user_space_spec (s : vm) (w top0 : Z)
  (Hs : tree_ok s w) (Htop0 : next_table (vm_phys s) w 0 = Some top0) (Hown : own_frames s w) :
  exists s', clean_user_space s = Some s' /\ vm_cr3 s' = vm_cr3 s /\
    (forall va, a_pml4 va <> 511 ->
      translate (vm_phys s') w va =
        if decide (a_pml4 va = 0 /\ cleanable (a_pdp va) (a_pd va) (a_pt va)) then None else translate (vm_phys s) w va) /\
    frames_ok (vm_man s') /\
    (forall b, 0 <= b -> used (vm_man s') b = true <->
      used (vm_man s) b = true /\ ~ exists i z y, cleanable i z y /\ user_page s w i z y = Some b) /\
    (forall f j, (forall i z, cleanable i z j -> user_table s w i z <> Some f) -> ent (vm_phys s') f j = ent (vm_phys s) f j).
Proof.
  destruct (clean_user_space_run s w top0 Hs Htop0 Hown) as (s' & E & Hc). exists s'.
  assert (forall i z y, cleanable i z y -> place i z y < place 3 0 0) as Hall by (unfold cleanable, place; lia).
  pose proof (cleaned_tables s w Hs _ _ Hc) as Hsame.
  split; [exact E |]. split; [apply Hc |]. split; [| split; [apply Hc | split]].
  - intros va Hva. rewrite (same_tables_translate s w Hs _ va Hsame Hva).
    rewrite (same_tables_translate s w Hs (vm_phys s) va) by done.
    destruct (a_indices va) as (_ & Hi & Hz & _).
    destruct (descend (vm_phys s) w [a_pml4 va; a_pdp va; a_pd va]) as [t|] eqn:Et; cbn [mbind option_bind]; [| by case_decide].
    case_decide as Hcl.
    + destruct Hcl as [E0 Hcl]. rewrite E0 in Et.
      destruct (next_table (vm_phys s) t (a_pt va)) as [F|] eqn:EF.
      * unfold next_table. rewrite (cl_gone _ _ _ _ Hc); [done |]. exists (a_pdp va), (a_pd va).
        split_and!; [done | by apply Hall | done | by rewrite EF].
      * rewrite (next_table_ext (vm_phys s)), EF; [done |]. apply (cl_kept _ _ _ _ Hc).
        intros (i & z & _ & _ & _ & Hp). by apply Hp.
    + rewrite (next_table_ext (vm_phys s)); [done |]. apply (cl_kept _ _ _ _ Hc). intros (i & z & Hcl' & _ & Ht & _).
      apply Hcl. assert (upath [0; i; z]) as Hp by (unfold cleanable in Hcl'; apply path_ok; lia).
      by assert ([0; i; z] = [a_pml4 va; a_pdp va; a_pd va]) as [= <- <- <-] by (by apply (to_distinct _ _ Hs _ _ t); [| apply upath_of | |]).
  - intros b Hb. rewrite (cl_used _ _ _ _ Hc b Hb).
    split; intros [Hu Hno]; (split; [done |]); intros (i & z & y & H1 & H2); apply Hno; exists i, z, y;
      [split_and!; [done | by apply Hall | done] | by destruct H2].
  - intros f j Hno. apply (cl_kept _ _ _ _ Hc). intros (i & z & Hcl & _ & Ht & _). by apply (Hno i z Hcl).
Qed.

(** * What a program leaves behind *)

(** A program has two pages and writes a word to the second; then its space is cleaned
    and a page is mapped elsewhere. *)
Definition left_behind (v : Z) : option vm :=
  '(_, s) ← alloc_page 0x200000 2 demo_vm;
  s ← vwrite 0x201008 v s;
  s ← clean_user_space s;
  '(_, s) ← alloc_page 0x40000000 1 s;
  Some s.

(** The frames of new tables are not cleared. After the run above with the word
    0x87, the next page directory is in the frame that held the word, and the two
    megabytes at 0x40200000, which nobody has mapped, translate to physical memory from
    address 0 on; with the word 0 they do not translate. *)
Theorem stale_directory :
  (s ← left_behind 0; Some (translate (vm_phys s) 1 0x40201234)) = Some None /\
  (s ← left_behind 0x87; Some (translate (vm_phys s) 1 0x40201234)) = Some (Some (1, 0x234)).
Proof. split; vm_compute; reflexivity. Qed.

(** * A concrete run *)

(** The program of the run above, before it is cleaned. *)
Definition demo_user : vm := snd (default (0, demo_vm) (alloc_page 0x200000 2 demo_vm)).

Lemma demo_user_ok : tree_ok demo_user 1.
Proof.
  destruct (map_new_pages_run 2 0 demo_vm 1 0x200000 1 demo_vm_ok) as (s' & Fs & E & _ & M & _);
    [lia | done | lia | by vm_compute |].
  assert (demo_user = s') as ->; [| apply M]. unfold demo_user, alloc_page.
  change (Z.to_nat (if 2 =? 0 then 1 else 2)) with 2%nat. by rewrite E.
Qed.

(** It has one table, and in it two pages. *)
Lemma demo_user_tables :
  forallb (fun n => if user_table demo_user 1 (n / 512) (n mod 512) is Some t
                    then (n =? 1) && (t =? 5) else true) (seqZ 0 1024) = true /\
  forallb (fun y => if next_table (vm_phys demo_user) 5 y is Some F
                    then (y <? 2) && (F =? 2 + 4 * y) else true) (seqZ 0 512) = true.
Proof. split; vm_compute; reflexivity. Qed.

Lemma demo_user_pages i z y F :
  cleanable i z y -> user_page demo_user 1 i z y = Some F -> place i z y = 512 + y /\ 0 <= y < 2 /\ F = 2 + 4 * y.
Proof.
  unfold cleanable. intros Hc Hp. destruct demo_user_tables as [Ht Hy]. rewrite forallb_forall in Ht, Hy.
  specialize (Ht (i * 512 + z) ltac:(apply list_elem_of_In, elem_of_seqZ; lia)).
  rewrite Z.div_add_l, (Z.div_small z), Z.add_0_r, (Z.add_comm (i * 512)), Z.mod_add, Z.mod_small in Ht by lia.
  unfold user_page in Hp. destruct (user_table demo_user 1 i z) as [t|]; [| done]. cbn [mbind option_bind] in Hp.
  apply andb_prop in Ht as [Hn%Z.eqb_eq ->%Z.eqb_eq].
  specialize (Hy y ltac:(apply list_elem_of_In, elem_of_seqZ; lia)). rewrite Hp in Hy.
  apply andb_prop in Hy as [Hy%Z.ltb_lt ->%Z.eqb_eq]. unfold place. lia.
Qed.

Lemma demo_user_frames :
  used (vm_man demo_user) 2 = true /\ used (vm_man demo_user) 6 = true /\ 7 < _mem_max_blocks (vm_man demo_user).
Proof. split_and!; vm_compute; reflexivity. Qed.

Lemma demo_user_own : own_frames demo_user 1.
Proof.
  split.
  - intros i z y F Hc Hp. destruct (demo_user_pages i z y F Hc Hp) as (_ & Hy & ->).
    destruct demo_user_frames as (H2 & H6 & Hmax).
    assert (y = 0 \/ y = 1) as [-> | ->] by lia; (split; [done | lia]).
  - intros i z y i' z' y' F Hc Hc' Hp Hp'. destruct (demo_user_pages i z y F Hc Hp) as (-> & _ & ->).
    destruct (demo_user_pages i' z' y' _ Hc' Hp') as (-> & _ & ?). lia.
Qed.

Lemma clean_user_space_spec_witness :
  translate (vm_phys demo_user) 1 0x201234 = Some (6, 0x234) /\
  exists s', clean_user_space demo_user = Some s' /\ translate (vm_phys s') 1 0x201234 = None /\
    used (vm_man s') 6 = false /\ used (vm_man s') 5 = true.
Proof.
  split; [by vm_compute |].
  destruct (clean_user_space_spec demo_user 1 3 demo_user_ok ltac:(by vm_compute) demo_user_own)
    as (s' & E & _ & Ht & _ & Hu & _). exists s'. split; [exact E |]. split; [| split].
  - rewrite Ht by (by vm_compute). by vm_compute.
  - destruct (used (vm_man s') 6) eqn:E6; [| done]. apply Hu in E6 as [_ Hno]; [| lia]. exfalso. apply Hno.
    exists 0, 1, 1. split; [unfold cleanable; lia | by vm_compute].
  - apply Hu; [lia |]. split; [by vm_compute |]. intros (i & z & y & Hc & Hp).
    destruct (demo_user_pages i z y 5 Hc Hp) as (_ & Hy & ?). lia.
Defined.
