(* ===== verification/Clone.v ===== *)
(** Copying an address space ([clone_pml4t], kernel/memman.c): a new tree of page tables
    with a copy of every page of the program, and the kernel's tables shared. The
    memory of the copy comes from the kernel's heap, page by page. *)

From S2P Require Import Prelude Words FrameMap FrameAlloc Paging PageTree.
#[local] Open Scope Z_scope.

(** * Pages from the heap *)

(** What [k'] and [s'] are after the heap has given the page at [va], in frame [F]. *)
Record page_given {K : Type} (owned handed : K -> Z -> Prop) (k : K) (s : vm) (k' : K) (s' : vm) (va F : Z) : Prop := {
  pg_cr3 : vm_cr3 s' = vm_cr3 s;
  pg_address : 0 <= va /\ va mod 4096 = 0 /\ va + 4096 <= 2 ^ 39;
  pg_maps off : 0 <= off < 4096 -> translate (vm_phys s') (vm_cr3 s) (va + off) = Some (F, off);
  pg_fresh : ~ owned k F;
  pg_handed : handed k' F;
  pg_owned G : owned k G -> owned k' G;
  pg_still G : handed k G -> handed k' G;
  pg_ent G j : owned k G -> ent (vm_phys s') G j = ent (vm_phys s) G j;
  pg_translate va' x : a_pml4 va' <> 511 ->
    translate (vm_phys s) (vm_cr3 s) va' = Some x -> translate (vm_phys s') (vm_cr3 s) va' = Some x
}.

(** The heap as [clone_pml4t] uses it, with the interface of kheap.h. [owned] frames are
    not the heap's to write or to give away; [handed] are those of the pages that it gave
    to this caller. *)
Class PageSource (K : Type) := {
  kmalloc_a : Z -> K -> vm -> option (Z * K * vm);
  ps_ok : K -> vm -> Prop;
  owned : K -> Z -> Prop;
  handed : K -> Z -> Prop;
  pages_left : nat -> K -> vm -> Prop;

  ps_tree k s : ps_ok k s -> tree_ok s (vm_cr3 s);
  handed_frame k s F : ps_ok k s -> handed k F ->
    owned k F /\ 0 <= F /\ used (vm_man s) F = true /\ forall p, upath p -> descend (vm_phys s) (vm_cr3 s) p <> Some F;
  ps_store k s F j v : ps_ok k s -> handed k F -> ps_ok k (upd_phys <[(F, j) := v]> s);
  left_store n k s F j v : handed k F -> pages_left n k s -> pages_left n k (upd_phys <[(F, j) := v]> s);
  kmalloc_a_done n k s : ps_ok k s -> pages_left (S n) k s ->
    exists va F k' s', kmalloc_a MEM_BLOCK_SIZE k s = Some (va, k', s') /\ ps_ok k' s' /\ pages_left n k' s' /\
      page_given owned handed k s k' s' va F
}.

#[global] Hint Mode PageSource ! : typeclass_instances.

(** * Operations *)

Definition mem_copy_block (from to : Z) (s : vm) : option vm :=
  for_range 0 512 (fun i s => s ← s; v ← vread (from + 8 * i) s; vwrite (to + 8 * i) v s) (Some s).

Definition mem_clear_block (address : Z) (s : vm) : option vm :=
  for_range 0 512 (fun i s => s ← s; vwrite (address + 8 * i) 0 s) (Some s).

(** The stores to the bit-fields of the entry at [va], for the table or page at
    [block]. *)
Definition link_table (va block user : Z) (s : vm) : option vm :=
  f ← get_physical_address block s;
  s ← set_frame (f / 0x1000) va s;
  s ← set_present 1 va s;
  s ← set_rw 1 va s;
  set_user user va s.

Definition link_page (va block : Z) (s : vm) : option vm :=
  f ← get_physical_address block s;
  s ← set_frame (f / 0x1000) va s;
  s ← set_user 1 va s;
  s ← set_present 1 va s;
  set_rw 1 va s.

(** [original_page]: the bit-fields of an address. *)
Definition page_address (pdp pd pt : Z) : Z := bf_set 12 9 pt (bf_set 21 9 pd (bf_set 30 9 pdp (bf_set 39 9 0 0))).

Section clone.
Context {K : Type} `{PageSource K}.

Definition clone_page (i z y pt : Z) (st : K * vm) : option (K * vm) :=
  let '(k, s) := st in
  e ← vread (get_page_entry 0 i z y) s;
  if bf_get 0 1 e =? 1 then
    '(new_page, k, s) ← kmalloc_a MEM_BLOCK_SIZE k s;
    s ← mem_copy_block (page_address i z y) new_page s;
    s ← link_page (pt + 8 * y) new_page s;
    Some (k, s)
  else Some (k, s).

Definition clone_table (i z pd : Z) (st : K * vm) : option (K * vm) :=
  let '(k, s) := st in
  e ← vread (get_pd_entry 0 i z) s;
  if bf_get 0 1 e =? 1 then
    '(pt, k, s) ← kmalloc_a MEM_BLOCK_SIZE k s;
    s ← mem_clear_block pt s;
    s ← link_table (pd + 8 * z) pt 1 s;
    for_range 0 512 (fun y st => st ← st; clone_page i z y pt st) (Some (k, s))
  else Some (k, s).

Definition clone_directory (i pdp : Z) (st : K * vm) : option (K * vm) :=
  let '(k, s) := st in
  e ← vread (get_pdp_entry 0 i) s;
  if bf_get 0 1 e =? 1 then
    '(pd, k, s) ← kmalloc_a MEM_BLOCK_SIZE k s;
    s ← mem_clear_block pd s;
    s ← link_table (pdp + 8 * i) pd 1 s;
    for_range 0 512 (fun z st => st ← st; clone_table i z pd st) (Some (k, s))
  else Some (k, s).

Definition clone_pml4t (k : K) (s : vm) : option (Z * K * vm) :=
  '(pml4, k, s) ← kmalloc_a MEM_BLOCK_SIZE k s;
  '(pdp, k, s) ← kmalloc_a MEM_BLOCK_SIZE k s;
  s ← mem_clear_block pml4 s;
  s ← mem_clear_block pdp s;
  s ← link_table (pml4 + 8 * 0) pdp 1 s;
  '(k, s) ← for_range 0 3 (fun i st => st ← st; clone_directory i pdp st) (Some (k, s));
  e ← vread (get_pdp_entry 0 3) s;
  s ← vwrite (pdp + 8 * 3) e s;
  s ← link_table (pml4 + 8 * 511) pml4 0 s;
  f ← get_physical_address pml4 s;
  Some (f, k, s).

End clone.

(** * Stores to data *)

Section data.
Context (s : vm) (w F j v : Z) (Hs : tree_ok s w) (Hw : vm_cr3 s = w).
Context (Hdata : forall p, upath p -> descend (vm_phys s) w p <> Some F).
#[local] Abbreviation pm := (vm_phys s).
#[local] Abbreviation pm' := (<[(F, j) := v]> pm).

Lemma data_not_top : F <> w.
Proof. intros ->. apply (Hdata []); [by split; [simpl; lia | constructor |] | done]. Qed.

Lemma data_descend q : upath q -> descend pm' w q = descend pm w q.
Proof.
  induction q as [|i q IH] using rev_ind; intros Hq; [done |].
  pose proof (upath_prefix _ _ Hq) as Hq'. rewrite !descend_snoc, IH by done.
  destruct (descend pm w q) as [g|] eqn:Eg; simpl; [| done]. apply next_table_ext, ent_insert_ne.
  left. intros ->. by apply (Hdata q).
Qed.

Lemma data_tree : 0 <= F -> used (vm_man s) F = true -> tree_ok (upd_phys <[(F, j) := v]> s) w.
Proof.
  intros HF Hu. pose proof data_not_top as Hne.
  assert (forall i, ent pm' w i = ent pm w i) as Ew by (intros i; apply ent_insert_ne; by left).
  assert (forall q f i, upath q -> descend pm w q = Some f -> ent pm' f i = ent pm f i) as Et.
  { intros q f i Hq Hf. apply ent_insert_ne. left. intros ->. by apply (Hdata q). }
  split; cbn [upd_phys vm_phys vm_cr3 vm_man]; try apply Hs.
  - rewrite Hw, <- (to_self _ _ Hs) at 1. apply next_table_ext, Ew.
  - rewrite <- (to_self _ _ Hs) at 1. apply next_table_ext, Ew.
  - rewrite Ew. apply Hs.
  - intros p Hp. rewrite data_descend by done. by apply (to_top _ _ Hs).
  - intros p q f Hp Hq. rewrite !data_descend by done. by apply (to_distinct _ _ Hs).
  - intros p f i Hp Hl Hi. rewrite data_descend by done. intros Hf. rewrite (Et p) by done. by apply (to_small _ _ Hs p).
  - intros p f Hp. rewrite data_descend by done. by apply (to_used _ _ Hs).
  - intros f i Hf Hfree. rewrite ent_insert_ne; [by apply (to_zero _ _ Hs) |]. left. congruence.
Qed.

Lemma data_translate va :
  0 <= F -> used (vm_man s) F = true -> a_pml4 va <> 511 -> translate pm' w va = translate pm w va.
Proof.
  intros HF Hu Hva. pose proof (upath_of va Hva) as Hp.
  pose proof (translate_tables s w pm' va) as Ht. pose proof (translate_tables s w pm va) as Ht0.
  rewrite Ht, Ht0; [| by rewrite vm_eta | done | by apply data_tree | done].
  rewrite data_descend by done. destruct (descend pm w _) as [t|] eqn:Et; simpl; [| done].
  rewrite (next_table_ext pm); [done |]. apply ent_insert_ne. left. intros ->. by apply (Hdata _ Hp).
Qed.
End data.

(** * Steps of the copy *)

Section steps.
Context {K : Type} `{PageSource K}.

(** From [k], [s] to [k'], [s']: of the owned frames only the entries of [W] change. *)
Record advance (W : Z -> Z -> Prop) (k : K) (s : vm) (k' : K) (s' : vm) : Prop := {
  ad_ok : ps_ok k' s';
  ad_cr3 : vm_cr3 s' = vm_cr3 s;
  ad_owned F : owned k F -> owned k' F;
  ad_handed F : handed k F -> handed k' F;
  ad_ent F j : owned k F -> ~ W F j -> ent (vm_phys s') F j = ent (vm_phys s) F j;
  ad_translate va x : a_pml4 va <> 511 ->
    translate (vm_phys s) (vm_cr3 s) va = Some x -> translate (vm_phys s') (vm_cr3 s) va = Some x
}.

Lemma advance_refl W k s : ps_ok k s -> advance W k s k s.
Proof. by split. Qed.

Lemma advance_trans W k1 s1 k2 s2 k3 s3 : advance W k1 s1 k2 s2 -> advance W k2 s2 k3 s3 -> advance W k1 s1 k3 s3.
Proof.
  intros [O1 C1 W1 H1 E1 T1] [O2 C2 W2 H2 E2 T2]. split; [done | congruence | auto | auto | |].
  - intros F j Ho Hn. rewrite E2, E1 by auto. done.
  - intros va x Hva Ht. rewrite <- C1. apply T2; [done |]. rewrite C1. auto.
Qed.

Lemma advance_mono (W W' : Z -> Z -> Prop) k s k' s' :
  (forall F j, owned k F -> W F j -> W' F j) -> advance W k s k' s' -> advance W' k s k' s'.
Proof. intros HW [O1 C1 W1 H1 E1 T1]. split; try done. intros F j Ho Hn. apply E1; [done |]. auto. Qed.

(** Two runs, where what the second writes may be new. *)
Lemma advance_then (W1 W2 W : Z -> Z -> Prop) k1 s1 k2 s2 k3 s3 :
  advance W1 k1 s1 k2 s2 -> advance W2 k2 s2 k3 s3 ->
  (forall F j, owned k1 F -> W1 F j \/ W2 F j -> W F j) -> advance W k1 s1 k3 s3.
Proof.
  intros Ha1 Ha2 HW. apply (advance_mono (fun F j => W1 F j \/ W2 F j)); [done |].
  eapply advance_trans; (eapply advance_mono; [| eassumption]); intros F j _; tauto.
Qed.

(** [va] is the address of the frame [F] in the current tables. *)
Record page_at (s : vm) (va F : Z) : Prop := {
  pa_address : 0 <= va /\ va mod 4096 = 0 /\ va + 4096 <= 2 ^ 39;
  pa_maps off : 0 <= off < 4096 -> translate (vm_phys s) (vm_cr3 s) (va + off) = Some (F, off)
}.

Lemma page_low s va F off : page_at s va F -> 0 <= off < 4096 -> a_pml4 (va + off) <> 511.
Proof. intros [(? & ? & ?) _] ?. apply a_pml4_low. lia. Qed.

Lemma page_at_advance W k s k' s' va F : advance W k s k' s' -> page_at s va F -> page_at s' va F.
Proof.
  intros Ha Hp. split; [apply Hp |]. intros off Ho. rewrite (ad_cr3 _ _ _ _ _ Ha).
  apply (ad_translate _ _ _ _ _ Ha); [by eapply page_low | by apply Hp].
Qed.

Lemma page_given_advance W k s k' s' va F :
  ps_ok k' s' -> page_given owned handed k s k' s' va F -> advance W k s k' s' /\ page_at s' va F.
Proof.
  intros Hok Hg. split.
  - split; [done | apply Hg.. | |]; [intros G j HG _; by apply Hg | apply Hg].
  - split; [apply Hg |]. rewrite (pg_cr3 _ _ _ _ _ _ _ _ Hg). apply Hg.
Qed.

Lemma word_offset j : 0 <= j < 512 -> 0 <= 8 * j < 4096 /\ 8 * j / 8 = j.
Proof. intros. split; [lia | apply offset_index]. Qed.

(** Reading and writing a word of a page. *)
Lemma vread_page s va F j : page_at s va F -> 0 <= j < 512 -> vread (va + 8 * j) s = Some (ent (vm_phys s) F j).
Proof.
  intros Hp Hj. destruct (word_offset j Hj) as [Ho Hd]. unfold vread. rewrite (pa_maps _ _ _ Hp) by done. simpl. by rewrite Hd.
Qed.

Lemma vwrite_page n k s va F j v :
  ps_ok k s -> pages_left n k s -> page_at s va F -> handed k F -> 0 <= j < 512 ->
  vwrite (va + 8 * j) v s = Some (upd_phys <[(F, j) := v]> s) /\
  advance (fun G i => G = F /\ i = j) k s k (upd_phys <[(F, j) := v]> s) /\ pages_left n k (upd_phys <[(F, j) := v]> s).
Proof.
  intros Hok Hleft Hp Hh Hj. destruct (word_offset j Hj) as [Ho Hd].
  destruct (handed_frame k s F Hok Hh) as (HoF & HF & Hu & Hdata). split_and!.
  - unfold vwrite. rewrite (pa_maps _ _ _ Hp) by done. simpl. by rewrite Hd.
  - split; [by apply ps_store | done | done | done | |].
    + intros G i _ Hne. cbn [upd_phys vm_phys]. apply ent_insert_ne. destruct (decide (F = G)) as [->|]; [right | by left].
      intros ->. by apply Hne.
    + intros va' x Hva' Ht. cbn [upd_phys vm_phys]. rewrite (data_translate s _ F j v (ps_tree k s Hok) eq_refl Hdata) by done. done.
  - by apply left_store.
Qed.

(** Stores to the bit-fields of one entry. *)
Lemma set_field_page n k s va F j off w v :
  ps_ok k s -> pages_left n k s -> page_at s va F -> handed k F -> 0 <= j < 512 ->
  exists s', set_field off w v (va + 8 * j) s = Some s' /\ ent (vm_phys s') F j = bf_set off w v (ent (vm_phys s) F j) /\
    advance (fun G i => G = F /\ i = j) k s k s' /\ pages_left n k s'.
Proof.
  intros Hok Hleft Hp Hh Hj. unfold set_field. rewrite (vread_page s va F j Hp Hj). cbn [mbind option_bind].
  destruct (vwrite_page n k s va F j (bf_set off w v (ent (vm_phys s) F j)) Hok Hleft Hp Hh Hj) as (E & Ha & Hl).
  eexists. split; [exact E |]. split; [| done]. cbn [upd_phys vm_phys]. apply ent_insert_eq.
Qed.

(** The whole page of zeros. *)
Lemma mem_clear_block_run n k s va F :
  ps_ok k s -> pages_left n k s -> page_at s va F -> handed k F ->
  exists s', mem_clear_block va s = Some s' /\ (forall j, 0 <= j < 512 -> ent (vm_phys s') F j = 0) /\
    advance (fun G _ => G = F) k s k s' /\ pages_left n k s'.
Proof.
  intros Hok Hleft Hp Hh. unfold mem_clear_block.
  enough (exists s', for_range 0 512 (fun i s => s ← s; vwrite (va + 8 * i) 0 s) (Some s) = Some s' /\
    (forall j, 0 <= j < 512 -> ent (vm_phys s') F j = 0) /\ advance (fun G _ => G = F) k s k s' /\ pages_left n k s') by done.
  apply (for_range_ind (fun i os => exists s', os = Some s' /\ (forall j, 0 <= j < i -> ent (vm_phys s') F j = 0) /\
    advance (fun G _ => G = F) k s k s' /\ pages_left n k s')); [lia | |].
  - exists s. split_and!; [done | lia | by apply advance_refl | done].
  - intros i os Hi (s' & -> & Hz & Ha & Hl). cbn [mbind option_bind].
    destruct (vwrite_page n k s' va F i 0 (ad_ok _ _ _ _ _ Ha) Hl (page_at_advance _ _ _ _ _ _ _ Ha Hp) Hh Hi) as (E & Ha' & Hl').
    eexists. split; [exact E |]. split; [| split; [| done]].
    + intros j Hj. cbn [upd_phys vm_phys]. rewrite ent_insert. case_decide as Ej; [done |]. apply Hz.
      assert (j <> i) by congruence. lia.
    + eapply advance_trans; [exact Ha |]. eapply advance_mono; [| exact Ha']. by intros G j' _ [-> _].
Qed.

(** The copy of a page that the caller may not write. *)
Lemma mem_copy_block_run n k s from G va F :
  ps_ok k s -> pages_left n k s -> page_at s va F -> handed k F -> page_at s from G -> owned k G -> G <> F ->
  exists s', mem_copy_block from va s = Some s' /\ (forall j, 0 <= j < 512 -> ent (vm_phys s') F j = ent (vm_phys s) G j) /\
    advance (fun G _ => G = F) k s k s' /\ pages_left n k s'.
Proof.
  intros Hok Hleft Hp Hh Hg HoG Hne. unfold mem_copy_block.
  enough (exists s', for_range 0 512 (fun i s => s ← s; v ← vread (from + 8 * i) s; vwrite (va + 8 * i) v s) (Some s) = Some s' /\
    (forall j, 0 <= j < 512 -> ent (vm_phys s') F j = ent (vm_phys s) G j) /\ advance (fun G _ => G = F) k s k s' /\ pages_left n k s') by done.
  apply (for_range_ind (fun i os => exists s', os = Some s' /\ (forall j, 0 <= j < i -> ent (vm_phys s') F j = ent (vm_phys s) G j) /\
    advance (fun G _ => G = F) k s k s' /\ pages_left n k s')); [lia | |].
  - exists s. split_and!; [done | lia | by apply advance_refl | done].
  - intros i os Hi (s' & -> & Hz & Ha & Hl). cbn [mbind option_bind].
    rewrite (vread_page s' from G i (page_at_advance _ _ _ _ _ _ _ Ha Hg) Hi). cbn [mbind option_bind].
    rewrite (ad_ent _ _ _ _ _ Ha) by done.
    destruct (vwrite_page n k s' va F i (ent (vm_phys s) G i) (ad_ok _ _ _ _ _ Ha) Hl (page_at_advance _ _ _ _ _ _ _ Ha Hp) Hh Hi)
      as (E & Ha' & Hl').
    eexists. split; [exact E |]. split; [| split; [| done]].
    + intros j Hj. cbn [upd_phys vm_phys]. rewrite ent_insert. case_decide as Ej; [by injection Ej as -> |]. apply Hz.
      assert (j <> i) by congruence. lia.
    + eapply advance_trans; [exact Ha |]. eapply advance_mono; [| exact Ha']. by intros G' j' _ [-> _].
Qed.

Lemma physical_address_run (k : K) s va F :
  ps_ok k s -> page_at s va F -> get_physical_address va s = Some (F * 4096) /\ 0 <= F < 2 ^ 40.
Proof.
  intros Hok Hp. pose proof (ps_tree k s Hok) as Hs. pose proof (page_low s va F 0 Hp ltac:(lia)) as Hva.
  pose proof (pa_maps _ _ _ Hp 0 ltac:(lia)) as Ht. rewrite Z.add_0_r in Hva, Ht.
  rewrite (translate_tables s _ (vm_phys s) va) in Ht by (done || by rewrite vm_eta).
  destruct (descend (vm_phys s) (vm_cr3 s) [a_pml4 va; a_pdp va; a_pd va]) as [t|] eqn:Et; [| done]. cbn [mbind option_bind] in Ht.
  destruct (next_table (vm_phys s) t (a_pt va)) as [f|] eqn:Ef; [| done]. cbn [mbind option_bind] in Ht. injection Ht as -> _.
  unfold get_physical_address.
  replace (_current_pt + 8 * a_frame va) with (window_addr [a_pml4 va; a_pdp va; a_pd va] (a_pt va))
    by (cbn [window_addr]; unfold get_page_entry; by rewrite a_frame_indices).
  destruct (a_indices va) as (_ & _ & _ & Hi).
  pose proof (vread_slot s _ Hs _ _ t (fill_slot _ _ _ _ (upath_of va Hva) Hi) Et (vm_man s)) as Hr. rewrite vm_eta in Hr.
  rewrite Hr. cbn [mbind option_bind]. unfold next_table in Ef. destruct (e_present _); [| done]. injection Ef as <-.
  pose proof (bf_get_bounds 12 40 (ent (vm_phys s) t (a_pt va)) ltac:(lia)) as Hb. unfold e_frame. split; [| done].
  change 0x1000 with 4096. by rewrite uint64_id by lia.
Qed.

(** Four stores to the fields of one entry. *)
Lemma set_fields_page n k s va F j fs :
  ps_ok k s -> pages_left n k s -> page_at s va F -> handed k F -> 0 <= j < 512 ->
  exists s', foldl (fun os '(off, w, v) => s ← os; set_field off w v (va + 8 * j) s) (Some s) fs = Some s' /\
    ent (vm_phys s') F j = foldl (fun e '(off, w, v) => bf_set off w v e) (ent (vm_phys s) F j) fs /\
    advance (fun G i => G = F /\ i = j) k s k s' /\ pages_left n k s'.
Proof.
  intros Hok Hleft Hp Hh Hj. revert s Hok Hleft Hp. induction fs as [|[[off w] v] fs IH]; intros s Hok Hleft Hp.
  - exists s. split_and!; [done | done | by apply advance_refl | done].
  - destruct (set_field_page n k s va F j off w v Hok Hleft Hp Hh Hj) as (s1 & E1 & Ee1 & Ha1 & Hl1).
    destruct (IH s1 (ad_ok _ _ _ _ _ Ha1) Hl1 (page_at_advance _ _ _ _ _ _ _ Ha1 Hp)) as (s2 & E2 & Ee2 & Ha2 & Hl2).
    exists s2. cbn [foldl mbind option_bind]. rewrite E1. split; [exact E2 |]. split; [by rewrite Ee2, Ee1 |].
    split; [by eapply advance_trans | done].
Qed.

(** The stores one after the other, as the functions write them. *)
Lemma four_binds {A} (f1 f2 f3 f4 : A -> option A) a :
  (f1 a ≫= fun a => f2 a ≫= fun a => f3 a ≫= f4) = ((((Some a ≫= f1) ≫= f2) ≫= f3) ≫= f4).
Proof. cbn. destruct (f1 a) as [a1|]; cbn; [| done]. destruct (f2 a1) as [a2|]; cbn; [| done]. by destruct (f3 a2). Qed.

Lemma link_fields user f e :
  0 <= f < 2 ^ 40 ->
  let e' := bf_set 1 1 1 (bf_set 0 1 1 (bf_set 2 1 user (bf_set 12 40 f e))) in e_present e' = true /\ e_frame e' = f.
Proof.
  intros Hf. unfold e_present, e_frame. rewrite !(bf_get_set_other 1 1), bf_get_set_same by lia.
  rewrite (bf_get_set_other 0 1), (bf_get_set_other 2 1), bf_get_set_same by lia.
  split; [done | by apply Z.mod_small].
Qed.

Lemma link_table_run n k s va F j block G user :
  ps_ok k s -> pages_left n k s -> page_at s va F -> handed k F -> 0 <= j < 512 -> page_at s block G ->
  exists s', link_table (va + 8 * j) block user s = Some s' /\ next_table (vm_phys s') F j = Some G /\
    e_large (ent (vm_phys s') F j) = e_large (ent (vm_phys s) F j) /\
    advance (fun G i => G = F /\ i = j) k s k s' /\ pages_left n k s'.
Proof.
  intros Hok Hleft Hp Hh Hj Hb. destruct (physical_address_run k s block G Hok Hb) as [Eg HG].
  destruct (set_fields_page n k s va F j [(12, 40, G); (0, 1, 1); (1, 1, 1); (2, 1, user)] Hok Hleft Hp Hh Hj)
    as (s' & E & Ee & Ha & Hl). exists s'. split; [| split; [| split; [| done]]].
  - unfold link_table. rewrite Eg. cbn [mbind option_bind]. change 0x1000 with 4096. rewrite Z.div_mul by lia. rewrite <- E.
    apply four_binds.
  - unfold next_table. rewrite Ee. destruct (entry_for_fields user G (ent (vm_phys s) F j) HG) as (H1 & H2 & _).
    unfold entry_for in H1, H2. cbn [foldl]. by rewrite H1, H2.
  - rewrite Ee. apply (entry_for_fields user G (ent (vm_phys s) F j) HG).
Qed.

Lemma link_page_run n k s va F j block G :
  ps_ok k s -> pages_left n k s -> page_at s va F -> handed k F -> 0 <= j < 512 -> page_at s block G ->
  exists s', link_page (va + 8 * j) block s = Some s' /\ next_table (vm_phys s') F j = Some G /\
    advance (fun G i => G = F /\ i = j) k s k s' /\ pages_left n k s'.
Proof.
  intros Hok Hleft Hp Hh Hj Hb. destruct (physical_address_run k s block G Hok Hb) as [Eg HG].
  destruct (set_fields_page n k s va F j [(12, 40, G); (2, 1, 1); (0, 1, 1); (1, 1, 1)] Hok Hleft Hp Hh Hj)
    as (s' & E & Ee & Ha & Hl). exists s'. split; [| split; [| done]].
  - unfold link_page. rewrite Eg. cbn [mbind option_bind]. change 0x1000 with 4096. rewrite Z.div_mul by lia. rewrite <- E.
    apply four_binds.
  - unfold next_table. rewrite Ee. destruct (link_fields 1 G (ent (vm_phys s) F j) HG) as (H1 & H2).
    cbn [foldl]. by rewrite H1, H2.
Qed.

End steps.
