(* ===== verification/CloneTree.v ===== *)
(** What the copy of an address space holds: the loops of [clone_pml4t] (Clone.v)
    follow the paths of the program's tables, and the invariant [cloning] says which of
    them have their copy so far. *)

From S2P Require Import Prelude Words FrameMap FrameAlloc Paging PageTree Clone.
#[local] Open Scope Z_scope.

(** * Addresses of the program *)

(** A store to a field that is zero. *)
Lemma bf_set_add off w v x :
  0 <= off -> 0 <= w -> 0 <= v < 2 ^ w -> bf_get off w x = 0 -> bf_set off w v x = x + v * 2 ^ off.
Proof.
  intros Ho Hw Hv Hx. rewrite <- Z.shiftl_mul_pow2 by done. rewrite Z.add_nocarry_lor.
  - apply Z.bits_inj'. intros b Hb. rewrite bf_set_testbit, Z.lor_spec, Z.shiftl_spec by done.
    pose proof (bf_get_testbit off w x (b - off)) as Ht. rewrite Hx, Z.bits_0 in Ht.
    destruct (Z.leb_spec off b), (Z.ltb_spec b (off + w)); simpl.
    + rewrite Z.sub_add, (proj2 (Z.ltb_lt _ _)), andb_true_r in Ht by lia. by rewrite <- Ht by lia.
    + rewrite (testbit_above w v) by (done || lia). by rewrite orb_false_r.
    + rewrite (Z.testbit_neg_r v) by lia. by rewrite orb_false_r.
    + rewrite (Z.testbit_neg_r v) by lia. by rewrite orb_false_r.
  - apply Z.bits_inj'. intros b Hb. rewrite Z.land_spec, Z.shiftl_spec, Z.bits_0 by done.
    pose proof (bf_get_testbit off w x (b - off)) as Ht. rewrite Hx, Z.bits_0 in Ht.
    destruct (decide (off <= b < off + w)).
    + rewrite Z.sub_add, (proj2 (Z.ltb_lt _ _)), andb_true_r in Ht by lia. by rewrite <- Ht by lia.
    + destruct (decide (b < off)); [rewrite (Z.testbit_neg_r v) by lia | rewrite (testbit_above w v) by (done || lia)];
        apply andb_false_r.
Qed.

Lemma user_fields i z y off :
  index i -> index z -> index y -> 0 <= off < 4096 ->
  let va := ((i * 512 + z) * 512 + y) * 4096 + off in
  a_pml4 va = 0 /\ a_pdp va = i /\ a_pd va = z /\ a_pt va = y /\ a_offset va = off.
Proof.
  unfold index. intros Hi Hz Hy Ho. cbv zeta. split_and!.
  - apply (bf_get_intro _ _ _ 0 _ (((i * 512 + z) * 512 + y) * 4096 + off)); lia.
  - apply (bf_get_intro _ _ _ 0 _ ((z * 512 + y) * 4096 + off)); lia.
  - apply (bf_get_intro _ _ _ i _ (y * 4096 + off)); lia.
  - apply (bf_get_intro _ _ _ (i * 512 + z) _ off); lia.
  - apply (bf_get_intro _ _ _ ((i * 512 + z) * 512 + y) _ 0); lia.
Qed.

Lemma page_address_run i z y :
  index i -> index z -> index y -> page_address i z y = ((i * 512 + z) * 512 + y) * 4096.
Proof.
  unfold index, page_address. intros Hi Hz Hy.
  rewrite (bf_set_add 39 9 0 0) by (done || lia). rewrite Z.mul_0_l, Z.add_0_r.
  rewrite (bf_set_add 30 9 i 0) by (done || lia).
  rewrite (bf_set_add 21 9 z).
  - rewrite (bf_set_add 12 9 y); [lia.. |].
    apply (bf_get_intro _ _ _ (i * 512 + z) _ 0); lia.
  - lia.
  - lia.
  - lia.
  - apply (bf_get_intro _ _ _ i _ 0); lia.
Qed.

(** * The paths of the program *)

(** The table or page at the end of the path [0; i; z; y], or of a prefix that is not
    empty, for the three directories below 3 GiB. *)
Definition user_path (p : list Z) : Prop :=
  exists r, p = 0 :: r /\ (length r <= 3)%nat /\ Forall index r /\ forall i, r !! 0%nat = Some i -> i < 3.

(** The loops reach the paths in the order of their keys. *)
Definition key (p : list Z) : Z :=
  match p with
  | [_; i] => i * 263169
  | [_; i; z] => i * 263169 + (z + 1) * 513
  | [_; i; z; y] => i * 263169 + (z + 1) * 513 + (y + 1)
  | _ => -1
  end.

Lemma user_path_inv p :
  user_path p ->
  p = [0] \/ (exists i, p = [0; i] /\ 0 <= i < 3) \/ (exists i z, p = [0; i; z] /\ 0 <= i < 3 /\ 0 <= z < 512) \/
  (exists i z y, p = [0; i; z; y] /\ 0 <= i < 3 /\ 0 <= z < 512 /\ 0 <= y < 512).
Proof.
  intros (r & -> & Hl & Hx & Hi). unfold index in Hx.
  destruct r as [|i [|z [|y [|]]]]; simpl in Hl; try lia; repeat apply Forall_cons in Hx as [? Hx];
    try (specialize (Hi i eq_refl)).
  - by left.
  - right; left. exists i. split; [done | lia].
  - right; right; left. exists i, z. split; [done | lia].
  - right; right; right. exists i, z, y. split; [done | lia].
Qed.

Lemma user_path_1 : user_path [0].
Proof. exists []. split_and!; [done | simpl; lia | constructor | done]. Qed.
Lemma user_path_2 i : 0 <= i < 3 -> user_path [0; i].
Proof. intros. exists [i]. unfold index. split_and!; [done | simpl; lia | repeat constructor; lia | intros ? [= <-]; lia]. Qed.
Lemma user_path_3 i z : 0 <= i < 3 -> 0 <= z < 512 -> user_path [0; i; z].
Proof. intros. exists [i; z]. unfold index. split_and!; [done | simpl; lia | repeat constructor; lia | intros ? [= <-]; lia]. Qed.
Lemma user_path_4 i z y : 0 <= i < 3 -> 0 <= z < 512 -> 0 <= y < 512 -> user_path [0; i; z; y].
Proof. intros. exists [i; z; y]. unfold index. split_and!; [done | simpl; lia | repeat constructor; lia | intros ? [= <-]; lia]. Qed.

#[export] Hint Resolve user_path_1 user_path_2 user_path_3 user_path_4 : kernel.

Lemma user_path_upath p : user_path p -> (length p <= 3)%nat -> upath p.
Proof.
  intros (r & -> & Hl & Hx & _) Hlen. split; [done | | by intros i [= <-]].
  constructor; [unfold index; lia | done].
Qed.

Lemma user_path_prefix p i : p <> [] -> user_path (p ++ [i]) -> user_path p.
Proof.
  intros Hp (r & E & Hl & Hx & Hi). destruct p as [|a p]; [done |]. simpl in E. injection E as -> <-.
  rewrite length_app in Hl. simpl in Hl. exists p. split_and!; [done | lia | by apply Forall_app in Hx as [? _] |].
  intros j Hj. apply Hi. by apply lookup_app_l_Some.
Qed.

(** A longer path comes later. *)
Lemma key_snoc p i : user_path (p ++ [i]) -> p <> [] -> key p < key (p ++ [i]).
Proof.
  intros Hu Hp. apply user_path_inv in Hu.
  destruct Hu as [E | [(a & E & Ha) | [(a & b & E & Ha & Hb) | (a & b & c & E & Ha & Hb & Hc)]]].
  - destruct p as [|? [|]]; simplify_eq/=.
  - destruct p as [|? [|? [|]]]; simplify_eq/=. lia.
  - destruct p as [|? [|? [|? [|]]]]; simplify_eq/=. lia.
  - destruct p as [|? [|? [|? [|? [|]]]]]; simplify_eq/=. lia.
Qed.

#[local] Abbreviation card := base.size.

(** * The copy so far *)

Section cloning.
Context {K : Type} `{PageSource K} (k0 : K) (s0 : vm).
#[local] Abbreviation pm0 := (vm_phys s0).
#[local] Abbreviation w := (vm_cr3 s0).
Context (Hok0 : ps_ok k0 s0).

(** The tables and pages of the program are not the heap's to change. *)
Definition user_owned : Prop :=
  owned k0 w /\ forall p F, user_path p -> descend pm0 w p = Some F -> owned k0 F.
Context (Hown : user_owned).

(** What there is to copy. *)
Definition present (p : list Z) : Prop := user_path p /\ is_Some (descend pm0 w p).
Context (X : gset (list Z)) (HX : forall p, p = [] \/ present p -> p ∈ X).

(** [g] gives the frames of the copy by their path: those of the paths before [n]. *)
Record cloning (n : Z) (g : gmap (list Z) Z) (k : K) (s : vm) : Prop := {
  cn_ok : ps_ok k s;
  cn_cr3 : vm_cr3 s = w;
  cn_left : exists m, pages_left m k s /\ (card X <= m + card g)%nat;
  cn_keep F : owned k0 F -> owned k F /\ forall j, ent (vm_phys s) F j = ent pm0 F j;
  cn_translate va x : a_pml4 va <> 511 -> translate pm0 w va = Some x -> translate (vm_phys s) w va = Some x;
  cn_new p F : g !! p = Some F -> handed k F /\ ~ owned k0 F;
  cn_inj p q F : g !! p = Some F -> g !! q = Some F -> p = q;
  cn_walk p F i : g !! p = Some F -> (length p <= 3)%nat -> index i ->
    next_table (vm_phys s) F i = g !! (p ++ [i]) /\ ((length p <= 2)%nat -> e_large (ent (vm_phys s) F i) = false);
  cn_dom p : is_Some (g !! p) <-> p = [] \/ (present p /\ key p < n);
  cn_copy p F : g !! p = Some F -> length p = 4%nat ->
    exists G, descend pm0 w p = Some G /\ forall j, 0 <= j < 512 -> ent (vm_phys s) F j = ent pm0 G j
}.

Lemma cn_owned n g k s p F : cloning n g k s -> g !! p = Some F -> owned k F.
Proof. intros Hc Hg. apply (handed_frame k s F (cn_ok _ _ _ _ Hc)). by apply (cn_new _ _ _ _ Hc p). Qed.

(** The program's tables are as they were. *)
Lemma user_tables_kept n g k s p :
  cloning n g k s -> p = [] \/ user_path p -> descend (vm_phys s) w p = descend pm0 w p.
Proof.
  intros Hc. induction p as [|i p IH] using rev_ind; intros Hp; [done |].
  assert (p = [] \/ user_path p) as Hp'.
  { destruct p; [by left | right]. destruct Hp as [Hp|Hp]; [by destruct p | by apply (user_path_prefix _ i)]. }
  rewrite !descend_snoc, IH by done. destruct (descend pm0 w p) as [f|] eqn:Ef; simpl; [| done].
  apply next_table_ext. apply (cn_keep _ _ _ _ Hc). destruct Hown as [Hw Hu].
  destruct Hp' as [-> | Hp']; [by injection Ef as <- | by apply (Hu p)].
Qed.

(** Reading an entry of the program's tables through the window. *)
Lemma read_user_entry n g k s p i f :
  cloning n g k s -> p = [] \/ user_path p -> (length p <= 3)%nat -> index i -> (p = [] -> i <> 511) ->
  descend pm0 w p = Some f ->
  vread (window_addr p i) s = Some (ent pm0 f i) /\
  (if bf_get 0 1 (ent pm0 f i) =? 1 then descend pm0 w (p ++ [i]) = Some (e_frame (ent pm0 f i))
   else descend pm0 w (p ++ [i]) = None).
Proof.
  intros Hc Hp Hl Hi Hne Hf. split.
  - pose proof (ps_tree k s (cn_ok _ _ _ _ Hc)) as Hs. rewrite (cn_cr3 _ _ _ _ Hc) in Hs.
    assert (slot p i) as Hsl.
    { split; [| done | done]. destruct Hp as [-> | Hp]; [by split; [simpl; lia | constructor |] | by apply user_path_upath]. }
    assert (descend (vm_phys s) w p = Some f) as Hf' by (by rewrite (user_tables_kept n g k s p Hc Hp)).
    pose proof (vread_slot s w Hs p i f Hsl Hf' (vm_man s)) as E. rewrite vm_eta in E. rewrite E. f_equal.
    apply (cn_keep _ _ _ _ Hc). destruct Hown as [Hw Hu]. destruct Hp as [-> | Hp]; [by injection Hf as <- | by apply (Hu p)].
  - rewrite descend_snoc, Hf. simpl. unfold next_table, e_present. by destruct (_ =? 1).
Qed.

(** Keys without a path are passed over. *)
Lemma cloning_skip n n' g k s :
  n <= n' -> (forall p, present p -> n <= key p < n' -> False) -> cloning n g k s -> cloning n' g k s.
Proof.
  intros Hle Hnone Hc. destruct Hc. split; try done.
  intros p. rewrite cn_dom0. split; (intros [?|[Hp Hk]]; [by left | right]); (split; [done |]); [lia |].
  destruct (decide (key p < n)); [done |]. exfalso. apply (Hnone p Hp). lia.
Qed.

(** There is room for a path that is still missing. *)
Lemma room_left n g k s p :
  cloning n g k s -> present p -> g !! p = None -> exists m, pages_left (S m) k s /\ (card X <= m + S (card g))%nat.
Proof.
  intros Hc Hp Hg. destruct (cn_left _ _ _ _ Hc) as (m & Hm & HN).
  assert (card g < card X)%nat as Hlt.
  { rewrite <- (size_dom g). apply subset_size. split.
    - intros q [F Hq]%elem_of_dom. apply HX. apply (mk_is_Some) in Hq.
      apply (cn_dom _ _ _ _ Hc) in Hq as [->|[Hq _]]; [by left | by right].
    - intros Hsub. specialize (Hsub p (HX p (or_intror Hp))). apply elem_of_dom in Hsub as [F HF]. congruence. }
  destruct m as [|m]; [lia |]. exists m. split; [done | lia].
Qed.

Lemma take_page n g k s p :
  cloning n g k s -> present p -> g !! p = None ->
  exists va F k' s' m, kmalloc_a MEM_BLOCK_SIZE k s = Some (va, k', s') /\
    advance (fun _ _ => False) k s k' s' /\ page_at s' va F /\ handed k' F /\ ~ owned k F /\
    pages_left m k' s' /\ (card X <= m + S (card g))%nat.
Proof.
  intros Hc Hp Hg. destruct (room_left n g k s p Hc Hp Hg) as (m & Hm & HN).
  destruct (kmalloc_a_done m k s (cn_ok _ _ _ _ Hc) Hm) as (va & F & k' & s' & E & Hok & Hleft & Hgiven).
  destruct (page_given_advance (fun _ _ => False) k s k' s' va F Hok Hgiven) as [Ha Hpage].
  exists va, F, k', s', m. split_and!; try done; apply Hgiven.
Qed.

(** The path [p = q ++ [i]] gets the frame [F]. *)
Lemma cloning_add n n' g k s k' s' q i Fq F m :
  cloning n g k s -> g !! q = Some Fq -> (length q <= 3)%nat -> index i ->
  present (q ++ [i]) -> g !! (q ++ [i]) = None ->
  n <= key (q ++ [i]) < n' -> (forall p, present p -> n <= key p < n' -> p = q ++ [i]) ->
  advance (fun G j => G = Fq /\ j = i) k s k' s' -> ~ owned k F -> handed k' F ->
  next_table (vm_phys s') Fq i = Some F -> ((length q <= 2)%nat -> e_large (ent (vm_phys s') Fq i) = false) ->
  ((length q <= 2)%nat -> forall j, index j -> ent (vm_phys s') F j = 0) ->
  (length q = 3%nat -> exists G, descend pm0 w (q ++ [i]) = Some G /\
     forall j, 0 <= j < 512 -> ent (vm_phys s') F j = ent pm0 G j) ->
  pages_left m k' s' -> (card X <= m + S (card g))%nat ->
  cloning n' (<[q ++ [i] := F]> g) k' s'.
Proof.
  intros Hc Hq Hlq Hi Hpres Hnone Hkey Honly Ha HnF HhF Hnext Hlarge Hzero Hcopy Hleft HN.
  assert (forall p G, g !! p = Some G -> G <> F) as Hold.
  { intros p G Hp ->. apply HnF. by apply (cn_owned n g k s p). }
  assert (forall p G j, g !! p = Some G -> ~ (G = Fq /\ j = i) -> ent (vm_phys s') G j = ent (vm_phys s) G j) as Hent.
  { intros p G j Hp Hne. apply (ad_ent _ _ _ _ _ Ha); [by apply (cn_owned n g k s p) | done]. }
  assert (q ++ [i] <> []) as Hne0 by (by destruct q).
  assert (forall j, g !! ((q ++ [i]) ++ [j]) = None) as Hbelow.
  { intros j. destruct (g !! ((q ++ [i]) ++ [j])) as [G|] eqn:EG; [| done]. exfalso.
    apply mk_is_Some, (cn_dom _ _ _ _ Hc) in EG as [E | [Hp Hk]]; [by destruct q |].
    pose proof (key_snoc (q ++ [i]) j (proj1 Hp) Hne0). lia. }
  split.
  - apply Ha.
  - rewrite (ad_cr3 _ _ _ _ _ Ha). apply Hc.
  - exists m. split; [done |]. by rewrite map_size_insert_None.
  - intros G HG. destruct (cn_keep _ _ _ _ Hc G HG) as [HoG HeG]. split; [by apply (ad_owned _ _ _ _ _ Ha) |].
    intros j. rewrite (ad_ent _ _ _ _ _ Ha); [apply HeG | done |]. intros [-> _]. by apply (cn_new _ _ _ _ Hc q Fq Hq).
  - intros va x Hva Ht. pose proof (ad_translate _ _ _ _ _ Ha va x Hva) as Ht'. rewrite (cn_cr3 _ _ _ _ Hc) in Ht'.
    apply Ht'. by apply (cn_translate _ _ _ _ Hc).
  - intros p G. rewrite lookup_insert. case_decide as E.
    + intros [= <-]. split; [done |]. intros Ho. apply HnF. by apply (cn_keep _ _ _ _ Hc).
    + intros Hp. destruct (cn_new _ _ _ _ Hc p G Hp). split; [by apply (ad_handed _ _ _ _ _ Ha) | done].
  - intros p r G. rewrite !lookup_insert. repeat case_decide; intros; simplify_eq; try done;
      [by exfalso; eapply Hold | by exfalso; eapply Hold | by apply (cn_inj _ _ _ _ Hc p r G)].
  - intros p G j Hp Hlp Hj. destruct (decide (p = q ++ [i])) as [->|Hne].
    + rewrite lookup_insert_eq in Hp. injection Hp as <-. rewrite length_app in Hlp. simpl in Hlp.
      rewrite lookup_insert_ne, Hbelow by (intros E; apply (f_equal length) in E; rewrite !length_app in E; simpl in E; lia).
      unfold next_table. rewrite Hzero by (done || lia). done.
    + rewrite lookup_insert_ne in Hp by done. destruct (decide (p = q /\ j = i)) as [[-> ->]|Hpj].
      * rewrite Hq in Hp. injection Hp as <-. by rewrite lookup_insert_eq.
      * assert (~ (G = Fq /\ j = i)) as HGj.
        { intros [-> ->]. apply Hpj. split; [| done]. by apply (cn_inj _ _ _ _ Hc p q Fq). }
        rewrite (next_table_ext (vm_phys s)), (Hent p G j Hp HGj) by (by apply (Hent p)).
        rewrite lookup_insert_ne; [by apply (cn_walk _ _ _ _ Hc) |].
        intros E. apply app_inj_tail in E as [-> ->]. by apply Hpj.
  - intros p. rewrite lookup_insert_is_Some, (cn_dom _ _ _ _ Hc). split.
    + intros [<- | [_ [-> | [Hp Hk]]]]; [right; split; [done | lia] | by left | right; split; [done | lia]].
    + intros [-> | [Hp Hk]]; [right; split; [done | by left] |].
      destruct (decide (q ++ [i] = p)) as [|Hne]; [by left | right]. split; [done |]. right. split; [done |].
      destruct (decide (key p < n)); [done |]. exfalso. apply Hne. symmetry. apply Honly; [done | lia].
  - intros p G. rewrite lookup_insert. case_decide as E.
    + intros [= <-] Hl. subst p. apply Hcopy. rewrite length_app in Hl. simpl in Hl. lia.
    + intros Hp Hl. destruct (cn_copy _ _ _ _ Hc p G Hp Hl) as (G0 & HG0 & Heq). exists G0. split; [done |].
      intros j Hj. rewrite (Hent p G j Hp); [by apply Heq |]. intros [-> _].
      assert (p = q) as -> by (by apply (cn_inj _ _ _ _ Hc p q Fq)). lia.
Qed.

Lemma key_inj p p' : user_path p -> user_path p' -> key p = key p' -> p = p'.
Proof.
  intros H1 H2. apply user_path_inv in H1, H2.
  destruct H1 as [-> | [(a & -> & Ha) | [(a & b & -> & Ha & Hb) | (a & b & c & -> & Ha & Hb & Hc)]]],
           H2 as [-> | [(a' & -> & Ha') | [(a' & b' & -> & Ha' & Hb') | (a' & b' & c' & -> & Ha' & Hb' & Hc')]]];
    cbn [key]; intros E; try lia; try done.
  - by assert (a = a') as -> by lia.
  - assert (a = a') as -> by lia. by assert (b = b') as -> by lia.
  - assert (a = a') as -> by lia. assert (b = b') as -> by lia. by assert (c = c') as -> by lia.
Qed.

(** A page of the program, where the current tables show it. *)
Lemma source_page n g k s i z y G :
  cloning n g k s -> 0 <= i < 3 -> 0 <= z < 512 -> 0 <= y < 512 -> descend pm0 w [0; i; z; y] = Some G ->
  page_at s (page_address i z y) G.
Proof.
  intros Hc Hi Hz Hy HG. rewrite page_address_run by (unfold index; lia). split; [split_and!; [lia | | lia] |].
  - by rewrite Z.mod_mul.
  - intros off Ho. rewrite (cn_cr3 _ _ _ _ Hc).
    destruct (user_fields i z y off) as (E4 & E3 & E2 & E1 & E0); [unfold index; lia.. | done |].
    apply (cn_translate _ _ _ _ Hc); [by rewrite E4 |].
    rewrite (translate_tables s0 w pm0) by (rewrite ?vm_eta, ?E4; apply ps_tree in Hok0; done).
    rewrite E4, E3, E2, E1, E0. change [0; i; z; y] with ([0; i; z] ++ [y]) in HG. rewrite descend_snoc in HG.
    destruct (descend pm0 w [0; i; z]); [| done]. cbn [mbind option_bind] in HG |- *. by rewrite HG.
Qed.

(** What a run of the loops does to the ghost map and to what is mapped. *)
Definition runs (g : gmap (list Z) Z) (s : vm) (n' : Z) (r : option (K * vm)) : Prop :=
  exists g' k' s', r = Some (k', s') /\ cloning n' g' k' s' /\ g ⊆ g' /\ forall va F, page_at s va F -> page_at s' va F.

Lemma runs_refl n g k s : cloning n g k s -> runs g s n (Some (k, s)).
Proof. intros Hc. by exists g, k, s. Qed.

Lemma path_missing n g k s p : cloning n g k s -> user_path p -> p <> [] -> n <= key p -> g !! p = None.
Proof.
  intros Hc Hp Hne Hk. destruct (g !! p) as [F|] eqn:E; [| done].
  apply mk_is_Some, (cn_dom _ _ _ _ Hc) in E as [-> | [_ Hlt]]; [done | lia].
Qed.

Lemma path_present n g k s p F : cloning n g k s -> p <> [] -> g !! p = Some F -> present p.
Proof. intros Hc Hne E. by apply mk_is_Some, (cn_dom _ _ _ _ Hc) in E as [-> | [Hp _]]. Qed.

Lemma clone_page_run i z y pt Ft g k s :
  let n := key [0; i; z; y] in
  cloning n g k s -> 0 <= i < 3 -> 0 <= z < 512 -> 0 <= y < 512 -> g !! [0; i; z] = Some Ft -> page_at s pt Ft ->
  runs g s (n + 1) (clone_page i z y pt (k, s)).
Proof.
  intros n Hc Hi Hz Hy Hg Hpt. destruct (path_present n g k s [0; i; z] Ft Hc ltac:(done) Hg) as [Hut [t Ht]].
  pose proof (user_path_4 i z y Hi Hz Hy) as Hu.
  destruct (read_user_entry n g k s [0; i; z] y t Hc (or_intror Hut) ltac:(simpl; lia) Hy ltac:(done) Ht) as [Hread Hnext].
  change ([0; i; z] ++ [y]) with [0; i; z; y] in Hnext.
  unfold clone_page. change (get_page_entry 0 i z y) with (window_addr [0; i; z] y). rewrite Hread. cbn [mbind option_bind].
  assert (forall p, present p -> n <= key p < n + 1 -> p = [0; i; z; y]) as Honly
    by (intros p [Hp _] Hk; apply key_inj; [done | done | fold n; lia]).
  destruct (bf_get 0 1 (ent pm0 t y) =? 1).
  2:{ apply runs_refl, (cloning_skip n); [lia | | done]. intros p Hp Hk.
      rewrite (Honly p Hp Hk) in Hp. destruct Hp as [_ Hs]. rewrite Hnext in Hs. by destruct Hs. }
  set (G := e_frame (ent pm0 t y)) in *. assert (present [0; i; z; y]) as Hpres by (split; [done | by rewrite Hnext]).
  pose proof (path_missing n g k s [0; i; z; y] Hc Hu ltac:(done) ltac:(fold n; lia)) as Hnone.
  destruct (take_page n g k s _ Hc Hpres Hnone) as (va & F & k1 & s1 & m & E1 & Ha1 & Hpage & HhF & HnF & Hl1 & HN).
  rewrite E1. cbn [mbind option_bind]. pose proof (ad_ok _ _ _ _ _ Ha1) as Hok1.
  assert (owned k0 G) as HoG by (by apply (proj2 Hown [0; i; z; y])).
  pose proof (source_page n g k s i z y G Hc Hi Hz Hy Hnext) as Hsrc.
  destruct (cn_keep _ _ _ _ Hc G HoG) as [HokG HeG].
  assert (G <> F) as HGF by (intros E; apply HnF; by rewrite <- E).
  destruct (mem_copy_block_run m k1 s1 _ G va F Hok1 Hl1 Hpage HhF (page_at_advance _ _ _ _ _ _ _ Ha1 Hsrc)
    (ad_owned _ _ _ _ _ Ha1 G HokG) HGF) as (s2 & E2 & Hcp & Ha2 & Hl2).
  rewrite E2. cbn [mbind option_bind].
  pose proof (page_at_advance _ _ _ _ _ _ _ Ha2 (page_at_advance _ _ _ _ _ _ _ Ha1 Hpt)) as Hpt2.
  pose proof (cn_new _ _ _ _ Hc _ _ Hg) as [HhT _].
  destruct (link_page_run m k1 s2 pt Ft y va F (ad_ok _ _ _ _ _ Ha2) Hl2 Hpt2 (ad_handed _ _ _ _ _ Ha1 _ HhT) Hy
    (page_at_advance _ _ _ _ _ _ _ Ha2 Hpage)) as (s3 & E3 & Hlink & Ha3 & Hl3).
  rewrite E3. cbn [mbind option_bind].
  destruct (handed_frame k s Ft (cn_ok _ _ _ _ Hc) HhT) as (HoT & _).
  assert (F <> Ft) as HFT by (intros ->; exact (HnF HoT)).
  assert (advance (fun G j => G = F \/ G = Ft /\ j = y) k1 s1 k1 s3) as Ha23.
  { eapply advance_then; [exact Ha2 | exact Ha3 | tauto]. }
  assert (advance (fun G j => G = Ft /\ j = y) k s k1 s3) as Ha.
  { eapply advance_then; [exact Ha1 | exact Ha23 |]. intros G' j HG' [[] | [-> | HW]]; [by destruct HnF | done]. }
  exists (<[[0; i; z; y] := F]> g), k1, s3. split; [done |]. split; [| split].
  - apply (cloning_add n (n + 1) g k s k1 s3 [0; i; z] y Ft F m Hc Hg);
      [simpl; lia | exact Hy | exact Hpres | exact Hnone | fold n; change ([0; i; z] ++ [y]) with [0; i; z; y]; fold n; lia
      | exact Honly | exact Ha | exact HnF | exact (ad_handed _ _ _ _ _ Ha23 _ HhF) | exact Hlink | simpl; lia | simpl; lia
      | | exact Hl3 | exact HN].
    + intros _. exists G. split; [done |]. intros j Hj.
      destruct (handed_frame k1 s1 F Hok1 HhF) as (HoF & _).
      rewrite (ad_ent _ _ _ _ _ Ha3 F j HoF (fun E => HFT (proj1 E))), (Hcp j Hj).
      rewrite (ad_ent _ _ _ _ _ Ha1 G j HokG (fun f => f)). apply HeG.
  - by apply insert_subseteq.
  - intros a F' HF'. eapply page_at_advance; [exact Ha | exact HF'].
Qed.

(** Runs one after the other. *)
Lemma runs_bind n n' g s (r : option (K * vm)) (f : K * vm -> option (K * vm)) :
  runs g s n r ->
  (forall g' k' s', cloning n g' k' s' -> g ⊆ g' -> (forall va F, page_at s va F -> page_at s' va F) -> runs g' s' n' (f (k', s'))) ->
  runs g s n' (st ← r; f st).
Proof.
  intros (g1 & k1 & s1 & -> & Hc1 & Hg1 & Hp1) Hf. cbn [mbind option_bind].
  destruct (Hf g1 k1 s1 Hc1 Hg1 Hp1) as (g2 & k2 & s2 & E & Hc2 & Hg2 & Hp2).
  exists g2, k2, s2. split; [exact E |]. split; [done |]. split; [by transitivity g1 | auto].
Qed.

(** A loop whose rounds take the keys from [pos y] to [pos (y + 1)]. *)
Lemma runs_loop (pos : Z -> Z) hi (f : Z -> K * vm -> option (K * vm)) g k s :
  0 <= hi -> cloning (pos 0) g k s ->
  (forall y g' k' s', 0 <= y < hi -> cloning (pos y) g' k' s' -> g ⊆ g' -> (forall va F, page_at s va F -> page_at s' va F) ->
    runs g' s' (pos (y + 1)) (f y (k', s'))) ->
  runs g s (pos hi) (for_range 0 hi (fun y st => st ← st; f y st) (Some (k, s))).
Proof.
  intros Hhi Hc Hf. apply (for_range_ind (fun y st => runs g s (pos y) st)); [done | by apply runs_refl |].
  intros y st Hy Hst. eapply runs_bind; [exact Hst |]. intros. by apply Hf.
Qed.

(** Below a path that is not there, nothing is. *)
Lemma nothing_below q n n' :
  descend pm0 w q = None -> (forall p, user_path p -> n <= key p < n' -> exists r, p = q ++ r) ->
  forall p, present p -> n <= key p < n' -> False.
Proof.
  intros Hq Hr p [Hp [F HF]] Hk. destruct (Hr p Hp Hk) as [r ->]. by rewrite descend_app, Hq in HF.
Qed.

(** The keys of what is below [[0; i]] and [[0; i; z]]. *)
Lemma below_table i z p : user_path p -> 0 <= i < 3 -> 0 <= z < 512 ->
  key [0; i; z] <= key p < key [0; i; z] + 513 -> exists r, p = [0; i; z] ++ r.
Proof.
  intros Hp Hi Hz. apply user_path_inv in Hp.
  destruct Hp as [-> | [(a & -> & Ha) | [(a & b & -> & Ha & Hb) | (a & b & c & -> & Ha & Hb & Hc)]]];
    cbn [key]; intros Hk; try lia; assert (a = i) as -> by lia; assert (b = z) as -> by lia; by eexists.
Qed.

Lemma below_directory i p : user_path p -> 0 <= i < 3 ->
  key [0; i] <= key p < key [0; i] + 263169 -> exists r, p = [0; i] ++ r.
Proof.
  intros Hp Hi. apply user_path_inv in Hp.
  destruct Hp as [-> | [(a & -> & Ha) | [(a & b & -> & Ha & Hb) | (a & b & c & -> & Ha & Hb & Hc)]]];
    cbn [key]; intros Hk; try lia; assert (a = i) as -> by lia; by eexists.
Qed.

(** A table of the copy: the allocation, the zeros and the entry above. *)
Lemma new_table_run n n' g k s q i Fq at_q (cont : Z -> K -> vm -> option (K * vm)) n'' :
  cloning n g k s -> g !! q = Some Fq -> page_at s at_q Fq -> (length q <= 2)%nat -> index i ->
  present (q ++ [i]) -> q ++ [i] <> [0] -> n <= key (q ++ [i]) < n' ->
  (forall p, user_path p -> n <= key p < n' -> p = q ++ [i]) ->
  (forall block F k' s', let g' := <[q ++ [i] := F]> g in cloning n' g' k' s' -> page_at s' block F ->
    (forall va F, page_at s va F -> page_at s' va F) -> runs g' s' n'' (cont block k' s')) ->
  runs g s n'' ('(block, k, s) ← kmalloc_a MEM_BLOCK_SIZE k s; s ← mem_clear_block block s;
                s ← link_table (at_q + 8 * i) block 1 s; cont block k s).
Proof.
  intros Hc Hq Hat Hlq Hi Hpres Hne0 Hkey Honly Hcont.
  pose proof (path_missing n g k s (q ++ [i]) Hc (proj1 Hpres) ltac:(by destruct q) ltac:(lia)) as Hnone.
  destruct (take_page n g k s _ Hc Hpres Hnone) as (va & F & k1 & s1 & m & E1 & Ha1 & Hpage & HhF & HnF & Hl1 & HN).
  rewrite E1. cbn [mbind option_bind].
  destruct (mem_clear_block_run m k1 s1 va F (ad_ok _ _ _ _ _ Ha1) Hl1 Hpage HhF) as (s2 & E2 & Hz & Ha2 & Hl2).
  rewrite E2. cbn [mbind option_bind].
  pose proof (page_at_advance _ _ _ _ _ _ _ Ha2 (page_at_advance _ _ _ _ _ _ _ Ha1 Hat)) as Hat2.
  pose proof (cn_new _ _ _ _ Hc _ _ Hq) as [HhT _]. destruct (handed_frame k s Fq (cn_ok _ _ _ _ Hc) HhT) as (HoT & _).
  destruct (link_table_run m k1 s2 at_q Fq i va F 1 (ad_ok _ _ _ _ _ Ha2) Hl2 Hat2 (ad_handed _ _ _ _ _ Ha1 _ HhT) Hi
    (page_at_advance _ _ _ _ _ _ _ Ha2 Hpage)) as (s3 & E3 & Hlink & Hlarge & Ha3 & Hl3).
  rewrite E3. cbn [mbind option_bind].
  assert (F <> Fq) as HFT by (intros ->; exact (HnF HoT)).
  assert (advance (fun G j => G = F \/ G = Fq /\ j = i) k1 s1 k1 s3) as Ha23.
  { eapply advance_then; [exact Ha2 | exact Ha3 | tauto]. }
  assert (advance (fun G j => G = Fq /\ j = i) k s k1 s3) as Ha.
  { eapply advance_then; [exact Ha1 | exact Ha23 |]. intros G' j HG' [[] | [-> | HW]]; [by destruct HnF | done]. }
  assert (ent (vm_phys s2) Fq i = ent (vm_phys s) Fq i) as Eq.
  { rewrite (ad_ent _ _ _ _ _ Ha2 Fq i (ad_owned _ _ _ _ _ Ha1 Fq HoT) (fun E => HFT (eq_sym E))).
    exact (ad_ent _ _ _ _ _ Ha1 Fq i HoT (fun f => f)). }
  destruct (handed_frame k1 s2 F (ad_ok _ _ _ _ _ Ha2) HhF) as (HoF & _).
  assert (cloning n' (<[q ++ [i] := F]> g) k1 s3) as Hc'.
  { apply (cloning_add n n' g k s k1 s3 q i Fq F m Hc Hq); try assumption; [lia | | | |].
    - intros p [Hp _]. by apply Honly.
    - intros _. rewrite Hlarge, Eq. by apply (cn_walk _ _ _ _ Hc q Fq i Hq ltac:(lia) Hi).
    - intros _ j Hj. rewrite (ad_ent _ _ _ _ _ Ha3 F j HoF (fun E => HFT (proj1 E))). by apply Hz.
    - lia. }
  assert (forall a G, page_at s a G -> page_at s3 a G) as Hpages.
  { intros a G HG. exact (page_at_advance _ _ _ _ _ _ _ Ha HG). }
  destruct (Hcont va F k1 s3 Hc' (page_at_advance _ _ _ _ _ _ _ Ha23 Hpage) Hpages) as (g' & k' & s' & E & Hcg & Hsub & Hpg).
  exists g', k', s'. split; [exact E |]. split; [done |]. split; [| auto].
  transitivity (<[q ++ [i] := F]> g); [by apply insert_subseteq | done].
Qed.

Lemma clone_table_run i z pd Fd g k s :
  cloning (key [0; i; z]) g k s -> 0 <= i < 3 -> 0 <= z < 512 -> g !! [0; i] = Some Fd -> page_at s pd Fd ->
  runs g s (key [0; i; z + 1]) (clone_table i z pd (k, s)).
Proof.
  intros Hc Hi Hz Hg Hpd. destruct (path_present _ g k s [0; i] Fd Hc ltac:(done) Hg) as [Hud [d Hd]].
  destruct (read_user_entry _ g k s [0; i] z d Hc (or_intror Hud) ltac:(simpl; lia) Hz ltac:(done) Hd) as [Hread Hnext].
  change ([0; i] ++ [z]) with [0; i; z] in Hnext.
  unfold clone_table. change (get_pd_entry 0 i z) with (window_addr [0; i] z). rewrite Hread. cbn [mbind option_bind].
  assert (key [0; i; z + 1] = key [0; i; z] + 513) as Ek by (cbn [key]; lia).
  destruct (bf_get 0 1 (ent pm0 d z) =? 1).
  2:{ apply runs_refl. rewrite Ek. apply (cloning_skip (key [0; i; z])); [lia | | done].
      apply (nothing_below [0; i; z]); [done |]. intros p Hp. by apply below_table. }
  apply (new_table_run (key [0; i; z]) (key [0; i; z; 0]) g k s [0; i] z Fd pd
    (fun pt k s => for_range 0 512 (fun y st => st ← st; clone_page i z y pt st) (Some (k, s))) (key [0; i; z + 1]) Hc Hg Hpd).
  - simpl; lia.
  - done.
  - exact (conj (user_path_3 i z Hi Hz) (mk_is_Some _ _ Hnext)).
  - done.
  - cbn [app key]. lia.
  - intros p Hp Hk. apply key_inj; [done | by apply user_path_3 |]. cbn [app key] in Hk |- *. lia.
  - intros pt F k' s' g' Hc' Hpt _. replace (key [0; i; z + 1]) with (key [0; i; z; 512]) by (cbn [key]; lia).
    apply (runs_loop (fun y => key [0; i; z; y])); [lia | done |].
    intros y g2 k2 s2 Hy Hc2 Hsub Hp2. replace (key [0; i; z; y + 1]) with (key [0; i; z; y] + 1) by (cbn [key]; lia).
    apply (clone_page_run i z y pt F); try done; [| by apply Hp2].
    apply (lookup_weaken g'); [apply lookup_insert_eq | done].
Qed.

Lemma clone_directory_run i pdp Fp g k s :
  cloning (key [0; i]) g k s -> 0 <= i < 3 -> g !! [0] = Some Fp -> page_at s pdp Fp ->
  runs g s (key [0; i + 1]) (clone_directory i pdp (k, s)).
Proof.
  intros Hc Hi Hg Hpdp. destruct (path_present _ g k s [0] Fp Hc ltac:(done) Hg) as [Hud [d Hd]].
  destruct (read_user_entry _ g k s [0] i d Hc (or_intror Hud) ltac:(simpl; lia) ltac:(unfold index; lia) ltac:(done) Hd) as [Hread Hnext].
  change ([0] ++ [i]) with [0; i] in Hnext.
  unfold clone_directory. change (get_pdp_entry 0 i) with (window_addr [0] i). rewrite Hread. cbn [mbind option_bind].
  assert (key [0; i + 1] = key [0; i] + 263169) as Ek by (cbn [key]; lia).
  destruct (bf_get 0 1 (ent pm0 d i) =? 1).
  2:{ apply runs_refl. rewrite Ek. apply (cloning_skip (key [0; i])); [lia | | done].
      apply (nothing_below [0; i]); [done |]. intros p Hp. by apply below_directory. }
  apply (new_table_run (key [0; i]) (key [0; i; 0]) g k s [0] i Fp pdp
    (fun pd k s => for_range 0 512 (fun z st => st ← st; clone_table i z pd st) (Some (k, s))) (key [0; i + 1]) Hc Hg Hpdp).
  - simpl; lia.
  - unfold index; lia.
  - exact (conj (user_path_2 i Hi) (mk_is_Some _ _ Hnext)).
  - done.
  - cbn [app key]. lia.
  - intros p Hp Hk. cbn [app key] in Hk |- *. apply key_inj; [done | by apply user_path_2 |]. 
    apply user_path_inv in Hp.
    destruct Hp as [-> | [(a & -> & Ha) | [(a & b & -> & Ha & Hb) | (a & b & c & -> & Ha & Hb & Hcc)]]]; cbn [key] in Hk |- *; lia.
  - intros pd F k' s' g' Hc' Hpd _. replace (key [0; i + 1]) with (key [0; i; 512]) by (cbn [key]; lia).
    apply (runs_loop (fun z => key [0; i; z])); [lia | done |].
    intros z g2 k2 s2 Hz Hc2 Hsub Hp2.
    apply (clone_table_run i z pd F); try done; [| by apply Hp2].
    apply (lookup_weaken g'); [apply lookup_insert_eq | done].
Qed.

(** * The whole copy *)

Context (P0 : Z) (Htop : descend pm0 w [0] = Some P0) (Hleft0 : pages_left (card X) k0 s0).

Lemma top_present : present [0].
Proof. exact (conj user_path_1 (mk_is_Some _ _ Htop)). Qed.

Lemma two_pages : exists m, card X = S (S m).
Proof.
  assert (({[ []; [0] ]} : gset (list Z)) ⊆ X) as Hsub.
  { intros p. rewrite elem_of_union, !elem_of_singleton. intros [-> | ->]; apply HX; [by left | right; apply top_present]. }
  apply subseteq_size in Hsub. rewrite size_union, !size_singleton in Hsub by set_solver.
  exists (card X - 2)%nat. lia.
Qed.

(** The two tables that the copy starts with. *)
Lemma cloning_first T P k s m :
  ps_ok k s -> vm_cr3 s = w -> pages_left m k s -> card X = S (S m) ->
  advance (fun G _ => G = T \/ G = P) k0 s0 k s -> handed k T -> handed k P -> ~ owned k0 T -> ~ owned k0 P -> T <> P ->
  next_table (vm_phys s) T 0 = Some P -> (forall j, index j -> e_large (ent (vm_phys s) T j) = false) ->
  (forall j, index j -> j <> 0 -> ent (vm_phys s) T j = 0) -> (forall j, index j -> ent (vm_phys s) P j = 0) ->
  cloning 0 (<[[0] := P]> {[[] := T]}) k s.
Proof.
  intros Hok Hcr Hl HX' Ha HhT HhP HnT HnP Hne Hlink Hlarge HzT HzP.
  assert (forall p F, (<[[0] := P]> {[[] := T]} : gmap (list Z) Z) !! p = Some F -> p = [0] /\ F = P \/ p = [] /\ F = T) as Hg.
  { intros p F. rewrite lookup_insert_Some, lookup_singleton_Some.
    intros [[<- <-] | (_ & <- & <-)]; [by left | by right]. }
  split; try assumption.
  - exists m. split; [done |]. rewrite map_size_insert_None, map_size_singleton by (by rewrite lookup_singleton_ne). lia.
  - intros F HF. split; [by apply (ad_owned _ _ _ _ _ Ha) |]. intros j. apply (ad_ent _ _ _ _ _ Ha); [done |].
    by intros [-> | ->].
  - intros va x. apply Ha.
  - intros p F [[-> ->] | [-> ->]]%Hg; done.
  - intros p q F [[-> ->] | [-> ->]]%Hg [[-> ?] | [-> ?]]%Hg; congruence.
  - intros p F i [[-> ->] | [-> ->]]%Hg _ Hi.
    + rewrite lookup_insert_ne, lookup_singleton_ne by done. unfold next_table. by rewrite HzP.
    + split; [| by rewrite Hlarge]. destruct (decide (i = 0)) as [->|Hi0]; [by rewrite lookup_insert_eq |].
      simpl app. rewrite lookup_insert_ne, lookup_singleton_ne by congruence. unfold next_table. by rewrite HzT.
  - intros p. split.
    + intros [F [[-> _] | [-> _]]%Hg]; [right; split; [apply top_present | done] | by left].
    + intros [-> | [[Hp _] Hk]]; [by rewrite lookup_insert_ne, lookup_singleton_eq |].
      apply user_path_inv in Hp.
      destruct Hp as [-> | [(a & -> & Ha') | [(a & b & -> & Ha' & Hb) | (a & b & c & -> & Ha' & Hb & Hcc)]]]; cbn [key] in Hk; try lia.
      by rewrite lookup_insert_eq.
  - intros p F [[-> ->] | [-> ->]]%Hg; simpl; lia.
Qed.

Lemma clone_start_run {A} (cont : Z -> Z -> K -> vm -> option A) :
  exists pml4 T pdp P k s, cloning 0 (<[[0] := P]> {[[] := T]}) k s /\ page_at s pml4 T /\ page_at s pdp P /\
  ('(pml4, k, s) ← kmalloc_a MEM_BLOCK_SIZE k0 s0; '(pdp, k, s) ← kmalloc_a MEM_BLOCK_SIZE k s;
   s ← mem_clear_block pml4 s; s ← mem_clear_block pdp s; s ← link_table (pml4 + 8 * 0) pdp 1 s; cont pml4 pdp k s)
  = cont pml4 pdp k s.
Proof.
  destruct two_pages as [m Hm]. pose proof Hleft0 as Hl0. rewrite Hm in Hl0.
  destruct (kmalloc_a_done _ k0 s0 Hok0 Hl0) as (pml4 & T & k1 & s1 & E1 & Hok1 & Hl1 & Hgiven1).
  destruct (page_given_advance (fun _ _ => False) k0 s0 k1 s1 pml4 T Hok1 Hgiven1) as [Ha1 HT1].
  destruct (kmalloc_a_done _ k1 s1 Hok1 Hl1) as (pdp & P & k2 & s2 & E2 & Hok2 & Hl2 & Hgiven2).
  destruct (page_given_advance (fun _ _ => False) k1 s1 k2 s2 pdp P Hok2 Hgiven2) as [Ha2 HP2].
  pose proof (pg_handed _ _ _ _ _ _ _ _ Hgiven1) as HhT. pose proof (pg_handed _ _ _ _ _ _ _ _ Hgiven2) as HhP.
  pose proof (ad_handed _ _ _ _ _ Ha2 T HhT) as HhT2.
  destruct (handed_frame k1 s1 T Hok1 HhT) as (HoT & _).
  assert (T <> P) as HTP by (intros ->; exact (pg_fresh _ _ _ _ _ _ _ _ Hgiven2 HoT)).
  destruct (mem_clear_block_run m k2 s2 pml4 T Hok2 Hl2 (page_at_advance _ _ _ _ _ _ _ Ha2 HT1) HhT2)
    as (s3 & E3 & Hz3 & Ha3 & Hl3).
  destruct (mem_clear_block_run m k2 s3 pdp P (ad_ok _ _ _ _ _ Ha3) Hl3 (page_at_advance _ _ _ _ _ _ _ Ha3 HP2) HhP)
    as (s4 & E4 & Hz4 & Ha4 & Hl4).
  assert (advance (fun G _ => G = T \/ G = P) k1 s1 k2 s4) as Ha14.
  { eapply advance_then; [exact Ha2 | |]; [eapply advance_then; [exact Ha3 | exact Ha4 | intros G j _ HW; exact HW] |].
    intros G j _ [[] | HW]; exact HW. }
  pose proof (page_at_advance _ _ _ _ _ _ _ Ha14 HT1) as HT4.
  pose proof (page_at_advance _ _ _ _ _ _ _ Ha4 (page_at_advance _ _ _ _ _ _ _ Ha3 HP2)) as HP4.
  destruct (link_table_run m k2 s4 pml4 T 0 pdp P 1 (ad_ok _ _ _ _ _ Ha4) Hl4 HT4 HhT2 ltac:(lia) HP4)
    as (s5 & E5 & Hlink & Hlarge & Ha5 & Hl5).
  destruct (handed_frame k2 s2 T Hok2 HhT2) as (HoT2 & _). destruct (handed_frame k2 s2 P Hok2 HhP) as (HoP2 & _).
  assert (forall j, index j -> ent (vm_phys s4) T j = 0) as HzT4.
  { intros j Hj. rewrite (ad_ent _ _ _ _ _ Ha4 T j HoT2 HTP). by apply Hz3. }
  assert (advance (fun G _ => G = T \/ G = P) k0 s0 k2 s5) as Ha.
  { eapply advance_then; [exact Ha1 | |]; [eapply advance_then; [exact Ha14 | exact Ha5 | intros G j _ HW; exact HW] |].
    intros G j _ [[] | [HW | [-> _]]]; [exact HW | by left]. }
  exists pml4, T, pdp, P, k2, s5. split.
  - apply (cloning_first T P k2 s5 m); try assumption.
    + apply Ha.
    + apply Ha.
    + exact (pg_fresh _ _ _ _ _ _ _ _ Hgiven1).
    + intros Ho. apply (pg_fresh _ _ _ _ _ _ _ _ Hgiven2). by apply (ad_owned _ _ _ _ _ Ha1).
    + intros j Hj. destruct (decide (j = 0)) as [-> | Hj0]; [rewrite Hlarge, HzT4; done |].
      rewrite (ad_ent _ _ _ _ _ Ha5 T j HoT2 (fun E => Hj0 (proj2 E))), HzT4; done.
    + intros j Hj Hj0. rewrite (ad_ent _ _ _ _ _ Ha5 T j HoT2 (fun E => Hj0 (proj2 E))). by apply HzT4.
    + intros j Hj. rewrite (ad_ent _ _ _ _ _ Ha5 P j HoP2 (fun E => HTP (eq_sym (proj1 E)))). by apply Hz4.
  - split; [exact (page_at_advance _ _ _ _ _ _ _ Ha5 HT4) |]. split; [exact (page_at_advance _ _ _ _ _ _ _ Ha5 HP4) |].
    rewrite E1. cbn [mbind option_bind]. rewrite E2. cbn [mbind option_bind]. rewrite E3. cbn [mbind option_bind].
    rewrite E4. cbn [mbind option_bind]. rewrite E5. done.
Qed.

Lemma clone_pml4t_run :
  exists T P g k s1 s, clone_pml4t k0 s0 = Some (T * 4096, k, s) /\
    cloning (key [0; 3]) g k s1 /\ g !! [] = Some T /\ g !! [0] = Some P /\
    advance (fun G j => G = P /\ j = 3 \/ G = T /\ j = 511) k s1 k s /\
    next_table (vm_phys s) T 511 = Some T /\ ent (vm_phys s) P 3 = ent pm0 P0 3.
Proof.
  destruct (clone_start_run (fun pml4 pdp k s =>
    '(k, s) ← for_range 0 3 (fun i st => st ← st; clone_directory i pdp st) (Some (k, s));
    e ← vread (get_pdp_entry 0 3) s; s ← vwrite (pdp + 8 * 3) e s; s ← link_table (pml4 + 8 * 511) pml4 0 s;
    f ← get_physical_address pml4 s; Some (f, k, s))) as (pml4 & T & pdp & P & k & s & Hc & HT & HP & E).
  destruct (runs_loop (fun i => key [0; i]) 3 (fun i st => clone_directory i pdp st) _ k s ltac:(lia) Hc) as (g & k1 & s1 & E1 & Hc1 & Hsub & Hp1).
  { intros i g' k' s' Hi Hc' Hsub Hp'. apply (clone_directory_run i pdp P); [done | done | | by apply Hp'].
    apply (lookup_weaken _ _ _ _ (lookup_insert_eq _ _ _) Hsub). }
  assert (g !! [0] = Some P) as HgP by exact (lookup_weaken _ _ _ _ (lookup_insert_eq _ _ _) Hsub).
  assert (g !! [] = Some T) as HgT.
  { refine (lookup_weaken _ _ _ _ _ Hsub). by rewrite lookup_insert_ne, lookup_singleton_eq. }
  apply Hp1 in HT, HP. pose proof (cn_ok _ _ _ _ Hc1) as Hok1. destruct (cn_left _ _ _ _ Hc1) as (m & Hl1 & _).
  destruct (cn_new _ _ _ _ Hc1 _ _ HgP) as [HhP _]. destruct (cn_new _ _ _ _ Hc1 _ _ HgT) as [HhT _].
  destruct (handed_frame k1 s1 P Hok1 HhP) as (HoP & _).
  destruct (read_user_entry _ g k1 s1 [0] 3 P0 Hc1 (or_intror user_path_1) ltac:(simpl; lia) ltac:(unfold index; lia) ltac:(done) Htop)
    as [Hread _].
  destruct (vwrite_page m k1 s1 pdp P 3 (ent pm0 P0 3) Hok1 Hl1 HP HhP ltac:(lia)) as (E2 & Ha2 & Hl2).
  set (s2 := upd_phys <[(P, 3) := ent pm0 P0 3]> s1) in *.
  pose proof (page_at_advance _ _ _ _ _ _ _ Ha2 HT) as HT2.
  destruct (link_table_run m k1 s2 pml4 T 511 pml4 T 0 (ad_ok _ _ _ _ _ Ha2) Hl2 HT2 HhT ltac:(lia) HT2)
    as (s3 & E3 & Hlink & _ & Ha3 & _).
  destruct (physical_address_run k1 s3 pml4 T (ad_ok _ _ _ _ _ Ha3) (page_at_advance _ _ _ _ _ _ _ Ha3 HT2)) as [E4 _].
  exists T, P, g, k1, s1, s3. split.
  { refine (eq_trans E _). rewrite E1. cbn [mbind option_bind]. change (get_pdp_entry 0 3) with (window_addr [0] 3).
    rewrite Hread. cbn [mbind option_bind]. rewrite E2. cbn [mbind option_bind]. rewrite E3. cbn [mbind option_bind]. by rewrite E4. }
  split; [done |]. split; [done |]. split; [done |]. split; [| split; [done |]].
  - eapply advance_then; [exact Ha2 | exact Ha3 | tauto].
  - rewrite (ad_ent _ _ _ _ _ Ha3 P 3 HoP) by (intros [_ ?]; lia). cbn [s2 upd_phys vm_phys]. apply ent_insert_eq.
Qed.

(** The copy's tables, path by path. *)
Lemma copy_descend n g k s1 s T P p :
  cloning n g k s1 -> g !! [] = Some T -> g !! [0] = Some P ->
  advance (fun G j => G = P /\ j = 3 \/ G = T /\ j = 511) k s1 k s ->
  user_path p -> descend (vm_phys s) T p = g !! p.
Proof.
  intros Hc HT HP Ha. induction p as [|i p IH] using rev_ind; intros Hp.
  { by destruct Hp as (r & ? & _). }
  assert (p = [] \/ user_path p) as Hp'.
  { destruct p; [by left | right]. by apply (user_path_prefix _ i). }
  rewrite descend_snoc. assert (descend (vm_phys s) T p = g !! p) as -> by (destruct Hp' as [-> | Hp']; [exact (eq_sym HT) | by apply IH]).
  assert (index i /\ (length p <= 3)%nat /\ (p = [] -> i = 0) /\ (p = [0] -> i < 3)) as (Hi & Hl & H0 & H3).
  { destruct Hp as (r & E & Hlr & Hx & Hf). pose proof (f_equal length E) as El. rewrite length_app in El. simpl in El.
    split; [| split; [lia | split]].
    - assert (Forall index (p ++ [i])) as HF by (rewrite E; constructor; [unfold index; lia | done]).
      apply Forall_app in HF as [_ HF]. by apply Forall_inv in HF.
    - intros ->. by injection E.
    - intros ->. injection E as <-. by apply Hf. }
  destruct (g !! p) as [F|] eqn:EF; cbn [mbind option_bind].
  - rewrite (next_table_ext (vm_phys s1)); [by apply (cn_walk _ _ _ _ Hc p F i EF Hl Hi) |].
    apply (ad_ent _ _ _ _ _ Ha); [by apply (cn_owned n g k s1 p) |].
    intros [[-> ->] | [-> ->]].
    + assert (p = [0]) as E by exact (cn_inj _ _ _ _ Hc _ _ _ EF HP). specialize (H3 E). lia.
    + assert (p = []) as E by exact (cn_inj _ _ _ _ Hc _ _ _ EF HT). specialize (H0 E). lia.
  - destruct (g !! (p ++ [i])) as [G|] eqn:EG; [| done]. exfalso.
    assert (p ++ [i] <> []) as Hne' by (by destruct p).
    pose proof (path_present n g k s1 _ G Hc Hne' EG) as Hpres.
    apply mk_is_Some, (cn_dom _ _ _ _ Hc) in EG as [E | [_ Hk]]; [by destruct p |].
    assert (is_Some (g !! p)) as [? E]; [| congruence]. apply (cn_dom _ _ _ _ Hc).
    destruct Hp' as [-> | Hp']; [by left |]. right. assert (p <> []) as Hne by (intros ->; by destruct Hp' as (? & ? & _)).
    pose proof (key_snoc p i Hp Hne). split; [| lia]. split; [done |].
    destruct Hpres as [_ Hs]. rewrite descend_snoc in Hs. by destruct (descend pm0 w p).
Qed.

(** A user address, and how the copy translates it. *)
Definition user_address (va : Z) : Prop := a_pml4 va = 0 /\ a_pdp va < 3.

Lemma user_address_path va : user_address va -> user_path [0; a_pdp va; a_pd va; a_pt va].
Proof. intros [_ ?]. destruct (a_indices va) as (_ & Hp & Hd & Ht). unfold index in *. apply user_path_4; lia. Qed.

Lemma copy_translate n g k s1 s T P va :
  cloning n g k s1 -> g !! [] = Some T -> g !! [0] = Some P ->
  advance (fun G j => G = P /\ j = 3 \/ G = T /\ j = 511) k s1 k s -> user_address va ->
  translate (vm_phys s) T va = (F ← g !! [0; a_pdp va; a_pd va; a_pt va]; Some (F, a_offset va)).
Proof.
  intros Hc HT HP Ha Hva. pose proof (user_address_path va Hva) as Hp. destruct Hva as [H4 H3].
  destruct (a_indices va) as (_ & Hi & Hz & Hy). unfold index in *.
  rewrite translate_descend, H4.
  - rewrite <- (copy_descend n g k s1 s T P _ Hc HT HP Ha Hp).
    change [0; a_pdp va; a_pd va; a_pt va] with ([0; a_pdp va; a_pd va] ++ [a_pt va]). rewrite descend_snoc.
    by destruct (descend (vm_phys s) T [0; a_pdp va; a_pd va]).
  - intros pd Hpd. rewrite H4 in Hpd. rewrite (copy_descend n g k s1 s T P _ Hc HT HP Ha) in Hpd by (apply user_path_2; lia).
    rewrite (ad_ent _ _ _ _ _ Ha).
    + apply (cn_walk _ _ _ _ Hc _ _ _ Hpd); [simpl; lia | done | simpl; lia].
    + by apply (cn_owned n g k s1 _ _ Hc Hpd).
    + intros [[-> _] | [-> _]]; [pose proof (cn_inj _ _ _ _ Hc _ _ _ Hpd HP) | pose proof (cn_inj _ _ _ _ Hc _ _ _ Hpd HT)]; done.
Qed.

(** The program's own translation. *)
Lemma source_translate va :
  user_address va -> translate pm0 w va = (G ← descend pm0 w [0; a_pdp va; a_pd va; a_pt va]; Some (G, a_offset va)).
Proof.
  intros [H4 _]. rewrite (translate_tables s0) by (rewrite ?vm_eta, ?H4; apply ps_tree in Hok0; done). rewrite H4.
  change [0; a_pdp va; a_pd va; a_pt va] with ([0; a_pdp va; a_pd va] ++ [a_pt va]). rewrite descend_snoc.
  by destruct (descend pm0 w [0; a_pdp va; a_pd va]).
Qed.

(** What [k'] and [s'] are when the tables at [T] hold a copy of the program. *)
Record copied (k' : K) (s' : vm) (T : Z) : Prop := {
  cp_ok : ps_ok k' s';
  cp_cr3 : vm_cr3 s' = w;
  cp_kept F j : owned k0 F -> ent (vm_phys s') F j = ent pm0 F j;
  cp_translate va x : a_pml4 va <> 511 -> translate pm0 w va = Some x -> translate (vm_phys s') w va = Some x;
  cp_top : handed k' T /\ ~ owned k0 T /\ next_table (vm_phys s') T 511 = Some T;
  cp_pages va : user_address va ->
    match translate pm0 w va with
    | Some (G, off) => exists F, translate (vm_phys s') T va = Some (F, off) /\ handed k' F /\ ~ owned k0 F /\
        forall j, 0 <= j < 512 -> ent (vm_phys s') F j = ent pm0 G j
    | None => translate (vm_phys s') T va = None
    end;
  cp_apart va va' F off off' : user_address va -> user_address va' ->
    translate (vm_phys s') T va = Some (F, off) -> translate (vm_phys s') T va' = Some (F, off') -> a_frame va = a_frame va';
  cp_kernel va : a_pml4 va = 0 -> a_pdp va = 3 -> translate (vm_phys s') T va = translate (vm_phys s') w va
}.

Lemma copied_run : exists T k s, clone_pml4t k0 s0 = Some (T * 4096, k, s) /\ copied k s T.
Proof.
  destruct clone_pml4t_run as (T & P & g & k & s1 & s & E & Hc & HT & HP & Ha & Hself & He3).
  destruct (cn_new _ _ _ _ Hc _ _ HT) as [HhT HnT]. destruct (cn_new _ _ _ _ Hc _ _ HP) as [HhP HnP].
  assert (forall F j, owned k0 F -> ent (vm_phys s) F j = ent pm0 F j) as Hkept.
  { intros F j HF. destruct (cn_keep _ _ _ _ Hc F HF) as [HoF HeF]. rewrite <- HeF. apply (ad_ent _ _ _ _ _ Ha); [done |].
    by intros [[-> _] | [-> _]]. }
  exists T, k, s. split; [done |]. split.
  - apply Ha.
  - rewrite (ad_cr3 _ _ _ _ _ Ha). apply Hc.
  - done.
  - intros va x Hva Hx. rewrite <- (cn_cr3 _ _ _ _ Hc). apply (ad_translate _ _ _ _ _ Ha); [done |].
    rewrite (cn_cr3 _ _ _ _ Hc). by apply (cn_translate _ _ _ _ Hc).
  - done.
  - intros va Hva. pose proof (user_address_path va Hva) as Hp.
    rewrite source_translate, (copy_translate _ _ _ _ _ _ _ va Hc HT HP Ha Hva) by done.
    destruct (g !! [0; a_pdp va; a_pd va; a_pt va]) as [F|] eqn:EF; cbn [mbind option_bind].
    + destruct (cn_copy _ _ _ _ Hc _ _ EF eq_refl) as (G & -> & Hj). cbn [mbind option_bind]. exists F.
      destruct (cn_new _ _ _ _ Hc _ _ EF) as [HhF HnF]. split; [done |]. split; [done |]. split; [done |].
      intros j Hj'. rewrite <- Hj by done. apply (ad_ent _ _ _ _ _ Ha); [by apply (cn_owned _ _ _ _ _ _ Hc EF) |].
      intros [[-> _] | [-> _]]; [pose proof (cn_inj _ _ _ _ Hc _ _ _ EF HP) | pose proof (cn_inj _ _ _ _ Hc _ _ _ EF HT)]; done.
    + destruct (descend pm0 w [0; a_pdp va; a_pd va; a_pt va]) as [G|] eqn:EG; [| done]. exfalso.
      assert (is_Some (g !! [0; a_pdp va; a_pd va; a_pt va])) as [? ?]; [| congruence].
      apply (cn_dom _ _ _ _ Hc). right. split; [exact (conj Hp (mk_is_Some _ _ EG)) |].
      destruct Hva as [_ H3]. destruct (a_indices va) as (_ & Hi & Hz & Hy). unfold index in *. cbn [key]. lia.
  - intros va va' F off off' Hva Hva'. rewrite !(copy_translate _ _ _ _ _ _ _ _ Hc HT HP Ha) by done.
    intros (F1 & E1 & [= -> _])%bind_Some (F2 & E2 & [= -> _])%bind_Some.
    pose proof (cn_inj _ _ _ _ Hc _ _ _ E1 E2) as Einj. apply a_frame_inj; [by destruct Hva as [-> _], Hva' as [-> _] | congruence..].
  - intros va H4 H3. pose proof Htop as Hw. simpl in Hw.
    assert (next_table (vm_phys s) T 0 = Some P) as ET.
    { pose proof (copy_descend _ _ _ _ _ _ _ [0] Hc HT HP Ha user_path_1) as Hd. rewrite HP in Hd. simpl in Hd.
      rewrite <- Hd. by destruct (next_table (vm_phys s) T 0). }
    assert (next_table (vm_phys s) w 0 = Some P0) as Ew.
    { rewrite (next_table_ext pm0) by (apply Hkept, Hown). rewrite <- Hw. by destruct (next_table pm0 w 0). }
    assert (next_table (vm_phys s) P 3 = next_table (vm_phys s) P0 3) as EP.
    { unfold next_table. by rewrite He3, (Hkept P0 3 (proj2 Hown [0] P0 user_path_1 Htop)). }
    unfold translate. rewrite H4, H3, ET, Ew. cbn [mbind option_bind]. by rewrite EP.
Qed.

End cloning.

(** C4: [clone_pml4t] makes a copy of the program's space. For a heap that keeps the
    [PageSource] interface and has a page for every table and page there is to copy, it
    returns the physical address of a new top table under which every address below
    3 GiB translates exactly when it does now, each page to a frame of its own with the
    same contents that no one owned before; the addresses from 3 to 4 GiB are the
    kernel's own; entry 511 shows the new tables. What is mapped now stays mapped, and
    no frame that was owned changes. *)
Theorem clone_pml4t_spec {K : Type} `{PageSource K} (k : K) (s : vm) (P0 : Z) (X : gset (list Z)) :
  ps_ok k s -> user_owned k s -> descend (vm_phys s) (vm_cr3 s) [0] = Some P0 ->
  (forall p, p = [] \/ present s p -> p ∈ X) -> pages_left (card X) k s ->
  exists T k' s', clone_pml4t k s = Some (T * 4096, k', s') /\ copied k s k' s' T.
Proof. intros Hok Hown Htop HX Hleft. by apply (copied_run k s Hok Hown X HX P0). Qed.
