(* ===== verification/ClonePool.v ===== *)
(** A heap with pages in stock, as an implementation of the interface [PageSource] of
    Clone.v, and the copy of a small program with it. *)

From S2P Require Import Prelude Words FrameMap FrameAlloc Paging PageTree Clone CloneTree.
#[local] Open Scope Z_scope.

(** * The stock *)

(** Pages that are mapped and not given away yet, with their frames; the frames of those
    given away; and the frames that the heap must leave alone. *)
Record pool := Pool {
  pl_left : list (Z * Z);
  pl_handed : gset Z;
  pl_owned : gset Z
}.

Definition take_page_of (size : Z) (k : pool) (s : vm) : option (Z * pool * vm) :=
  match pl_left k with
  | [] => None
  | (va, F) :: rest => Some (va, Pool rest ({[F]} ∪ pl_handed k) ({[F]} ∪ pl_owned k), s)
  end.

(** [F] holds data: it is not a table of the current space. *)
Record data_frame (s : vm) (F : Z) : Prop := {
  df_range : 0 <= F;
  df_used : used (vm_man s) F = true;
  df_table p : upath p -> descend (vm_phys s) (vm_cr3 s) p <> Some F
}.

Record pool_ok (k : pool) (s : vm) : Prop := {
  po_tree : tree_ok s (vm_cr3 s);
  po_handed F : F ∈ pl_handed k -> F ∈ pl_owned k /\ data_frame s F;
  po_left va F : (va, F) ∈ pl_left k -> page_at s va F /\ ~ F ∈ pl_owned k /\ data_frame s F;
  po_distinct : NoDup ((pl_left k).*2)
}.

Lemma take_page_of_ok va F rest k s :
  pool_ok k s -> pl_left k = (va, F) :: rest ->
  pool_ok (Pool rest ({[F]} ∪ pl_handed k) ({[F]} ∪ pl_owned k)) s.
Proof.
  intros Hk E. destruct (po_left _ _ Hk va F) as (Hp & HnF & HF); [rewrite E; left |].
  pose proof (po_distinct _ _ Hk) as Hnd. rewrite E in Hnd. cbn [fmap list_fmap snd] in Hnd. apply NoDup_cons in Hnd as [Hni Hnd].
  split; cbn [pl_left pl_handed pl_owned]; [apply Hk | | | done].
  - intros G. rewrite !elem_of_union, !elem_of_singleton. intros [-> | HG]; [by split; [left |] |].
    destruct (po_handed _ _ Hk G HG). split; [by right | done].
  - intros va' G HG. destruct (po_left _ _ Hk va' G) as (HpG & HnG & HdG); [rewrite E; by right |].
    split; [done |]. split; [| done]. rewrite elem_of_union, elem_of_singleton. intros [-> | ?]; [| done].
    apply Hni. apply list_elem_of_fmap. by exists (va', F).
Qed.

(** A store to a page that was given away. *)
Section store.
Context (k : pool) (s : vm) (F j v : Z) (Hk : pool_ok k s) (HF : F ∈ pl_handed k).
#[local] Abbreviation s' := (upd_phys <[(F, j) := v]> s).

Lemma store_frame : data_frame s F.
Proof. apply (po_handed _ _ Hk F HF). Qed.

Lemma store_data G : data_frame s G -> data_frame s' G.
Proof.
  intros [H0 Hu Ht]. split; [done | done |]. intros p Hp. cbn [upd_phys vm_phys vm_cr3].
  rewrite (data_descend s (vm_cr3 s) F j v (df_table _ _ store_frame)) by done. by apply Ht.
Qed.

Lemma store_page va G : page_at s va G -> page_at s' va G.
Proof.
  intros Hp. split; [apply Hp |]. intros off Ho. destruct store_frame as [H0 Hu Ht].
  cbn [upd_phys vm_phys vm_cr3]. rewrite (data_translate s _ F j v (po_tree _ _ Hk) eq_refl Ht); [by apply Hp | done | done |].
  by apply (page_low s va G off).
Qed.

Lemma store_pool : pool_ok k s'.
Proof.
  split; [| | | apply Hk].
  - destruct store_frame as [H0 Hu Ht]. exact (data_tree s _ F j v (po_tree _ _ Hk) eq_refl Ht H0 Hu).
  - intros G HG. destruct (po_handed _ _ Hk G HG). split; [done | by apply store_data].
  - intros va G HG. destruct (po_left _ _ Hk va G HG) as (Hp & HnG & Hd).
    split; [by apply store_page |]. split; [done | by apply store_data].
Qed.
End store.

Lemma take_page_of_done n k s :
  pool_ok k s -> (S n <= length (pl_left k))%nat ->
  exists va F k' s', take_page_of MEM_BLOCK_SIZE k s = Some (va, k', s') /\ pool_ok k' s' /\ (n <= length (pl_left k'))%nat /\
    page_given (fun k F => F ∈ pl_owned k) (fun k F => F ∈ pl_handed k) k s k' s' va F.
Proof.
  intros Hk Hn. unfold take_page_of. destruct (pl_left k) as [|[va F] rest] eqn:E; simpl in Hn; [lia |].
  destruct (po_left _ _ Hk va F) as (Hp & HnF & _); [rewrite E; left |].
  exists va, F, (Pool rest ({[F]} ∪ pl_handed k) ({[F]} ∪ pl_owned k)), s. split; [done |].
  split; [by apply (take_page_of_ok va F rest) |]. split; [simpl; lia |].
  split; cbn [pl_handed pl_owned]; try done; try apply Hp; set_solver.
Qed.

#[export] Instance pool_source : PageSource pool := {|
  kmalloc_a := take_page_of;
  ps_ok := pool_ok;
  owned k F := F ∈ pl_owned k;
  handed k F := F ∈ pl_handed k;
  pages_left n k _ := (n <= length (pl_left k))%nat;
  ps_tree := po_tree;
  handed_frame k s F Hk HF :=
    let (Ho, Hd) := po_handed k s Hk F HF in conj Ho (conj (df_range _ _ Hd) (conj (df_used _ _ Hd) (df_table _ _ Hd)));
  ps_store k s F j v Hk HF := store_pool k s F j v Hk HF;
  left_store n k s F j v _ Hl := Hl;
  kmalloc_a_done := take_page_of_done
|}.

(** * A small program *)

(** The entries of the table [f] below [n], as pairs of index and frame. *)
Definition only (pm : phys) (f n : Z) (l : list (Z * Z)) : bool :=
  forallb (fun i => if next_table pm f i is Some g then bool_decide ((i, g) ∈ l) else true) (seqZ 0 n).

Lemma only_spec pm f n l i g : only pm f n l = true -> 0 <= i < n -> next_table pm f i = Some g -> (i, g) ∈ l.
Proof.
  unfold only. rewrite forallb_forall. intros Hall Hi Hg.
  specialize (Hall i ltac:(apply list_elem_of_In, elem_of_seqZ; lia)). rewrite Hg in Hall. by apply bool_decide_eq_true in Hall.
Qed.

(** One page at 2 MiB and five pages of the kernel at 0xC0010000. *)
Definition demo_one : vm := default demo_vm (snd <$> map_new_pages 1 0x200000 1 demo_vm).
Definition demo_pages : vm := default demo_vm (snd <$> map_new_pages 5 0xC0010000 0 demo_one).

(** The program has written a word to its page. *)
Definition demo_program : vm := upd_phys <[(2, 2) := 0x1234]> demo_pages.

Definition demo_stock : list (Z * Z) :=
  [(0xC0010000, 6); (0xC0011000, 9); (0xC0012000, 10); (0xC0013000, 11); (0xC0014000, 12)].

Definition demo_pool : pool := Pool demo_stock {[2]} {[1; 2; 3; 4; 5]}.

Lemma demo_one_ok : tree_ok demo_one 1.
Proof.
  destruct (map_new_pages_run 1 0 demo_vm 1 0x200000 1 demo_vm_ok) as (s' & Fs & E & _ & M & _);
    [lia | done | lia | by vm_compute |].
  assert (demo_one = s') as ->; [| apply M]. unfold demo_one. by rewrite E.
Qed.

Lemma demo_one_enough : enough 20 (vm_man demo_one).
Proof. vm_compute. repeat split; discriminate. Qed.

Lemma demo_pages_mapped : exists Fs, length Fs = 5%nat /\ mapped demo_one demo_pages 1 0xC0010000 Fs.
Proof.
  destruct (map_new_pages_run 5 0 demo_one 1 0xC0010000 0 demo_one_ok) as (s' & Fs & E & Hl & M & _);
    [lia | done | lia | exact demo_one_enough |].
  exists Fs. split; [done |]. assert (demo_pages = s') as ->; [| apply M]. unfold demo_pages. by rewrite E.
Qed.

Lemma demo_pages_cr3 : vm_cr3 demo_pages = 1.
Proof. by vm_compute. Qed.

Lemma demo_pages_ok : tree_ok demo_pages (vm_cr3 demo_pages) /\ vm_cr3 demo_pages = 1.
Proof. rewrite demo_pages_cr3. split; [| done]. destruct demo_pages_mapped as (Fs & _ & M). apply M. Qed.

(** All the tables of the space, and all that is mapped below 3 GiB. *)
Lemma demo_tables :
  only (vm_phys demo_pages) 1 511 [(0, 3)] = true /\ only (vm_phys demo_pages) 3 512 [(0, 4); (3, 7)] = true /\
  only (vm_phys demo_pages) 4 512 [(1, 5)] = true /\ only (vm_phys demo_pages) 7 512 [(0, 8)] = true /\
  only (vm_phys demo_pages) 5 512 [(0, 2)] = true.
Proof. split_and!; vm_compute; reflexivity. Qed.

Lemma demo_frames :
  forallb (fun F => used (vm_man demo_pages) F) [2; 6; 9; 10; 11; 12] = true /\
  map (fun '(va, _) => translate (vm_phys demo_pages) 1 va) demo_stock = map (fun '(_, F) => Some (F, 0)) demo_stock.
Proof. split; vm_compute; reflexivity. Qed.
#[local] Opaque demo_pages.

#[local] Ltac member := repeat first [left | right].

Lemma demo_descend p f :
  upath p -> descend (vm_phys demo_pages) 1 p = Some f ->
  (p, f) ∈ [([], 1); ([0], 3); ([0; 0], 4); ([0; 3], 7); ([0; 0; 1], 5); ([0; 3; 0], 8)].
Proof.
  destruct demo_tables as (H1 & H3 & H4 & H7 & _). intros [Hl Hx Hf] Hd.
  destruct p as [|a p]; [injection Hd as <-; member |].
  apply Forall_cons in Hx as [Ha Hx]. specialize (Hf a eq_refl). unfold index in *.
  cbn [descend] in Hd. apply bind_Some in Hd as (g & Hg & Hd).
  apply (only_spec _ _ _ _ _ _ H1) in Hg; [| lia]. apply list_elem_of_singleton in Hg as [= -> ->].
  destruct p as [|b p]; [injection Hd as <-; member |]. apply Forall_cons in Hx as [Hb Hx].
  cbn [descend] in Hd. apply bind_Some in Hd as (g & Hg & Hd).
  apply (only_spec _ _ _ _ _ _ H3) in Hg; [| lia].
  destruct p as [|c [|? ?]]; [| | simpl in Hl; lia].
  - injection Hd as <-. apply elem_of_cons in Hg as [[= -> ->] | [= -> ->]%list_elem_of_singleton]; member.
  - apply Forall_cons in Hx as [Hc Hx]. cbn [descend] in Hd. apply bind_Some in Hd as (g' & Hg' & [= <-]).
    apply elem_of_cons in Hg as [[= -> ->] | [= -> ->]%list_elem_of_singleton].
    + apply (only_spec _ _ _ _ _ _ H4) in Hg'; [| lia]. apply list_elem_of_singleton in Hg' as [= -> ->]. member.
    + apply (only_spec _ _ _ _ _ _ H7) in Hg'; [| lia]. apply list_elem_of_singleton in Hg' as [= -> ->]. member.
Qed.

Lemma demo_data F : F ∈ [2; 6; 9; 10; 11; 12] -> data_frame demo_pages F.
Proof.
  intros HF. split.
  - repeat apply elem_of_cons in HF as [-> | HF]; try lia. by apply elem_of_nil in HF.
  - destruct demo_frames as [Hu _]. rewrite forallb_forall in Hu. by apply Hu, list_elem_of_In.
  - intros p Hp Hd. rewrite demo_pages_cr3 in Hd. apply demo_descend in Hd; [| done].
    repeat apply elem_of_cons in HF as [-> | HF]; try by apply elem_of_nil in HF.
    all: repeat apply elem_of_cons in Hd as [[= ?] | Hd]; by apply elem_of_nil in Hd.
Qed.

Lemma demo_page i va F : demo_stock !! i = Some (va, F) -> page_at demo_pages va F.
Proof.
  intros Hi. destruct demo_pages_mapped as (Fs & Hl & M).
  assert (i < 5)%nat as Hi5 by (by apply lookup_lt_Some in Hi).
  assert (va = 0xC0010000 + Z.of_nat i * 4096) as Hva by (do 5 (destruct i as [|i]; [by injection Hi |]); lia).
  destruct (lookup_lt_is_Some_2 Fs i ltac:(lia)) as [G HG].
  assert (translate (vm_phys demo_pages) 1 va = Some (F, 0)) as Ht.
  { destruct demo_frames as [_ Hm]. apply (f_equal (fun l => l !! i)) in Hm. rewrite !list_lookup_fmap, Hi in Hm. exact (Some_inj _ _ Hm). }
  pose proof (md_here _ _ _ _ _ M i G 0 HG ltac:(lia)) as H0. rewrite Z.add_0_r, <- Hva, Ht in H0. injection H0 as <-.
  split; [split_and!; [lia | rewrite Hva; div_lia | lia] |].
  intros off Ho. rewrite demo_pages_cr3, Hva. by apply (md_here _ _ _ _ _ M).
Qed.

Lemma demo_pool_ok : pool_ok demo_pool demo_program.
Proof.
  apply store_pool; [| exact (proj2 (elem_of_singleton 2 2) eq_refl)]. destruct demo_pages_mapped as (Fs & _ & M). split.
  - rewrite demo_pages_cr3. apply M.
  - cbn [pl_handed pl_owned demo_pool]. intros F ->%elem_of_singleton. split; [set_solver | apply demo_data; member].
  - cbn [pl_left pl_owned demo_pool]. intros va F [i Hi]%list_elem_of_lookup. split; [by apply (demo_page i) |].
    apply list_elem_of_lookup_2 in Hi.
    repeat apply elem_of_cons in Hi as [[= -> ->] | Hi]; try by apply elem_of_nil in Hi.
    all: split; [by vm_compute | apply demo_data; member].
  - by apply (bool_decide_unpack _).
Qed.

Lemma demo_below_3 q (G : Z) :
  (q, G) ∈ [([], 1); ([0], 3); ([0; 0], 4); ([0; 3], 7); ([0; 0; 1], 5); ([0; 3; 0], 8)] -> user_path q ->
  (q, G) ∈ [([0], 3); ([0; 0], 4); ([0; 0; 1], 5)].
Proof.
  intros HG (r & E & _ & _ & Hr).
  repeat apply elem_of_cons in HG as [[= -> ->] | HG]; try (exfalso; exact (not_elem_of_nil _ HG)); try member;
    exfalso; try discriminate E; injection E as <-; specialize (Hr 3 eq_refl); lia.
Qed.

(** The program: three tables and a page. *)
Lemma demo_user p F :
  user_path p -> descend (vm_phys demo_program) 1 p = Some F -> (p, F) ∈ [([0], 3); ([0; 0], 4); ([0; 0; 1], 5); ([0; 0; 1; 0], 2)].
Proof.
  destruct demo_pages_ok as [Hs Hcr]. assert (data_frame demo_pages 2) as [_ _ Hdata] by (apply demo_data; member).
  assert (forall q, upath q -> descend (vm_phys demo_program) 1 q = descend (vm_phys demo_pages) 1 q) as Hsame.
  { intros q Hq. rewrite <- Hcr in *. by apply (data_descend demo_pages _ 2 2 0x1234 Hdata). }
  assert (forall q G, user_path q -> (length q <= 3)%nat -> descend (vm_phys demo_program) 1 q = Some G ->
    (q, G) ∈ [([0], 3); ([0; 0], 4); ([0; 0; 1], 5)]) as Htables.
  { intros q G Hq Hl HG. pose proof (user_path_upath q Hq Hl) as Hu. rewrite (Hsame q Hu) in HG.
    exact (demo_below_3 q G (demo_descend q G Hu HG) Hq). }
  intros Hp HF. destruct (decide (length p <= 3)%nat) as [Hl | Hl].
  - specialize (Htables p F Hp Hl HF). clear - Htables.
    change (_ :: _) with ([([0], 3); ([0; 0], 4); ([0; 0; 1], 5)] ++ [([0; 0; 1; 0], 2)]). apply elem_of_app. by left.
  - pose proof (user_path_inv p Hp) as [-> | [(i & -> & Hi) | [(i & z & -> & Hi & Hz) | (i & z & y & -> & Hi & Hz & Hy)]]]; try (simpl in Hl; lia).
    change [0; i; z; y] with ([0; i; z] ++ [y]) in HF. rewrite descend_snoc in HF. apply bind_Some in HF as (G & HG & HF).
    apply (Htables [0; i; z] G (user_path_3 i z Hi Hz) ltac:(simpl; lia)) in HG.
    apply elem_of_cons in HG as [E | HG]; [discriminate E |]. apply elem_of_cons in HG as [E | HG]; [discriminate E |].
    apply list_elem_of_singleton in HG as [= -> -> ->].
    rewrite (next_table_ext (vm_phys demo_pages)) in HF by (apply ent_insert_ne; left; lia).
    apply (only_spec _ _ 512 [(0, 2)]) in HF; [| apply demo_tables | lia]. apply list_elem_of_singleton in HF as [= -> ->]. member.
Qed.

Definition demo_paths : gset (list Z) := {[ []; [0]; [0; 0]; [0; 0; 1]; [0; 0; 1; 0] ]}.

Lemma demo_program_cr3 : vm_cr3 demo_program = 1.
Proof. by vm_compute. Qed.

Lemma demo_user_owned : user_owned demo_pool demo_program.
Proof.
  split; rewrite demo_program_cr3; cbn [owned pool_source pl_owned demo_pool]; [set_solver |].
  intros p F Hp HF. pose proof (demo_user p F Hp HF) as Hin. clear HF.
  repeat apply elem_of_cons in Hin as [[= -> ->] | Hin]; [set_solver.. | by apply elem_of_nil in Hin].
Qed.

Lemma demo_paths_all p : p = [] \/ present demo_program p -> p ∈ demo_paths.
Proof.
  unfold present. rewrite demo_program_cr3. intros [-> | [Hp [F HF]]]; [unfold demo_paths; set_solver |].
  pose proof (demo_user p F Hp HF) as Hin. clear HF. unfold demo_paths.
  repeat apply elem_of_cons in Hin as [[= -> ->] | Hin]; [set_solver.. | by apply elem_of_nil in Hin].
Qed.

Lemma demo_program_runs :
  descend (vm_phys demo_program) 1 [0] = Some 3 /\ translate (vm_phys demo_program) 1 0x200010 = Some (2, 16) /\
  translate (vm_phys demo_program) 1 0x201000 = None /\ ent (vm_phys demo_program) 2 2 = 0x1234.
Proof. split_and!; vm_compute; reflexivity. Qed.

(** The copy has the word of the program in another frame, and no page where the program
    has none. *)
Lemma clone_pml4t_spec_witness :
  exists T k' s', clone_pml4t demo_pool demo_program = Some (T * 4096, k', s') /\
    (exists F, translate (vm_phys s') T 0x200010 = Some (F, 16) /\ F <> 2 /\ ent (vm_phys s') F 2 = 0x1234) /\
    translate (vm_phys s') T 0x201000 = None.
Proof.
  destruct demo_program_runs as (Htop & Hpage & Hnone & Hword).
  destruct (@clone_pml4t_spec pool pool_source demo_pool demo_program 3 demo_paths demo_pool_ok demo_user_owned
    ltac:(rewrite demo_program_cr3; exact Htop) demo_paths_all ltac:(vm_compute; lia)) as (T & k' & s' & E & Hc).
  exists T, k', s'. split; [exact E |]. pose proof (cp_pages _ _ _ _ _ Hc) as Hp. rewrite demo_program_cr3 in Hp. split.
  - specialize (Hp 0x200010 ltac:(split; vm_compute; done)). rewrite Hpage in Hp. destruct Hp as (F & HF & _ & HnF & He).
    exists F. split; [exact HF |]. split; [| rewrite He by lia; exact Hword].
    intros ->. apply HnF. cbn [owned pool_source pl_owned demo_pool]. set_solver.
  - specialize (Hp 0x201000 ltac:(split; vm_compute; done)). by rewrite Hnone in Hp.
Defined.
