(* ===== verification/Processes.v ===== *)
(** Processes (kernel/fork.c, exec.c, exit.c): a new task with a copy of the program's
    space, its two returns, the change to another program, and the end of a task. *)

From S2P Require Import Prelude Words Allocator FrameMap FrameAlloc Paging PageTree Clone CloneTree ClonePool Scheduler.
#[local] Open Scope Z_scope.

(** * State *)

(** The heap of the kernel's objects, the heap of the pages for [clone_pml4t], the
    address space, the scheduler, and the static variable of fork.c. *)
Record machine {H K : Type} := Machine {
  m_heap : H;
  m_pages : K;
  m_vm : vm;
  m_sched : sched;
  kernel_fork_ret : Z
}.
Arguments machine : clear implicits.

Definition set_sched {H K} (s : sched) (m : machine H K) : machine H K :=
  Machine _ _ (m_heap m) (m_pages m) (m_vm m) s (kernel_fork_ret m).

Definition set_stack (v : Z) (t : task) : task := Task (pid t) v v (t_rip t) (pml4 t) (status t) (next t).
Definition set_rip (v : Z) (t : task) : task := Task (pid t) (t_rsp t) (t_rbp t) v (pml4 t) (status t) (next t).
Definition set_pml4 (v : Z) (t : task) : task := Task (pid t) (t_rsp t) (t_rbp t) (t_rip t) v (status t) (next t).

(** How the two functions end. *)
Inductive ending :=
  | Returns (v : Z)
  | Jumps (target rax : Z).

(** * Operations *)

Section processes.
Context {H : Type} `{Allocator H} {K : Type} `{PageSource K}.

(** What is in the memory that [kmalloc] returns. *)
Context (stale : Z -> task).

(** [fork] up to [read_rip]: the variables [parent_task] and [new_task]. *)
Definition fork_start (m : machine H K) : option (Z * Z * machine H K) :=
  let s := set_interrupts false (m_sched m) in
  let parent_task := get_current_task s in
  '(new_task, h) ← kmalloc sizeof_task (m_heap m);
  let t := set_rip 0 (set_stack 0 (stale new_task)) in
  '(top, k, v) ← clone_pml4t (m_pages m) (m_vm m);
  let t := set_next 0 (set_pml4 top t) in
  s ← add_task new_task (upd_tasks <[new_task := t]> s);
  Some (parent_task, new_task, Machine _ _ h k v s (kernel_fork_ret m)).

(** [fork] from the return of [read_rip] on, which happens twice. *)
Definition fork_rest (parent_task new_task rip rsp rbp : Z) (s : sched) : option (ending * sched) :=
  if parent_task =? get_current_task s then
    t ← tasks s !! new_task;
    Some (Returns (pid t), set_interrupts true (upd_tasks <[new_task := set_context rip rsp rbp t]> s))
  else Some (Returns 0, s).

(** The call of a parent; [rip], [rsp] and [rbp] are the registers' values at
    [read_rip]. *)
Definition fork (rip rsp rbp : Z) (m : machine H K) : option (ending * machine H K) :=
  '(parent_task, new_task, m) ← fork_start m;
  '(r, s) ← fork_rest parent_task new_task rip rsp rbp (m_sched m);
  Some (r, set_sched s m).

(** [fork_kernel], with the return address that it reads. *)
Definition fork_kernel_start (ret : Z) (m : machine H K) : option (Z * Z * machine H K) :=
  let s := set_interrupts false (m_sched m) in
  let parent_task := get_current_task s in
  '(new_task, h) ← kmalloc sizeof_task (m_heap m);
  '(stack, v) ← alloc_page 0xbffff000 1 (m_vm m);
  let t := set_stack (stack + 0x1000)%word (stale new_task) in
  '(_, v) ← alloc_page 0xbfffe000 0 v;
  let t := set_rip 0 t in
  '(top, k, v) ← clone_pml4t (m_pages m) v;
  let t := set_next 0 (set_pml4 top t) in
  s ← add_task new_task (upd_tasks <[new_task := t]> s);
  Some (parent_task, new_task, Machine _ _ h k v s ret).

(** [parent_task] is what the running task finds in its stack frame: the child's stack
    is new. *)
Definition fork_kernel_rest (parent_task new_task rip : Z) (m : machine H K) : option (ending * machine H K) :=
  let s := m_sched m in
  if parent_task =? get_current_task s then
    t ← tasks s !! new_task;
    Some (Returns (pid t), set_sched (set_interrupts true (upd_tasks <[new_task := set_rip rip t]> s)) m)
  else Some (Jumps (kernel_fork_ret m) 0, m).

Definition fork_kernel (ret rip : Z) (m : machine H K) : option (ending * machine H K) :=
  '(parent_task, new_task, m) ← fork_kernel_start ret m;
  fork_kernel_rest parent_task new_task rip m.

End processes.

(** [exit]: vector 0x20 is [switch_task]'s. *)
Definition exit (fuel : nat) (rsp rbp rip : Z) (s : sched) : option (switch_outcome * sched) :=
  pid ← get_current_pid s;
  s ← change_task_status pid 2 s;
  switch_task fuel rsp rbp rip (set_interrupts true s).

(** [wait] is what happens until the interrupt that ends [hlt]. *)
Definition sleep (wait : sched -> sched) (s : sched) : sched := set_interrupts false (wait (set_interrupts true s)).

(** * The end of a task *)

(** The task is in the list, and not to run again. *)
Definition ended (l : list Z) (a : Z) (s : sched) : Prop :=
  sched_ok s l /\ exists t, tasks s !! a = Some t /\ status t = 2.

(** Whatever [switch_task] resumes is runnable. *)
Lemma robin_result fuel s cur a : iter_fuel fuel (robin_step s) cur = Some (Some a) -> runnable s a.
Proof.
  revert cur; induction fuel as [|fuel IH]; intros cur; simpl; [done |].
  unfold robin_step at 1. destruct (next_task s cur) as [b|]; [| done].
  destruct (tasks s !! b) as [t|] eqn:Et; [| done].
  destruct (Z.eqb_spec (status t) 0); [intros [= ->]; by exists t | apply IH].
Qed.

(** On a list the loop does not fault, and it stays on the list. *)
Lemma robin_in_list fuel s l cur r :
  chain (tasks s) (task_list s) l -> cur ∈ l -> iter_fuel fuel (robin_step s) cur = Some r -> exists a, r = Some a /\ a ∈ l.
Proof.
  intros Hc. revert cur; induction fuel as [|fuel IH]; intros cur Hcur; simpl; [done |].
  destruct (rotation_exists l cur Hcur) as (l' & Hrot). destruct l' as [|b l'].
  { destruct Hrot as (l1 & l2 & _ & He). by destruct l2, l1. }
  assert (b ∈ l) as Hb by (apply (rotation_elem _ _ _ _ Hrot), list_elem_of_here).
  destruct (chain_elem _ _ _ _ Hc Hb) as (_ & t & Ht).
  unfold robin_step at 1. rewrite (next_task_rotation s l Hc cur b _ Hrot), Ht.
  destruct (status t =? 0); [intros [= <-]; by exists b | by apply IH].
Qed.

Lemma switch_task_result fuel rsp rbp rip s l o s' :
  sched_ok s l -> rip <> 0x12345 -> switch_task fuel rsp rbp rip s = Some (o, s') ->
  sched_ok s' l /\ runnable s' (current_task s') /\ tasks s' = alter (set_context rip rsp rbp) (current_task s) (tasks s) /\ o <> Fault.
Proof.
  intros Hs Hrip. unfold switch_task. rewrite (proj2 (Z.eqb_neq _ _) (sched_ok_current s l Hs)), (proj2 (Z.eqb_neq _ _) Hrip).
  fold (save_context rip rsp rbp s). pose proof (save_context_ok rip rsp rbp s l Hs) as Hs1.
  change (current_task s) with (current_task (save_context rip rsp rbp s)) at 1.
  destruct (iter_fuel fuel _ _) as [r|] eqn:E; [| done].
  destruct (robin_in_list fuel _ l _ r (so_chain _ _ Hs1) (so_current _ _ Hs1) E) as (a & -> & Ha).
  destruct (chain_elem _ _ _ _ (so_chain _ _ Hs1) Ha) as (_ & t & Et). cbn [mbind option_bind]. rewrite Et. intros [= <- <-].
  split; [| split; [| done]].
  - by apply set_current_ok.
  - by apply robin_result in E.
Qed.

Lemma ended_switch fuel rsp rbp rip s l a o s' :
  ended l a s -> rip <> 0x12345 -> switch_task fuel rsp rbp rip s = Some (o, s') -> ended l a s' /\ current_task s' <> a.
Proof.
  intros [Hs (t & Ht & Hst)] Hrip E. destruct (switch_task_result _ _ _ _ _ _ _ _ Hs Hrip E) as (Hs' & Hrun & Htasks & _).
  assert (exists t', tasks s' !! a = Some t' /\ status t' = 2) as (t' & Ht' & Hst').
  { rewrite Htasks, lookup_alter. case_decide as E'; [rewrite E' |]; rewrite Ht; eexists; (split; [reflexivity | done]). }
  split; [split; [done | by exists t'] |]. intros Ha. rewrite Ha in Hrun. destruct Hrun as (t'' & ? & ?). simplify_eq. lia.
Qed.

(** C24: [exit] never returns to its task. It marks the running task with status 2 and goes to the
    next task that can run, if there is one, with its saved registers and its page
    tables; and no later run of timer interrupts resumes the task that ended. *)
Theorem exit_spec (s : sched) (l pre post : list Z) (a : Z) (t : task) (fuel : nat) (rsp rbp rip : Z) :
  sched_ok s l -> rip <> 0x12345 -> rotation l (current_task s) (pre ++ a :: post) ->
  (forall b, b ∈ pre -> ~ runnable s b) -> tasks s !! a = Some t -> status t = 0 -> a <> current_task s ->
  (length pre < fuel)%nat ->
  exists s', exit fuel rsp rbp rip s = Some (Jump (t_rip t) (t_rsp t) (t_rbp t) (pml4 t), s') /\
    current_task s' = a /\ ended l (current_task s) s' /\
    forall fuel' ctxs s'', (forall c, c ∈ ctxs -> c.2 <> 0x12345) ->
      run_switches fuel' ctxs s' = Some s'' -> current_task s'' <> current_task s.
Proof.
  intros Hs Hrip Hrot Hpre Ht Hst Hne Hfuel.
  destruct (chain_elem _ _ _ _ (so_chain _ _ Hs) (so_current _ _ Hs)) as (_ & tc & Htc).
  assert (a ∈ l) as Hal by (apply (rotation_elem _ _ _ _ Hrot); rewrite elem_of_app, elem_of_cons; auto).
  unfold exit, get_current_pid. rewrite Htc. cbn [fmap option_fmap option_map mbind option_bind].
  destruct (change_task_status_spec s l (pid tc) 2 Hs ltac:(lia)) as (s1 & -> & Hs1 & Hcur & _ & Hlook). cbn [mbind option_bind].
  assert (forall b u, b ∈ l -> b <> current_task s -> tasks s !! b = Some u -> tasks s1 !! b = Some u) as Hother.
  { intros b u Hb Hbc Hu. rewrite Hlook, decide_True, Hu by done. simpl. destruct (Z.eqb_spec (pid u) (pid tc)) as [Hp|]; [| done].
    exfalso. apply Hbc. exact (pids_inj s l b (current_task s) u tc Hs Hb (so_current _ _ Hs) Hu Htc Hp). }
  assert (tasks s1 !! current_task s = Some (set_status 2 tc)) as Hend.
  { rewrite Hlook, decide_True, Htc by apply Hs. simpl. by rewrite Z.eqb_refl. }
  assert (sched_ok (set_interrupts true s1) l) as Hs1' by (destruct Hs1; by split).
  destruct (switch_task_run (set_interrupts true s1) l pre post a fuel rsp rbp rip Hs1' Hrip) as (t' & s' & E & Ht' & Hca & _ & Htasks & _ & Hs').
  - simpl. by rewrite Hcur.
  - intros b Hb (u & Hu & Hsu). cbn [set_interrupts tasks] in Hu. rewrite Hlook in Hu.
    assert (b ∈ l) as Hbl by (apply (rotation_elem _ _ _ _ Hrot), elem_of_app; by left).
    rewrite decide_True in Hu by done. destruct (tasks s !! b) as [u0|] eqn:Eb; [| done]. simpl in Hu. injection Hu as <-.
    apply (Hpre b Hb). exists u0. split; [done |]. by destruct (pid u0 =? pid tc).
  - exists t. split; [| done]. by apply Hother.
  - done.
  - assert (t' = t) as ->.
    { rewrite Htasks, lookup_alter_ne in Ht' by (cbn [set_interrupts current_task]; rewrite Hcur; congruence).
      cbn [set_interrupts tasks] in Ht'. rewrite (Hother a t Hal Hne Ht) in Ht'. congruence. }
    exists s'. split; [exact E |]. split; [done |].
    assert (ended l (current_task s) s') as Hended.
    { split; [done |]. rewrite Htasks. cbn [set_interrupts current_task tasks]. rewrite Hcur, lookup_alter_eq, Hend. by eexists. }
    split; [done |]. intros fuel' ctxs s'' Hctx Hrun.
    assert (current_task s' <> current_task s) as Hnow by congruence. clear - Hended Hnow Hctx Hrun.
    revert s' Hended Hnow Hrun; induction ctxs as [|[[rsp0 rbp0] rip0] ctxs IH]; intros s' Hended Hnow Hrun.
    + by injection Hrun as <-.
    + simpl in Hrun. apply bind_Some in Hrun as ([o s1] & E & Hrun).
      destruct (ended_switch _ _ _ _ _ _ _ _ _ Hended (Hctx _ (list_elem_of_here _ _)) E) as [He1 Hn1].
      assert (run_switches fuel' ctxs s1 = Some s'') as Hrun1 by (destruct o; done).
      apply (IH (fun c Hc => Hctx c (list_elem_of_further _ _ _ Hc)) s1 He1 Hn1 Hrun1).
Qed.

(** * The two returns of a call *)

Section forking.
Context {H : Type} `{Allocator H} {K : Type} `{PageSource K} (stale : Z -> task).

(** A new struct changes nothing for the listed tasks. *)
Lemma sched_ok_new s l a t b :
  sched_ok s l -> ~ a ∈ l -> sched_ok (upd_tasks <[a := t]> (set_interrupts b s)) l.
Proof.
  intros Hs Ha. assert (sched_ok (set_interrupts b s) l) as Hs' by (destruct Hs; by split).
  apply (sched_ok_same (set_interrupts b s) (<[a := t]> (tasks s)) l Hs').
  intros c Hc. rewrite lookup_insert_ne by (intros ->; done). done.
Qed.

Lemma sched_ok_context s l a t t' b :
  sched_ok s l -> tasks s !! a = Some t -> pid t' = pid t -> next t' = next t ->
  sched_ok (set_interrupts b (upd_tasks <[a := t']> s)) l.
Proof.
  intros Hs Ht Hp Hn. assert (sched_ok (upd_tasks (fun _ => <[a := t']> (tasks s)) s) l) as [] ; [| by split].
  apply sched_ok_same; [done |]. intros c _. rewrite lookup_insert. case_decide as E; [| done].
  subst c. rewrite Ht. simpl. by rewrite Hp, Hn.
Qed.

(** What a call needs of the scheduler and the heap. *)
Record can_fork (m : machine H K) (l : list Z) (new : Z) (h : H) : Prop := {
  cf_sched : sched_ok (m_sched m) l;
  cf_pid : 0 <= next_pid (m_sched m) < 2 ^ 64 - 1;
  cf_heap : heap_ok (m_heap m);
  cf_listed : forall a, a ∈ l -> a ∈ live (m_heap m);
  cf_struct : kmalloc sizeof_task (m_heap m) = Some (new, h)
}.

Lemma can_fork_new m l new h : can_fork m l new h -> new <> 0 /\ ~ new ∈ l /\ heap_ok h.
Proof.
  intros [Hs Hp Hh Hl E]. destruct (kmalloc_spec sizeof_task _ _ _ Hh ltac:(unfold sizeof_task; lia) E) as (Hh' & Hr & Hn & _).
  split; [lia |]. split; [| done]. intros Hin. by apply Hn, Hl.
Qed.

(** The struct in the list: [t0] has the registers and the tables of the child. *)
Lemma add_new_task s l new t0 b :
  sched_ok s l -> new <> 0 -> ~ new ∈ l -> next t0 = 0 -> 0 <= next_pid s < 2 ^ 64 - 1 ->
  exists s', add_task new (upd_tasks <[new := t0]> (set_interrupts b s)) = Some s' /\ sched_ok s' (l ++ [new]) /\
    tasks s' !! new = Some (set_status 0 (set_pid (next_pid s) t0)) /\ current_task s' = current_task s /\
    0 < next_pid s.
Proof.
  intros Hs Hne Hnew Hn Hp. pose proof (sched_ok_new s l new t0 b Hs Hnew) as Hs'.
  destruct (add_task_run (upd_tasks <[new := t0]> (set_interrupts b s)) l new t0 Hs' Hne Hnew) as (s' & E & Hok & Ht & _ & _ & Hc);
    [apply lookup_insert_eq | done | done |]. exists s'. split; [done |]. split; [done |]. split; [done |]. split; [done |].
  destruct (chain_elem _ _ _ _ (so_chain _ _ Hs) (so_current _ _ Hs)) as (_ & tc & Htc).
  pose proof (so_bound _ _ Hs _ _ (so_current _ _ Hs) Htc). lia.
Qed.

(** The scheduler resumes a task that can run where its struct says. *)
Lemma resume_child s2 l2 pre post new fuel rsp2 rbp2 rip2 child nx :
  sched_ok s2 l2 -> rip2 <> 0x12345 -> rotation l2 (current_task s2) (pre ++ new :: post) ->
  (forall b, b ∈ pre -> ~ runnable s2 b) ->
  tasks s2 !! new = Some (set_next nx child) -> status child = 0 -> new <> current_task s2 -> (length pre < fuel)%nat ->
  exists s3, switch_task fuel rsp2 rbp2 rip2 s2 = Some (Jump (t_rip child) (t_rsp child) (t_rbp child) (pml4 child), s3) /\
    current_task s3 = new.
Proof.
  intros Hs2 Hrip2 Hrot Hpre Hchild Hst Hother Hfuel.
  destruct (switch_task_run s2 l2 pre post new fuel rsp2 rbp2 rip2 Hs2 Hrip2 Hrot Hpre) as (t' & s3 & E3 & Ht3 & Hc3 & _ & Htasks & _).
  { eexists. split; [exact Hchild | done]. }
  { done. }
  rewrite Htasks, lookup_alter_ne, Hchild in Ht3 by congruence. injection Ht3 as <-. by exists s3.
Qed.

(** C11: [fork] returns twice. To the parent it returns the new process id, which is not 0; the child's
    task is appended to the list, can run, and has a copy of the program's space. When
    the scheduler resumes the child, it does so in [fork], with the parent's registers
    at [read_rip] and the child's page tables, and there [fork] returns 0. *)
Theorem fork_spec (m : machine H K) (l : list Z) (new : Z) (h : H) (P0 : Z) (X : gset (list Z)) (rip rsp rbp : Z) :
  can_fork m l new h ->
  ps_ok (m_pages m) (m_vm m) -> user_owned (m_pages m) (m_vm m) ->
  descend (vm_phys (m_vm m)) (vm_cr3 (m_vm m)) [0] = Some P0 ->
  (forall p, p = [] \/ present (m_vm m) p -> p ∈ X) -> pages_left (base.size X) (m_pages m) (m_vm m) ->
  exists T m' child, fork stale rip rsp rbp m = Some (Returns (next_pid (m_sched m)), m') /\ 0 < next_pid (m_sched m) /\
    copied (m_pages m) (m_vm m) (m_pages m') (m_vm m') T /\
    sched_ok (m_sched m') (l ++ [new]) /\ current_task (m_sched m') = current_task (m_sched m) /\
    interrupts (m_sched m') = true /\
    tasks (m_sched m') !! new = Some child /\ pid child = next_pid (m_sched m) /\ status child = 0 /\
    forall s2 l2 pre post fuel rsp2 rbp2 rip2,
      sched_ok s2 l2 -> rip2 <> 0x12345 -> rotation l2 (current_task s2) (pre ++ new :: post) ->
      (forall b, b ∈ pre -> ~ runnable s2 b) ->
      (exists nx, tasks s2 !! new = Some (set_next nx child)) -> new <> current_task s2 -> (length pre < fuel)%nat ->
      exists s3, switch_task fuel rsp2 rbp2 rip2 s2 = Some (Jump rip rsp rbp (T * 4096), s3) /\
        fork_rest (current_task (m_sched m)) new 0x12345 rsp rbp s3 = Some (Returns 0, s3).
Proof.
  intros Hcan Hok Hown Htop HX Hleft. destruct (can_fork_new _ _ _ _ Hcan) as (Hne & Hnew & _).
  destruct Hcan as [Hs Hp _ _ E].
  destruct (copied_run (m_pages m) (m_vm m) Hok Hown X HX P0 Htop Hleft) as (T & k & v & Eclone & Hcopy).
  destruct (add_new_task (m_sched m) l new (set_next 0 (set_pml4 (T * 4096) (set_rip 0 (set_stack 0 (stale new))))) false
    Hs Hne Hnew eq_refl Hp) as (s1 & Eadd & Hs1 & Ht & Hcur & Hpid).
  unfold fork, fork_start. rewrite E. cbn [mbind option_bind]. rewrite Eclone. cbn [mbind option_bind]. rewrite Eadd.
  cbn [mbind option_bind]. unfold fork_rest at 1. cbn [m_sched]. unfold get_current_task at 1 2.
  rewrite Hcur. cbn [current_task set_interrupts]. rewrite Z.eqb_refl, Ht. cbn [mbind option_bind].
  eexists T, _, _. split; [reflexivity |]. split; [done |]. split; [exact Hcopy |].
  cbn [set_sched m_sched set_interrupts interrupts current_task tasks upd_tasks].
  split; [by eapply sched_ok_context |]. split; [done |]. split; [done |].
  split; [apply lookup_insert_eq |]. split; [done |]. split; [done |].
  intros s2 l2 pre post fuel rsp2 rbp2 rip2 Hs2 Hrip2 Hrot Hpre (nx & Hchild) Hother Hfuel.
  destruct (resume_child s2 l2 pre post new fuel rsp2 rbp2 rip2 _ nx Hs2 Hrip2 Hrot Hpre Hchild eq_refl Hother Hfuel)
    as (s3 & E3 & Hc3).
  exists s3. split; [exact E3 |]. unfold fork_rest, get_current_task. rewrite Hc3, (proj2 (Z.eqb_neq _ _)); [done |].
  intros Heq. apply Hnew. rewrite <- Heq. apply Hs.
Qed.

(** Both returns of [fork_kernel], for the theorem below and the start of the kernel. *)
Lemma fork_kernel_run (m : machine H K) (l : list Z) (new : Z) (h : H) (stack r top : Z) (v1 v2 v3 : vm) (k : K) (ret rip : Z) :
  can_fork m l new h ->
  alloc_page 0xbffff000 1 (m_vm m) = Some (stack, v1) -> alloc_page 0xbfffe000 0 v1 = Some (r, v2) ->
  clone_pml4t (m_pages m) v2 = Some (top, k, v3) ->
  exists m' child, fork_kernel stale ret rip m = Some (Returns (next_pid (m_sched m)), m') /\ 0 < next_pid (m_sched m) /\
    sched_ok (m_sched m') (l ++ [new]) /\ current_task (m_sched m') = current_task (m_sched m) /\
    interrupts (m_sched m') = true /\ m_vm m' = v3 /\
    tasks (m_sched m') !! new = Some child /\ pml4 child = top /\ pid child = next_pid (m_sched m) /\ status child = 0 /\
    forall s2 l2 pre post fuel rsp2 rbp2 rip2 nx found,
      sched_ok s2 l2 -> rip2 <> 0x12345 -> rotation l2 (current_task s2) (pre ++ new :: post) ->
      (forall b, b ∈ pre -> ~ runnable s2 b) -> tasks s2 !! new = Some (set_next nx child) ->
      new <> current_task s2 -> (length pre < fuel)%nat -> found <> new ->
      let sp := uint64_t (stack + 0x1000) in
      exists s3, switch_task fuel rsp2 rbp2 rip2 s2 = Some (Jump rip sp sp top, s3) /\
        fork_kernel_rest found new 0x12345 (set_sched s3 m') = Some (Jumps ret 0, set_sched s3 m').
Proof.
  intros Hcan E1 E2 Eclone. destruct (can_fork_new _ _ _ _ Hcan) as (Hne & Hnew & _).
  destruct Hcan as [Hs Hp _ _ E].
  destruct (add_new_task (m_sched m) l new
    (set_next 0 (set_pml4 top (set_rip 0 (set_stack (uint64_t (stack + 0x1000)) (stale new))))) false Hs Hne Hnew eq_refl Hp)
    as (s1 & Eadd & Hs1 & Ht & Hcur & Hpid).
  unfold fork_kernel, fork_kernel_start. rewrite E. cbn [mbind option_bind]. rewrite E1. cbn [mbind option_bind].
  rewrite E2. cbn [mbind option_bind]. rewrite Eclone. cbn [mbind option_bind]. rewrite Eadd.
  cbn [mbind option_bind]. unfold fork_kernel_rest at 1. cbn [m_sched]. unfold get_current_task at 1 2.
  rewrite Hcur. cbn [current_task set_interrupts]. rewrite Z.eqb_refl, Ht. cbn [mbind option_bind].
  eexists _, _. split; [reflexivity |]. split; [done |].
  cbn [set_sched m_sched m_vm set_interrupts interrupts current_task tasks upd_tasks].
  split; [by eapply sched_ok_context |]. split; [done |]. split; [done |]. split; [done |].
  split; [apply lookup_insert_eq |]. split; [done |]. split; [done |]. split; [done |].
  intros s2 l2 pre post fuel rsp2 rbp2 rip2 nx found Hs2 Hrip2 Hrot Hpre Hchild Hother Hfuel Hfound.
  destruct (resume_child s2 l2 pre post new fuel rsp2 rbp2 rip2 _ nx Hs2 Hrip2 Hrot Hpre Hchild eq_refl Hother Hfuel)
    as (s3 & E3 & Hc3).
  exists s3. split; [exact E3 |]. unfold fork_kernel_rest, get_current_task.
  cbn [set_sched m_sched kernel_fork_ret]. by rewrite Hc3, (proj2 (Z.eqb_neq _ _) Hfound).
Qed.

(** [fork_kernel] gives its child a stack of its own. The parent gets the process id; the child's
    task has the top of the new page as stack and frame pointer (4096 when there was no
    page) and the copy of the tables made after the two stack pages were mapped. Resumed,
    and whatever it finds for [parent_task] in its new stack unless that is its own
    address, the child goes to the caller's return address with 0. *)
Theorem fork_kernel_spec (m : machine H K) (l : list Z) (new : Z) (h : H) (stack r top : Z) (v1 v2 v3 : vm) (k : K) (ret rip : Z) :
  can_fork m l new h ->
  alloc_page 0xbffff000 1 (m_vm m) = Some (stack, v1) -> alloc_page 0xbfffe000 0 v1 = Some (r, v2) ->
  clone_pml4t (m_pages m) v2 = Some (top, k, v3) ->
  exists m' child, fork_kernel stale ret rip m = Some (Returns (next_pid (m_sched m)), m') /\ 0 < next_pid (m_sched m) /\
    sched_ok (m_sched m') (l ++ [new]) /\ current_task (m_sched m') = current_task (m_sched m) /\
    interrupts (m_sched m') = true /\ m_vm m' = v3 /\
    tasks (m_sched m') !! new = Some child /\ pml4 child = top /\ pid child = next_pid (m_sched m) /\ status child = 0 /\
    forall s2 l2 pre post fuel rsp2 rbp2 rip2 nx found,
      sched_ok s2 l2 -> rip2 <> 0x12345 -> rotation l2 (current_task s2) (pre ++ new :: post) ->
      (forall b, b ∈ pre -> ~ runnable s2 b) -> tasks s2 !! new = Some (set_next nx child) ->
      new <> current_task s2 -> (length pre < fuel)%nat -> found <> new ->
      let sp := uint64_t (stack + 0x1000) in
      exists s3, switch_task fuel rsp2 rbp2 rip2 s2 = Some (Jump rip sp sp top, s3) /\
        fork_kernel_rest found new 0x12345 (set_sched s3 m') = Some (Jumps ret 0, set_sched s3 m').
Proof. exact (fork_kernel_run m l new h stack r top v1 v2 v3 k ret rip). Qed.

End forking.

(** * Concrete runs *)

(** The task at 16 of [demo_sched] ends; the one at 80 is blocked. *)
Lemma exit_spec_witness :
  exists s', exit 5 7 8 9 demo_sched = Some (Jump 3002 1002 2002 4096, s') /\ current_task s' = 144 /\
    ended [16; 80; 144] 16 s' /\
    forall fuel' ctxs s'', (forall c, c ∈ ctxs -> c.2 <> 0x12345) -> run_switches fuel' ctxs s' = Some s'' -> current_task s'' <> 16.
Proof.
  apply (exit_spec demo_sched [16; 80; 144] [80] [16] 144 (demo_task 2 0 0) 5 7 8 9 demo_sched_ok); try done.
  - exists [], [80; 144]. done.
  - intros b ->%list_elem_of_singleton (t & Ht & Hst). vm_compute in Ht. simplify_eq.
  - simpl. lia.
Defined.

(** The same tasks, with the program of ClonePool.v. *)
Definition demo_machine : machine bump pool := Machine _ _ (Bump 208 {[16; 80; 144]}) demo_pool demo_program demo_sched 0.

Definition demo_stale (a : Z) : task := Task a a a a a a a.

Lemma demo_can_fork : can_fork demo_machine [16; 80; 144] 208 (Bump 257 {[208; 16; 80; 144]}).
Proof.
  split; cbn [demo_machine m_heap m_sched].
  - exact demo_sched_ok.
  - simpl. lia.
  - split; [done |]. intros p. cbn [bump_live]. rewrite !elem_of_union, !elem_of_singleton. simpl. lia.
  - intros a Ha. cbn [live bump_allocator bump_live]. repeat apply elem_of_cons in Ha as [-> | Ha]; [set_solver.. | by apply elem_of_nil in Ha].
  - vm_compute. reflexivity.
Qed.

Lemma demo_machine_top : descend (vm_phys (m_vm demo_machine)) (vm_cr3 (m_vm demo_machine)) [0] = Some 3.
Proof. cbn [demo_machine m_vm]. rewrite demo_program_cr3. apply demo_program_runs. Qed.

Lemma fork_spec_witness :
  exists T m' child, fork demo_stale 77 88 99 demo_machine = Some (Returns 3, m') /\
    copied demo_pool demo_program (m_pages m') (m_vm m') T /\ current_task (m_sched m') = 16 /\
    tasks (m_sched m') !! 208 = Some child /\ pid child = 3 /\ status child = 0.
Proof.
  destruct (@fork_spec bump bump_allocator pool pool_source demo_stale demo_machine [16; 80; 144] 208 _ 3 demo_paths 77 88 99
    demo_can_fork demo_pool_ok demo_user_owned demo_machine_top
    demo_paths_all ltac:(vm_compute; lia)) as (T & m' & child & E & _ & Hc & _ & Hcur & _ & Ht & Hp & Hst & _).
  exists T, m', child. split; [exact E |]. split; [exact Hc |]. split; [exact Hcur |]. split; [exact Ht |]. split; [exact Hp | exact Hst].
Defined.

(** A kernel with ten pages in stock, one page of a program, and no stack yet. *)
Definition kernel_vm : vm := default demo_vm (snd <$> map_new_pages 10 0xC0010000 0 demo_one).
Definition kernel_stock : list (Z * Z) :=
  omap (fun i => '(F, _) ← translate (vm_phys kernel_vm) 1 (0xC0010000 + 4096 * i); Some (0xC0010000 + 4096 * i, F)) (seqZ 0 10).
Definition kernel_machine : machine bump pool :=
  Machine _ _ (Bump 208 {[16; 80; 144]}) (Pool kernel_stock ∅ ∅) kernel_vm demo_sched 0.

Definition stack_vm : vm := snd (default (0, demo_vm) (alloc_page 0xbffff000 1 kernel_vm)).
Definition stacks_vm : vm := snd (default (0, demo_vm) (alloc_page 0xbfffe000 0 stack_vm)).
Definition kernel_copy : Z * pool * vm := default (0, demo_pool, demo_vm) (clone_pml4t (Pool kernel_stock ∅ ∅) stacks_vm).

Lemma kernel_can_fork : can_fork kernel_machine [16; 80; 144] 208 (Bump 257 {[208; 16; 80; 144]}).
Proof. destruct demo_can_fork as [Hs Hp Hh Hl E]. by split. Qed.

Lemma kernel_runs :
  alloc_page 0xbffff000 1 (m_vm kernel_machine) = Some (0xbffff000, stack_vm) /\
  alloc_page 0xbfffe000 0 stack_vm = Some (0xbfffe000, stacks_vm) /\
  clone_pml4t (m_pages kernel_machine) stacks_vm = Some (6 * 4096, snd (fst kernel_copy), snd kernel_copy).
Proof.
  split; [| split].
  - unfold stack_vm. cbn [kernel_machine m_vm]. apply run_pair. vm_compute. reflexivity.
  - unfold stacks_vm. apply run_pair. vm_compute. reflexivity.
  - unfold kernel_copy. cbn [kernel_machine m_pages]. apply run_triple. vm_compute. reflexivity.
Qed.

Lemma fork_kernel_spec_witness :
  exists m' child, fork_kernel demo_stale 55 66 kernel_machine = Some (Returns 3, m') /\
    tasks (m_sched m') !! 208 = Some child /\ pml4 child = 6 * 4096 /\ pid child = 3 /\ status child = 0 /\
    m_vm m' = snd kernel_copy.
Proof.
  destruct kernel_runs as (E1 & E2 & E3).
  destruct (fork_kernel_spec demo_stale kernel_machine [16; 80; 144] 208 _ 0xbffff000 0xbfffe000 (6 * 4096) stack_vm stacks_vm _ _
    55 66 kernel_can_fork E1 E2 E3) as (m' & child & E & _ & _ & _ & _ & Hv & Ht & Hpml & Hp & Hst & _).
  exists m', child. split; [exact E |]. split; [exact Ht |]. split; [exact Hpml |]. split; [exact Hp |]. split; [exact Hst | exact Hv].
Defined.
