(* ===== verification/Exec.v ===== *)
(** The change to another program ([exec], kernel/exec.c): the search of the file, the
    clearing of the space and the loader, up to the jump to user mode. *)

From S2P Require Import Prelude Words Console Allocator Memory CLib Fat32 Elf.
#[local] Open Scope Z_scope.

(** What [exec] expects of [clean_user_space] (kernel/memman.c): it ends, and only
    memory below 3 GiB changes. *)
Class UserSpace (P : Type) := {
  clean_user_space : P -> mem -> option (P * mem);
  clean_user_space_done p m : exists p' m', clean_user_space p m = Some (p', m') /\
    forall a, ~ (0 <= a < 0xC0000000) -> load8 m' a = load8 m a
}.

#[global] Hint Mode UserSpace ! : typeclass_instances.

(** A return to the caller, or the [iretq] of [switch_to_user_mode]: the instruction
    and stack pointers, with interrupts enabled. *)
Inductive exec_end :=
  | ExecReturns (v : Z)
  | UserMode (rip rsp : Z).

Definition switch_to_user_mode (entry : Z) : exec_end := UserMode entry 0xc0000000.

Section exec.
Context (disk : Z -> Z -> Z) {H : Type} `{Allocator H} {P : Type} `{UserPages P} `{UserSpace P}.

(** [filename] is the first field of the entry. The test of [entry] is a comment in the
    source. *)
Definition exec (fuel : nat) (filename : Z) (s : fsys (H := H)) (p : P) : option (exec_end * fsys (H := H) * P) :=
  '(file, s) ← find_file disk fuel filename s;
  if file =? 0 then Some (ExecReturns 0, s, p)
  else
    '(p, m) ← clean_user_space p (f_mem s);
    '(entry, s, p) ← load_executable disk fuel file (upd (fun _ => m) s) p;
    Some (switch_to_user_mode entry, s, p).

End exec.

(** [exec] returns to its caller only when it does not find the file, with 0 and the
    space as it was. When it finds it, the space is cleared; then a file that can be
    loaded runs in user mode from its entry point with its segments in place. *)
Theorem exec_spec (disk : Z -> Z -> Z) {H : Type} `{Allocator H} {P : Type} `{UserPages P} `{UserSpace P}
  (fuel : nat) (filename : Z) (s : fsys (H := H)) (p : P) :
  (forall s1, find_file disk fuel filename s = Some (0, s1) ->
    exec disk fuel filename s p = Some (ExecReturns 0, s1, p)) /\
  (forall file s1, find_file disk fuel filename s = Some (file, s1) -> file <> 0 ->
    exists p2 m2, clean_user_space p (f_mem s1) = Some (p2, m2) /\
    (forall v s' p', exec disk fuel filename s p <> Some (ExecReturns v, s', p')) /\
    forall again s2 buffer len s3 s4,
      find_file disk fuel file (upd (fun _ => m2) s1) = Some (again, s2) -> again <> 0 ->
      alloc_buffer (uint32_t (file_size (f_mem s2) again + spc s2 * bps s2)) s2 = Some (buffer, s3) ->
      read_file disk fuel (first_cluster (f_mem s3) again) buffer s3 = Some s4 ->
      is_executable (f_mem s4) buffer -> loadable (f_mem s4) buffer len ->
      pages_left p2 (pages_from (f_mem s4) buffer (Z.to_nat (phnum (f_mem s4) buffer)) 0) ->
      phnum (f_mem s4) buffer < Z.of_nat fuel ->
      exists s' p', exec disk fuel filename s p = Some (UserMode (e_entry (f_mem s4) buffer) 0xc0000000, s', p') /\
        forall i, loaded (f_mem s4) buffer i ->
          has_segment (f_mem s4) buffer (f_mem s') i /\ forall a, in_pages (f_mem s4) buffer i a -> backed p' a).
Proof.
  unfold exec. split.
  - intros s1 ->. by rewrite bind_Some_eq.
  - intros file s1 -> Hfile. destruct (clean_user_space_done p (f_mem s1)) as (p2 & m2 & E2 & _).
    exists p2, m2. split; [done |]. rewrite bind_Some_eq, (proj2 (Z.eqb_neq _ _) Hfile), E2, bind_Some_eq. split.
    + intros v s' p'. destruct (load_executable _ _ _ _ _) as [[[entry s2] p3]|]; [| done]. rewrite bind_Some_eq. done.
    + intros again s2 buffer len s3 s4 Hfind Hagain Halloc Hread Hexec Hld Hleft Hfuel.
      destruct (load_executable_run disk fuel file again buffer len _ s2 s3 s4 p2 Hfind Hagain Halloc Hread Hexec Hld Hleft Hfuel)
        as (s' & p' & E & _ & Hseg & _).
      exists s', p'. rewrite E, bind_Some_eq. split; [done |]. exact Hseg.
Qed.

(** A file that is found but is not an executable leaves the program without a way
    back: its space is cleared and [exec] enters user mode at address 0. *)
Theorem exec_not_executable (disk : Z -> Z -> Z) {H : Type} `{Allocator H} {P : Type} `{UserPages P} `{UserSpace P}
  (fuel : nat) (filename file again buffer : Z) (s s1 s2 s3 s4 : fsys (H := H)) (p p2 : P) (m2 : mem) :
  find_file disk fuel filename s = Some (file, s1) -> file <> 0 ->
  clean_user_space p (f_mem s1) = Some (p2, m2) ->
  find_file disk fuel file (upd (fun _ => m2) s1) = Some (again, s2) -> again <> 0 ->
  alloc_buffer (uint32_t (file_size (f_mem s2) again + spc s2 * bps s2)) s2 = Some (buffer, s3) ->
  read_file disk fuel (first_cluster (f_mem s3) again) buffer s3 = Some s4 ->
  ~ is_executable (f_mem s4) buffer ->
  exec disk fuel filename s p = Some (UserMode 0 0xc0000000, s4, p2).
Proof.
  intros Hf Hfile Hc Hfind Hagain Halloc Hread Hno. unfold exec.
  rewrite Hf, bind_Some_eq, (proj2 (Z.eqb_neq _ _) Hfile), Hc, bind_Some_eq.
  destruct (load_executable_stops disk fuel file (upd (fun _ => m2) s1) p2) as [_ Hstop].
  destruct (Hstop _ _ _ _ _ Hfind Hagain Halloc Hread) as [E _]. by rewrite (E Hno).
Qed.

(** * Concrete runs *)

(** The pages are counted back in; their bytes stay. *)
#[export] Instance pool_space : UserSpace page_pool.
Proof.
  refine {| clean_user_space p m := Some (PagePool (pool_left p + Z.of_nat (base.size (pool_used p))) ∅, m) |}.
  intros p m. by eexists _, _.
Defined.

(** The disk of Elf.v with another first byte in the file. *)
Definition text_disk (n k : Z) : Z := if elf_disk n k =? 0x7F then 35 else elf_disk n k.

Definition demo_found (disk : Z -> Z -> Z) (name : Z) (s : fsys (H := sized_bump)) : fsys :=
  snd (default (0, elf_fs) (find_file disk 3 name s)).
Definition text_found : fsys := demo_found text_disk 0x9000 elf_fs.
Definition text_again : fsys := demo_found text_disk 0xC0100200 (upd (fun _ => f_mem text_found) text_found).
Definition text_buffer : fsys :=
  snd (default (0, elf_fs) (alloc_buffer (uint32_t (file_size (f_mem text_again) 0xC0100420 + spc text_again * bps text_again)) text_again)).
Definition text_read : fsys :=
  default elf_fs (read_file text_disk 3 (first_cluster (f_mem text_buffer) 0xC0100420) 0xC0100440 text_buffer).

Lemma exec_not_executable_witness :
  exec text_disk 3 0x9000 elf_fs (PagePool 8 ∅) = Some (UserMode 0 0xc0000000, text_read, PagePool 8 ∅).
Proof.
  apply (exec_not_executable text_disk 3 0x9000 0xC0100200 0xC0100420 0xC0100440 elf_fs text_found text_again text_buffer text_read
    (PagePool 8 ∅) (PagePool 8 ∅) (f_mem text_found)).
  - apply run_pair. vm_compute. reflexivity.
  - lia.
  - reflexivity.
  - apply run_pair. vm_compute. reflexivity.
  - lia.
  - apply run_pair. vm_compute. reflexivity.
  - apply run_total. vm_compute. reflexivity.
  - intros [Hmagic _]. vm_compute in Hmagic. discriminate Hmagic.
Defined.
