(* ===== verification/ExecDisk.v ===== *)
(** A program from the disk to user mode: the directory, the file allocation table and
    the clusters of the file (kernel/fat32.c), the loader (kernel/elf.c) and the change
    of program (kernel/exec.c) together. *)

From S2P Require Import Prelude Words Console Allocator Memory CLib Fat32 Elf Exec.
#[local] Open Scope Z_scope.

(** * The entry of a file *)

Section entry.
Context (disk : Z -> Z -> Z) {H : Type} `{SizedAllocator H, !HeapBudget H} (own : gmap Z Z).
Implicit Types (s : fsys (H := H)).

(** A field of entry [i] of cluster [c], [k] bytes behind its start. *)
Definition entry_field s (n : nat) (c i k : Z) : Z :=
  disk_load disk n (_cluster_begin_lba s + (c - 2)%word)%word (32 * i + k).

Definition entry_size s (c i : Z) : Z := entry_field s 4 c i 28.
Definition entry_cluster s (c i : Z) : Z := entry_field s 2 c i 20 * 0x100 + entry_field s 2 c i 26.

Lemma entry_field_run s c i file m n : forall k,
  entry_copy disk s c i file m -> 10 < k -> k + Z.of_nat n <= 32 -> load n m (file + k) = entry_field s n c i k.
Proof.
  induction n as [|n IH]; intros k Hc Hk Hn; [done |].
  change (load (S n) m (file + k)) with (load8 m (file + k) + 256 * load n m (file + k + 1)).
  unfold entry_field. cbn [disk_load]. rewrite <- !Z.add_assoc, IH by (done || lia).
  rewrite Hc by (unfold sizeof_dir_entry; lia). by rewrite (proj2 (Z.eqb_neq k 10)) by lia.
Qed.

Lemma dir_entry_fields s c i file m :
  entry_copy disk s c i file m ->
  file_size m file = entry_size s c i /\ first_cluster m file = entry_cluster s c i.
Proof.
  intros Hc. unfold first_cluster, file_cluster_high, file_cluster_low, file_size.
  by rewrite !(entry_field_run s c i file m) by (done || lia).
Qed.

(** The name in the copy is the entry's. *)
Lemma entry_text s c i file m : entry_copy disk s c i file m -> cstr m file (entry_name disk s c i).
Proof.
  intros Hc. apply cstr_until_zero.
  - intros k x Hk. apply list_lookup_fmap_Some in Hk as (y & -> & Hy). apply lookup_seqZ in Hy as [-> Hk].
    rewrite Hc by (unfold sizeof_dir_entry; lia). by rewrite (proj2 (Z.eqb_neq _ _)) by lia.
  - rewrite length_fmap, length_seqZ. change (Z.of_nat (Z.to_nat 10)) with 10. by rewrite (Hc 10).
Qed.

Lemma until_zero_length l : (length (until_zero l) <= length l)%nat.
Proof. induction l as [|x l IH]; simpl; [done |]. destruct (x =? 0); simpl; lia. Qed.

Lemma entry_name_length s c i : (length (entry_name disk s c i) <= 10)%nat.
Proof. unfold entry_name. etrans; [apply until_zero_length |]. by rewrite length_fmap, length_seqZ. Qed.

(** * A search for the name that was found *)

Lemma starts_with_own s c i : starts_with disk s (entry_name disk s c i) c i = true.
Proof. unfold starts_with. rewrite firstn_all. by apply bool_decide_true. Qed.

(** What starts with the whole name starts with what the name starts with. *)
Lemma starts_with_more s text c i d j :
  starts_with disk s text d j = true -> starts_with disk s (entry_name disk s d j) c i = true ->
  starts_with disk s text c i = true.
Proof.
  unfold starts_with. rewrite !bool_decide_eq_true. intros Ht Hn.
  assert (length text <= length (entry_name disk s d j))%nat as Hlen.
  { rewrite <- Ht at 1. rewrite length_take. lia. }
  rewrite <- Ht at 2. rewrite <- Hn, take_take. by f_equal; lia.
Qed.

Lemma first_entry_again s text c d j n : forall i,
  starts_with disk s text d j = true ->
  match first_entry disk s text c n i with
  | Some k => c = d -> k = j -> first_entry disk s (entry_name disk s d j) c n i = Some j
  | None => first_entry disk s (entry_name disk s d j) c n i = None
  end.
Proof.
  induction n as [|n IH]; intros i Ht; cbn [first_entry]; [done |].
  destruct (starts_with disk s text c i) eqn:E.
  - intros -> ->. by rewrite starts_with_own.
  - specialize (IH (i + 1) Ht). destruct (starts_with disk s (entry_name disk s d j) c i) eqn:E2; [| done].
    by rewrite (starts_with_more s text c i d j Ht E2) in E.
Qed.

Lemma first_entry_starts s text c n k : forall i, first_entry disk s text c n i = Some k -> starts_with disk s text c k = true.
Proof.
  induction n as [|n IH]; intros i; cbn [first_entry]; [done |].
  destruct (starts_with disk s text c i) eqn:E; [by intros [= <-] | apply IH].
Qed.

Lemma search_starts s text l d j : search disk s text l = Some (d, j) -> starts_with disk s text d j = true.
Proof.
  induction l as [|c l IH]; cbn [search]; [done |].
  destruct (first_entry disk s text c 16 0) as [i|] eqn:E; [| exact IH].
  intros [= <- <-]. by eapply first_entry_starts.
Qed.

Lemma search_again s text l d j :
  search disk s text l = Some (d, j) -> search disk s (entry_name disk s d j) l = Some (d, j).
Proof.
  intros Hs. pose proof (search_starts s text l d j Hs) as Ht. revert Hs.
  induction l as [|c l IH]; cbn [search]; [done |].
  pose proof (first_entry_again s text c d j 16 0 Ht) as Ha.
  destruct (first_entry disk s text c 16 0) as [i|].
  - intros [= -> ->]. by rewrite Ha.
  - rewrite Ha. exact IH.
Qed.

End entry.

(** * From the name to the image in the buffer *)

Section image.
Context (disk : Z -> Z -> Z) {H : Type} `{SizedAllocator H, !HeapBudget H}.
Context (Harea : 0xC0000000 <= fst area /\ snd area < 2 ^ 64).
Implicit Types (s : fsys (H := H)) (own : gmap Z Z).

(** The clusters that the code finds from the directory's first one on are [root], the first entry for
    [text] is [j] of cluster [d], and the clusters that it finds from the one it takes from there are [l]. *)
Record on_disk s (text root l : list Z) (d j : Z) : Prop := {
  od_root : chain (fat_read disk s) (root_cluster (f_mem s) (_partition s)) root;
  od_root_first : Forall in_buffer root;
  od_found : search disk s text root = Some (d, j);
  od_chain : chain (fat_read disk s) (entry_cluster disk s d j) l;
  od_first : Forall in_buffer l;
  od_size : 512 * Z.of_nat (length l) <= entry_size disk s d j + 512 <= request_max;
  od_width : entry_size disk s d j + 512 < 2 ^ 32
}.

(** The state of another moment with the same volume. *)
Lemma on_disk_same s s' text root l d j :
  _partition s' = _partition s -> _cluster_begin_lba s' = _cluster_begin_lba s -> _fat_begin_lba s' = _fat_begin_lba s ->
  root_cluster (f_mem s') (_partition s) = root_cluster (f_mem s) (_partition s) ->
  on_disk s text root l d j -> on_disk s' text root l d j.
Proof.
  intros Ep Ec Ef Er [D1 D2 D3 D4 D5 D6 D7].
  assert (forall c, fat_read disk s c = fat_read disk s' c) as Hf by (intros; unfold fat_read; by rewrite Ef).
  assert (forall n k, entry_field disk s' n d j k = entry_field disk s n d j k) as He
    by (intros; unfold entry_field; by rewrite Ec).
  split; [| done | by rewrite (search_same disk s s') | | done | |].
  - rewrite Ep, Er. by eapply clusters_ext.
  - unfold entry_cluster. rewrite !He. by eapply clusters_ext.
  - unfold entry_size. by rewrite He.
  - unfold entry_size. by rewrite He.
Qed.

Lemma on_disk_again s text root l d j : on_disk s text root l d j -> on_disk s (entry_name disk s d j) root l d j.
Proof. intros [D1 D2 D3 D4 D5 D6 D7]. split; try done. by eapply search_again. Qed.

Lemma on_disk_text s text root l d j : on_disk s text root l d j -> (length text <= 10)%nat.
Proof.
  intros Hd. pose proof (search_starts disk s text root d j (od_found _ _ _ _ _ _ Hd)) as Ht.
  unfold starts_with in Ht. rewrite bool_decide_eq_true in Ht. rewrite <- Ht, length_take.
  pose proof (entry_name_length disk s d j). lia.
Qed.

(** An owned block more. *)
Lemma fs_ok_insert own s p n :
  fs_ok own s -> own !! p = None -> p ∈ live (f_heap s) -> extent (f_heap s) p = n -> fs_ok (<[p := n]> own) s.
Proof.
  intros [D1 D2 D3 D4 D5] Hno Hl He. split; try done.
  - intros q k. rewrite lookup_insert. case_decide as Eq; [intros [= <-]; by subst | apply D2].
  - intros b Hb. destruct (D5 b Hb) as [|(q & k & Hq & Hin)]; [by left |].
    right. exists q, k. rewrite lookup_insert_ne; [done | congruence].
Qed.

(** A root directory is read from the volume's record. *)
Lemma root_kept own lo hi s s' :
  fs_ok own s -> fs_same own lo hi s s' -> hi <= lo \/ hi <= _partition s \/ _partition s + 90 <= lo ->
  root_cluster (f_mem s') (_partition s) = root_cluster (f_mem s) (_partition s).
Proof.
  intros Hs [_ _ _ Hm] Hr. unfold root_cluster. apply load_ext. intros b Hb.
  apply Hm; [apply (fo_safe own s Hs) |]; lia.
Qed.

Lemma on_disk_kept own s s' text root l d j :
  fs_ok own s -> fs_same own 0 0 s s' -> on_disk s text root l d j -> on_disk s' text root l d j.
Proof.
  intros Hs Hsame. pose proof (root_kept own 0 0 s s' Hs Hsame (or_introl (Z.le_refl 0))) as Hr.
  destruct Hsame as [A B C _]. by apply on_disk_same.
Qed.

Context (fuel : nat) (text root l : list Z) (d j : Z).
Context (Hfuel : (10 < fuel)%nat) (Hroot : (length root <= fuel)%nat) (Hl : (length l <= fuel)%nat).

(** The search. *)
Lemma find_on_disk (more : nat) own s name :
  fs_ok own s -> on_disk s text root l d j -> cstr (f_mem s) name text ->
  (forall b, name <= b <= name + Z.of_nat (length text) -> safe own b) -> budget (S (length root + more)) (f_heap s) ->
  exists file s', find_file disk fuel name s = Some (file, s') /\
    returned disk own s d j file s' /\ budget more (f_heap s') /\ on_disk s' text root l d j.
Proof.
  intros Hs Hd Hname Hsafe Hb. pose proof (on_disk_text _ _ _ _ _ _ Hd) as Hlen.
  pose proof (find_file_run disk own s root fuel more Hs (od_root_first _ _ _ _ _ _ Hd) Hroot name text Hb
    (od_root _ _ _ _ _ _ Hd) Hname ltac:(lia) Hsafe ltac:(lia)) as Hrun.
  rewrite (od_found _ _ _ _ _ _ Hd) in Hrun. destruct Hrun as (file & s' & E & Hret & Hbud).
  exists file, s'. split_and!; [done | done | done |]. eapply on_disk_kept; [exact Hs | apply Hret | done].
Qed.

(** The buffer and the reading of the file. *)
Lemma read_on_disk own s file :
  fs_ok own s -> on_disk s text root l d j -> entry_copy disk s d j file (f_mem s) ->
  budget (S (length l)) (f_heap s) ->
  exists buffer s1 s2, alloc_buffer (uint32_t (file_size (f_mem s) file + spc s * bps s)) s = Some (buffer, s1) /\
    read_file disk fuel (first_cluster (f_mem s1) file) buffer s1 = Some s2 /\
    holds_clusters disk s l buffer (f_mem s2) /\
    0xC0000000 <= buffer /\ buffer + 512 * Z.of_nat (length l) < 2 ^ 64.
Proof.
  intros Hs Hd Hcopy Hb. destruct (dir_entry_fields disk s d j file (f_mem s) Hcopy) as [-> Ecl].
  destruct (od_size _ _ _ _ _ _ Hd) as [Hfit Hmax]. pose proof (od_width _ _ _ _ _ _ Hd) as Hw.
  assert (0 < Z.of_nat (length l)) as Hl1 by (pose proof (od_chain _ _ _ _ _ _ Hd) as Hc; inversion Hc; simpl; lia).
  rewrite (fo_spc _ _ Hs), (fo_bps _ _ Hs). unfold uint32_t, uwrap. rewrite Z.mod_small by lia.
  replace (entry_size disk s d j + 1 * 512) with (entry_size disk s d j + 512) by lia.
  set (size := entry_size disk s d j + 512) in *.
  assert (0 < size) as Hpos by lia.
  destruct (budget_kmalloc _ _ size (fo_heap _ _ Hs) Hb (conj Hpos Hmax)) as (buffer & h & Ek & Hbud).
  destruct (fresh_block own _ _ _ _ (fo_heap _ _ Hs) (fo_owns _ _ Hs) Hpos Ek) as (Hh & Ho & _ & Hlive & Hext & Hno & Hun).
  destruct (kmalloc_extent _ _ _ _ (fo_heap _ _ Hs) Hpos Ek) as (Hlo & Hhi & _ & _).
  assert (fs_ok own (set_heap h s)) as Hs1.
  { eapply (fs_ok_same own 0 0 s); [done | by split | done | done | lia]. }
  pose proof (fs_ok_insert own (set_heap h s) buffer size Hs1 Hno Hlive Hext) as Hs2.
  destruct (volume_apart own s buffer size Hs Hpos Hun) as [Hv|Hv].
  all: destruct (read_file_run disk (<[buffer := size]> own) (set_heap h s) l fuel 0 Hs2 (od_first _ _ _ _ _ _ Hd) Hl
    (entry_cluster disk s d j) buffer (od_chain _ _ _ _ _ _ Hd)) as (s2 & E2 & Hcl & _);
    [by rewrite Nat.add_0_r | lia | lia | (left; cbn [_partition set_heap]; lia) || (right; cbn [_partition set_heap]; lia)
    | intros b Hb'; right; exists buffer, size; rewrite lookup_insert_eq; split; [done | lia] |].
  all: exists buffer, (set_heap h s), s2; unfold alloc_buffer; rewrite Ek; split_and!; [done | | exact Hcl | lia | lia].
  all: change (f_mem (set_heap h s)) with (f_mem s); by rewrite Ecl.
Qed.

End image.

(** * The change of program *)

(** The clusters of [l] hold an executable of [len] bytes, wherever they are read to
    above 3 GiB, whose segments take [pages] pages. *)
Definition executable_file (disk : Z -> Z -> Z) {H : Type} `{Allocator H} (s : fsys (H := H)) (l : list Z)
    (fuel : nat) (len pages : Z) : Prop :=
  forall m b, 0xC0000000 <= b -> b + 512 * Z.of_nat (length l) < 2 ^ 64 -> holds_clusters disk s l b m ->
    is_executable m b /\ loadable m b len /\ pages_from m b (Z.to_nat (phnum m b)) 0 = pages /\ phnum m b < Z.of_nat fuel.

Lemma holds_clusters_same (disk : Z -> Z -> Z) {H : Type} `{Allocator H} (s s' : fsys (H := H)) l b m :
  _cluster_begin_lba s' = _cluster_begin_lba s -> holds_clusters disk s' l b m -> holds_clusters disk s l b m.
Proof. intros E Hc i c k Hi Hk. rewrite (Hc i c k Hi Hk). unfold cluster_byte. by rewrite E. Qed.

(** Memory below 3 GiB is not what the file system keeps. *)
Lemma fs_ok_low {H : Type} `{SizedAllocator H, !HeapBudget H} (own : gmap Z Z) (s : fsys (H := H)) (m : mem) :
  fs_ok own s -> 0xC0000000 <= _partition s ->
  (forall a, ~ (0 <= a < 0xC0000000) -> load8 m a = load8 (f_mem s) a) ->
  fs_ok own (upd (fun _ => m) s) /\ root_cluster m (_partition s) = root_cluster (f_mem s) (_partition s).
Proof.
  intros [A1 A2 A3 A4 A5] Hp Hm. split; [split; try done |].
  - rewrite <- A3. unfold bps, bytes_per_sector. cbn [f_mem upd _partition]. apply load_ext. intros b Hb. apply Hm. lia.
  - rewrite <- A4. unfold spc, sectors_per_cluster. cbn [f_mem upd _partition]. apply Hm. lia.
  - unfold root_cluster. apply load_ext. intros b Hb. apply Hm. lia.
Qed.

(** The loader on a file of the disk. *)
Lemma load_from_disk (disk : Z -> Z -> Z) {H : Type} `{SizedAllocator H, !HeapBudget H} {P : Type} `{UserPages P}
  (own : gmap Z Z) (fuel : nat) (s : fsys (H := H)) (p : P) (name : Z) (text root l : list Z) (d j len pages : Z) :
  0xC0000000 <= fst area /\ snd area < 2 ^ 64 -> fs_ok own s ->
  on_disk disk s text root l d j -> cstr (f_mem s) name text ->
  (forall b, name <= b <= name + Z.of_nat (length text) -> safe own b) ->
  budget (S (length root + S (length l))) (f_heap s) ->
  executable_file disk s l fuel len pages -> pages_left p pages ->
  (10 < fuel)%nat -> (length root <= fuel)%nat -> (length l <= fuel)%nat ->
  exists m b s' p', holds_clusters disk s l b m /\ 0xC0000000 <= b /\ b + 512 * Z.of_nat (length l) < 2 ^ 64 /\
    load_executable disk fuel name s p = Some (e_entry m b, s', p') /\
    forall i, loaded m b i -> has_segment m b (f_mem s') i /\ forall a, in_pages m b i a -> backed p' a.
Proof.
  intros Harea Hs Hd Hname Hsafe Hbud Hexe Hleft Hfuel Hroot Hl.
  destruct (find_on_disk disk fuel text root l d j Hfuel Hroot Hl (S (length l)) own s name Hs Hd Hname Hsafe Hbud)
    as (file & s1 & E1 & Hret & Hb1 & Hd1).
  destruct Hret as [Hcopy Hs1 Hsame1 Hfile _ _ _ _].
  assert (entry_copy disk s1 d j file (f_mem s1)) as Hcopy1.
  { intros k Hk. rewrite Hcopy by done. unfold cluster_byte. by rewrite (fm_cluster _ _ _ _ _ Hsame1). }
  destruct (read_on_disk disk Harea fuel text root l d j Hfuel Hroot Hl own s1 file Hs1 Hd1 Hcopy1 Hb1)
    as (b & s2 & s3 & E2 & E3 & Hcl & Hb & Hlim).
  pose proof (holds_clusters_same disk s s1 l b (f_mem s3) (fm_cluster _ _ _ _ _ Hsame1) Hcl) as Hcl'.
  destruct (Hexe (f_mem s3) b Hb Hlim Hcl') as (Hexec & Hld & Hcount & Hphnum).
  destruct (load_executable_run disk fuel name file b len s s1 s2 s3 p E1 ltac:(lia) E2 E3 Hexec Hld
    ltac:(by rewrite Hcount) Hphnum) as (s' & p' & E & _ & Hseg & _).
  exists (f_mem s3), b, s', p'. by split_and!.
Qed.

(** What the clusters hold does not depend on the moment. *)
Lemma executable_file_same (disk : Z -> Z -> Z) {H : Type} `{Allocator H} (s s' : fsys (H := H)) l fuel len pages :
  _cluster_begin_lba s' = _cluster_begin_lba s -> executable_file disk s l fuel len pages ->
  executable_file disk s' l fuel len pages.
Proof. intros E Hx m b Hb Hlim Hm. apply Hx; [done | done |]. by eapply holds_clusters_same. Qed.


(** * A concrete run *)

(** The volume and the heap of a kernel at 3 GiB, on the disk of Elf.v. *)
Definition high_fs : fsys (H := sized_bump) :=
  Fsys (store8 0xC0009000 65 (store 4 (0xC0001000 + 44) 2 (store 2 (0xC0001000 + 11) 512 (store8 (0xC0001000 + 13) 1 ∅))))
    (SizedBump 0xC0100000 ∅) 0xC0001000 80 200 100 [].

Lemma high_fs_ok : fs_ok ∅ high_fs.
Proof.
  split; [split; [by vm_compute |] | done | by vm_compute | by vm_compute |].
  - intros p n Hp. simpl in Hp. by rewrite lookup_empty in Hp.
  - intros b Hb. apply low_safe. change (_partition high_fs) with 0xC0001000 in Hb. lia.
Qed.

Lemma small_clusters c : 0 <= c < 128 -> Forall in_buffer [c].
Proof. intros Hc. apply in_buffer_list. constructor; [done | constructor]. Qed.

Lemma high_on_disk : on_disk elf_disk high_fs [65] [2] [3] 2 0.
Proof.
  assert (entry_cluster elf_disk high_fs 2 0 = 3) as E by (vm_compute; reflexivity).
  assert (entry_size elf_disk high_fs 2 0 = 124) as Es by (vm_compute; reflexivity).
  split; rewrite ?E, ?Es.
  - change (root_cluster _ _) with 2. constructor. vm_compute. discriminate.
  - apply small_clusters. lia.
  - vm_compute. reflexivity.
  - constructor. vm_compute. discriminate.
  - apply small_clusters. lia.
  - split; vm_compute; discriminate.
  - lia.
Qed.

Section high_image.
Context (m : mem) (b : Z) (Hb : 0xC0000000 <= b) (Hlim : b + 512 < 2 ^ 64).
Context (Hm : holds_clusters elf_disk high_fs [3] b m).

Lemma high_byte k : 0 <= k < 512 -> load8 m (b + k) = elf_disk 201 k mod 256.
Proof.
  intros Hk. change (elf_disk 201 k mod 256) with (cluster_byte elf_disk high_fs 3 k).
  rewrite <- (Hm 0%nat 3 k eq_refl Hk). f_equal. lia.
Qed.

Lemma high_load n k : 0 <= k -> k + Z.of_nat n <= 512 -> load n m (b + k) = disk_load elf_disk n 201 k.
Proof. apply disk_load_run. exact high_byte. Qed.

Lemma high_fields :
  phnum m b = 1 /\ phdr m b 0 = b + 64 /\ e_phoff m b = 64 /\
  p_type m (b + 64) = 1 /\ p_offset m (b + 64) = 120 /\ p_vaddr m (b + 64) = 0x400000 /\
  p_filesz m (b + 64) = 4 /\ p_memsz m (b + 64) = 8.
Proof.
  assert (e_phoff m b = 64) as Eh by (unfold e_phoff; rewrite high_load by lia; by vm_compute).
  unfold phnum, e_phnum, phdr, p_type, p_offset, p_vaddr, p_filesz, p_memsz. rewrite Eh, <- !Z.add_assoc, !high_load by lia.
  split_and!; by vm_compute.
Qed.

Lemma high_executable : is_executable m b.
Proof.
  unfold is_executable, e_type, e_machine, e_version, e_ident. rewrite !high_load by lia.
  split; [| split; [by vm_compute | split; by vm_compute]].
  cbn [fmap list_fmap]. rewrite !high_byte by lia. by vm_compute.
Qed.

Lemma high_loadable : loadable m b 512.
Proof.
  destruct high_fields as (En & Ep & Eh & Et & Eo & Ev & Ef & Em).
  assert (forall i, loaded m b i -> i = 0) as H0 by (intros i [Hi _]; rewrite En in Hi; lia).
  assert (seg_pages m b 0 = 1) as Es by (unfold seg_pages; rewrite Ep, Em; reflexivity).
  split; [lia | rewrite En, Eh; unfold sizeof_phdr; lia | ..]; unfold in_pages.
  1-4: intros i ->%H0; rewrite ?Ep, ?Es, ?Eo, ?Ev, ?Ef, ?Em; div_lia.
  - intros i a ->%H0 Ha. rewrite Ep, Es, Ev. change (0x400000 / 4096) with 0x400.
    pose proof (Z.div_mod a 4096). pose proof (Z.mod_pos_bound a 4096). lia.
Qed.

End high_image.

Lemma high_executable_file : executable_file elf_disk high_fs [3] 11 512 1.
Proof.
  intros m b Hb Hlim Hm. destruct (high_fields m b Hm) as (En & Ep & _ & Et & _ & _ & _ & Em).
  split_and!; [by apply high_executable | by apply high_loadable | | rewrite En; lia].
  rewrite En. change (Z.to_nat 1) with 1%nat. cbn [pages_from]. unfold seg_pages. rewrite Ep, Et, Em. reflexivity.
Qed.

(** Its only segment. *)
Lemma high_segment m b m' :
  holds_clusters elf_disk high_fs [3] b m ->
  loaded m b 0 /\ e_entry m b = 0x400000 /\ (has_segment m b m' 0 -> load8 m' 0x400002 = 0xEB) /\ in_pages m b 0 0x400002.
Proof.
  intros Hm. destruct (high_fields m b Hm) as (En & Ep & Eh & Et & Eo & Ev & Ef & Em). split_and!.
  - by split; [rewrite En; lia | rewrite Ep].
  - unfold e_entry. by rewrite (high_load m b Hm) by lia.
  - intros Hbytes. specialize (Hbytes 2). rewrite Ep, Ev, Ef, Eo in Hbytes. change 0x400002 with (0x400000 + 2).
    rewrite Hbytes; [| lia | intros i [Hi _]; lia]. rewrite <- !Z.add_assoc, (high_byte m b Hm) by lia. by vm_compute.
  - unfold in_pages, seg_pages. rewrite Ep, Ev, Em. change (0x400000 / 4096) with 0x400.
    change (8 / 4096) with 0. change (0x400002 / 4096) with 0x400. lia.
Qed.

