(* ===== verification/UserPaging.v ===== *)
(** The pages of programs come from [alloc_page] (kernel/memman.c): the interface that the
    loader (Elf.v) is proved against, implemented by the page tables of Paging.v. *)

From S2P Require Import Prelude Words Console Allocator Memory CLib FrameMap FrameAlloc Paging PageTree Isolation Fat32 Elf Exec ExecDisk.
#[local] Open Scope Z_scope.

(** * Unaligned addresses *)

(** The tables and the entry depend on the number of the page only. *)
Lemma create_page_same a b user s : a_frame a = a_frame b -> create_page_for_current a user s = create_page_for_current b user s.
Proof.
  intros E. destruct (a_frame_indices_inj a b E) as (E1 & E2 & E3 & E4).
  unfold create_page_for_current. by rewrite E, E1, E2, E3.
Qed.

Lemma map_new_page_same a b user s : a_frame a = a_frame b -> map_new_page a user s = map_new_page b user s.
Proof. intros E. unfold map_new_page. destruct (mem_alloc_block (vm_man s)) as [block man]. by rewrite (create_page_same a b). Qed.

Lemma map_new_pages_same n : forall a b user s,
  0 <= a -> 0 <= b -> a / 4096 = b / 4096 -> a + Z.of_nat n * 4096 < 2 ^ 48 -> b + Z.of_nat n * 4096 < 2 ^ 48 ->
  map_new_pages n a user s = map_new_pages n b user s.
Proof.
  induction n as [|n IH]; intros a b user s Ha Hb E Hla Hlb; [done |]. cbn [map_new_pages].
  rewrite (map_new_page_same a b) by (rewrite !a_frame_div by lia; done).
  destruct (map_new_page b user s) as [[s1|]|]; [| done..]. cbn [mbind option_bind].
  rewrite !uint64_id by lia. apply IH; [lia | lia | div_lia | lia | lia].
Qed.

(** * The implementation *)

Section pages.
(** [fresh v a] is the byte that the frame of address [a] holds when [v] has just mapped
    it: new frames are not cleared. *)
Context (fresh : vm -> Z -> Z).

(** Memory as the program sees it, after the tables went from [v] to [v']: a byte whose
    translation changed is that of the new frame. *)
Definition remapped (v v' : vm) (lo n : Z) (m : mem) : mem :=
  for_range 0 n (fun k m =>
    if decide (translate (vm_phys v') (vm_cr3 v') (lo + k) = translate (vm_phys v) (vm_cr3 v) (lo + k)) then m
    else store8 (lo + k) (fresh v' (lo + k)) m) m.

Definition user_alloc_page (va n : Z) (v : vm) (m : mem) : option (Z * vm * mem) :=
  '(r, v') ← Paging.alloc_page va n v;
  Some (r, v', remapped v v' (va / 4096 * 4096) (4096 * Z.max 1 n) m).

Definition page_backed (v : vm) (a : Z) : Prop :=
  ordinary a /\ exists F, translate (vm_phys v) (vm_cr3 v) a = Some (F, a mod 4096).

(** The current tables are the window's, and the blocks for [n] pages can be had. *)
Definition user_pages_left (v : vm) (n : Z) : Prop := tree_ok v (vm_cr3 v) /\ enough (4 * Z.to_nat n) (vm_man v).

Lemma remapped_outside v v' lo n m a : ~ (lo <= a < lo + n) -> load8 (remapped v v' lo n m) a = load8 m a.
Proof.
  intros Ha. unfold remapped. destruct (Z.le_gt_cases n 0) as [Hn|Hn].
  { unfold for_range. by replace (Z.to_nat (n - 0)) with 0%nat by lia. }
  apply (for_range_ind (fun _ m' => load8 m' a = load8 m a)); [lia | done |].
  intros k m' Hk IH. destruct (decide _); [done |]. by rewrite load8_store8_ne by lia.
Qed.

Lemma user_alloc_page_done va n k v m :
  0 <= va -> va + 4096 * n < 511 * 2 ^ 39 -> 0 < n -> 0 <= k -> user_pages_left v (n + k) ->
  exists v' m', user_alloc_page va n v m = Some (va, v', m') /\ user_pages_left v' k /\
    (forall a, va / 4096 <= a / 4096 < va / 4096 + n -> page_backed v' a) /\
    (forall a, page_backed v a -> page_backed v' a) /\
    (forall a, ~ (va / 4096 <= a / 4096 < va / 4096 + n) -> load8 m' a = load8 m a).
Proof.
  intros Hva Hlim Hn Hk [Ht Hen]. set (lo := va / 4096 * 4096).
  assert (lo mod 4096 = 0 /\ lo / 4096 = va / 4096 /\ 0 <= lo <= va) as (Hal & Elo & Hlo) by (unfold lo; split_and!; div_lia).
  replace (4 * Z.to_nat (n + k))%nat with (4 * Z.to_nat n + 4 * Z.to_nat k)%nat in Hen by lia.
  destruct (map_new_pages_run (Z.to_nat n) (4 * Z.to_nat k) v (vm_cr3 v) lo 1 Ht ltac:(lia) Hal) as (v' & Fs & E & Hlen & M & Hen');
    [lia | exact Hen |].
  pose proof (md_cr3 _ _ _ _ _ M) as Ec.
  assert (Paging.alloc_page va n v = Some (va, v')) as Ea.
  { unfold Paging.alloc_page. rewrite (proj2 (Z.eqb_neq n 0)) by lia.
    rewrite (map_new_pages_same _ va lo) by (lia || (rewrite Elo; done)). rewrite E. reflexivity. }
  assert (forall a, va / 4096 <= a / 4096 < va / 4096 + n -> page_backed v' a) as Hnew.
  { intros a Ha. assert (lo <= a < lo + n * 4096) as Hin by (unfold lo; div_lia).
    split; [unfold ordinary; lia |]. set (i := Z.to_nat ((a - lo) / 4096)).
    assert (Z.of_nat i = (a - lo) / 4096) as Hi by (unfold i; div_lia).
    destruct (lookup_lt_is_Some_2 Fs i) as [F HF]; [div_lia |]. exists F. rewrite Ec.
    rewrite <- (md_here _ _ _ _ _ M i F (a mod 4096) HF) by (apply Z.mod_pos_bound; lia). f_equal. rewrite Hi. div_lia. }
  exists v', (remapped v v' lo (4096 * Z.max 1 n) m). split; [| split; [| split; [exact Hnew | split]]].
  - unfold user_alloc_page. rewrite Ea. reflexivity.
  - split; [rewrite Ec; apply M | exact Hen'].
  - intros a [Ha [F HF]]. destruct (decide (va / 4096 <= a / 4096 < va / 4096 + n)) as [Hin|Hout]; [by apply Hnew |].
    split; [done |]. exists F. rewrite Ec, <- HF. apply (md_elsewhere _ _ _ _ _ M); [exact Ha |]. rewrite Hlen. unfold lo. div_lia.
  - intros a Ha. apply remapped_outside. unfold lo. div_lia.
Qed.

Definition vm_user_pages : UserPages vm := {|
  Elf.alloc_page := user_alloc_page;
  backed := page_backed;
  pages_left := user_pages_left;
  alloc_page_done := user_alloc_page_done
|}.

End pages.

(** * The loader on page tables *)


