(* ===== verification/Debug.v ===== *)
(** What the kernel reports about its structures: the handler of page faults and
    [debug_address] (kernel/memman.c), the debug functions of kernel/elf.c,
    kernel/kheap.c, kernel/scheduler.c and the list of a directory (kernel/fat32.c).
    They change nothing; each definition is the sequence of its calls of [puts],
    [puthex] and [putint]. *)

From S2P Require Import Prelude Words Console Allocator Memory CLib OrderedArray KHeap Interrupts Scheduler FrameAlloc Paging Fat32 Elf.
#[local] Open Scope Z_scope.

(** A label with a number, and a line of them. *)
Definition field (label : string) (v : Z) : list out := [Puts label; Puthex v].
Definition field_line (label : string) (v : Z) : list out := [Puts label; Puthex v; Puts nl].

(** * Page faults *)

(** The calls before the endless loop; [faulting_address] is what [cr2] holds. *)
Definition page_fault_handler_out (pid faulting_address : Z) (regs : registers_t) : list out :=
  let flag (bit : Z) (str : string) := if Z.land (err_code regs) bit =? 0 then [] else [Puts str] in
  [Puts "Task: "; Putint pid; Puts " @ RIP: "; Puthex (uint64_t (rip regs)); Puts (nl +:+ "Page fault (")]
  ++ (if Z.land (err_code regs) 1 =? 0 then [Puts "not present "] else [])
  ++ flag 2 "read-only " ++ flag 4 "user-mode " ++ flag 8 "reserved "
  ++ [Puts ")! At "; Puthex faulting_address; Puts nl].

Definition debug_address (a : Z) : list out :=
  [Puts "Debug "; Puthex a; Puts (":" +:+ nl)]
  ++ field "PML4: " (a_pml4 a) ++ field " PDP: " (a_pdp a) ++ field " PD: " (a_pd a) ++ field " PT: " (a_pt a)
  ++ field_line " Offset: " (a_offset a) ++ field_line "Physical frame: " (a_frame a).

(** * Tasks *)

Definition debug_task (tsk : task) : list out :=
  field "PID: " (pid tsk) ++ field " RIP: " (t_rip tsk) ++ field " RSP: " (t_rsp tsk) ++ field_line " Next: " (next tsk).

(** * The heap *)

Definition heap_debug (n : Z) (m : mem) (heap : Z) : list out :=
  (if n =? 0 then [Puts "[ALLOC] "] else if n =? 1 then [Puts "[FREE] "] else [])
  ++ field "start: " (start_address m heap) ++ field " end: " (end_address m heap) ++ field_line " max: " (max_address m heap).

Definition print_index_entry (m : mem) (heap i : Z) : list out :=
  let header := load64 m (arr_array m heap + 8 * i) in
  [Puts "Header "; Putint i] ++ field " position: " header ++ field " magic: " (hdr_magic m header)
  ++ [Puts " is_hole: "; Putint (hdr_is_hole m header)] ++ field_line " size: " (hdr_size m header).

Definition print_index (m : mem) (heap : Z) : list out :=
  for_range 0 (arr_size m heap) (fun i l => l ++ print_index_entry m heap i) [].

(** * Executables *)

(** The fields that only these functions read. *)
Definition e_shoff (m : mem) (h : Z) : Z := load 8 m (h + 40).
Definition e_flags (m : mem) (h : Z) : Z := load 4 m (h + 48).
Definition e_ehsize (m : mem) (h : Z) : Z := load 2 m (h + 52).
Definition e_phentsize (m : mem) (h : Z) : Z := load 2 m (h + 54).
Definition e_shentsize (m : mem) (h : Z) : Z := load 2 m (h + 58).
Definition e_shnum (m : mem) (h : Z) : Z := load 2 m (h + 60).
Definition e_shstrndx (m : mem) (h : Z) : Z := load 2 m (h + 62).
Definition p_flags (m : mem) (p : Z) : Z := load 4 m (p + 4).
Definition p_paddr (m : mem) (p : Z) : Z := load 8 m (p + 24).
Definition p_align (m : mem) (p : Z) : Z := load 8 m (p + 48).

(** [Elf64_Shdr], packed. *)
Definition sh_name (m : mem) (h : Z) : Z := load 4 m h.
Definition sh_type (m : mem) (h : Z) : Z := load 4 m (h + 4).
Definition sh_flags (m : mem) (h : Z) : Z := load 8 m (h + 8).
Definition sh_vaddr (m : mem) (h : Z) : Z := load 8 m (h + 16).
Definition sh_offset (m : mem) (h : Z) : Z := load 8 m (h + 24).
Definition sh_size (m : mem) (h : Z) : Z := load 8 m (h + 32).
Definition sh_link (m : mem) (h : Z) : Z := load 4 m (h + 40).
Definition sh_info (m : mem) (h : Z) : Z := load 4 m (h + 44).
Definition sh_addralign (m : mem) (h : Z) : Z := load 8 m (h + 48).
Definition sh_entsize (m : mem) (h : Z) : Z := load 8 m (h + 56).

Definition debug_elf_header (m : mem) (h : Z) : list out :=
  [Puts "Identification: "; Puts (text m h); Puts nl]
  ++ field_line "Type: " (e_type m h) ++ field_line "Machine: " (e_machine m h) ++ field_line "Version: " (e_version m h)
  ++ field_line "Entry point" (e_entry m h) ++ field_line "Program header offset: " (e_phoff m h)
  ++ field_line "Section header offset: " (e_shoff m h) ++ field_line "Flags: " (e_flags m h)
  ++ field_line "ELF header size: " (e_ehsize m h) ++ field_line "Size of program header entry: " (e_phentsize m h)
  ++ field_line "Number of program header entries: " (e_phnum m h)
  ++ field_line "Size of section header entries: " (e_shentsize m h)
  ++ field_line "Number of section header entries: " (e_shnum m h)
  ++ field_line "Section name string table index: " (e_shstrndx m h).

Definition debug_program_header (m : mem) (h : Z) : list out :=
  [Puts ("-- Program header --" +:+ nl)]
  ++ field_line "Type: " (p_type m h) ++ field_line "Flags: " (p_flags m h) ++ field_line "Offset in file: " (p_offset m h)
  ++ field_line "Virtual address: " (p_vaddr m h) ++ field_line "Reserved: " (p_paddr m h)
  ++ field_line "Segment size in file: " (p_filesz m h) ++ field_line "Segment size in mem: " (p_memsz m h)
  ++ field_line "Alignment: " (p_align m h).

Definition debug_section_header (m : mem) (h : Z) : list out :=
  [Puts ("-- Section header --" +:+ nl)]
  ++ field_line "Name: " (sh_name m h) ++ field_line "Type: " (sh_type m h) ++ field_line "Flags: " (sh_flags m h)
  ++ field_line "Virtual address: " (sh_vaddr m h) ++ field_line "Offset in file: " (sh_offset m h)
  ++ field_line "Size of section: " (sh_size m h) ++ field_line "Link: " (sh_link m h) ++ field_line "Misc info: " (sh_info m h)
  ++ field_line "Alignment: " (sh_addralign m h) ++ field_line "Size of entries in section table: " (sh_entsize m h).

(** * Directories *)

(** [dir_entry] of fat32.h. *)
Definition attribute (m : mem) (d : Z) : Z := load8 m (d + 11).

Definition put_dir_entry (m : mem) (dir i : Z) : list out :=
  let entry := dir + sizeof_dir_entry * i in
  if (negb (attribute m entry =? 0x0F) || negb (attribute m entry =? 0x10))%bool then [Puts (text m entry); Puts nl] else [].

Definition put_dir (m : mem) (dir size : Z) : list out :=
  Puts ("Files in dir:" +:+ nl) :: for_range 0 size (fun i l => l ++ put_dir_entry m dir i) [].

(** * Proofs *)

(** The output of a loop, round by round. *)
Lemma for_range_output (f : Z -> list out) n :
  0 <= n -> for_range 0 n (fun i l => l ++ f i) [] = concat (f <$> seqZ 0 n).
Proof.
  intros Hn. apply (for_range_ind (fun k l => l = concat (f <$> seqZ 0 k))); [lia | done |].
  intros k l Hk ->. rewrite seqZ_app by lia. rewrite fmap_app, concat_app. simpl. by rewrite app_nil_r.
Qed.

(** No attribute keeps an entry from the list: long names and directories are in it, and
    so are free entries. *)
Theorem put_dir_lists_all (m : mem) (dir size : Z) :
  0 <= size ->
  put_dir m dir size =
    Puts ("Files in dir:" +:+ nl) :: concat ((fun i => [Puts (text m (dir + 32 * i)); Puts nl]) <$> seqZ 0 size).
Proof.
  intros Hs. unfold put_dir. f_equal. rewrite for_range_output by done. f_equal. apply list_fmap_ext. intros i x _.
  unfold put_dir_entry, sizeof_dir_entry. by destruct (Z.eqb_spec (attribute m (dir + 32 * x)) 15) as [->|].
Qed.

(** The index of the heap is printed in its order, one line a hole. *)
Lemma print_index_run m heap :
  print_index m heap = concat (print_index_entry m heap <$> seqZ 0 (arr_size m heap)).
Proof. apply for_range_output, load_bounds. Qed.
