(* ===== verification/KernelEntry.v ===== *)
(** The start of the kernel (kernel/main.c): the descriptor tables, the file system, the
    interrupt controllers, the handlers, the locks, the kernel's own task and the fork of the
    first process, and that the interrupts that are set up reach their handlers. The calls of
    [memman_init] and [kheap_init] in between are [boot_memory] of Boot.v; here the memory is
    up, with the heap behind its interface. *)

From S2P Require Import Prelude Words Console Memory CLib Monitor Descriptors Keyboard Devices Allocator Fat32 FrameMap FrameAlloc Paging PageTree Clone CloneTree ClonePool Interrupts Scheduler Locking Processes.
#[local] Open Scope Z_scope.

(** * The state *)

(** The parts that [kernel_entry] sets up. The heap of [k_fs] and of [k_machine] is one: it
    is handed from one to the other. *)
Record kernel {H K : Type} `{Allocator H} := Kernel {
  k_screen : monitor;
  k_out : list out;                   (** what [kernel_entry] itself prints *)
  k_tables : tables;
  k_idt : gmap Z idt_descriptor;
  k_handlers : handler_table;
  k_fs : fsys (H := H);
  k_devices : Devices.machine;
  k_locks : lockstate;
  k_monitor_lock : Z;
  k_keyboard : kbd;
  k_keyboard_lock : Z;
  k_machine : machine H K
}.
Arguments kernel H K {_}.

(** * Operations *)

(** The two arms of [if (fork_kernel() == 0)]: the first process executes the shell, the
    kernel's task halts for ever. *)
Inductive entry_end :=
  | Executes_shell
  | Idles.

Definition after_fork (v : Z) : entry_end := if v =? 0 then Executes_shell else Idles.

(** The calls of [brute_create_page] that Devices.v lists, on the page tables. *)
Definition map_calls (l : list (Z * Z * Z * Z)) (s : vm) : option vm :=
  foldl (fun s '(physical, virtual, size, user) => s ← s; snd <$> brute_create_page physical virtual size user s) (Some s) l.

Section entry.
(** The disk; the addresses of [gdt], [tss_entry] and the interrupt stubs; what the stack
    held where [ioapic_init] leaves fields unwritten, and the memory of a new task. *)
Context (disk : Z -> Z -> Z) (gdt_addr tss_addr : Z) (isr : Z -> Z) (stack_low stack_high : Z) (stale : Z -> task).
Context {H : Type} `{Allocator H} {K : Type} `{PageSource K}.

(** [ret] and [rip] are the return address of [fork_kernel] and that of its [read_rip]. *)
Definition kernel_entry (ret rip : Z) (k : kernel H K) : option (ending * kernel H K) :=
  let m := k_machine k in
  let screen := clear_screen (k_screen k) in
  let out := k_out k ++ [Putsln "Kernel loaded."] in
  tables ← gdt_install gdt_addr tss_addr (k_tables k);
  let out := out ++ [Putsln "GDT initialised."] in
  let idt := idt_install isr (k_idt k) in
  let out := out ++ [Putsln "IDT initialised."] in
  (* [memman_init] registers the first handler *)
  handlers ← register_handler 0x0E page_fault_handler (k_handlers k);
  fs ← fat32_init disk (set_heap (m_heap m) (k_fs k));
  let devices := ioapic_init stack_low stack_high (apic_init (k_devices k)) in
  v ← map_calls (drop (length (pages (k_devices k))) (pages devices)) (m_vm m);
  handlers ← register_handler 0x21 keyboard_handler handlers;
  handlers ← register_handler 0xD gpf_handler handlers;
  handlers ← syscalls_init handlers;
  let devices := timer_init 0x20 0x002fffff 0xB 1 devices in
  '(h, handlers, s) ← scheduler_init (get_current_pml4 v) (f_heap fs) handlers (m_sched m);
  '(monitor_lock, locks) ← register_lock (k_locks k);
  '(keyboard_lock, locks) ← register_lock locks;
  '(r, m) ← fork_kernel stale ret rip (Machine _ _ h (m_pages m) v s (kernel_fork_ret m));
  Some (r, Kernel _ _ _ screen out tables idt handlers (set_heap (m_heap m) fs) devices locks monitor_lock
    keyboard_init keyboard_lock m).

End entry.

(** * Proofs *)

(** The static variables before [scheduler_init]. *)
Definition no_tasks : sched := Sched 0 0 0 ∅ false.

Lemma first_task_ok a cr3 : a <> 0 -> sched_ok (Sched a a 1 {[a := Task 0 0 0 0 cr3 0 0]} true) [a].
Proof.
  intros Ha. split; cbn [tasks task_list current_task next_pid].
  - split; [done |]. split; [done |]. eexists. split; [apply lookup_singleton_eq | done].
  - apply NoDup_singleton.
  - apply list_elem_of_here.
  - apply NoDup_singleton.
  - intros b t ->%list_elem_of_singleton. rewrite lookup_singleton_eq. intros [= <-]. cbn [pid]. lia.
Qed.

Lemma register_handler_run n f t : 0 <= n < 255 -> register_handler n f t = Some (<[n := f]> t).
Proof.
  intros Hn. unfold register_handler, MAX_HANDLERS. by rewrite (proj2 (Z.leb_le 0 n)), (proj2 (Z.ltb_lt n 255)) by lia.
Qed.

(** ** The interrupts *)

(** The vectors with a handler. *)
Definition handled : list (Z * isr_t) :=
  [(0x0E, page_fault_handler); (0x0D, gpf_handler); (0x20, switch_task_isr); (0x21, keyboard_handler); (0x80, syscall_handler_isr)].

(** An interrupt of vector [v] enters the vector's stub through a present gate, which only
    for system calls is open to user programs, and [isr_handler] calls [f]. *)
Record wired (isr : Z -> Z) (idt : gmap Z idt_descriptor) (handlers : handler_table) (v : Z) (f : isr_t) : Prop := {
  wd_present : gate_present (gate_word (idt_at idt v)) = 1;
  wd_offset : gate_offset (gate_word (idt_at idt v)) = isr v mod 2 ^ 64;
  wd_dpl : gate_dpl (gate_word (idt_at idt v)) = if v =? 0x80 then 3 else 0;
  wd_dispatch regs : int_no regs = v -> exists ack, isr_handler handlers regs = Some (ack ++ [Call_handler f regs])
}.

Lemma wired_run isr idt handlers v f :
  0 <= v < 255 -> idt_target v = Some v -> handlers !! v = Some f -> wired isr (idt_install isr idt) handlers v f.
Proof.
  intros Hv Ht Hf. pose proof (idt_install_spec isr idt v ltac:(unfold IDT_ENTRIES; lia)) as Hg. cbv zeta in Hg. rewrite Ht in Hg.
  destruct Hg as (Ho & _ & _ & _ & Hd & Hp). split; [done | done | done |].
  intros regs Hn. unfold isr_handler, MAX_HANDLERS. rewrite Hn.
  rewrite (proj2 (Z.leb_le 0 v)), (proj2 (Z.ltb_lt v 255)) by lia. cbn [andb]. rewrite Hf. by eexists.
Qed.

(** The handlers that [kernel_entry] registers, in its order. *)
Definition registered (handlers : handler_table) : handler_table :=
  <[0x20 := switch_task_isr]> (<[0x80 := syscall_handler_isr]> (<[0xD := gpf_handler]> (<[0x21 := keyboard_handler]>
    (<[0x0E := page_fault_handler]> handlers)))).

Lemma registered_wired isr idt handlers v f : (v, f) ∈ handled -> wired isr (idt_install isr idt) (registered handlers) v f.
Proof.
  intros Hin. repeat apply elem_of_cons in Hin as [[= -> ->] | Hin]; [apply wired_run; [lia | done | unfold registered; by simplify_map_eq].. | by apply elem_of_nil in Hin].
Qed.

Lemma gdt_install_total gdt_addr tss_addr tb : exists tb', gdt_install gdt_addr tss_addr tb = Some tb'.
Proof.
  unfold gdt_install, tss_set_gate, sizeof_tss.
  destruct (memset_result tss_addr 0 112 (tss_mem tb) ltac:(lia)) as (m & Em & _ & _).
  cbn [upd_gdt gdt gdtr tr tss_mem]. rewrite Em, !bind_Some_eq. by eexists.
Qed.

Lemma timer_ioapic vector counter divider periodic d i : ioapic_reg (timer_init vector counter divider periodic d) i = ioapic_reg d i.
Proof. unfold timer_init. by rewrite !write_apicr_run by lia. Qed.

Lemma apic_pages d : pages (apic_init d) = pages d ++ [(APIC_BASE, APIC_BASE, 1, 0)].
Proof. unfold apic_init, puts_apic_info. rewrite write_apicr_run by lia. unfold enable_apic. by destruct (rdmsr _ _). Qed.

(** What the controllers are told. *)
Lemma devices_run stack_low stack_high (d : Devices.machine) :
  let d1 := ioapic_init stack_low stack_high (apic_init d) in
  let d2 := timer_init 0x20 0x002fffff 0xB 1 d1 in
  drop (length (pages d)) (pages d1) = [(APIC_BASE, APIC_BASE, 1, 0); (IOAPIC_BASE, IOAPIC_BASE, 1, 0)] /\
  apic_reg d2 0x320 = 0x20 + 2 ^ 17 /\
  irq_vector (ioapic_reg d2 0x12) = 0x21 /\ irq_masked (ioapic_reg d2 0x12) = 0.
Proof.
  cbv zeta. set (d1 := ioapic_init stack_low stack_high (apic_init d)).
  destruct (ioapic_init_spec stack_low stack_high (apic_init d)) as (Hv & _ & _ & _ & _ & Hm & _ & _ & Hp). fold d1 in Hv, Hm, Hp.
  split; [by rewrite Hp, apic_pages, <- app_assoc, drop_app_length |]. clearbody d1. pose proof (timer_ioapic 0x20 0x002fffff 0xB 1 d1) as Er.
  split; [by apply (timer_init_spec 0x20 0x002fffff 0xB 1 d1); lia | by rewrite Er].
Qed.

(** C30: the start of the kernel, with the memory up and a disk. The page fault handler and
    the four others are wired to their vectors, of which the timer sends 0x20 and the
    keyboard 0x21; the screen and the keyboard have locks of their own. The kernel makes its
    task with process id 0 and forks process 1. Its task then idles, and the first timer
    interrupt goes to process 1, at its own stack and with its own page tables, where
    [fork_kernel] returns 0 and the shell is executed. *)
Theorem kernel_entry_spec (disk : Z -> Z -> Z) (gdt_addr tss_addr : Z) (isr : Z -> Z) (stack_low stack_high : Z)
  {H : Type} `{Allocator H} {K : Type} `{PageSource K} (stale : Z -> task) (k : kernel H K) (fs : fsys (H := H))
  (a new stack r top ret rip : Z) (h1 h2 : H) (v0 v1 v2 v3 : vm) (p : K) :
  let m := k_machine k in
  m_sched m = no_tasks -> in_range (next_lockid (k_locks k)) = true -> in_range (next_lockid (k_locks k) + 1) = true ->
  fat32_init disk (set_heap (m_heap m) (k_fs k)) = Some fs -> heap_ok (f_heap fs) ->
  kmalloc sizeof_task (f_heap fs) = Some (a, h1) -> kmalloc sizeof_task h1 = Some (new, h2) ->
  map_calls [(APIC_BASE, APIC_BASE, 1, 0); (IOAPIC_BASE, IOAPIC_BASE, 1, 0)] (m_vm m) = Some v0 ->
  alloc_page 0xbffff000 1 v0 = Some (stack, v1) -> alloc_page 0xbfffe000 0 v1 = Some (r, v2) ->
  clone_pml4t (m_pages m) v2 = Some (top, p, v3) ->
  exists k', kernel_entry disk gdt_addr tss_addr isr stack_low stack_high stale ret rip k = Some (Returns 1, k') /\
    (forall v f, (v, f) ∈ handled -> wired isr (k_idt k') (k_handlers k') v f) /\
    apic_reg (k_devices k') 0x320 = 0x20 + 2 ^ 17 /\
    irq_vector (ioapic_reg (k_devices k') 0x12) = 0x21 /\ irq_masked (ioapic_reg (k_devices k') 0x12) = 0 /\
    k_monitor_lock k' <> k_keyboard_lock k' /\ after_fork 1 = Idles /\
    sched_ok (m_sched (k_machine k')) [a; new] /\ current_task (m_sched (k_machine k')) = a /\
    interrupts (m_sched (k_machine k')) = true /\ pid <$> tasks (m_sched (k_machine k')) !! new = Some 1 /\
    forall fuel rsp2 rbp2 rip2 found, (0 < fuel)%nat -> rip2 <> 0x12345 -> found <> new ->
      let sp := uint64_t (stack + 0x1000) in
      exists s3, switch_task fuel rsp2 rbp2 rip2 (m_sched (k_machine k')) = Some (Jump rip sp sp top, s3) /\
        fork_kernel_rest found new 0x12345 (set_sched s3 (k_machine k')) = Some (Jumps ret 0, set_sched s3 (k_machine k')) /\
        after_fork 0 = Executes_shell.
Proof.
  intros m Hm Hl1 Hl2 Efs Hheap E1 E2 Emap Ea1 Ea2 Ec.
  destruct (kmalloc_spec sizeof_task _ _ _ Hheap eq_refl E1) as (Hh1 & Hra & _ & Hl).
  destruct (kmalloc_spec sizeof_task _ _ _ Hh1 eq_refl E2) as (_ & Hrn & Hnl & _).
  assert (a <> 0) as Ha by lia.
  set (m1 := Machine _ _ h1 (m_pages m) v0 (Sched a a 1 {[a := Task 0 0 0 0 (get_current_pml4 v0) 0 0]} true) (kernel_fork_ret m)).
  assert (can_fork m1 [a] new h2) as Hcan.
  { split; cbn [m1 m_sched m_heap next_pid]; [by apply first_task_ok | lia | done | | done].
    intros b ->%list_elem_of_singleton. rewrite Hl. by apply elem_of_union_l, elem_of_singleton. }
  destruct (fork_kernel_run stale m1 [a] new h2 stack r top v1 v2 v3 p ret rip Hcan Ea1 Ea2 Ec)
    as (m' & child & Efork & _ & Hok & Hcur & Hint & _ & Ht & _ & Hpid & Hst & Hresume).
  destruct (devices_run stack_low stack_high (k_devices k)) as (Ep & Hd1 & Hd2 & Hd3).
  destruct (gdt_install_total gdt_addr tss_addr (k_tables k)) as [tb Eg].
  assert (forall l n, in_range n = true -> next_lockid l = n -> exists l', register_lock l = Some (n, l') /\ next_lockid l' = (n + 1)%word) as Hreg.
  { intros l n Hn El. unfold register_lock. rewrite El, Hn. by eexists. }
  destruct (Hreg (k_locks k) _ Hl1 eq_refl) as (l1 & Er1 & El1). assert (0 <= next_lockid (k_locks k) < 16) as Hb
    by (unfold in_range, LOCKING_MAX in Hl1; apply andb_prop in Hl1; lia).
  rewrite uint64_id in El1 by lia. destruct (Hreg l1 _ Hl2 El1) as (l2 & Er2 & _).
  eexists. split.
  { unfold kernel_entry, syscalls_init, scheduler_init. rewrite Eg, bind_Some_eq, (register_handler_run 0x0E), bind_Some_eq by lia.
    fold m. rewrite Efs, bind_Some_eq, Ep, Emap, bind_Some_eq.
    rewrite (register_handler_run 0x21), bind_Some_eq, (register_handler_run 0xD), bind_Some_eq by lia.
    rewrite (register_handler_run 0x80), bind_Some_eq, E1, bind_Some_eq, (register_handler_run 0x20), !bind_Some_eq by lia.
    rewrite Er1, bind_Some_eq, Er2, bind_Some_eq, Hm. change (Machine _ _ h1 _ _ _ _) with m1. rewrite Efork, bind_Some_eq. reflexivity. }
  cbn [k_idt k_handlers k_devices k_monitor_lock k_keyboard_lock k_machine].
  split; [intros v f Hin; by apply registered_wired |]. split; [exact Hd1 |]. split; [exact Hd2 |]. split; [exact Hd3 |].
  split; [lia |]. split; [done |]. split; [exact Hok |]. split; [exact Hcur |]. split; [exact Hint |].
  split; [rewrite Ht; cbn [fmap option_fmap option_map]; by rewrite Hpid |].
  intros fuel rsp2 rbp2 rip2 found Hfuel Hrip2 Hfound.
  destruct (Hresume (m_sched m') [a; new] [] [a] fuel rsp2 rbp2 rip2 (next child) found Hok Hrip2) as (s3 & E3 & Hrest).
  - exists [], [new]. by rewrite Hcur.
  - intros b Hin. by apply elem_of_nil in Hin.
  - rewrite Ht. by destruct child.
  - rewrite Hcur. cbn [m1 m_sched current_task]. intros ->. apply Hnl. rewrite Hl. by apply elem_of_union_l, elem_of_singleton.
  - done.
  - done.
  - by exists s3.
Qed.

(** * A concrete run *)

(** The kernel of Processes.v with its devices mapped, the disk of Fat32.v and no task. *)
Definition entry_vm : vm := default demo_vm (map_calls [(APIC_BASE, APIC_BASE, 1, 0); (IOAPIC_BASE, IOAPIC_BASE, 1, 0)] kernel_vm).
Definition entry_stack : vm := snd (default (0, demo_vm) (alloc_page 0xbffff000 1 entry_vm)).
Definition entry_stacks : vm := snd (default (0, demo_vm) (alloc_page 0xbfffe000 0 entry_stack)).
Definition entry_copy : Z * pool * vm := default (0, demo_pool, demo_vm) (clone_pml4t (Pool kernel_stock ∅ ∅) entry_stacks).

Definition entry_kernel : kernel bump pool :=
  Kernel _ _ _ demo_monitor [] Descriptors.demo_tables ∅ ∅ (Fsys ∅ (Bump 0x1000 ∅) 0 0 0 0 []) Devices.demo_machine demo_locks 0 keyboard_init 0
    (Machine _ _ (Bump 0x1000 ∅) (Pool kernel_stock ∅ ∅) kernel_vm no_tasks 0).

(** What the calls before the fork leave in the machine. *)
Definition entry_fs : fsys (H := bump) :=
  default (k_fs entry_kernel) (fat32_init init_disk (set_heap (m_heap (k_machine entry_kernel)) (k_fs entry_kernel))).

Lemma entry_fs_run :
  fat32_init init_disk (set_heap (m_heap (k_machine entry_kernel)) (k_fs entry_kernel)) = Some entry_fs /\
  f_heap entry_fs = Bump 0x1400 {[0x1000; 0x1200]}.
Proof. split; [apply run_total | ]; vm_compute; reflexivity. Qed.

Lemma entry_heap_ok : bump_ok (Bump 0x1400 {[0x1000; 0x1200]}).
Proof. split; [done |]. intros q. cbn [bump_live bump_next]. rewrite elem_of_union, !elem_of_singleton. lia. Qed.

Lemma timer_handled : (0x20, switch_task_isr) ∈ handled.
Proof. by apply (bool_decide_unpack (_ ∈ _)). Qed.

Lemma entry_runs :
  map_calls [(APIC_BASE, APIC_BASE, 1, 0); (IOAPIC_BASE, IOAPIC_BASE, 1, 0)] kernel_vm = Some entry_vm /\
  alloc_page 0xbffff000 1 entry_vm = Some (0xbffff000, entry_stack) /\
  alloc_page 0xbfffe000 0 entry_stack = Some (0xbfffe000, entry_stacks) /\
  clone_pml4t (Pool kernel_stock ∅ ∅) entry_stacks = Some (6 * 4096, snd (fst entry_copy), snd entry_copy).
Proof.
  split; [| split; [| split]].
  - unfold entry_vm. apply run_total. vm_compute. reflexivity.
  - unfold entry_stack. apply run_pair. vm_compute. reflexivity.
  - unfold entry_stacks. apply run_pair. vm_compute. reflexivity.
  - unfold entry_copy. apply run_triple. vm_compute. reflexivity.
Qed.

Lemma kernel_entry_spec_witness :
  exists k', kernel_entry init_disk 0xc0200000 0xc0201000 (fun n => 0xc0100000 + 16 * n) 0 0 demo_stale 55 66 entry_kernel = Some (Returns 1, k') /\
    wired (fun n => 0xc0100000 + 16 * n) (k_idt k') (k_handlers k') 0x20 switch_task_isr /\
    exists s3, switch_task 1 7 8 9 (m_sched (k_machine k')) = Some (Jump 66 0xc0000000 0xc0000000 (6 * 4096), s3).
Proof.
  destruct entry_runs as (Em & Es1 & Es2 & Ec). destruct entry_fs_run as [Efs Eh].
  destruct (kernel_entry_spec init_disk 0xc0200000 0xc0201000 (fun n => 0xc0100000 + 16 * n) 0 0 demo_stale entry_kernel entry_fs
    0x1400 0x1431 0xbffff000 0xbfffe000 (6 * 4096) 55 66 (Bump 0x1431 ({[0x1400]} ∪ {[0x1000; 0x1200]}))
    (Bump 0x1462 ({[0x1431]} ∪ ({[0x1400]} ∪ {[0x1000; 0x1200]}))) entry_vm entry_stack entry_stacks (snd entry_copy) (snd (fst entry_copy)))
    as (k' & E & Hw & _ & _ & _ & _ & _ & _ & _ & _ & _ & Hresume); [reflexivity | reflexivity | reflexivity | exact Efs | | | | | | | |].
  - rewrite Eh. exact entry_heap_ok.
  - rewrite Eh. vm_compute. reflexivity.
  - vm_compute. reflexivity.
  - exact Em.
  - exact Es1.
  - exact Es2.
  - exact Ec.
  - exists k'. split; [exact E |]. split; [exact (Hw 0x20 switch_task_isr timer_handled) |].
    destruct (Hresume 1%nat 7 8 9 0 ltac:(lia) ltac:(lia) ltac:(lia)) as (s3 & E4 & _). exists s3. exact E4.
Defined.
