(* ===== verification/BootPaging.v ===== *)
(** The boot loader's page tables (boot/stage2.asm, lines 98-173): the instructions of
    protected mode that write five tables at 0x1000 to 0x6000 and point [cr3] at the
    first, what the processor translates under them, and how [memman_init] takes over
    from them. *)

From S2P Require Import Prelude Words FrameMap FrameAlloc Memory Paging PageTree Isolation PagingInit Ata.
#[local] Open Scope Z_scope.

(** * The processor in protected mode *)

(** The registers that the code uses, 32 bits each, and physical memory (no paging yet). *)
Record cpu32 := Cpu32 { eax : Z; ebx : Z; ecx : Z; edi : Z; cr3 : Z; ram : mem }.

(** [\[di\]] is a 16-bit address also in 32-bit code, while [rep stosb] and [loop] take [edi] and
    [ecx] whole. *)
Inductive instr32 :=
  | Mov_di (v : Z)
  | Mov_cx (v : Z)
  | Xor_ax_ax
  | Mov_ebx (v : Z)
  | Mov_eax (v : Z)
  | Mov_word_di (v : Z)      (** mov WORD \[di\], v *)
  | Mov_dword_di (v : Z)     (** mov DWORD \[di\], v *)
  | Mov_dword_di_ebx         (** mov DWORD \[di\], ebx *)
  | Add_ebx (v : Z)
  | Add_di (v : Z)
  | Mov_cr3_eax
  | Rep_stosb.

Definition put (n : nat) (v : Z) (s : cpu32) : cpu32 :=
  Cpu32 (eax s) (ebx s) (ecx s) (edi s) (cr3 s) (store n (low16 (edi s)) v (ram s)).

(** [rep stosb] with [ecx] = [n]. *)
Fixpoint rep_stosb (n : nat) (s : cpu32) : cpu32 :=
  match n with
  | O => s
  | S n => rep_stosb n (Cpu32 (eax s) (ebx s) (uint32_t (ecx s - 1)) (uint32_t (edi s + 1)) (cr3 s) (store8 (edi s) (eax s) (ram s)))
  end.

Definition exec32 (s : cpu32) (i : instr32) : cpu32 :=
  match i with
  | Mov_di v => Cpu32 (eax s) (ebx s) (ecx s) (with_low16 v (edi s)) (cr3 s) (ram s)
  | Mov_cx v => Cpu32 (eax s) (ebx s) (with_low16 v (ecx s)) (edi s) (cr3 s) (ram s)
  | Xor_ax_ax => Cpu32 (with_low16 0 (eax s)) (ebx s) (ecx s) (edi s) (cr3 s) (ram s)
  | Mov_ebx v => Cpu32 (eax s) v (ecx s) (edi s) (cr3 s) (ram s)
  | Mov_eax v => Cpu32 v (ebx s) (ecx s) (edi s) (cr3 s) (ram s)
  | Mov_word_di v => put 2 v s
  | Mov_dword_di v => put 4 v s
  | Mov_dword_di_ebx => put 4 (ebx s) s
  | Add_ebx v => Cpu32 (eax s) (uint32_t (ebx s + v)) (ecx s) (edi s) (cr3 s) (ram s)
  | Add_di v => Cpu32 (eax s) (ebx s) (ecx s) (with_low16 (low16 (edi s) + v) (edi s)) (cr3 s) (ram s)
  | Mov_cr3_eax => Cpu32 (eax s) (ebx s) (ecx s) (edi s) (eax s) (ram s)
  | Rep_stosb => rep_stosb (Z.to_nat (ecx s)) s
  end.

Definition exec32_all (l : list instr32) (s : cpu32) : cpu32 := foldl exec32 s l.

(** One round of a loop that ends in [loop]: [ecx] is counted down and the body is entered
    again unless that gives 0. *)
Definition loop_round (body : list instr32) (s : cpu32) : cpu32 + cpu32 :=
  let s := exec32_all body s in
  let s := Cpu32 (eax s) (ebx s) (uint32_t (ecx s - 1)) (edi s) (cr3 s) (ram s) in
  if ecx s =? 0 then inr s else inl s.

(** * The code *)

Definition clear_tables : list instr32 := [Mov_di 0x1000; Xor_ax_ax; Mov_cx 0x5000; Rep_stosb].

Definition root_entries : list instr32 :=
  [Mov_di 0x1000; Mov_word_di 0x2003;
   Mov_di 0x2000; Mov_word_di 0x3003;
   Add_di 0x18; Mov_word_di 0x4003].

(** Lines 131-134 and 145-148, and the body of the two loops. *)
Definition low_pages : list instr32 := [Mov_di 0x3000; Mov_ebx 0x83; Mov_cx 512].
Definition kernel_pages : list instr32 := [Mov_di 0x4000; Mov_ebx 0x200083; Mov_cx 511].
Definition setPageEntry : list instr32 := [Mov_dword_di_ebx; Add_ebx 0x200000; Add_di 8].

Definition stack_entries : list instr32 := [Mov_word_di 0x5003; Mov_di (0x6000 - 8); Mov_dword_di 0x8003].
Definition load_cr3 : list instr32 := [Mov_eax 0x1000; Mov_cr3_eax].

(** The whole piece: 512 rounds are enough. *)
Definition boot_tables (s : cpu32) : option cpu32 :=
  let s := exec32_all low_pages (exec32_all root_entries (exec32_all clear_tables s)) in
  s ← iter_fuel 512 (loop_round setPageEntry) s;
  s ← iter_fuel 512 (loop_round setPageEntry) (exec32_all kernel_pages s);
  Some (exec32_all load_cr3 (exec32_all stack_entries s)).

(** * What the tables should be *)

(** The entry [i] of the table in frame [f]. *)
Definition boot_entry (f i : Z) : Z :=
  if f =? 1 then if i =? 0 then 0x2003 else 0
  else if f =? 2 then if i =? 0 then 0x3003 else if i =? 3 then 0x4003 else 0
  else if f =? 3 then 0x83 + 0x200000 * i
  else if f =? 4 then if i <? 511 then 0x200083 + 0x200000 * i else 0x5003
  else if i =? 511 then 0x8003 else 0.

(** The first gigabyte is mapped to itself, what follows 3 GiB to what follows 2 MiB up to
    the last 2 MiB, of which the last page is the stack's. *)
Definition boot_translation (va : Z) : option (Z * Z) :=
  let p := va / 4096 in
  if p <? 0x40000 then Some (p, va mod 4096)
  else if (0xC0000 <=? p) && (p <? 0xC0000 + 511 * 512) then Some (0x200 + (p - 0xC0000), va mod 4096)
  else if p =? 0xFFFFF then Some (8, va mod 4096)
  else None.

(** The page tables' view of byte memory. *)
Definition views (pm : phys) (m : mem) : Prop :=
  forall f i, 0 <= f -> 0 <= i < 512 -> ent pm f i = load64 m (4096 * f + 8 * i).

(** * Tables in bytes *)

(** The five tables hold [T]. *)
Definition tables (T : Z -> Z -> Z) (m : mem) : Prop :=
  forall f i, 1 <= f <= 5 -> 0 <= i < 512 -> load64 m (4096 * f + 8 * i) = T f i.

Definition upd_entry (f i v : Z) (T : Z -> Z -> Z) (f' i' : Z) : Z :=
  if (f' =? f) && (i' =? i) then v else T f' i'.

(** A store to the low bytes of an entry that was zero. *)
Lemma tables_put T m n f i v :
  tables T m -> (n <= 8)%nat -> 1 <= f <= 5 -> 0 <= i < 512 -> T f i = 0 -> 0 <= v < 2 ^ (8 * Z.of_nat n) ->
  tables (upd_entry f i v T) (store n (4096 * f + 8 * i) v m).
Proof.
  intros HT Hn Hf Hi Hz Hv f' i' Hf' Hi'. unfold upd_entry.
  destruct (Z.eqb_spec f' f) as [->|]; [destruct (Z.eqb_spec i' i) as [->|] |]; cbn [andb].
  - specialize (HT f i Hf Hi). rewrite Hz in HT.
    replace 8%nat with (n + (8 - n))%nat in HT |- * by lia. rewrite load_add in HT |- *.
    rewrite load_store_same, load_store_other by (done || lia).
    pose proof (load_bounds m n (4096 * f + 8 * i)). pose proof (load_bounds m (8 - n) (4096 * f + 8 * i + Z.of_nat n)). nia.
  - rewrite load_store_other by lia. by apply HT.
  - rewrite load_store_other by lia. by apply HT.
Qed.

Lemma tables_ext T T' m :
  tables T m -> (forall f i, 1 <= f <= 5 -> 0 <= i < 512 -> T f i = T' f i) -> tables T' m.
Proof. intros HT HE f i Hf Hi. rewrite <- HE by done. by apply HT. Qed.

(** * The run *)

Lemma low16_small v : 0 <= v < 65536 -> low16 v = v.
Proof. apply Z.mod_small. Qed.

Lemma with_low16_small w v : 0 <= v < 65536 -> 0 <= w < 65536 -> with_low16 w v = w.
Proof. intros. unfold with_low16. rewrite !Z.mod_small by done. lia. Qed.

(** A register of 32 bits whose upper half is clear. *)
Definition half (v : Z) : Prop := 0 <= v < 65536.

Lemma rep_stosb_run n : forall s,
  0 <= edi s -> edi s + Z.of_nat n < 2 ^ 32 -> Z.of_nat n <= ecx s < 2 ^ 32 -> low8 (eax s) = 0 ->
  let s' := rep_stosb n s in
  edi s' = edi s + Z.of_nat n /\ ecx s' = ecx s - Z.of_nat n /\ cr3 s' = cr3 s /\
  (forall a, edi s <= a < edi s + Z.of_nat n -> load8 (ram s') a = 0) /\
  same_outside (edi s) (edi s + Z.of_nat n) (ram s) (ram s').
Proof.
  induction n as [|n IH]; intros s H0 Hd Hc Ha; cbn [rep_stosb].
  { rewrite Z.add_0_r, Z.sub_0_r. split_and!; try done. lia. }
  unfold uint32_t. rewrite !uwrap_id by (unfold is_word; lia).
  destruct (IH (Cpu32 (eax s) (ebx s) (ecx s - 1) (edi s + 1) (cr3 s) (store8 (edi s) (eax s) (ram s))))
    as (E1 & E2 & E3 & E4 & E5); cbn [edi ecx eax cr3 ram] in *; [lia | lia | lia | done |].
  split_and!; [lia | lia | done | |].
  - intros a Hb. destruct (decide (a = edi s)) as [->|]; [| apply E4; lia].
    rewrite E5 by lia. by rewrite load8_store8_eq.
  - intros a Hb. rewrite E5 by lia. apply load8_store8_ne. lia.
Qed.

Lemma load_zero n m a : (forall b, a <= b < a + Z.of_nat n -> load8 m b = 0) -> load n m a = 0.
Proof.
  revert a; induction n as [|n IH]; intros a Hz; [done |].
  change (load8 m a + 256 * load n m (a + 1) = 0). rewrite Hz, IH by (intros; try apply Hz; lia). done.
Qed.

(** What a piece leaves: the registers of the next and the tables [T]. *)
Record wrote (m : mem) (T : Z -> Z -> Z) (d c : Z) (s : cpu32) : Prop := {
  wr_tables : tables T (ram s);
  wr_outside : same_outside 0x1000 0x6000 m (ram s);
  wr_edi : edi s = d;
  wr_ecx : ecx s = c
}.

Lemma clear_run s :
  half (edi s) -> half (ecx s) -> wrote (ram s) (fun _ _ => 0) 0x6000 0 (exec32_all clear_tables s).
Proof.
  intros Hd Hc. cbn [clear_tables exec32_all foldl exec32 ecx edi eax ebx cr3 ram].
  rewrite (with_low16_small 0x1000), (with_low16_small 0x5000) by (done || lia).
  assert (low8 (with_low16 0 (eax s)) = 0) as Hal.
  { unfold low8, with_low16. change 65536 with (256 * 256). rewrite Z.rem_mul_r by lia. div_lia. }
  destruct (rep_stosb_run (Z.to_nat 0x5000) (Cpu32 (with_low16 0 (eax s)) (ebx s) 0x5000 0x1000 (cr3 s) (ram s)))
    as (E1 & E2 & _ & E4 & E5); cbn [edi ecx eax ram] in *; [lia | lia | lia | done |].
  split; [| exact E5 | rewrite E1; lia | rewrite E2; lia].
  intros f i Hf Hi. apply load_zero. intros b Hb. apply E4. lia.
Qed.

Lemma wrote_put m T d c s n f i v :
  wrote m T d c s -> d = 4096 * f + 8 * i -> (n <= 8)%nat -> 1 <= f <= 5 -> 0 <= i < 512 -> T f i = 0 ->
  0 <= v < 2 ^ (8 * Z.of_nat n) -> wrote m (upd_entry f i v T) d c (put n v s).
Proof.
  intros [HT Ho Hd Hc] -> Hn Hf Hi Hz Hv. split; [| | done | done]; cbn [put ram]; rewrite Hd, low16_small by lia.
  - by apply tables_put.
  - apply same_outside_store; [done | lia | lia].
Qed.

(** The address register moves between stores. *)
Lemma wrote_mov_di m T d c s x : wrote m T d c s -> half d -> half x -> wrote m T x c (exec32 s (Mov_di x)).
Proof. intros [HT Ho Hd Hc] Hh Hx. split; try done. cbn [exec32 edi]. rewrite Hd. by apply with_low16_small. Qed.

Lemma wrote_add_di m T d c s x : wrote m T d c s -> half d -> half (d + x) -> wrote m T (d + x) c (exec32 s (Add_di x)).
Proof.
  intros [HT Ho Hd Hc] Hh Hx. split; try done. cbn [exec32 edi]. rewrite Hd, low16_small by done. by apply with_low16_small.
Qed.

Lemma wrote_mov_ebx m T d c s x : wrote m T d c s -> wrote m T d c (exec32 s (Mov_ebx x)).
Proof. intros [HT Ho Hd Hc]. by split. Qed.

Lemma wrote_mov_cx m T d c s x : wrote m T d c s -> half c -> half x -> wrote m T d x (exec32 s (Mov_cx x)).
Proof. intros [HT Ho Hd Hc] Hh Hx. split; try done. cbn [exec32 ecx]. rewrite Hc. by apply with_low16_small. Qed.

Lemma wrote_ext m T T' d c s :
  wrote m T d c s -> (forall f i, 1 <= f <= 5 -> 0 <= i < 512 -> T f i = T' f i) -> wrote m T' d c s.
Proof. intros [HT Ho Hd Hc] HE. split; try done. by apply (tables_ext T). Qed.

Ltac wrote_lia := unfold half; lia.

Lemma roots_run m s :
  wrote m (fun _ _ => 0) 0x6000 0 s ->
  wrote m (upd_entry 2 3 0x4003 (upd_entry 2 0 0x3003 (upd_entry 1 0 0x2003 (fun _ _ => 0)))) 0x2018 0 (exec32_all root_entries s).
Proof.
  intros Hw. apply (wrote_mov_di _ _ _ _ _ 0x1000) in Hw; [| wrote_lia | wrote_lia].
  apply (wrote_put _ _ _ _ _ 2 1 0 0x2003) in Hw; [| lia | lia | lia | lia | done | lia].
  apply (wrote_mov_di _ _ _ _ _ 0x2000) in Hw; [| wrote_lia | wrote_lia].
  apply (wrote_put _ _ _ _ _ 2 2 0 0x3003) in Hw; [| lia | lia | lia | lia | done | lia].
  apply (wrote_add_di _ _ _ _ _ 0x18) in Hw; [| wrote_lia | wrote_lia].
  by apply (wrote_put _ _ _ _ _ 2 2 3 0x4003) in Hw; [| lia | lia | lia | lia | done | lia].
Qed.

(** The next [n] entries of table [f] from [i] on, as the loop fills them. *)
Definition filled (f i n v : Z) (T : Z -> Z -> Z) (f' i' : Z) : Z :=
  if (f' =? f) && ((i <=? i') && (i' <? i + n)) then v + 0x200000 * (i' - i) else T f' i'.

Lemma entry_run m T f i c s v :
  wrote m T (4096 * f + 8 * i) c s -> ebx s = v -> 1 <= f <= 5 -> 0 <= i < 512 -> T f i = 0 -> 0 <= v -> v + 0x200000 < 2 ^ 32 ->
  let s' := exec32_all setPageEntry s in
  wrote m (upd_entry f i v T) (4096 * f + 8 * (i + 1)) c s' /\ ebx s' = v + 0x200000.
Proof.
  intros Hw Hv Hf Hi Hz H0 Hmax. unfold exec32_all, setPageEntry. cbn [foldl].
  apply (wrote_put m T _ _ s 4 f i v) in Hw; [| lia | lia | lia | lia | done | lia].
  change (exec32 s Mov_dword_di_ebx) with (put 4 (ebx s) s). rewrite Hv.
  split; [| cbn [exec32 ebx put]; rewrite Hv; apply (uwrap_id 32); unfold is_word; lia].
  replace (4096 * f + 8 * (i + 1)) with (4096 * f + 8 * i + 8) by lia.
  apply wrote_add_di; [| wrote_lia | wrote_lia]. by destruct Hw.
Qed.

Lemma pages_loop m f n : forall fuel s T i v,
  1 <= f <= 5 -> 0 <= i -> i + Z.of_nat (S n) <= 512 -> (n < fuel)%nat ->
  wrote m T (4096 * f + 8 * i) (Z.of_nat (S n)) s -> ebx s = v -> 0 <= v -> v + 0x200000 * Z.of_nat (S n) < 2 ^ 32 ->
  (forall j, i <= j -> T f j = 0) ->
  exists s', iter_fuel fuel (loop_round setPageEntry) s = Some s' /\
    wrote m (filled f i (Z.of_nat (S n)) v T) (4096 * f + 8 * (i + Z.of_nat (S n))) 0 s'.
Proof.
  induction n as [|n IH]; intros [|fuel] s T i v Hf Hi Hlen Hfuel Hw Hv H0 Hmax Hz; try lia;
    destruct (entry_run m T f i _ s v Hw Hv Hf ltac:(lia) (Hz i ltac:(lia)) H0 ltac:(lia)) as [[HT Ho Hd Hc] Hb];
    cbn [iter_fuel]; unfold loop_round at 1; cbn [ecx]; rewrite Hc; unfold uint32_t; rewrite uwrap_id by (unfold is_word; lia).
  - eexists. split; [reflexivity |]. split; [| exact Ho | exact Hd | reflexivity].
    eapply tables_ext; [exact HT |]. intros f' i' Hf' Hi'. unfold upd_entry, filled.
    destruct (Z.eqb_spec f' f) as [->|]; [| done]. zbool_cases; cbn [andb]; lia.
  - rewrite (proj2 (Z.eqb_neq (Z.of_nat (S (S n)) - 1) 0)) by (clear; lia).
    match goal with |- context [iter_fuel fuel _ ?s1] =>
      destruct (IH fuel s1 (upd_entry f i v T) (i + 1) (v + 0x200000)) as (s' & E & Hw') end; try lia.
    + split; [exact HT | exact Ho | exact Hd | cbn [ecx]; lia].
    + exact Hb.
    + intros j Hj. unfold upd_entry. rewrite (proj2 (Z.eqb_neq j i)), andb_false_r by lia. apply Hz. lia.
    + exists s'. split; [exact E |]. replace (i + Z.of_nat (S (S n))) with (i + 1 + Z.of_nat (S n)) by lia.
      apply (wrote_ext _ _ _ _ _ _ Hw'). intros f' i' Hf' Hi'. unfold upd_entry, filled.
      destruct (Z.eqb_spec f' f) as [->|]; cbn [andb]; [| done]. zbool_cases; cbn [andb]; lia.
Qed.

(** A loop with its three instructions of preparation, for the table [f]. *)
Lemma table_run m T d s f v n :
  wrote m T d 0 s -> half d -> 3 <= f <= 4 -> 0 <= v -> v + 0x200000 * 512 < 2 ^ 32 -> (0 < n <= 512)%nat -> (forall j, T f j = 0) ->
  exists s', iter_fuel 512 (loop_round setPageEntry) (exec32_all [Mov_di (4096 * f); Mov_ebx v; Mov_cx (Z.of_nat n)] s) = Some s' /\
    wrote m (filled f 0 (Z.of_nat n) v T) (4096 * f + 8 * Z.of_nat n) 0 s'.
Proof.
  intros Hw Hd Hf Hv Hmax Hn Hz. destruct n as [|n]; [lia |].
  apply (wrote_mov_di _ _ _ _ _ (4096 * f)) in Hw; [| done | wrote_lia].
  apply (wrote_mov_ebx _ _ _ _ _ v), (wrote_mov_cx _ _ _ _ _ (Z.of_nat (S n))) in Hw; [| wrote_lia | wrote_lia].
  apply (pages_loop m f n 512 _ T 0 v); try done; try lia. by rewrite Z.mul_0_r, Z.add_0_r.
Qed.

Lemma boot_tables_run s :
  half (edi s) -> half (ecx s) ->
  exists s', boot_tables s = Some s' /\ cr3 s' = 0x1000 /\ tables boot_entry (ram s') /\ same_outside 0x1000 0x6000 (ram s) (ram s').
Proof.
  intros Hd Hc. pose proof (roots_run _ _ (clear_run s Hd Hc)) as Hw.
  unfold boot_tables, low_pages, kernel_pages. set (m := ram s) in *.
  generalize dependent (exec32_all root_entries (exec32_all clear_tables s)). intros s1 Hw.
  destruct (table_run m _ _ s1 3 0x83 512 Hw) as (s2 & E2 & Hw2); [wrote_lia | lia | lia | lia | lia | done |].
  change (4096 * 3) with 0x3000 in E2. change (Z.of_nat 512) with 512 in E2, Hw2. rewrite E2, bind_Some_eq.
  destruct (table_run m _ _ s2 4 0x200083 511 Hw2) as (s3 & E3 & Hw3); [wrote_lia | lia | lia | lia | lia | done |].
  change (4096 * 4) with 0x4000 in E3. change (Z.of_nat 511) with 511 in E3, Hw3. rewrite E3, bind_Some_eq. clear E2 E3 Hw2.
  apply (wrote_put _ _ _ _ _ 2 4 511 0x5003) in Hw3; [| lia | lia | lia | lia | done | lia].
  apply (wrote_mov_di _ _ _ _ _ (0x6000 - 8)) in Hw3; [| wrote_lia | wrote_lia].
  apply (wrote_put _ _ _ _ _ 4 5 511 0x8003) in Hw3; [| lia | lia | lia | lia | done | lia].
  eexists. split; [reflexivity |]. split; [reflexivity |].
  destruct Hw3 as [HT Ho _ _]. split; [| exact Ho].
  apply (tables_ext _ _ _ HT). intros f i Hf Hi. unfold upd_entry, filled, boot_entry.
  assert (f = 1 \/ f = 2 \/ f = 3 \/ f = 4 \/ f = 5) as [E|[E|[E|[E|E]]]] by lia; subst f;
    cbn [Z.eqb Pos.eqb andb]; rewrite ?Z.sub_0_r; zbool_cases; cbn [andb]; lia.
Qed.

(** * What the processor translates *)

(** Walks under [boot_entry]. *)
Section walk.
Context (pm : phys) (Hview : forall f i, 1 <= f <= 5 -> 0 <= i < 512 -> ent pm f i = boot_entry f i).

Lemma boot_translate va : 0 <= va < 2 ^ 48 -> translate pm 1 va = boot_translation va.
Proof.
  intros Hva. destruct (a_indices va) as (H4 & H3 & H2 & H1). unfold index in H4, H3, H2, H1.
  pose proof (a_frame_indices va) as Hp. rewrite a_frame_div in Hp by done.
  unfold boot_translation. rewrite <- a_offset_mod. rewrite Hp. clear Hp Hva.
  unfold translate.
  destruct (decide (a_pml4 va = 0)) as [E4|]; cycle 1.
  { rewrite (absent_entry _ _ _ 0); [zbool_cases | rewrite Hview by lia; unfold boot_entry; zbool_cases | done]. }
  rewrite (present_entry _ _ _ 0x2003); [| rewrite Hview by lia; unfold boot_entry; zbool_cases | done].
  rewrite bind_Some_eq. change (0x2003 / 4096 mod 2 ^ 40) with 2.
  destruct (decide (a_pdp va = 0)) as [E3|]; [| destruct (decide (a_pdp va = 3)) as [E3|]]; cycle 2.
  { rewrite (absent_entry _ _ _ 0); [zbool_cases | rewrite Hview by lia; unfold boot_entry; zbool_cases | done]. }
  - rewrite (present_entry _ _ _ 0x3003); [| rewrite Hview by lia; unfold boot_entry; zbool_cases | done].
    rewrite bind_Some_eq. change (0x3003 / 4096 mod 2 ^ 40) with 3. cbv beta.
    rewrite (large_page pm 3 va (a_pd va)) by (rewrite ?Hview by lia; unfold boot_entry; zbool_cases; lia). rewrite E4, E3.
    zbool_cases. do 2 f_equal. lia.
  - rewrite (present_entry _ _ _ 0x4003); [| rewrite Hview by lia; unfold boot_entry; zbool_cases | done].
    rewrite bind_Some_eq. change (0x4003 / 4096 mod 2 ^ 40) with 4. cbv beta.
    destruct (decide (a_pd va < 511)) as [Hd|Hd].
    + rewrite (large_page pm 4 va (a_pd va + 1)) by (rewrite ?Hview by lia; unfold boot_entry; zbool_cases; lia). rewrite E4, E3.
      zbool_cases. do 2 f_equal. lia.
    + cbv zeta. assert (ent pm 4 (a_pd va) = 0x5003) as E by (rewrite Hview by lia; unfold boot_entry; zbool_cases).
      rewrite (present_entry _ _ _ 0x5003) by done. rewrite E. change (e_present 0x5003 && e_large 0x5003) with false.
      cbv iota. rewrite bind_Some_eq. change (0x5003 / 4096 mod 2 ^ 40) with 5.
      destruct (decide (a_pt va = 511)) as [Et|].
      * rewrite (present_entry _ _ _ 0x8003); [| rewrite Hview by lia; unfold boot_entry; zbool_cases | done].
        rewrite bind_Some_eq. change (0x8003 / 4096 mod 2 ^ 40) with 8. zbool_cases.
      * rewrite (absent_entry _ _ _ 0); [zbool_cases | rewrite Hview by lia; unfold boot_entry; zbool_cases | done].
Qed.
(** The tables suit [memman_init]: the first gigabyte is mapped to itself. *)
Lemma boot_starts : starts pm 1 0x40000.
Proof.
  split.
  - intros va Hva. rewrite boot_translate by lia. unfold boot_translation.
    rewrite (proj2 (Z.ltb_lt _ _)) by div_lia. done.
  - by rewrite Hview by lia.
Qed.
End walk.

(** * Theorems *)

(** The loader's code ends with [cr3] at the first table, has written to its five frames
    only, and the processor then translates the first gigabyte to itself, 1022 MiB from 3 GiB
    on to what follows 2 MiB, the last page below 4 GiB to block 8, and nothing else. The
    upper halves of [edi] and [ecx] must be clear, as the code sets only the lower ones. *)
Theorem boot_tables_spec (s : cpu32) (Hdi : half (edi s)) (Hcx : half (ecx s)) :
  exists s', boot_tables s = Some s' /\ cr3 s' = 0x1000 /\ same_outside 0x1000 0x6000 (ram s) (ram s') /\
    forall pm va, views pm (ram s') -> 0 <= va < 2 ^ 48 -> translate pm (cr3 s' / 4096) va = boot_translation va.
Proof.
  destruct (boot_tables_run s Hdi Hcx) as (s' & E & Hc & HT & Ho). exists s'. split_and!; [done | done | done |].
  intros pm va Hview Hva. rewrite Hc. apply boot_translate; [| done].
  intros f i Hf Hi. rewrite Hview by lia. by apply HT.
Qed.

(** What the kernel's own tables translate as the loader's: the pages of the image and the stack. *)
Lemma init_as_boot blocks va :
  0 <= blocks < 511 * 512 -> va / 4096 = 0xFFFFF \/ 0xC0000 <= va / 4096 < 0xC0000 + blocks ->
  init_translation blocks va = boot_translation va.
Proof. intros Hb Hp. unfold init_translation, boot_translation. zbool_cases. Qed.

(** C9: [memman_init], called on the loader's tables with clear memory from 1 MiB on wherever
    blocks are free, and with a free block below 1 GiB, ends without a fault (its stores to
    the two top tables go through the first gigabyte that the loader maps to itself), and its new tables translate the
    addresses of the kernel's image and of the stack to the frames to which the loader's
    tables do: the code and the stack in use stay where they are when [cr3] changes. *)
Theorem paging_handover (kernel_start kernel_end : Z) (memory_map : list memory_region) (m0 : gmap Z Z)
    (s : cpu32) (pm : phys) (Hdi : half (edi s)) (Hcx : half (ecx s)) (Hm0 : map_wf m0) (Hmap : Forall region_wf memory_map) :
  let man := (memman_init_frames kernel_start kernel_end memory_map m0).1 in
  let max := (analyze_memory_map memory_map).2 / MEM_BLOCK_SIZE in
  let blocks := blocks_used_by_kernel kernel_start kernel_end max in
  exists s', boot_tables s = Some s' /\
    (views pm (ram s') -> blocks < 511 * 512 -> blocks + 0x200 <= max <= 2 ^ 40 -> 3 * blocks + 70 <= mem_free_block_count man ->
     (exists b, 0 <= b < 0x40000 /\ used man b = false) ->
     (forall f i, 256 <= f -> used man f = false -> ent pm f i = 0) ->
     exists w v, memman_init kernel_start kernel_end memory_map m0 pm (cr3 s' / 4096) = Some ((0xC0000 + blocks) * 4096, v) /\
       vm_cr3 v = w /\ isolated v w /\
       forall va, 0 <= va -> va / 4096 = 0xFFFFF \/ 0xC0000 <= va / 4096 < 0xC0000 + blocks ->
         translate (vm_phys v) w va = translate pm (cr3 s' / 4096) va).
Proof.
  intros man max blocks. destruct (boot_tables_run s Hdi Hcx) as (s' & E & Hc & HT & Ho).
  exists s'. split; [done |]. intros Hview Hsmall Hmax Hfree Hlow Hzero. rewrite Hc. change (0x1000 / 4096) with 1.
  assert (forall f i, 1 <= f <= 5 -> 0 <= i < 512 -> ent pm f i = boot_entry f i) as Hent
    by (intros f i Hf Hi; rewrite Hview by lia; by apply HT).
  destruct (memman_init_run kernel_start kernel_end memory_map m0 pm 1 0x40000 0 Hm0 Hmap) as (w & v & Ev & Hcr & _ & Hi & _ & _ & Htr);
    [fold man max blocks; lia | fold man max blocks; lia | fold man max blocks; lia | |].
  - destruct (memman_init_frames_run kernel_start kernel_end memory_map m0 Hm0 Hmap (proj1 Hmax)) as (_ & Emax & _ & Hbits).
    fold man in Emax, Hbits |- *. fold max in Emax. rewrite Emax in Hbits.
    split; [lia | lia | by apply boot_starts | exact Hlow |].
    intros f i Hf Hu. destruct (decide (256 <= f)); [by apply Hzero |].
    assert (0 <= blocks) by apply uint64_bounds. destruct (Hbits f) as (? & _); [lia | done | lia].
  - exists w, v. split; [exact Ev |]. split; [done |]. split; [done |]. intros va H0 Hva.
    assert (0 <= blocks) as Hb by apply uint64_bounds. assert (0 <= va < 2 ^ 32) as Hr by div_lia.
    rewrite Htr by (unfold ordinary; lia). fold blocks. rewrite init_as_boot by done.
    symmetry. apply boot_translate; [exact Hent | lia].
Qed.

(** * Concrete runs *)

(** The loader's tables in clear memory, word by word. *)
Definition demo_tables : phys :=
  list_to_map (f ← seqZ 1 5; i ← seqZ 0 512; [((f, i), boot_entry f i)]).

Lemma demo_tables_entry f i : 1 <= f <= 5 -> 0 <= i < 512 -> ent demo_tables f i = boot_entry f i.
Proof.
  intros Hf Hi.
  assert (Forall (fun f => Forall (fun i => ent demo_tables f i = boot_entry f i) (seqZ 0 512)) (seqZ 1 5)) as Hall.
  { apply (bool_decide_unpack _). vm_compute. done. }
  assert (f ∈ seqZ 1 5) as Hinf by (apply elem_of_seqZ; lia). assert (i ∈ seqZ 0 512) as Hini by (apply elem_of_seqZ; lia).
  exact (proj1 (Forall_forall _ _) (proj1 (Forall_forall _ _) Hall f Hinf) i Hini).
Qed.

Lemma demo_tables_only f i : ~ (1 <= f <= 5) -> ent demo_tables f i = 0.
Proof.
  intros Hf. assert (map_Forall (fun (k : Z * Z) _ => 1 <= fst k <= 5) demo_tables) as Hall.
  { apply (bool_decide_unpack _). vm_compute. done. }
  unfold ent. destruct (demo_tables !! (f, i)) as [e|] eqn:E; [| done]. by destruct (Hf (Hall _ _ E)).
Qed.

Definition demo_cpu32 : cpu32 := Cpu32 0x11 7 0x1234 0x9000 0 ∅.

Lemma demo_views s' :
  tables boot_entry (ram s') -> same_outside 0x1000 0x6000 ∅ (ram s') -> views demo_tables (ram s').
Proof.
  intros HT Ho f i Hf Hi. destruct (decide (1 <= f <= 5)) as [H|H].
  - rewrite HT by done. by apply demo_tables_entry.
  - rewrite demo_tables_only by done. symmetry. apply load_zero. intros b Hb. by rewrite Ho by lia.
Qed.

Lemma boot_tables_spec_witness :
  exists s', boot_tables demo_cpu32 = Some s' /\ views demo_tables (ram s') /\
    translate demo_tables (cr3 s' / 4096) 0xC0001234 = Some (0x201, 0x234) /\ load64 (ram s') 0x5FF8 = 0x8003.
Proof.
  destruct (boot_tables_spec demo_cpu32) as (s' & E & Hc & Ho & Htr); [split; done | split; done |].
  destruct (boot_tables_run demo_cpu32) as (s'' & E' & _ & HT & _); [split; done | split; done |].
  rewrite E in E'. injection E' as <-.
  assert (views demo_tables (ram s')) as Hview by (apply demo_views; [exact HT | exact Ho]).
  exists s'. split; [exact E |]. split; [exact Hview |]. split.
  - rewrite Htr by (exact Hview || lia). reflexivity.
  - exact (HT 5 511 ltac:(lia) ltac:(lia)).
Defined.

Lemma paging_handover_witness :
  exists s' w v, boot_tables demo_cpu32 = Some s' /\
    memman_init 0xc0000000 0xc0010000 demo_map ∅ demo_tables (cr3 s' / 4096) = Some (0xC0012000, v) /\ vm_cr3 v = w /\ isolated v w /\
    translate (vm_phys v) w 0xC0001234 = translate demo_tables (cr3 s' / 4096) 0xC0001234.
Proof.
  assert (map_wf ∅) as Hm0 by (intros i; done).
  assert (Forall region_wf demo_map) as Hmap by (repeat (constructor; [unfold region_wf; simpl; lia |]); constructor).
  destruct (paging_handover 0xc0000000 0xc0010000 demo_map ∅ demo_cpu32 demo_tables ltac:(split; done) ltac:(split; done) Hm0 Hmap)
    as (s' & E & Hrun).
  destruct (boot_tables_run demo_cpu32) as (s'' & E' & _ & HT & Ho); [split; done | split; done |].
  rewrite E in E'. injection E' as <-.
  destruct Hrun as (w & v & Ev & Hc & Hi & Htr).
  - apply demo_views; [exact HT | exact Ho].
  - vm_compute. reflexivity.
  - split; vm_compute; discriminate.
  - vm_compute. discriminate.
  - exists 256. split; [lia |]. by vm_compute.
  - intros f i Hf _. apply demo_tables_only. lia.
  - assert (blocks_used_by_kernel 0xc0000000 0xc0010000 ((analyze_memory_map demo_map).2 / MEM_BLOCK_SIZE) = 0x12) as Eb
      by (vm_compute; reflexivity).
    rewrite Eb in Ev, Htr. exists s', w, v. split; [exact E |]. split; [exact Ev |]. split; [exact Hc |]. split; [exact Hi |].
    apply Htr; [lia |]. right. split; vm_compute; [discriminate | reflexivity].
Defined.
