(* ===== verification/LoadElf.v ===== *)
(** The boot loader's ELF loader (boot/loadelf.asm), in long mode under the tables of
    BootPaging.v: it copies the segments of the kernel's file to the addresses that their
    headers name and returns the entry point. Its two variables and the word that it keeps
    on the stack are memory too. *)

From S2P Require Import Prelude Words Memory CLib Elf BootPaging.
#[local] Open Scope Z_scope.

(** * Memory through the boot tables *)

(** The physical address behind [a]; [None] is a page fault. *)
Definition lin (a : Z) : option Z := '(f, off) ← boot_translation a; Some (f * 4096 + off).

Definition lload8 (a : Z) (m : mem) : option Z := p ← lin a; Some (load8 m p).
Definition lstore8 (a v : Z) (m : mem) : option mem := p ← lin a; Some (store8 p v m).

Fixpoint lload (n : nat) (a : Z) (m : mem) : option Z :=
  match n with
  | O => Some 0
  | S n => v ← lload8 a m; w ← lload n (a + 1)%word m; Some (v + 256 * w)
  end.

Fixpoint lstore (n : nat) (a v : Z) (m : mem) : option mem :=
  match n with
  | O => Some m
  | S n => m ← lstore n (a + 1)%word (v / 256) m; lstore8 a v m
  end.

(** * The loader *)

Definition flag_loadable : Z := 1.
Definition off_elf_entry : Z := 0x18.
Definition off_elf_phdroffset : Z := 0x20.
Definition off_elf_phdrnr : Z := 0x38.
Definition off_phdr_type : Z := 0x00.
Definition off_phdr_offset : Z := 0x08.
Definition off_phdr_vaddr : Z := 0x10.
Definition off_phdr_filesz : Z := 0x20.

(** [rep movsb] with [rcx] = [n]: from [rsi] to [rdi]. *)
Fixpoint rep_movsb (n : nat) (rsi rdi : Z) (m : mem) : option mem :=
  match n with
  | O => Some m
  | S n =>
      v ← lload8 rsi m;
      m ← lstore8 rdi v m;
      rep_movsb n (rsi + 1)%word (rdi + 1)%word m
  end.

(** The labels of the two variables [filestart] and [entrypoint], and the stack pointer after
    the call. *)
Section loader.
Context (filestart entrypoint rsp : Z).

(** [@loop], once: [rbx] is at a program header, [rcx] the counter of [loop], which is on the
    stack during the copy. A fault ends the run with [None]. *)
Definition load_header (st : Z * Z * mem) : (Z * Z * mem) + option mem :=
  let '(rbx, rcx, m) := st in
  let copied :=
    eax ← lload 4 (rbx + off_phdr_type)%word m;
    if eax =? flag_loadable then
      rsi ← lload 8 filestart m;
      off ← lload 8 (rbx + off_phdr_offset)%word m;
      rdi ← lload 8 (rbx + off_phdr_vaddr)%word m;
      m ← lstore 8 (rsp - 8)%word rcx m;
      size ← lload 8 (rbx + off_phdr_filesz)%word m;
      m ← rep_movsb (Z.to_nat size) (rsi + off)%word rdi m;
      rcx ← lload 8 (rsp - 8)%word m;
      Some (rcx, m)
    else Some (rcx, m) in
  match copied with
  | None => inr None
  | Some (rcx, m) =>
      let rcx := (rcx - 1)%word in
      if rcx =? 0 then inr (Some m) else inl ((rbx + 0x30)%word, rcx, m)
  end.

(** [loadelf]: the entry point (in [rbx]) and memory. *)
Definition loadelf (fuel : nat) (rbx : Z) (m : mem) : option (Z * mem) :=
  m ← lstore 8 filestart rbx m;
  rax ← lload 8 (rbx + off_elf_entry)%word m;
  m ← lstore 8 entrypoint rax m;
  rcx ← lload 2 (rbx + off_elf_phdrnr)%word m;
  phoff ← lload 8 (rbx + off_elf_phdroffset)%word m;
  r ← iter_fuel fuel load_header ((rbx + phoff)%word, rcx, m);
  m ← r;
  rbx ← lload 8 entrypoint m;
  Some (rbx, m).
End loader.

(** * Addresses *)

Definition KERNEL_ZONE : Z := 0xC0000000.

(** The kernel's zone of 1022 MiB, and where it lies in physical memory. *)
Definition in_zone (a n : Z) : Prop := KERNEL_ZONE <= a /\ a + n <= KERNEL_ZONE + 511 * 2 ^ 21.
Definition zone_phys (a : Z) : Z := a - KERNEL_ZONE + 0x200000.

Lemma lin_low a : 0 <= a < 2 ^ 30 -> lin a = Some a.
Proof.
  intros Ha. unfold lin, boot_translation. rewrite (proj2 (Z.ltb_lt (a / 4096) 0x40000)) by div_lia.
  rewrite bind_Some_eq. f_equal. div_lia.
Qed.

Lemma lin_zone a : KERNEL_ZONE <= a < KERNEL_ZONE + 511 * 2 ^ 21 -> lin a = Some (zone_phys a).
Proof.
  unfold KERNEL_ZONE, zone_phys. intros Ha. unfold lin, boot_translation.
  rewrite (proj2 (Z.ltb_ge (a / 4096) 0x40000)), (proj2 (Z.leb_le 0xC0000 (a / 4096))), (proj2 (Z.ltb_lt (a / 4096) (0xC0000 + 511 * 512))) by div_lia.
  cbn [andb]. rewrite bind_Some_eq. f_equal. unfold KERNEL_ZONE. div_lia.
Qed.

(** The [n] addresses from [a] on are mapped to those from [p] on. *)
Definition maps (a : Z) (n : nat) (p : Z) : Prop :=
  0 <= a /\ a + Z.of_nat n <= 2 ^ 62 /\ forall k, 0 <= k < Z.of_nat n -> lin (a + k) = Some (p + k).

Lemma maps_S a n p : maps a (S n) p -> lin a = Some p /\ (a + 1)%word = a + 1 /\ maps (a + 1) n (p + 1).
Proof.
  intros (H0 & Hlim & Hk). split; [rewrite <- (Z.add_0_r a), <- (Z.add_0_r p); apply Hk; lia |].
  split; [apply uint64_id; lia |]. split; [lia |]. split; [lia |]. intros k Hk'. rewrite <- !Z.add_assoc. apply Hk. lia.
Qed.

Lemma lload_maps n : forall a p m, maps a n p -> lload n a m = Some (load n m p).
Proof.
  induction n as [|n IH]; intros a p m Hm; [done |]. apply maps_S in Hm as (E & E1 & Hm).
  cbn [lload]. unfold lload8. rewrite E, !bind_Some_eq, E1, (IH _ _ _ Hm). by rewrite bind_Some_eq.
Qed.

Lemma lstore_maps n : forall a p v m, maps a n p -> lstore n a v m = Some (store n p v m).
Proof.
  induction n as [|n IH]; intros a p v m Hm; [done |]. apply maps_S in Hm as (E & E1 & Hm).
  cbn [lstore]. unfold lstore8. rewrite E1, (IH _ _ _ _ Hm), bind_Some_eq, E. by rewrite bind_Some_eq.
Qed.

Lemma maps_low n a : 0 <= a -> a + Z.of_nat n <= 2 ^ 30 -> maps a n a.
Proof. intros H0 Hlim. split; [done |]. split; [lia |]. intros k Hk. apply lin_low. lia. Qed.

Lemma lload_low n a m : 0 <= a -> a + Z.of_nat n <= 2 ^ 30 -> lload n a m = Some (load n m a).
Proof. intros. by apply lload_maps, maps_low. Qed.

(** The page of the stack, the last one below 4 GiB, is block 8. *)
Definition STACK_PAGE : Z := 0xFFFFF000.
Definition stack_phys (a : Z) : Z := a - STACK_PAGE + 0x8000.

Lemma maps_stack a n : STACK_PAGE <= a -> a + Z.of_nat n <= STACK_PAGE + 0x1000 -> maps a n (stack_phys a).
Proof.
  unfold STACK_PAGE, stack_phys. intros H0 Hlim. split; [lia |]. split; [lia |]. intros k Hk.
  unfold lin, boot_translation. assert ((a + k) / 4096 = 0xFFFFF) as -> by div_lia.
  cbv zeta.
  change (0xFFFFF <? 0x40000) with false. change ((0xC0000 <=? 0xFFFFF) && (0xFFFFF <? 0xC0000 + 511 * 512)) with false.
  change (0xFFFFF =? 0xFFFFF) with true. cbv iota. rewrite bind_Some_eq. unfold STACK_PAGE. f_equal. div_lia.
Qed.

(** [rep movsb] from low memory to the zone, where the two do not meet. *)
Lemma rep_movsb_run n : forall src dst m,
  0 <= src -> src + Z.of_nat n <= 0x200000 -> in_zone dst (Z.of_nat n) ->
  exists m', rep_movsb n src dst m = Some m' /\
    (forall k, 0 <= k < Z.of_nat n -> load8 m' (zone_phys dst + k) = load8 m (src + k)) /\
    same_outside (zone_phys dst) (zone_phys dst + Z.of_nat n) m m'.
Proof.
  unfold in_zone, zone_phys, KERNEL_ZONE.
  induction n as [|n IH]; intros src dst m H0 Hsrc Hdst; cbn [rep_movsb].
  { exists m. split_and!; [done | lia | done]. }
  unfold lload8, lstore8. rewrite (lin_low src) by lia. rewrite !bind_Some_eq.
  rewrite (lin_zone dst) by (unfold KERNEL_ZONE; lia). rewrite !bind_Some_eq, !uint64_id by lia.
  unfold zone_phys, KERNEL_ZONE.
  destruct (IH (src + 1) (dst + 1) (store8 (dst - 0xC0000000 + 0x200000) (load8 m src) m)) as (m' & E & Hin & Hout); [lia | lia | lia |].
  exists m'. split; [exact E |]. split.
  - intros k Hk. destruct (decide (k = 0)) as [->|].
    + rewrite Hout by lia. rewrite !Z.add_0_r, load8_store8_eq. apply Z.mod_small, load8_bounds.
    + replace (dst - 0xC0000000 + 0x200000 + k) with (dst + 1 - 0xC0000000 + 0x200000 + (k - 1)) by lia.
      rewrite Hin by lia. rewrite load8_store8_ne by lia. f_equal. lia.
  - intros a Ha. rewrite Hout by lia. apply load8_store8_ne. lia.
Qed.

(** * The run *)

(** The labels lie in the second stage, behind 0x9000 and below the buffer, and the stack has room
    for a word in its page. *)
Record labels (filestart entrypoint rsp : Z) : Prop := {
  lb_filestart : 0x9000 <= filestart /\ filestart + 8 <= 0x10000;
  lb_entrypoint : 0x9000 <= entrypoint /\ entrypoint + 8 <= 0x10000;
  lb_apart : filestart + 8 <= entrypoint \/ entrypoint + 8 <= filestart;
  lb_stack : STACK_PAGE + 8 <= rsp <= STACK_PAGE + 0x1000
}.

(** The bytes of the variables and of the word on the stack. *)
Definition scratch (filestart entrypoint rsp a : Z) : Prop :=
  filestart <= a < filestart + 8 \/ entrypoint <= a < entrypoint + 8 \/ stack_phys (rsp - 8) <= a < stack_phys (rsp - 8) + 8.

Lemma scratch_low filestart entrypoint rsp a :
  labels filestart entrypoint rsp -> scratch filestart entrypoint rsp a -> 0x8000 <= a < 0x10000.
Proof. intros [? ? _ ?] Ha. unfold scratch, stack_phys, STACK_PAGE in *. lia. Qed.

Section loading.
Context (filestart entrypoint rsp : Z) (m0 : mem) (file len : Z).
Context (Hlabels : labels filestart entrypoint rsp).

(** What the loader takes for the header [i]: the headers of a file are 56 bytes each, but
    the loader steps by 0x30. *)
Definition header (i : Z) : Z := file + e_phoff m0 file + 0x30 * i.
Definition copied (i : Z) : Prop := 0 <= i < e_phnum m0 file /\ p_type m0 (header i) = 1.
Definition dest (i : Z) : Z := zone_phys (p_vaddr m0 (header i)).
Definition size (i : Z) : Z := p_filesz m0 (header i).

#[local] Instance copied_dec i : Decision (copied i).
Proof. apply _. Defined.

(** The file lies between the buffer and 2 MiB, it has a program header, and the segments that are
    copied have their own places in the kernel's zone. *)
Record fits : Prop := {
  ft_file : 0x10000 <= file /\ file + len <= 0x200000;
  ft_headers : 0 < e_phnum m0 file /\ 64 <= len /\ e_phoff m0 file + 0x30 * e_phnum m0 file <= len;
  ft_data i : copied i -> p_offset m0 (header i) + size i <= len /\ in_zone (p_vaddr m0 (header i)) (size i);
  ft_apart i j : copied i -> copied j -> i < j -> dest i + size i <= dest j \/ dest j + size j <= dest i
}.

Definition has_copy (m : mem) (i : Z) : Prop :=
  forall k, 0 <= k < size i -> load8 m (dest i + k) = load8 m0 (file + p_offset m0 (header i) + k).

(** The first [i] headers are done, and the variables are set. *)
Record headers_done (i : Z) (m : mem) : Prop := {
  hd_copies j : copied j -> j < i -> has_copy m j;
  hd_rest a : ~ scratch filestart entrypoint rsp a ->
    (forall j, copied j -> j < i -> ~ (dest j <= a < dest j + size j)) -> load8 m a = load8 m0 a;
  hd_filestart : load 8 m filestart = file;
  hd_entrypoint : load 8 m entrypoint = e_entry m0 file
}.

Hypothesis (Hfits : fits).

Lemma header_field n a : 0 <= load n m0 a.
Proof. apply load_bounds. Qed.

Lemma dest_high i : copied i -> 0x200000 <= dest i /\ 0 <= size i.
Proof.
  intros Hi. destruct (ft_data Hfits i Hi) as (_ & Hz & _). unfold dest, zone_phys. split; [lia |].
  unfold size, p_filesz. apply header_field.
Qed.

(** A field of the file's headers, read through the tables. *)
Lemma field_read i m n a : headers_done i m -> file <= a -> a + Z.of_nat n <= 0x200000 -> lload n (uint64_t a) m = Some (load n m0 a).
Proof.
  intros Hd H0 Ha. destruct (ft_file Hfits) as [Hf _]. rewrite uint64_id, lload_low by lia. f_equal.
  apply load_ext. intros b Hb. apply (hd_rest _ _ Hd).
  - intros Hs. pose proof (scratch_low _ _ _ _ Hlabels Hs). lia.
  - intros j Hj _. destruct (dest_high j Hj). lia.
Qed.

Lemma header_place i : 0 <= i < e_phnum m0 file -> file <= header i /\ header i + 0x30 <= 0x200000.
Proof.
  intros Hi. destruct (ft_file Hfits) as [? ?], (ft_headers Hfits) as (_ & _ & ?). pose proof (header_field 8 (file + 32)) as Hp.
  fold (e_phoff m0 file) in Hp. unfold header. lia.
Qed.

Lemma filestart_read m : lload 8 filestart m = Some (load 8 m filestart).
Proof. destruct (lb_filestart _ _ _ Hlabels). apply lload_low; lia. Qed.

Lemma entrypoint_read m : lload 8 entrypoint m = Some (load 8 m entrypoint).
Proof. destruct (lb_entrypoint _ _ _ Hlabels). apply lload_low; lia. Qed.

Lemma stack_maps : maps (uint64_t (rsp - 8)) 8 (stack_phys (rsp - 8)).
Proof.
  pose proof (lb_stack _ _ _ Hlabels). rewrite uint64_id by (unfold STACK_PAGE in *; lia).
  apply maps_stack; unfold STACK_PAGE in *; lia.
Qed.

(** The counter is put on the stack. *)
Lemma push_done i m v : headers_done i m -> headers_done i (store 8 (stack_phys (rsp - 8)) v m).
Proof.
  intros [Hc Hr Hf He]. destruct Hlabels as [H1 H2 _ H3].
  assert (0x8000 <= stack_phys (rsp - 8) /\ stack_phys (rsp - 8) + 8 <= 0x9000) as Hsp by (unfold stack_phys, STACK_PAGE in *; lia).
  split.
  - intros j Hj Hji k Hk. destruct (dest_high j Hj). rewrite load8_store by lia. by apply Hc.
  - intros a Ha Hout. rewrite load8_store; [by apply Hr |]. unfold scratch in Ha. lia.
  - rewrite load_store_other by lia. done.
  - rewrite load_store_other by lia. done.
Qed.

(** One segment is copied. *)
Lemma copy_run i m :
  copied i -> headers_done i m ->
  exists m', rep_movsb (Z.to_nat (size i)) (uint64_t (file + p_offset m0 (header i))) (p_vaddr m0 (header i)) m = Some m' /\
    headers_done (i + 1) m' /\ forall a n, a + Z.of_nat n <= 0x200000 -> load n m' a = load n m a.
Proof.
  intros Hi Hd. destruct (ft_file Hfits) as [Hf0 Hf1], (ft_data Hfits i Hi) as [Hoff Hzone].
  pose proof (header_field 8 (header i + 8)) as Ho. fold (p_offset m0 (header i)) in Ho.
  destruct (dest_high i Hi) as [Hhi Hs].
  rewrite uint64_id by lia.
  destruct (rep_movsb_run (Z.to_nat (size i)) (file + p_offset m0 (header i)) (p_vaddr m0 (header i)) m) as (m' & E & Hin & Hout);
    rewrite ?Z2Nat.id in * by done; [lia | lia | done |].
  exists m'. split; [exact E |]. fold (dest i) in Hin, Hout.
  assert (forall a n, a + Z.of_nat n <= 0x200000 -> load n m' a = load n m a) as Hlow.
  { intros a n Ha. apply load_ext. intros b Hb. apply Hout. lia. }
  split; [| exact Hlow]. destruct Hd as [Hc Hr Hf He]. destruct (lb_filestart _ _ _ Hlabels), (lb_entrypoint _ _ _ Hlabels). split.
  - intros j Hj Hji k Hk. destruct (decide (j = i)) as [->|].
    + rewrite Hin by done. apply Hr.
      * intros Hsc. pose proof (scratch_low _ _ _ _ Hlabels Hsc). lia.
      * intros j Hj' _. destruct (dest_high j Hj'). lia.
    + rewrite Hout by (destruct (ft_apart Hfits j i Hj Hi); lia). by apply Hc; [| lia |].
  - intros a Ha Hd. rewrite Hout by (apply Hd; [done | lia]). apply Hr; [done |]. intros j Hj Hji. apply Hd; [done | lia].
  - rewrite Hlow by lia. done.
  - rewrite Hlow by lia. done.
Qed.

Lemma done_skip i m : ~ copied i -> headers_done i m -> headers_done (i + 1) m.
Proof.
  intros Hi [Hc Hr Hf He].
  assert (forall j, copied j -> j < i + 1 -> j < i) as Hlt by (intros j Hj Hji; assert (j <> i) by (by intros ->); lia).
  split; [intros j Hj Hji; apply Hc; [done | by apply Hlt] | | done | done].
  intros a Ha Hd. apply Hr; [done |]. intros j Hj Hji. apply Hd; [done | lia].
Qed.

Lemma load_header_run i m :
  0 <= i < e_phnum m0 file -> headers_done i m ->
  exists m', headers_done (i + 1) m' /\
    load_header filestart rsp (header i, e_phnum m0 file - i, m) =
      (if i + 1 =? e_phnum m0 file then inr (Some m') else inl (header (i + 1), e_phnum m0 file - (i + 1), m')).
Proof.
  intros Hi Hd. destruct (header_place i Hi) as [Hp0 Hp1]. destruct (ft_file Hfits) as [Hf _].
  pose proof (load_bounds m0 2 (file + 56)) as Hn. fold (e_phnum m0 file) in Hn. change (2 ^ (8 * Z.of_nat 2)) with 65536 in Hn.
  assert (exists m', headers_done (i + 1) m' /\ (eax ← lload 4 (uint64_t (header i + off_phdr_type)) m;
    if eax =? flag_loadable then
      rsi ← lload 8 filestart m;
      off ← lload 8 (uint64_t (header i + off_phdr_offset)) m;
      rdi ← lload 8 (uint64_t (header i + off_phdr_vaddr)) m;
      m ← lstore 8 (uint64_t (rsp - 8)) (e_phnum m0 file - i) m;
      size ← lload 8 (uint64_t (header i + off_phdr_filesz)) m;
      m ← rep_movsb (Z.to_nat size) (uint64_t (rsi + off)) rdi m;
      rcx ← lload 8 (uint64_t (rsp - 8)) m;
      Some (rcx, m)
    else Some (e_phnum m0 file - i, m)) = Some (e_phnum m0 file - i, m')) as (m' & Hd' & E).
  { unfold off_phdr_type, off_phdr_offset, off_phdr_vaddr, off_phdr_filesz, flag_loadable.
    rewrite !(field_read i m) by (done || lia). rewrite !bind_Some_eq. rewrite Z.add_0_r.
    destruct (Z.eqb_spec (load 4 m0 (header i)) 1) as [E1|E1].
    - rewrite filestart_read, (hd_filestart _ _ Hd), !bind_Some_eq. rewrite (lstore_maps _ _ _ _ _ stack_maps), bind_Some_eq.
      pose proof (push_done i m (e_phnum m0 file - i) Hd) as Hpush.
      rewrite (field_read i _) by (done || lia). rewrite bind_Some_eq.
      destruct (copy_run i (store 8 (stack_phys (rsp - 8)) (e_phnum m0 file - i) m)) as (m' & E & Hd' & Hlow); [by split | done |].
      unfold p_offset, p_vaddr, size, p_filesz in E. rewrite E, bind_Some_eq, (lload_maps _ _ _ _ stack_maps), bind_Some_eq.
      rewrite Hlow by (pose proof (lb_stack _ _ _ Hlabels); unfold stack_phys, STACK_PAGE in *; lia).
      rewrite load_store_same by lia. by exists m'.
    - exists m. split; [| done]. apply done_skip; [| done]. by intros [_ E]. }
  exists m'. split; [done |]. unfold load_header. rewrite E. rewrite !uint64_id by lia.
  replace (e_phnum m0 file - i - 1) with (e_phnum m0 file - (i + 1)) by lia.
  destruct (Z.eqb_spec (i + 1) (e_phnum m0 file)) as [->|]; [by rewrite Z.sub_diag |].
  rewrite (proj2 (Z.eqb_neq _ 0)) by lia. unfold header. do 3 f_equal. lia.
Qed.

Lemma load_headers_run (n : nat) : forall fuel i m,
  0 <= i -> i + Z.of_nat (S n) = e_phnum m0 file -> (n < fuel)%nat -> headers_done i m ->
  exists m', iter_fuel fuel (load_header filestart rsp) (header i, e_phnum m0 file - i, m) = Some (Some m') /\
    headers_done (e_phnum m0 file) m'.
Proof.
  induction n as [|n IH]; intros [|fuel] i m Hi Hn Hfuel Hd; try lia; cbn [iter_fuel];
    destruct (load_header_run i m ltac:(lia) Hd) as (m' & Hd' & E); rewrite E.
  - rewrite (proj2 (Z.eqb_eq _ _)) by lia. exists m'. split; [done |]. by replace (e_phnum m0 file) with (i + 1) by lia.
  - rewrite (proj2 (Z.eqb_neq _ _)) by lia. apply IH; [lia | lia | lia | done].
Qed.

(** The two variables are set. *)
Lemma variables_run :
  headers_done 0 (store 8 entrypoint (e_entry m0 file) (store 8 filestart file m0)) /\
  forall n a, file <= a -> a + Z.of_nat n <= 0x200000 -> lload n (uint64_t a) (store 8 filestart file m0) = Some (load n m0 a).
Proof.
  destruct Hlabels as [H1 H2 H3 _], (ft_file Hfits) as [Hf0 Hf1], (ft_headers Hfits) as (_ & Hlen & _).
  pose proof (load_bounds m0 8 (file + 24)) as He. fold (e_entry m0 file) in He. split.
  - split.
    + intros j [? _] ?. lia.
    + intros a Ha _. unfold scratch in Ha. rewrite !load8_store by lia. done.
    + rewrite load_store_other by lia. apply load_store_same. lia.
    + by apply load_store_same.
  - intros n a Ha Hlim. rewrite uint64_id, lload_low by lia. f_equal. apply load_store_other. lia.
Qed.

Lemma loadelf_run fuel :
  e_phnum m0 file <= Z.of_nat fuel ->
  exists m', loadelf filestart entrypoint rsp fuel file m0 = Some (e_entry m0 file, m') /\ headers_done (e_phnum m0 file) m'.
Proof.
  intros Hfuel. destruct (ft_file Hfits) as [? ?], (ft_headers Hfits) as (Hn & Hlen & _). destruct variables_run as [Hstart Hfield].
  destruct (lb_filestart _ _ _ Hlabels), (lb_entrypoint _ _ _ Hlabels).
  destruct (load_headers_run (Z.to_nat (e_phnum m0 file - 1)) fuel 0 _ ltac:(lia) ltac:(lia) ltac:(lia) Hstart) as (m' & E & Hd).
  exists m'. split; [| done]. unfold loadelf, off_elf_entry, off_elf_phdrnr, off_elf_phdroffset.
  rewrite (lstore_maps _ _ filestart) by (apply maps_low; lia). rewrite bind_Some_eq, Hfield, bind_Some_eq by lia.
  fold (e_entry m0 file). rewrite (lstore_maps _ _ entrypoint) by (apply maps_low; lia). rewrite bind_Some_eq.
  rewrite !(field_read 0) by (done || lia). rewrite !bind_Some_eq.
  fold (e_phoff m0 file) (e_phnum m0 file).
  destruct (header_place 0) as [? ?]; [lia |]. rewrite uint64_id by (unfold header in *; lia).
  unfold header in E. rewrite Z.mul_0_r, Z.add_0_r, Z.sub_0_r in E. rewrite E, !bind_Some_eq.
  rewrite entrypoint_read, bind_Some_eq. by rewrite (hd_entrypoint _ _ Hd).
Qed.
End loading.

(** C33: on a file between 64 KiB and 2 MiB [loadelf] returns its entry point and has copied every segment
    that it takes for loadable into the kernel's zone; all other memory is as before, also
    what follows a segment in memory ([p_memsz] is not looked at), but for the two variables,
    which hold the file's address and its entry point, and the word of the stack that [rcx] is kept in.
    As many rounds as there are headers are enough. *)
Theorem loadelf_spec (filestart entrypoint rsp : Z) (m : mem) (file len : Z) (fuel : nat)
  (Hlabels : labels filestart entrypoint rsp) (Hfits : fits m file len) (Hfuel : e_phnum m file <= Z.of_nat fuel) :
  exists m', loadelf filestart entrypoint rsp fuel file m = Some (e_entry m file, m') /\
    load 8 m' filestart = file /\ load 8 m' entrypoint = e_entry m file /\
    (forall i, copied m file i -> has_copy m file m' i) /\
    (forall a, ~ scratch filestart entrypoint rsp a ->
      (forall i, copied m file i -> ~ (dest m file i <= a < dest m file i + size m file i)) -> load8 m' a = load8 m a).
Proof.
  destruct (loadelf_run filestart entrypoint rsp m file len Hlabels Hfits fuel Hfuel) as (m' & E & [Hc Hr Hf He]). exists m'.
  split; [done |]. split; [done |]. split; [done |].
  split; [intros i Hi | intros a Hs Ha]; [apply Hc | apply Hr; [done |]; intros j Hj _; by apply Ha]; [done | apply Hi].
Qed.

(** * Concrete files *)

(** A file at 0x20000 with [n] segments of four bytes, written behind its headers. *)
Definition demo_header (off va : Z) : list Z := le 4 1 ++ le 4 5 ++ le 8 off ++ le 8 va ++ le 8 va ++ le 8 4 ++ le 8 4 ++ le 8 0x1000.
Definition demo_kernel (n : Z) : list Z :=
  [127; 69; 76; 70; 2; 1; 1] ++ replicate 9 0 ++ le 2 2 ++ le 2 62 ++ le 4 1 ++ le 8 0xC0000002 ++ le 8 64 ++ le 8 0 ++
  le 4 0 ++ le 2 64 ++ le 2 56 ++ le 2 n ++ le 6 0 ++
  demo_header 176 0xC0000000 ++ demo_header 180 0xC0001000 ++ [11; 22; 33; 44; 55; 66; 77; 88].

Fixpoint put_bytes (a : Z) (l : list Z) (m : mem) : mem :=
  match l with [] => m | b :: l => store8 a b (put_bytes (a + 1) l m) end.

Definition demo_file (n : Z) : mem := Eval vm_compute in put_bytes 0x20000 (demo_kernel n) ∅.

Lemma demo_file_fields :
  e_phnum (demo_file 1) 0x20000 = 1 /\ e_phoff (demo_file 1) 0x20000 = 64 /\ header (demo_file 1) 0x20000 0 = 0x20040 /\
  p_offset (demo_file 1) 0x20040 = 176 /\ p_vaddr (demo_file 1) 0x20040 = 0xC0000000 /\ p_filesz (demo_file 1) 0x20040 = 4.
Proof. vm_compute. done. Qed.

#[local] Opaque demo_file.

Lemma demo_file_fits : fits (demo_file 1) 0x20000 184.
Proof.
  destruct demo_file_fields as (En & Eo & Eh & Ep & Ev & Es).
  assert (forall i, copied (demo_file 1) 0x20000 i -> i = 0) as Hone by (intros i [Hi _]; rewrite En in Hi; lia).
  split.
  - lia.
  - rewrite En, Eo. lia.
  - intros i Hi. rewrite (Hone i Hi). unfold size, in_zone, KERNEL_ZONE. rewrite Eh, Ep, Ev, Es. lia.
  - intros i j Hi Hj. rewrite (Hone i Hi), (Hone j Hj). lia.
Qed.

Lemma demo_labels : labels 0x9100 0x9108 0xFFFFFFE2.
Proof. split; unfold STACK_PAGE; lia. Qed.

Lemma loadelf_spec_witness :
  exists m', loadelf 0x9100 0x9108 0xFFFFFFE2 1 0x20000 (demo_file 1) = Some (0xC0000002, m') /\ load8 m' 0x200002 = 33 /\ load8 m' 0x200004 = 0.
Proof.
  destruct demo_file_fields as (En & Eo & Eh & Ep & Ev & Es).
  destruct (loadelf_spec 0x9100 0x9108 0xFFFFFFE2 (demo_file 1) 0x20000 184 1 demo_labels demo_file_fits) as (m' & E & _ & _ & Hc & Hr); [rewrite En; done |].
  exists m'. split; [rewrite E; do 2 f_equal; vm_compute; reflexivity |]. split.
  - assert (copied (demo_file 1) 0x20000 0) as H0 by (split; vm_compute; [split; [discriminate | reflexivity] | reflexivity]).
    specialize (Hc 0 H0 2). unfold dest, size, zone_phys, KERNEL_ZONE in Hc. rewrite Eh, Es, Ep, Ev in Hc.
    change 0x200002 with (0xC0000000 - 0xC0000000 + 0x200000 + 2). rewrite Hc by lia. vm_compute. reflexivity.
  - rewrite Hr; [vm_compute; reflexivity | intros Hs; pose proof (scratch_low _ _ _ _ demo_labels Hs); lia |]. intros i [Hi _]. assert (i = 0) as -> by (rewrite En in Hi; lia).
    unfold dest, size, zone_phys, KERNEL_ZONE. rewrite Eh, Ev, Es. lia.
Defined.

(** A file whose second program header is a loadable segment at 0xC0001000: [loadelf]
    looks for that header 48 bytes behind the first instead of 56, and ends without the
    segment's bytes in place. *)
Theorem loadelf_misses_second :
  is_executable (demo_file 2) 0x20000 /\ e_phnum (demo_file 2) 0x20000 = 2 /\
  p_type (demo_file 2) (phdr (demo_file 2) 0x20000 1) = 1 /\ p_vaddr (demo_file 2) (phdr (demo_file 2) 0x20000 1) = 0xC0001000 /\
  exists m', loadelf 0x9100 0x9108 0xFFFFFFE2 2 0x20000 (demo_file 2) = Some (0xC0000002, m') /\
    load8 m' (zone_phys 0xC0000000) = 11 /\
    load8 m' (zone_phys 0xC0001000) = 0 /\ load8 (demo_file 2) (0x20000 + p_offset (demo_file 2) (phdr (demo_file 2) 0x20000 1)) = 55.
Proof.
  split; [vm_compute; by split_and! |]. do 3 (split; [vm_compute; reflexivity |]).
  exists (snd (default (0, ∅) (loadelf 0x9100 0x9108 0xFFFFFFE2 2 0x20000 (demo_file 2)))).
  split; [apply run_pair; vm_compute; reflexivity |]. by vm_compute.
Qed.
