(* ===== verification/BootDisk.v ===== *)
(** The boot loader's disk routines (boot/diskio64.asm), in long mode: the machine of Ata.v
    with [rbx] and the instructions that they add, the routines as programs for it, and what
    they do: finding the kernel in the root directory and loading it along its chain of
    clusters. The memory they touch lies in the first gigabyte, which is mapped to itself. *)

From S2P Require Import Prelude Words Memory Fat32 Ata.
#[local] Open Scope Z_scope.

(** * The machine *)

Inductive lreg := Old (r : reg) | RBX.
Coercion Old : reg >-> lreg.

(** An operand in memory. *)
Inductive place := Abs (a : Z) | At (r : lreg) (off : Z).

Inductive linstr :=
  | Base (i : instr)
  | LPush (r : lreg)
  | LPop (r : lreg)
  | Zero (r : lreg)                    (** xor r, r *)
  | Dec32 (r : lreg)
  | Mov8 (r : lreg) (p : place)        (** the low byte of [r] *)
  | Mov8i (r : lreg) (v : Z)
  | Mov16 (r : lreg) (p : place)
  | Mov32 (r : lreg) (p : place)
  | Mov32i (r : lreg) (v : Z)
  | Movzx16 (r : lreg) (p : place)
  | Mov64i (r : lreg) (v : Z)
  | Mov64 (dst src : lreg)
  | Add32m (r : lreg) (p : place)
  | Add32 (dst src : lreg)
  | Add64i (r : lreg) (v : Z)
  | And32i (r : lreg) (v : Z)
  | Cmp32i (r : lreg) (v : Z)
  | Cmp64 (r r' : lreg)
  | Shr16 (r : lreg) (n : Z)
  | Sal32 (r : lreg) (n : Z)
  | Mul32 (r : lreg)
  | Mul64 (r : lreg)
  | Div32 (r : lreg)
  | Repe_cmpsb
  | Stc
  | Clc.

Section loader.
Context {D : Type} `{Drive D}.

(** [l_less]: the last comparison was less, as signed numbers. *)
Record loader := Loader { l_pc : pc D; l_rbx : Z; l_less : bool }.

Definition upd_pc (f : pc D -> pc D) (s : loader) : loader := Loader (f (l_pc s)) (l_rbx s) (l_less s).

Definition lget (r : lreg) (s : loader) : Z :=
  match r with Old r => get r (p_cpu (l_pc s)) | RBX => l_rbx s end.

Definition lset (r : lreg) (v : Z) (s : loader) : loader :=
  match r with
  | Old r => upd_pc (upd_cpu (set r v)) s
  | RBX => Loader (l_pc s) v (l_less s)
  end.

Definition lflags (carry zero : bool) : loader -> loader := upd_pc (upd_cpu (set_flags carry zero)).
Definition lstack (l : list Z) : loader -> loader := upd_pc (upd_cpu (set_stack l)).
Definition lmem (s : loader) : mem := p_mem (l_pc s).
Definition carry (s : loader) : bool := cf (p_cpu (l_pc s)).
Definition zero (s : loader) : bool := zf (p_cpu (l_pc s)).

Definition address (p : place) (s : loader) : Z :=
  match p with Abs a => a | At r off => (lget r s + off)%word end.

(** The result of an addition of [w] bits goes to [r]. *)
Definition ladd (w : Z) (r : lreg) (x y : Z) (s : loader) : loader :=
  let v := uwrap w (x + y) in lflags (2 ^ w <=? x + y) (v =? 0) (lset r v s).

(** The product of [w] bits each in [rdx] and [rax]. *)
Definition lmul (w : Z) (x : Z) (s : loader) : loader :=
  let v := uwrap w (lget RAX s) * x in
  lflags (negb (v / 2 ^ w =? 0)) (zero s) (lset RDX (v / 2 ^ w) (lset RAX (uwrap w v) s)).

(** [repe cmpsb] with [rcx] = [n]. *)
Fixpoint repe_cmpsb (n : nat) (s : loader) : loader :=
  match n with
  | O => s
  | S n =>
      let x := load8 (lmem s) (lget RSI s) in
      let y := load8 (lmem s) (lget RDI s) in
      let s := lflags (x <? y) (x =? y) (lset RCX (lget RCX s - 1)%word
        (lset RDI (lget RDI s + 1)%word (lset RSI (lget RSI s + 1)%word s))) in
      if x =? y then repe_cmpsb n s else s
  end.

(** [None] is a divide error. *)
Definition lexec (s : loader) (i : linstr) : option loader :=
  match i with
  | Base i => Some (upd_pc (fun s => exec_instr s i) s)
  | LPush r => Some (lstack (lget r s :: stack (p_cpu (l_pc s))) s)
  | LPop r => Some (lstack (tail (stack (p_cpu (l_pc s)))) (lset r (hd 0 (stack (p_cpu (l_pc s)))) s))
  | Zero r => Some (lflags false true (lset r 0 s))
  | Dec32 r => let v := uint32_t (lget r s - 1) in Some (lflags (carry s) (v =? 0) (lset r v s))
  | Mov8 r p => Some (lset r (with_low8 (load8 (lmem s) (address p s)) (lget r s)) s)
  | Mov8i r v => Some (lset r (with_low8 v (lget r s)) s)
  | Mov16 r p => Some (lset r (with_low16 (load 2 (lmem s) (address p s)) (lget r s)) s)
  | Mov32 r p => Some (lset r (load 4 (lmem s) (address p s)) s)
  | Mov32i r v | Mov64i r v => Some (lset r v s)
  | Movzx16 r p => Some (lset r (load 2 (lmem s) (address p s)) s)
  | Mov64 dst src => Some (lset dst (lget src s) s)
  | Add32m r p => Some (ladd 32 r (uint32_t (lget r s)) (load 4 (lmem s) (address p s)) s)
  | Add32 dst src => Some (ladd 32 dst (uint32_t (lget dst s)) (uint32_t (lget src s)) s)
  | Add64i r v => Some (ladd 64 r (lget r s) v s)
  | And32i r v => let x := Z.land (uint32_t (lget r s)) v in Some (lflags false (x =? 0) (lset r x s))
  | Cmp32i r v =>
      let x := uint32_t (lget r s) in
      let s := lflags (x <? v) (x =? v) s in Some (Loader (l_pc s) (l_rbx s) (int32_t x <? int32_t v))
  | Cmp64 r r' =>
      let s' := lflags (lget r s <? lget r' s) (lget r s =? lget r' s) s in
      Some (Loader (l_pc s') (l_rbx s') (int64_t (lget r s) <? int64_t (lget r' s)))
  | Shr16 r n => let v := low16 (lget r s) / 2 ^ n in Some (lflags (Z.testbit (low16 (lget r s)) (n - 1)) (v =? 0) (lset r (with_low16 v (lget r s)) s))
  | Sal32 r n =>
      let v := uint32_t (lget r s * 2 ^ n) in Some (lflags (Z.testbit (lget r s) (32 - n)) (v =? 0) (lset r v s))
  | Mul32 r => Some (lmul 32 (uint32_t (lget r s)) s)
  | Mul64 r => Some (lmul 64 (lget r s) s)
  | Div32 r =>
      let x := uint32_t (lget RDX s) * 2 ^ 32 + uint32_t (lget RAX s) in
      let y := uint32_t (lget r s) in
      if (y =? 0) || (2 ^ 32 <=? x / y) then None else Some (lset RDX (x mod y) (lset RAX (x / y) s))
  | Repe_cmpsb => Some (repe_cmpsb (Z.to_nat (lget RCX s)) s)
  | Stc => Some (lflags true (zero s) s)
  | Clc => Some (lflags false (zero s) s)
  end.

Fixpoint lexec_all (l : list linstr) (s : loader) : option loader :=
  match l with [] => Some s | i :: l => s ← lexec s i; lexec_all l s end.

(** * The routines *)

(** The variables that the first stage leaves, and the volume's first sector at 0x7e00. *)
Definition bytes_per_cluster : Z := 0x9000 - 6.
Definition fat_begin_lba : Z := 0x9000 - 10.
Definition cluster_begin_lba : Z := 0x9000 - 14.
Definition FAT32 : Z := 0x7c00 + 512.
Definition FAT_Cluster_Mask : Z := 0x0fffffff.
Definition FAT_EOF : Z := 0x0ffffff8.
Definition buffer : Z := 0x10000.
Definition kernel : Z := buffer + 0x10000.

(** [read]: the same port instructions as in kernel/read_sectors.asm. *)
Definition boot_read_command : list instr := Push RAX :: read_command.
Definition boot_read_data : list instr := [Mov_r64 RCX (512 / 2); Mov_dx 0x1f0; Rep_insw; Pop RCX; Pop RDX; Pop RAX].

Definition boot_read (fuel : nat) (s : loader) : option loader :=
  r ← iter_fuel fuel still_going (exec_all boot_read_command (l_pc s));
  Some (upd_pc (fun _ => exec_all boot_read_data r) s).

Definition boot_cluster2lba : list linstr :=
  [LPush RCX; Zero RCX; Dec32 RAX; Dec32 RAX; Mov8 RCX (Abs (FAT32 + 13)); Mul32 RCX;
   Add32m RAX (Abs cluster_begin_lba); LPop RCX].

(** [getNextCluster], in the pieces between its jumps. *)
Definition eof_test : list linstr := [And32i RAX FAT_Cluster_Mask; Cmp32i RAX FAT_EOF].
Definition fat_sector : list linstr :=
  [Zero RDX; Zero RBX; Mov16 RBX (Abs (FAT32 + 11)); Shr16 RBX 2; Div32 RBX; LPush RDX;
   Add32m RAX (Abs fat_begin_lba); Mov8i RDX 1; Mov64i RDI 0x10000].
Definition fat_lookup : list linstr :=
  [LPop RDX; Sal32 RDX 2; Mov32i RDI 0x10000; Add32 RDI RDX; Mov32 RAX (At RDI 0)].
Definition restore : list linstr := [LPop RDI; LPop RBX; LPop RDX].

Definition getNextCluster (fuel : nat) (s : loader) : option loader :=
  s ← lexec_all ([LPush RDX; LPush RBX; LPush RDI] ++ eof_test) s;
  if negb (l_less s) then lexec_all (restore ++ [Stc]) s
  else
    s ← lexec_all fat_sector s;
    s ← boot_read fuel s;
    s ← lexec_all (fat_lookup ++ eof_test) s;
    if negb (l_less s) then lexec_all (restore ++ [Stc]) s else lexec_all (restore ++ [Clc]) s.

(** [oneMoreCluster]: [inr] goes on at [loaded]. *)
Definition oneMoreCluster (fuel : nat) (s : loader) : loader + option loader :=
  match (s ← lexec_all [LPop RAX] s; getNextCluster fuel s) with
  | None => inr None
  | Some s =>
      if carry s then inr (Some s)
      else match (s ← lexec_all (LPush RAX :: boot_cluster2lba) s; boot_read fuel s) with
           | None => inr None
           | Some s => inl s
           end
  end.

Definition loadFile (fuel : nat) (s : loader) : option loader :=
  s ← lexec_all ([LPush RAX; LPush RDX; LPush RAX] ++ boot_cluster2lba ++ [Mov8 RDX (Abs (FAT32 + 13))]) s;
  s ← boot_read fuel s;
  r ← iter_fuel fuel (oneMoreCluster fuel) s;
  s ← r;
  lexec_all [LPop RDX; LPop RAX; Clc] s.

(** [ret]: where the processor goes on, and the state there. *)
Definition lret (s : loader) : Z * loader := (hd 0 (stack (p_cpu (l_pc s))), lstack (tail (stack (p_cpu (l_pc s)))) s).

(** [nextEntry]: [inr false] jumps to [notFound], [inr true] falls through. *)
Definition nextEntry (fileName : Z) (s : loader) : loader + option (bool * loader) :=
  match lexec_all [Add64i RAX 32; Cmp64 RAX RBX] s with
  | None => inr None
  | Some s =>
      if zero s then inr (Some (false, s))
      else match lexec_all [Mov64i RDI fileName; Mov64 RSI RAX; Mov64i RCX 11; Repe_cmpsb] s with
           | None => inr None
           | Some s => if zero s then inr (Some (true, s)) else inl s
           end
  end.

(** [searchFile], up to its [ret]; the label [nextRoot] is never jumped to. *)
Definition searchFile (fuel : nat) (fileName : Z) (s : loader) : option (Z * loader) :=
  s ← lexec_all ([Zero RAX; Mov32 RAX (Abs (FAT32 + 44)); LPush RAX] ++ boot_cluster2lba ++
    [Mov8 RDX (Abs (FAT32 + 13)); Mov64i RDI buffer]) s;
  s ← boot_read fuel s;
  s ← lexec_all [Mov64i RAX (buffer - 32); Movzx16 RBX (Abs bytes_per_cluster); Add64i RBX buffer] s;
  r ← iter_fuel fuel (nextEntry fileName) s;
  '(found, s) ← r;
  if found : bool then
    s ← lexec_all [Movzx16 RAX (At RSI 9); Mov64i RBX 0x100; Mul64 RBX; Mul64 RBX; Mov16 RAX (At RSI 15); LPop RDX] s;
    Some (lret s)
  else
    s ← lexec_all [Stc] s;
    Some (lret s).

End loader.

Arguments loader D : clear implicits.

(** A state, register by register, and a tactic that runs the machine on it. *)
Definition state {D} `{Drive D} (ax cx dx si di : Z) (c z : bool) (st : list Z) (m : mem) (d : D) (bx : Z) (less : bool) : loader D :=
  Loader (Pc (Cpu ax cx dx si di c z st) m d) bx less.

Ltac machine :=
  cbv [foldl exec_instr lexec upd_pc upd_cpu p_cpu p_mem p_drive set get set_stack set_flags rax rcx rdx rsi rdi cf zf stack hd tail
    l_pc l_rbx l_less lget lset lflags lstack lmem carry zero address ladd lmul lexec_all mbind option_bind state];
  change (uwrap 32) with uint32_t; change (uwrap 64) with uint64_t.

(** With enough fuel. *)
Definition eventually (P : nat -> Prop) : Prop := exists n, forall fuel, (n < fuel)%nat -> P fuel.

Lemma eventually_and (P Q : nat -> Prop) : eventually P -> eventually Q -> eventually (fun n => P n /\ Q n).
Proof. intros [n HP] [k HQ]. exists (n + k)%nat. intros fuel Hf. split; [apply HP | apply HQ]; lia. Qed.

Lemma eventually_mono (P Q : nat -> Prop) : (forall n, P n -> Q n) -> eventually P -> eventually Q.
Proof. intros HPQ [n HP]. exists n. intros fuel Hf. by apply HPQ, HP. Qed.

Section disk_routines.
Context {D : Type} `{Drive D}.
Implicit Types (s : loader D) (d : D) (m : mem).

#[local] Abbreviation disk := (disk_of D).

(** ** [read] *)

Lemma boot_command_run ax cx dx si di c z st m d :
  let n := uint32_t ax in
  exists ax' cx' dx' c' z',
    exec_all boot_read_command (Pc (Cpu ax cx dx si di c z st) m d) =
      Pc (Cpu ax' cx' dx' si di c' z' (cx :: dx :: ax :: st)) m
        (out8 0x1f7 0x20 (out8 0x1f6 (Z.lor (n / 2 ^ 24 mod 256) 0xe0) (out8 0x1f5 (n / 2 ^ 16 mod 256)
          (out8 0x1f4 (n / 2 ^ 8 mod 256) (out8 0x1f3 (n mod 256) (out8 0x1f2 (dx mod 256) d)))))) /\
    low16 dx' = 0x1f7.
Proof.
  intros n. do 5 eexists. split.
  - cbn -[low8 high8 low16 with_low8 with_low16 bswap32 Z.lor]. fold n. autorewrite with asm.
    unfold low8, high8. rewrite !Z.mod_mod by lia. rewrite (select_byte (n / 2 ^ 24 mod 256)) by (apply Z.mod_pos_bound; lia).
    reflexivity.
  - cbn -[low16 with_low16]. autorewrite with asm. reflexivity.
Qed.

(** The loop over the status changes [rax] and flags only. *)
Lemma still_going_frame fuel ax cx dx si di c z st m d (s' : pc D) :
  iter_fuel fuel still_going (Pc (Cpu ax cx dx si di c z st) m d) = Some s' ->
  exists ax' c' z' d', s' = Pc (Cpu ax' cx dx si di c' z' st) m d'.
Proof.
  set (P := fun s : pc D => exists ax' c' z' d', s = Pc (Cpu ax' cx dx si di c' z' st) m d').
  apply (iter_fuel_inv still_going P P); [| by do 4 eexists].
  intros s1 (ax' & c' & z' & d' & ->). unfold still_going. cbn [exec_all foldl exec_instr p_cpu p_mem p_drive rdx].
  destruct (in8 (low16 dx) d') as [v d1]. cbn [upd_cpu p_cpu p_mem p_drive set set_flags rax rcx rdx rsi rdi cf zf stack].
  destruct (Z.land _ 8 =? 0); by do 4 eexists.
Qed.

Lemma insw_run (more : list Z) l : forall ax cx dx si di c z st m d,
  ready d (l ++ more) -> low16 dx = 0x1f0 -> 0 <= di -> di + 2 * Z.of_nat (length l) < 2 ^ 64 ->
  exists cx' d', rep_insw (length l) (Pc (Cpu ax cx dx si di c z st) m d) =
    Pc (Cpu ax cx' dx si (di + 2 * Z.of_nat (length l)) c z st) (store_words di l m) d' /\ ready d' more.
Proof.
  induction l as [|w l IH]; intros ax cx dx si di c z st m d Hready Hdx Hdi Hlim.
  { exists cx, d. rewrite Z.mul_0_r, Z.add_0_r. by split. }
  cbn [length rep_insw store_words p_cpu p_mem p_drive rax rcx rdx rsi rdi cf zf stack set] in *. rewrite Hdx.
  destruct (drive_data _ _ _ Hready) as [Ew Hr]. destruct (in16 0x1f0 d) as [w' d1]. cbn [fst snd] in Ew, Hr. subst w'.
  rewrite (uint64_id (di + 2)) by lia.
  destruct (IH ax (cx - 1)%word dx si (di + 2) c z st (store 2 di w m) d1) as (cx' & d' & E & Hr'); [done | done | lia | lia |].
  exists cx', d'. split; [| done]. rewrite E. do 2 f_equal. lia.
Qed.

(** One sector, whatever the count in [dl]; but only a count of one leaves the drive idle. *)
Lemma boot_read_run ax cx dx si di c z st m d bx less :
  idle d -> 0 <= di -> di + 512 < 2 ^ 64 ->
  exists z' d', (dx mod 256 = 1 -> idle d') /\ eventually (fun fuel =>
    boot_read fuel (state ax cx dx si di c z st m d bx less) =
      Some (state ax cx dx si (di + 512) false z' st (snd (read_sectors disk ax di 1 m)) d' bx less)).
Proof.
  intros Hd Hdi Hlim. destruct (boot_command_run ax cx dx si di c z st m d) as (ax1 & cx1 & dx1 & c1 & z1 & E1 & Hdx1).
  set (num := uint32_t ax) in *.
  destruct (drive_command d (dx mod 256) (num mod 256) (num / 2 ^ 8 mod 256) (num / 2 ^ 16 mod 256)
    (Z.lor (num / 2 ^ 24 mod 256) 0xe0) Hd) as (n & more & Hbusy & Hone).
  unfold boot_read, state. cbn [l_pc]. rewrite E1.
  match type of Hbusy with busy ?d1 _ _ => generalize dependent d1 end. intros d1 E1 Hbusy. set (b := sector _ _ _ _) in Hbusy.
  destruct (still_going_run _ n (S n) (Pc (Cpu ax1 cx1 dx1 si di c1 z1 (cx :: dx :: ax :: st)) m d1) ltac:(lia) Hbusy Hdx1)
    as (s2 & E2 & Hr & Em2 & Edi2 & Est2 & Ecf).
  destruct (still_going_frame _ _ _ _ _ _ _ _ _ _ _ _ E2) as (ax2 & c2 & z2 & d2 & ->).
  cbn [p_cpu p_mem p_drive cf rdi stack] in *. subst c2.
  destruct (insw_run more (sector_words b) ax2 256 (with_low16 0x1f0 dx1) si di false z2 (cx :: dx :: ax :: st) m d2 Hr) as (cx3 & d3 & E3 & Hr3);
    [by rewrite low16_with | done | rewrite sector_words_length; lia |].
  rewrite sector_words_length in E3. exists z2, d3. split; [intros E; rewrite (Hone E) in Hr3; by apply drive_idle |].
  exists n. intros fuel Hfuel. rewrite (iter_fuel_mono _ (S n) fuel _ _ ltac:(lia) E2), bind_Some_eq.
  unfold boot_read_data, exec_all.
  change (512 / 2) with 256. machine. rewrite E3. machine.
  rewrite sector_stored. unfold read_sectors. by do 4 f_equal.
Qed.
(** What a sector that was read has changed. *)
Lemma sector_read lba a m :
  let m' := snd (read_sectors disk lba a 1 m) in
  (forall k, 0 <= k < 512 -> load8 m' (a + k) = disk (uint32_t lba) k mod 256) /\ same_outside a (a + 512) m m'.
Proof. apply (read_sectors_run disk lba a 1 m). Qed.

(** ** Blocks without jumps *)

(** The variables of the volume. *)
Definition sectors_per_cluster_of m : Z := load8 m (FAT32 + 13).
Definition cluster_lba m (c : Z) : Z := load 4 m cluster_begin_lba + (c - 2) * sectors_per_cluster_of m.

Lemma uint32_id v : 0 <= v < 2 ^ 32 -> uint32_t v = v.
Proof. apply (uwrap_id 32). Qed.

Lemma with_low8_zero b : 0 <= b < 256 -> with_low8 b 0 = b.
Proof. intros. unfold with_low8. by rewrite (Z.mod_small b). Qed.

Lemma cluster2lba_run ax cx dx si di c z st m d bx less :
  2 <= ax < 2 ^ 32 -> cluster_lba m ax < 2 ^ 32 ->
  exists c' z', lexec_all boot_cluster2lba (state ax cx dx si di c z st m d bx less) =
    Some (state (cluster_lba m ax) cx 0 si di c' z' st m d bx less).
Proof.
  intros Hax. unfold cluster_lba, sectors_per_cluster_of. intros Hlba.
  pose proof (load8_bounds m (FAT32 + 13)) as Hs. pose proof (load_bounds m 4 cluster_begin_lba) as Hc.
  assert (0 <= (ax - 2) * load8 m (FAT32 + 13)) by nia.
  do 2 eexists. unfold boot_cluster2lba. machine. rewrite with_low8_zero by done.
  rewrite (uint32_id (ax - 1)), (uint32_id (ax - 1 - 1)), (uint32_id (ax - 1 - 1)), (uint32_id (load8 _ _)) by lia.
  replace (ax - 1 - 1) with (ax - 2) by lia. rewrite (uint32_id (_ * _)) by lia. rewrite (uint32_id (_ * _)) by lia.
  rewrite (Z.div_small (_ * _)) by lia. rewrite (Z.add_comm (_ * _)), (uint32_id (_ + _)) by lia. reflexivity.
Qed.

(** ** The next cluster *)

Definition fat_lba m : Z := load 4 m fat_begin_lba.

(** The entry of cluster [c], 128 to the sector, without its upper four bits. *)
Definition next_cluster m (c : Z) : Z :=
  Z.land (disk_load disk 4 (fat_lba m + c / 128) (4 * (c mod 128))) FAT_Cluster_Mask.

Lemma masked_bounds v : 0 <= Z.land v FAT_Cluster_Mask < 2 ^ 28.
Proof. change FAT_Cluster_Mask with (Z.ones 28). rewrite Z.land_ones by lia. apply Z.mod_pos_bound. lia. Qed.

Lemma masked_small v : 0 <= v < 2 ^ 28 -> Z.land v FAT_Cluster_Mask = v.
Proof. intros. change FAT_Cluster_Mask with (Z.ones 28). rewrite Z.land_ones by lia. by apply Z.mod_small. Qed.

Lemma lexec_all_app l1 l2 s : lexec_all (l1 ++ l2) s = (s ← lexec_all l1 s; lexec_all l2 s).
Proof.
  revert s; induction l1 as [|i l1 IH]; intros s; [done |]. cbn [app lexec_all].
  destruct (lexec s i) as [s1|]; [apply IH | done].
Qed.

Lemma eof_test_run ax cx dx si di c z st m d bx less :
  0 <= ax < 2 ^ 32 ->
  let x := Z.land ax FAT_Cluster_Mask in
  exists c' z', lexec_all eof_test (state ax cx dx si di c z st m d bx less) = Some (state x cx dx si di c' z' st m d bx (x <? FAT_EOF)).
Proof.
  intros Hax x. pose proof (masked_bounds ax) as Hx. fold x in Hx. do 2 eexists. unfold eof_test. machine.
  rewrite (uint32_id ax) by done. fold x. rewrite (uint32_id x) by lia. unfold int32_t. rewrite (swrap_id 32 x) by lia. reflexivity.
Qed.

Lemma fat_sector_run ax cx dx si di c z st m d bx less :
  0 <= ax < 2 ^ 28 -> load 2 m (FAT32 + 11) = 512 -> fat_lba m + 2 ^ 21 < 2 ^ 32 ->
  exists dx' c' z', dx' mod 256 = 1 /\ lexec_all fat_sector (state ax cx dx si di c z st m d bx less) =
    Some (state (fat_lba m + ax / 128) cx dx' si 0x10000 c' z' (ax mod 128 :: st) m d 128 less).
Proof.
  intros Hax Hbps Hfat. pose proof (load_bounds m 4 fat_begin_lba) as Hf. fold (fat_lba m) in Hf. assert (0 <= ax / 128 < 2 ^ 21) by div_lia.
  exists (with_low8 1 (ax mod 128)). do 2 eexists. split; [unfold with_low8; div_lia |]. unfold fat_sector. machine. rewrite Hbps.
  change (with_low16 512 0) with 512. change (low16 512 / 2 ^ 2) with 128. change (with_low16 128 512) with 128.
  change (uint32_t 128) with 128. change (uint32_t 0) with 0. rewrite Z.mul_0_l, Z.add_0_l, (uint32_id ax) by lia. cbn [Z.eqb orb].
  rewrite (proj2 (Z.leb_gt (2 ^ 32) (ax / 128))) by lia. fold (fat_lba m). rewrite (uint32_id (ax / 128)) by lia.
  rewrite (Z.add_comm (ax / 128)), (uint32_id (_ + _)) by lia. reflexivity.
Qed.

Lemma fat_lookup_run ax cx dx si di c z (r : Z) st m d bx less :
  0 <= r < 128 ->
  exists dx' di' c' z', lexec_all fat_lookup (state ax cx dx si di c z (r :: st) m d bx less) =
    Some (state (load 4 m (0x10000 + 4 * r)) cx dx' si di' c' z' st m d bx less).
Proof.
  intros Hr. do 4 eexists. unfold fat_lookup. machine. change (2 ^ 2) with 4.
  change (uint32_t 0x10000) with 0x10000. rewrite !(uint32_id (r * 4)) by lia. rewrite (uint32_id (_ + _)) by lia.
  rewrite Z.add_0_r, uint64_id by lia. rewrite (Z.mul_comm r). reflexivity.
Qed.

Lemma restore_run i ax cx dx si di c z (x y w : Z) st m d bx less :
  i = Stc \/ i = Clc ->
  lexec_all (restore ++ [i]) (state ax cx dx si di c z (x :: y :: w :: st) m d bx less) =
    Some (state ax cx w si x (if i is Stc then true else false) z st m d y less).
Proof. intros [->| ->]; reflexivity. Qed.

(** At the end of a chain the routine says so without a look at the disk. *)
Lemma getNextCluster_eof fuel ax cx dx si di c z st m d bx less :
  0 <= ax < 2 ^ 32 -> FAT_EOF <= Z.land ax FAT_Cluster_Mask ->
  exists z' less', getNextCluster fuel (state ax cx dx si di c z st m d bx less) =
    Some (state (Z.land ax FAT_Cluster_Mask) cx dx si di true z' st m d bx less').
Proof.
  intros Hax Heof. unfold getNextCluster. rewrite lexec_all_app.
  change (lexec_all [LPush RDX; LPush RBX; LPush RDI] ?s) with (Some (state ax cx dx si di c z (di :: bx :: dx :: st) m d bx less)).
  rewrite bind_Some_eq. destruct (eof_test_run ax cx dx si di c z (di :: bx :: dx :: st) m d bx less Hax) as (c' & z' & E).
  rewrite E, bind_Some_eq. cbn [state l_less]. rewrite (proj2 (Z.ltb_ge _ _) Heof). cbn [negb].
  rewrite (restore_run Stc) by auto. by do 2 eexists.
Qed.

(** Otherwise it reads a sector of the table into the buffer. *)
Lemma getNextCluster_run ax cx dx si di c z st m d bx less :
  0 <= ax < FAT_EOF -> load 2 m (FAT32 + 11) = 512 -> fat_lba m + 2 ^ 21 < 2 ^ 32 -> idle d ->
  exists z' less' d', idle d' /\ eventually (fun fuel =>
    getNextCluster fuel (state ax cx dx si di c z st m d bx less) =
      Some (state (next_cluster m ax) cx dx si di (FAT_EOF <=? next_cluster m ax) z' st
        (snd (read_sectors disk (fat_lba m + ax / 128) 0x10000 1 m)) d' bx less')).
Proof.
  intros Hax Hbps Hfat Hd. unfold FAT_EOF in Hax. assert (0 <= ax / 128 < 2 ^ 21) by div_lia.
  pose proof (load_bounds m 4 fat_begin_lba) as Hf. fold (fat_lba m) in Hf.
  destruct (eof_test_run ax cx dx si di c z (di :: bx :: dx :: st) m d bx less ltac:(lia)) as (c1 & z1 & E1).
  rewrite masked_small in E1 by lia. rewrite (proj2 (Z.ltb_lt ax FAT_EOF)) in E1 by (unfold FAT_EOF; lia).
  destruct (fat_sector_run ax cx dx si di c1 z1 (di :: bx :: dx :: st) m d bx true) as (dx2 & c2 & z2 & Hdx2 & E2); [lia | done | done |].
  destruct (boot_read_run (fat_lba m + ax / 128) cx dx2 si 0x10000 c2 z2 (ax mod 128 :: di :: bx :: dx :: st) m d 128 true Hd) as (z3 & d3 & Hd3 & Hread);
    [lia | lia |].
  pose proof (Z.mod_pos_bound ax 128 ltac:(lia)) as Hr.
  destruct (fat_lookup_run (fat_lba m + ax / 128) cx dx2 si (0x10000 + 512) false z3 (ax mod 128) (di :: bx :: dx :: st)
    (snd (read_sectors disk (fat_lba m + ax / 128) 0x10000 1 m)) d3 128 true Hr) as (dx4 & di4 & c4 & z4 & E4).
  destruct (sector_read (fat_lba m + ax / 128) 0x10000 m) as [Hin _]. set (m1 := snd (read_sectors _ _ _ _ _)) in *.
  rewrite (disk_load_run disk _ _ _ 4 (4 * (ax mod 128)) Hin) in E4 by lia.
  set (e := disk_load _ _ _ _) in *.
  assert (0 <= e < 2 ^ 32) as He by (unfold e; rewrite <- (disk_load_run disk _ _ _ 4 (4 * (ax mod 128)) Hin) by lia; apply load_bounds).
  destruct (eof_test_run e cx dx4 si di4 c4 z4 (di :: bx :: dx :: st) m1 d3 128 true He) as (c5 & z5 & E5).
  change (Z.land e FAT_Cluster_Mask) with (next_cluster m ax) in E5.
  exists z5, (next_cluster m ax <? FAT_EOF), d3. split; [exact (Hd3 Hdx2) |]. refine (eventually_mono _ _ _ Hread). intros fuel E3.
  unfold getNextCluster. rewrite lexec_all_app.
  change (lexec_all [LPush RDX; LPush RBX; LPush RDI] ?s) with (Some (state ax cx dx si di c z (di :: bx :: dx :: st) m d bx less)).
  rewrite bind_Some_eq, E1, bind_Some_eq. cbn [state l_less negb].
  rewrite E2, bind_Some_eq, E3, bind_Some_eq, lexec_all_app, E4, bind_Some_eq, E5, bind_Some_eq. cbn [state l_less].
  rewrite <- Z.leb_antisym. destruct (FAT_EOF <=? next_cluster m ax); by rewrite restore_run by auto.
Qed.

(** ** Loading a file *)

(** The volume's variables are where the loader keeps them, and the disk's numbers fit. *)
Record volume m : Prop := {
  vol_bps : load 2 m (FAT32 + 11) = 512;
  vol_fat : fat_lba m + 2 ^ 21 < 2 ^ 32
}.

(** A cluster of a file. *)
Definition data_cluster m (c : Z) : Prop := 2 <= c < FAT_EOF /\ cluster_lba m c < 2 ^ 32.

(** The memory that holds the variables. *)
Definition vars_kept m m' : Prop := same_inside 0x7c00 0x9000 m m'.

Lemma vars_load m m' n a : vars_kept m m' -> 0x7c00 <= a -> a + Z.of_nat n <= 0x9000 -> load n m' a = load n m a.
Proof. apply same_inside_load. Qed.

Lemma vars_sector m lba a : 0x9000 <= a -> vars_kept m (snd (read_sectors disk lba a 1 m)).
Proof. intros Ha b Hb. apply sector_read. lia. Qed.

Lemma vars_trans m1 m2 m3 : vars_kept m1 m2 -> vars_kept m2 m3 -> vars_kept m1 m3.
Proof. intros H1 H2 a Ha. by rewrite H2, H1. Qed.

Lemma vars_cluster_lba m m' c : vars_kept m m' -> cluster_lba m' c = cluster_lba m c.
Proof.
  intros Hv. unfold cluster_lba, sectors_per_cluster_of, cluster_begin_lba, FAT32.
  rewrite (vars_load m m' 4) by (done || lia). by rewrite (Hv (0x7c00 + 512 + 13)) by lia.
Qed.

Lemma vars_fat_lba m m' : vars_kept m m' -> fat_lba m' = fat_lba m.
Proof. intros Hv. unfold fat_lba, fat_begin_lba. by rewrite (vars_load m m' 4) by (done || lia). Qed.

Lemma vars_next m m' c : vars_kept m m' -> next_cluster m' c = next_cluster m c.
Proof. intros Hv. unfold next_cluster. by rewrite (vars_fat_lba m m'). Qed.

Lemma vars_volume m m' : vars_kept m m' -> volume m -> volume m'.
Proof.
  intros Hv [Hb Hf]. split; [| by rewrite (vars_fat_lba m m')].
  unfold FAT32 in *. by rewrite (vars_load m m' 2) by (done || lia).
Qed.

(** What loading a sector to [a] may change: the buffer and the place. *)
Definition only_there (a : Z) m m' : Prop :=
  forall b, ~ (0x10000 <= b < 0x10200) -> ~ (a <= b < a + 512) -> load8 m' b = load8 m b.

Lemma vars_cluster m m' c : vars_kept m m' -> data_cluster m c -> data_cluster m' c.
Proof. intros Hv [Hc Hl]. split; [done |]. by rewrite (vars_cluster_lba m m'). Qed.

Lemma data_cluster_lba m c : data_cluster m c -> uint32_t (cluster_lba m c) = cluster_lba m c.
Proof.
  intros [? Hlba]. apply uint32_id. pose proof (load_bounds m 4 cluster_begin_lba). pose proof (load8_bounds m (FAT32 + 13)).
  split; [unfold cluster_lba, sectors_per_cluster_of; nia | exact Hlba].
Qed.

(** A round of the loop with the cluster [c] on the stack, at the end of the chain. *)
Lemma one_more_last m0 m c ax cx dx si di f z st d bx less :
  vars_kept m0 m -> volume m0 -> 0 <= c < FAT_EOF -> FAT_EOF <= next_cluster m0 c -> idle d ->
  exists ax' z' less' d' m', idle d' /\ same_outside 0x10000 0x10200 m m' /\ eventually (fun fuel =>
    oneMoreCluster fuel (state ax cx dx si di f z (c :: st) m d bx less) =
      inr (Some (state ax' cx dx si di true z' st m' d' bx less'))).
Proof.
  intros Hv Hvol Hc Heof Hd. destruct (vars_volume _ _ Hv Hvol) as [Hbps Hfat].
  destruct (getNextCluster_run c cx dx si di f z st m d bx less Hc Hbps Hfat Hd) as (z1 & less1 & d1 & Hd1 & Hnext).
  rewrite (vars_next m0 m c Hv), (proj2 (Z.leb_le _ _) Heof) in Hnext.
  exists (next_cluster m0 c), z1, less1, d1. eexists. split; [exact Hd1 |]. split; [apply sector_read |].
  refine (eventually_mono _ _ _ Hnext). intros fuel E.
  unfold oneMoreCluster. change (lexec_all [LPop RAX] ?s) with (Some (state c cx dx si di f z st m d bx less)).
  rewrite bind_Some_eq, E. reflexivity.
Qed.

(** A file of one cluster, where a cluster is one sector. *)
Lemma loadFile_run c cx dx si di f z st m d bx less :
  volume m -> sectors_per_cluster_of m = 1 -> data_cluster m c -> FAT_EOF <= next_cluster m c -> idle d ->
  0x10200 <= di -> di + 512 < 2 ^ 64 ->
  exists z' less' d' m', idle d' /\
    (forall k, 0 <= k < 512 -> load8 m' (di + k) = disk (cluster_lba m c) k mod 256) /\ only_there di m m' /\
    eventually (fun fuel => loadFile fuel (state c cx dx si di f z st m d bx less) =
      Some (state c cx dx si (di + 512) false z' st m' d' bx less')).
Proof.
  intros Hvol Hspc Hc Heof Hd Hdi Hlim. pose proof (data_cluster_lba _ _ Hc) as Hlba. destruct Hc as [Hc Hlba'].
  unfold FAT_EOF in Hc. destruct (cluster2lba_run c cx dx si di f z (c :: dx :: c :: st) m d bx less) as (f1 & z1 & E1); [lia | done |].
  unfold sectors_per_cluster_of in Hspc.
  destruct (boot_read_run (cluster_lba m c) cx (with_low8 (load8 m (FAT32 + 13)) 0) si di f1 z1 (c :: dx :: c :: st) m d bx less Hd)
    as (z2 & d2 & Hd2 & Hread); [lia | lia |].
  specialize (Hd2 ltac:(by rewrite Hspc)).
  destruct (sector_read (cluster_lba m c) di m) as [Hin Hout]. set (m1 := snd (read_sectors _ _ _ _ _)) in *. rewrite Hlba in Hin.
  assert (vars_kept m m1) as Hv by (intros b Hb; apply Hout; lia).
  destruct (one_more_last m m1 c (cluster_lba m c) cx (with_low8 (load8 m (FAT32 + 13)) 0) si (di + 512) false z2 (dx :: c :: st) d2 bx less)
    as (ax3 & z3 & less3 & d3 & m3 & Hd3 & Hout3 & Hrun); [done | done | unfold FAT_EOF; lia | done | done |].
  exists z3, less3, d3, m3. split; [done |]. split; [| split].
  - intros k Hk. rewrite Hout3 by lia. by apply Hin.
  - intros b H1 H2. rewrite Hout3, Hout by lia. done.
  - destruct Hread as [n1 Hread], Hrun as [n2 Hrun]. exists (n1 + n2)%nat. intros [|fuel] Hfuel; [lia |].
    unfold loadFile. rewrite lexec_all_app.
    change (lexec_all [LPush RAX; LPush RDX; LPush RAX] ?s) with (Some (state c cx dx si di f z (c :: dx :: c :: st) m d bx less)).
    rewrite bind_Some_eq, lexec_all_app, E1, bind_Some_eq.
    change (lexec_all [Mov8 RDX (Abs (FAT32 + 13))] ?s) with
      (Some (state (cluster_lba m c) cx (with_low8 (load8 m (FAT32 + 13)) 0) si di f1 z1 (c :: dx :: c :: st) m d bx less)).
    rewrite bind_Some_eq, Hread, bind_Some_eq by lia. cbn [iter_fuel]. rewrite Hrun, !bind_Some_eq by lia. reflexivity.
Qed.

(** ** Searching the root directory *)

(** The [n] bytes at [a] and [b] are the same. *)
Fixpoint same_bytes (n : nat) m (a b : Z) : bool :=
  match n with
  | O => true
  | S n => (load8 m a =? load8 m b) && same_bytes n m (a + 1) (b + 1)
  end.

Lemma same_bytes_true n m a b :
  same_bytes n m a b = true <-> forall k, 0 <= k < Z.of_nat n -> load8 m (a + k) = load8 m (b + k).
Proof.
  revert a b; induction n as [|n IH]; intros a b; cbn [same_bytes]; [split; [lia | done] |].
  rewrite andb_true_iff, Z.eqb_eq, IH. split.
  - intros [E1 E2] k Hk. destruct (decide (k = 0)) as [->|]; [by rewrite !Z.add_0_r |].
    replace (a + k) with (a + 1 + (k - 1)) by lia. replace (b + k) with (b + 1 + (k - 1)) by lia. apply E2. lia.
  - intros Hall. split; [rewrite <- (Z.add_0_r a), <- (Z.add_0_r b); apply Hall; lia |].
    intros k Hk. rewrite <- !Z.add_assoc. apply Hall. lia.
Qed.

Lemma repe_cmpsb_run n : forall ax cx dx si di c z st m d bx less,
  0 <= si -> si + Z.of_nat n < 2 ^ 64 -> 0 <= di -> di + Z.of_nat n < 2 ^ 64 -> z = true \/ n <> O ->
  exists cx' si' di' c', repe_cmpsb n (state ax cx dx si di c z st m d bx less) =
    state ax cx' dx si' di' c' (same_bytes n m si di) st m d bx less /\ (same_bytes n m si di = true -> si' = si + Z.of_nat n).
Proof.
  induction n as [|n IH]; intros ax cx dx si di c z st m d bx less Hsi Hsl Hdi Hdl Hz; cbn [repe_cmpsb same_bytes].
  { destruct Hz as [->|]; [| done]. exists cx, si, di, c. split; [done |]. intros _. lia. }
  machine. rewrite (uint64_id (si + 1)), (uint64_id (di + 1)) by lia.
  destruct (load8 m si =? load8 m di) eqn:E; cbn [andb].
  - destruct (IH ax (cx - 1)%word dx (si + 1) (di + 1) (load8 m si <? load8 m di) true st m d bx less) as (cx' & si' & di' & c' & E' & Hs);
      [lia | lia | lia | lia | by left |].
    exists cx', si', di', c'. split; [exact E' |]. intros Hsame. rewrite (Hs Hsame). lia.
  - do 4 eexists. split; [reflexivity | done].
Qed.

(** The entry at [buffer + 32 * i]; the loop has the one before in [rax]. *)
Lemma nextEntry_end fileName i cx dx si di c z st m d less :
  0 <= i < 2 ^ 16 ->
  exists s', nextEntry fileName (state (buffer + 32 * i - 32) cx dx si di c z st m d (buffer + 32 * i) less) = inr (Some (false, s')) /\
    lmem s' = m /\ stack (p_cpu (l_pc s')) = st /\ p_drive (l_pc s') = d.
Proof.
  intros Hi. unfold nextEntry, buffer. machine. rewrite uint64_id by lia.
  rewrite (proj2 (Z.eqb_eq _ _)) by lia. by eexists.
Qed.

Lemma nextEntry_run fileName i ax cx dx si di c z st m d bx less :
  0 <= i < 2 ^ 16 -> ax = buffer + 32 * i - 32 -> bx <> buffer + 32 * i -> 0 <= fileName < 2 ^ 32 ->
  exists cx' si' di' c' less',
    nextEntry fileName (state ax cx dx si di c z st m d bx less) =
      (let s' := state (buffer + 32 * i) cx' dx si' di' c' (same_bytes 11 m (buffer + 32 * i) fileName) st m d bx less' in
       if same_bytes 11 m (buffer + 32 * i) fileName then inr (Some (true, s')) else inl s') /\
    (same_bytes 11 m (buffer + 32 * i) fileName = true -> si' = buffer + 32 * i + 11).
Proof.
  intros Hi -> Hbx Hname. unfold buffer in *.
  destruct (repe_cmpsb_run 11 (0x10000 + 32 * i) 11 dx (0x10000 + 32 * i) fileName
    (0x10000 + 32 * i <? bx) false st m d bx (int64_t (0x10000 + 32 * i) <? int64_t bx))
    as (cx' & si' & di' & c' & E & Hs); [lia | lia | lia | lia | by right |].
  exists cx', si', di', c', (int64_t (0x10000 + 32 * i) <? int64_t bx). split; [| exact Hs].
  unfold nextEntry. machine. rewrite (uint64_id (_ + _)) by lia.
  replace (0x10000 + 32 * i - 32 + 32) with (0x10000 + 32 * i) by lia. rewrite (proj2 (Z.eqb_neq (0x10000 + 32 * i) bx)) by lia.
  change (Z.to_nat 11) with 11%nat. unfold state in E. rewrite E. by destruct (same_bytes 11 m (0x10000 + 32 * i) fileName).
Qed.

Definition matches m (fileName i : Z) : bool := same_bytes 11 m (buffer + 32 * i) fileName.

Lemma search_found fileName (k : nat) : forall j ax cx dx si di c z st m d bx less,
  0 <= j -> j + Z.of_nat k < 2 ^ 16 -> 0 <= fileName < 2 ^ 32 -> ax = buffer + 32 * j - 32 ->
  (forall j', j <= j' < j + Z.of_nat k -> matches m fileName j' = false) -> matches m fileName (j + Z.of_nat k) = true ->
  (forall j', j <= j' <= j + Z.of_nat k -> bx <> buffer + 32 * j') ->
  exists cx' di' c' less', forall gas, (k < gas)%nat ->
    iter_fuel gas (nextEntry fileName) (state ax cx dx si di c z st m d bx less) =
      Some (Some (true, state (buffer + 32 * (j + Z.of_nat k)) cx' dx (buffer + 32 * (j + Z.of_nat k) + 11) di' c' true st m d bx less')).
Proof.
  induction k as [|k IH]; intros j ax cx dx si di c z st m d bx less Hj Hlim Hname Hax Hmiss Hhit Hend;
    destruct (nextEntry_run fileName j ax cx dx si di c z st m d bx less) as (cx1 & si1 & di1 & c1 & less1 & E & Hs); try done;
    try lia; try (apply Hend; lia).
  - rewrite Z.add_0_r in *. unfold matches in Hhit. rewrite Hhit in E, Hs. rewrite (Hs eq_refl) in E.
    exists cx1, di1, c1, less1. intros [|gas] Hgas; [lia |]. cbn [iter_fuel]. by rewrite E.
  - pose proof (Hmiss j ltac:(lia)) as Hm. unfold matches in Hm. rewrite Hm in E. cbn [negb] in E.
    replace (j + Z.of_nat (S k)) with (j + 1 + Z.of_nat k) in * by lia.
    destruct (IH (j + 1) (buffer + 32 * j) cx1 dx si1 di1 c1 false st m d bx less1) as (cx2 & di2 & c2 & less2 & E2); try done; try lia;
      [intros j' Hj'; apply Hmiss; lia | intros j' Hj'; apply Hend; lia |].
    exists cx2, di2, c2, less2. intros [|gas] Hgas; [lia |]. cbn [iter_fuel]. rewrite E. apply E2. lia.
Qed.

Lemma search_missed fileName (k : nat) : forall j ax cx dx si di c z st m d bx less,
  0 <= j -> j + Z.of_nat k < 2 ^ 16 -> 0 <= fileName < 2 ^ 32 -> ax = buffer + 32 * j - 32 ->
  (forall j', j <= j' < j + Z.of_nat k -> matches m fileName j' = false) -> bx = buffer + 32 * (j + Z.of_nat k) ->
  exists s', lmem s' = m /\ stack (p_cpu (l_pc s')) = st /\ p_drive (l_pc s') = d /\ forall gas, (k < gas)%nat ->
    iter_fuel gas (nextEntry fileName) (state ax cx dx si di c z st m d bx less) = Some (Some (false, s')).
Proof.
  induction k as [|k IH]; intros j ax cx dx si di c z st m d bx less Hj Hlim Hname Hax Hmiss Hbx.
  - rewrite Z.add_0_r in Hbx. subst ax bx.
    destruct (nextEntry_end fileName j cx dx si di c z st m d less) as (s' & E & ? & ? & ?); [lia |].
    exists s'. split_and!; [done | done | done |]. intros [|gas] Hgas; [lia |]. cbn [iter_fuel]. by rewrite E.
  - destruct (nextEntry_run fileName j ax cx dx si di c z st m d bx less) as (cx1 & si1 & di1 & c1 & less1 & E & _); [lia | done | lia | done |].
    pose proof (Hmiss j ltac:(lia)) as Hm. unfold matches in Hm. rewrite Hm in E.
    destruct (IH (j + 1) (buffer + 32 * j) cx1 dx si1 di1 c1 false st m d bx less1) as (s' & ? & ? & ? & E2); try done; try lia;
      [intros j' Hj'; apply Hmiss; lia |].
    exists s'. split_and!; [done | done | done |]. intros [|gas] Hgas; [lia |]. cbn [iter_fuel]. rewrite E. apply E2. lia.
Qed.

Definition root_of m : Z := load 4 m (FAT32 + 44).

(** The first sector of the root directory: the name of entry [j] and its first cluster. *)
Definition names m (fileName j : Z) : Prop :=
  forall k, 0 <= k < 11 -> disk (cluster_lba m (root_of m)) (32 * j + k) mod 256 = load8 m (fileName + k).
Definition entry_cluster m (j : Z) : Z :=
  disk_load disk 2 (cluster_lba m (root_of m)) (32 * j + 20) * 65536 + disk_load disk 2 (cluster_lba m (root_of m)) (32 * j + 26).

(** Memory after the directory's sector has been read to the buffer. *)
Record dir_read m m1 : Prop := {
  dr_in k : 0 <= k < 512 -> load8 m1 (buffer + k) = disk (cluster_lba m (root_of m)) k mod 256;
  dr_out : same_outside buffer (buffer + 512) m m1
}.

Lemma matches_names m m1 fileName j :
  dir_read m m1 -> 0 <= j < 16 -> fileName + 11 <= buffer -> matches m1 fileName j = true <-> names m fileName j.
Proof.
  intros [Hin Hout] Hj Hname. unfold matches. rewrite same_bytes_true.
  assert (forall k, 0 <= k < 11 -> load8 m1 (buffer + 32 * j + k) = disk (cluster_lba m (root_of m)) (32 * j + k) mod 256 /\
    load8 m1 (fileName + k) = load8 m (fileName + k)) as Hboth.
  { intros k Hk. rewrite <- Z.add_assoc, Hin by lia. by rewrite Hout by lia. }
  split; intros Hall k Hk; destruct (Hboth k Hk) as [E1 E2]; [by rewrite <- E1, Hall, E2 | by rewrite E1, E2; apply Hall].
Qed.

(** A field of two bytes. *)
Lemma dir_field m m1 k :
  data_cluster m (root_of m) -> dir_read m m1 -> 0 <= k -> k + 2 <= 512 ->
  load 2 m1 (buffer + k) = disk_load disk 2 (cluster_lba m (root_of m)) k /\
  0 <= disk_load disk 2 (cluster_lba m (root_of m)) k < 65536.
Proof.
  intros Hroot [Hin _] H1 H2. rewrite <- (disk_load_run disk _ buffer m1 2 k); [| by rewrite data_cluster_lba | done | lia].
  split; [done |]. apply (load_bounds m1 2).
Qed.

(** The blocks on the way to the loop over the entries. *)
Lemma root_block ax cx dx si di c z st m d bx less :
  lexec_all [Zero RAX; Mov32 RAX (Abs (FAT32 + 44)); LPush RAX] (state ax cx dx si di c z st m d bx less) =
    Some (state (load 4 m (FAT32 + 44)) cx dx si di false true (load 4 m (FAT32 + 44) :: st) m d bx less).
Proof. reflexivity. Qed.

Lemma buffer_block ax cx dx si di c z st m d bx less :
  lexec_all [Mov8 RDX (Abs (FAT32 + 13)); Mov64i RDI buffer] (state ax cx dx si di c z st m d bx less) =
    Some (state ax cx (with_low8 (load8 m (FAT32 + 13)) dx) si buffer c z st m d bx less).
Proof. reflexivity. Qed.

Lemma entries_block ax cx dx si di c z st m d bx less :
  let b := uint64_t (buffer + load 2 m bytes_per_cluster) in
  lexec_all [Mov64i RAX (buffer - 32); Movzx16 RBX (Abs bytes_per_cluster); Add64i RBX buffer] (state ax cx dx si di c z st m d bx less) =
    Some (state (buffer - 32) cx dx si di (2 ^ 64 <=? load 2 m bytes_per_cluster + buffer) (b =? 0) st m d b less).
Proof. cbv zeta. rewrite (Z.add_comm buffer). machine. reflexivity. Qed.

(** The way to the loop. *)
Lemma search_start ax cx dx si di c z st m d bx less :
  volume m -> data_cluster m (root_of m) -> idle d ->
  exists cx' dx' f' z' d' m1 less', (sectors_per_cluster_of m = 1 -> idle d') /\ dir_read m m1 /\
    eventually (fun fuel => forall k : loader D -> option (Z * loader D),
      (s ← lexec_all ([Zero RAX; Mov32 RAX (Abs (FAT32 + 44)); LPush RAX] ++ boot_cluster2lba ++
         [Mov8 RDX (Abs (FAT32 + 13)); Mov64i RDI buffer]) (state ax cx dx si di c z st m d bx less);
       s ← boot_read fuel s;
       s ← lexec_all [Mov64i RAX (buffer - 32); Movzx16 RBX (Abs bytes_per_cluster); Add64i RBX buffer] s;
       k s) =
      k (state (buffer - 32) cx' dx' si (buffer + 512) f' z' (root_of m :: st) m1 d' (buffer + load 2 m bytes_per_cluster) less')).
Proof.
  intros Hvol Hroot Hd. pose proof (data_cluster_lba _ _ Hroot) as Hid. set (root := root_of m) in *.
  destruct (cluster2lba_run root cx dx si di false true (root :: st) m d bx less) as (f1 & z1 & E1);
    [destruct Hroot as [Hc _]; unfold FAT_EOF in Hc; lia | apply Hroot |].
  destruct (boot_read_run (cluster_lba m root) cx (with_low8 (load8 m (FAT32 + 13)) 0) si buffer f1 z1 (root :: st) m d bx less Hd)
    as (z2 & d2 & Hd2 & Hread); [unfold buffer; lia | unfold buffer; lia |].
  destruct (sector_read (cluster_lba m root) buffer m) as [Hin Hout]. rewrite Hid in Hin. set (m1 := snd (read_sectors _ _ _ _ _)) in *.
  pose proof (load_bounds m 2 bytes_per_cluster) as Hb.
  exists cx, (with_low8 (load8 m (FAT32 + 13)) 0). do 2 eexists. exists d2, m1, less.
  split; [unfold sectors_per_cluster_of; intros E; apply Hd2; by rewrite E |]. split; [by split |].
  refine (eventually_mono _ _ _ Hread). intros fuel E2 k.
  rewrite lexec_all_app, root_block. fold (root_of m). fold root.
  rewrite bind_Some_eq, lexec_all_app, E1, bind_Some_eq, buffer_block, bind_Some_eq, E2, bind_Some_eq, entries_block, bind_Some_eq.
  rewrite (same_outside_load _ _ _ _ 2 bytes_per_cluster Hout) by (unfold bytes_per_cluster, buffer; lia).
  rewrite (uint64_id (buffer + _)) by (unfold buffer; lia). reflexivity.
Qed.

(** The name is there: [ret] goes to the caller, with the entry's cluster. *)
Lemma searchFile_found ax cx dx si di c z (ret : Z) st m d bx less fileName j :
  volume m -> data_cluster m (root_of m) -> idle d -> 0x9000 <= fileName -> fileName + 11 <= buffer ->
  0 <= j < 16 -> (forall i, 0 <= i <= j -> load 2 m bytes_per_cluster <> 32 * i) ->
  (forall i, 0 <= i < j -> ~ names m fileName i) -> names m fileName j ->
  exists cx' dx' si' di' z' m1 d' bx' less', (sectors_per_cluster_of m = 1 -> idle d') /\ same_outside buffer (buffer + 512) m m1 /\
    eventually (fun fuel => searchFile fuel fileName (state ax cx dx si di c z (ret :: st) m d bx less) =
      Some (ret, state (entry_cluster m j) cx' dx' si' di' false z' st m1 d' bx' less')).
Proof.
  intros Hvol Hroot Hd Hn0 Hn1 Hj Hend Hmiss Hhit.
  destruct (search_start ax cx dx si di c z (ret :: st) m d bx less Hvol Hroot Hd) as (cx1 & dx1 & f1 & z1 & d1 & m1 & less1 & Hd1 & Hdir & Hrun).
  unfold buffer in Hn1.
  destruct (search_found fileName (Z.to_nat j) 0 (buffer - 32) cx1 dx1 si (buffer + 512) f1 z1 (root_of m :: ret :: st) m1 d1
    (buffer + load 2 m bytes_per_cluster) less1) as (cx2 & di2 & c2 & less2 & E2); rewrite ?Z.add_0_l, ?Z2Nat.id in * by lia; try lia.
  - intros i Hi. destruct (matches m1 fileName i) eqn:E; [| done]. destruct (Hmiss i Hi). by apply (matches_names m m1); [done | lia | |].
  - by apply (matches_names m m1).
  - intros i Hi. specialize (Hend i Hi). lia.
  - destruct Hrun as [n Hrun]. do 4 eexists. exists true, m1, d1. do 2 eexists. split; [exact Hd1 |]. split; [apply Hdir |].
    exists (n + S (Z.to_nat j))%nat. intros fuel Hfuel. unfold searchFile. rewrite Hrun, E2, !bind_Some_eq by lia.
    destruct (dir_field m m1 (32 * j + 20) Hroot Hdir) as [E20 B20]; [lia | lia |].
    destruct (dir_field m m1 (32 * j + 26) Hroot Hdir) as [E26 B26]; [lia | lia |].
    machine. unfold buffer. rewrite (uint64_id (_ + 15)), (uint64_id (_ + 9)) by lia.
    replace (0x10000 + 32 * j + 11 + 15) with (0x10000 + (32 * j + 26)) by lia.
    replace (0x10000 + 32 * j + 11 + 9) with (0x10000 + (32 * j + 20)) by lia.
    unfold buffer in E20, E26. rewrite E20, E26. unfold entry_cluster.
    set (hi := disk_load _ 2 _ (32 * j + 20)) in *. set (lo := disk_load _ 2 _ (32 * j + 26)) in *.
    rewrite (uint64_id hi), !(uint64_id (hi * 256)), (uint64_id (hi * 256 * 256)), (Z.div_small (hi * 256 * 256)) by lia.
    replace (with_low16 lo (hi * 256 * 256)) with (hi * 65536 + lo) by (unfold with_low16; div_lia). reflexivity.
Qed.

(** No entry of the sector has the name: [ret] takes the cluster from the stack for the
    caller's address. *)
Lemma searchFile_missed ax cx dx si di c z st m d bx less fileName :
  volume m -> data_cluster m (root_of m) -> idle d -> 0x9000 <= fileName -> fileName + 11 <= buffer ->
  load 2 m bytes_per_cluster = 512 -> (forall i, 0 <= i < 16 -> ~ names m fileName i) ->
  exists s', carry s' = true /\ stack (p_cpu (l_pc s')) = st /\
    eventually (fun fuel => searchFile fuel fileName (state ax cx dx si di c z st m d bx less) = Some (root_of m, s')).
Proof.
  intros Hvol Hroot Hd Hn0 Hn1 Hbpc Hmiss.
  destruct (search_start ax cx dx si di c z st m d bx less Hvol Hroot Hd) as (cx1 & dx1 & f1 & z1 & d1 & m1 & less1 & Hd1 & Hdir & Hrun).
  destruct (search_missed fileName 16 0 (buffer - 32) cx1 dx1 si (buffer + 512) f1 z1 (root_of m :: st) m1 d1
    (buffer + load 2 m bytes_per_cluster) less1) as (s1 & Em & Est & Ed & E2); [lia | lia | unfold buffer in Hn1; lia | lia | | lia |].
  - intros i Hi. destruct (matches m1 fileName i) eqn:E; [| done]. destruct (Hmiss i ltac:(lia)). apply (matches_names m m1); [done | lia | done | done].
  - exists (lstack st (lflags true (zero s1) s1)). split; [done |]. split; [done |].
    destruct Hrun as [n Hrun]. exists (n + 17)%nat. intros fuel Hfuel. unfold searchFile. rewrite Hrun, E2, !bind_Some_eq by lia.
    change (lexec_all [Stc] s1) with (Some (lflags true (zero s1) s1)). rewrite bind_Some_eq. unfold lret.
    cbn [lflags upd_pc upd_cpu l_pc p_cpu set_flags stack]. by rewrite Est.
Qed.
End disk_routines.

(** * Theorems *)

(** [searchFile], when the first sector of the root directory holds the name: it returns to
    its caller, with the carry flag clear, and [rax] is the cluster of the first entry of that name, both
    halves of it. Only the sector buffer has changed. *)
Theorem searchFile_spec {D : Type} `{Drive D} (ax cx dx si di : Z) (c z : bool) (ret : Z) (st : list Z) (m : mem) (d : D)
    (bx : Z) (less : bool) (fileName j : Z)
    (Hvol : volume m) (Hroot : data_cluster m (root_of m)) (Hd : idle d) (Hname : 0x9000 <= fileName <= buffer - 11)
    (Hj : 0 <= j < 16) (Hend : 32 * j < load 2 m bytes_per_cluster)
    (Hmiss : forall i, 0 <= i < j -> ~ names (D := D) m fileName i) (Hhit : names (D := D) m fileName j) :
  eventually (fun fuel => exists s',
    searchFile fuel fileName (state ax cx dx si di c z (ret :: st) m d bx less) = Some (ret, s') /\
    lget RAX s' = entry_cluster (D := D) m j /\ carry s' = false /\ stack (p_cpu (l_pc s')) = st /\
    same_outside buffer (buffer + 512) m (lmem s')).
Proof.
  destruct (searchFile_found ax cx dx si di c z ret st m d bx less fileName j) as
    (cx' & dx' & si' & di' & z' & m1 & d' & bx' & less' & _ & Hout & Hrun); try done; try lia.
  refine (eventually_mono _ _ _ Hrun). intros fuel E. eexists. split; [exact E |]. by split_and!.
Qed.

(** C34: [searchFile], when none of the sixteen entries of the root directory's first
    cluster has the name: it does not come back with the carry flag set, as its comment says, but
    jumps to the number of the root cluster, which it has left on the stack. *)
Theorem searchFile_lost {D : Type} `{Drive D} (ax cx dx si di : Z) (c z : bool) (ret : Z) (st : list Z) (m : mem) (d : D)
    (bx : Z) (less : bool) (fileName : Z)
    (Hvol : volume m) (Hroot : data_cluster m (root_of m)) (Hd : idle d) (Hname : 0x9000 <= fileName <= buffer - 11)
    (Hsize : load 2 m bytes_per_cluster = 512) (Hmiss : forall i, 0 <= i < 16 -> ~ names (D := D) m fileName i) :
  eventually (fun fuel => exists s',
    searchFile fuel fileName (state ax cx dx si di c z (ret :: st) m d bx less) = Some (root_of m, s') /\
    stack (p_cpu (l_pc s')) = ret :: st).
Proof.
  destruct (searchFile_missed ax cx dx si di c z (ret :: st) m d bx less fileName) as (s' & _ & Hst & Hrun); try done; try lia.
  refine (eventually_mono _ _ _ Hrun). intros fuel E. by exists s'.
Qed.

(** [loadFile] on a file of one cluster, on a volume whose clusters are one sector: it puts the
    sector at [rdi], restores the registers but for [rdi], and changes nothing else but the sector
    buffer. On longer files it breaks the drive's protocol ([loadFile_early_command]). *)
Theorem loadFile_spec {D : Type} `{Drive D} (c cx dx si di : Z) (f z : bool) (st : list Z) (m : mem) (d : D)
    (bx : Z) (less : bool)
    (Hvol : volume m) (Hspc : sectors_per_cluster_of m = 1) (Hc : data_cluster m c)
    (Hlast : FAT_EOF <= next_cluster (D := D) m c) (Hd : idle d)
    (Hdi : 0x10200 <= di) (Hlim : di + 512 < 2 ^ 64) :
  eventually (fun fuel => exists z' less' d' m',
    loadFile fuel (state c cx dx si di f z st m d bx less) =
      Some (state c cx dx si (di + 512) false z' st m' d' bx less') /\
    (forall k, 0 <= k < 512 -> load8 m' (di + k) = disk_of D (cluster_lba m c) k mod 256) /\ only_there di m m').
Proof.
  destruct (loadFile_run c cx dx si di f z st m d bx less Hvol Hspc Hc Hlast Hd Hdi Hlim) as (z' & less' & d' & m' & _ & Hl & Ho & Hrun).
  refine (eventually_mono _ _ _ Hrun). intros fuel E. by exists z', less', d', m'.
Qed.

(** * A concrete disk *)

(** "KERNEL     " *)
Definition kernel_name : list Z := [75; 69; 82; 78; 69; 76; 32; 32; 32; 32; 32].

(** The allocation table in sector 80, with the chain 3, 5; the root directory, cluster 2, in
    sector 100, where the second entry is the kernel's; the kernel in sectors 101 and 103. *)
Definition boot_sector (file : Z -> Z) (low mid high sel k : Z) : Z :=
  if low =? 80 then nth (Z.to_nat k) ([248; 255; 255; 15; 255; 255; 255; 255; 248; 255; 255; 15; 5; 0; 0; 0; 0; 0; 0; 0; 248; 255; 255; 15]) 0
  else if low =? 100 then nth (Z.to_nat k) (replicate 32 65 ++ kernel_name ++ replicate 15 0 ++ [3; 0; 184; 0]) 0
  else if low =? 101 then file k
  else if low =? 103 then file (512 + k)
  else 0.

Definition demo_image : Z -> Z := fun k => 2 * k.

(** What the first stage leaves, and the name in the second stage. *)
Definition boot_mem : mem := Eval vm_compute in
  store 2 (FAT32 + 11) 512 (store8 (FAT32 + 13) 1 (store 4 (FAT32 + 44) 2 (store 4 fat_begin_lba 80 (store 4 cluster_begin_lba 100
    (store 4 bytes_per_cluster 512 (foldr (fun '(a, b) m => store8 a b m) ∅ (zip (seqZ 0xA000 11) kernel_name))))))).

Lemma boot_mem_fields :
  load 2 boot_mem (FAT32 + 11) = 512 /\ load8 boot_mem (FAT32 + 13) = 1 /\ load 4 boot_mem (FAT32 + 44) = 2 /\
  load 4 boot_mem fat_begin_lba = 80 /\ load 4 boot_mem cluster_begin_lba = 100 /\ load 2 boot_mem bytes_per_cluster = 512.
Proof. vm_compute. done. Qed.

#[global] Opaque boot_mem.

Lemma boot_volume : volume boot_mem.
Proof. destruct boot_mem_fields as (E1 & _ & _ & E4 & _). split; [done |]. unfold fat_lba. rewrite E4. lia. Qed.

Lemma boot_cluster c : 2 <= c < 1000 -> data_cluster boot_mem c.
Proof.
  intros Hc. destruct boot_mem_fields as (_ & E2 & _ & _ & E5 & _). unfold data_cluster, cluster_lba, sectors_per_cluster_of, FAT_EOF.
  rewrite E2, E5. lia.
Qed.

Lemma boot_root : data_cluster boot_mem (root_of boot_mem).
Proof. unfold root_of. destruct boot_mem_fields as (_ & _ & E3 & _). rewrite E3. by apply boot_cluster. Qed.

Lemma boot_names file : names (D := ata (boot_sector file)) boot_mem 0xA000 1 /\ forall i, 0 <= i < 1 -> ~ names (D := ata (boot_sector file)) boot_mem 0xA000 i.
Proof.
  split.
  - intros k Hk. assert (In k (seqZ 0 11)) as Hin by (apply list_elem_of_In, elem_of_seqZ; lia).
    cbn in Hin. repeat destruct Hin as [<-|Hin]; [vm_compute; reflexivity .. | done].
  - intros i Hi Hn. assert (i = 0) as -> by lia. specialize (Hn 0 ltac:(lia)). revert Hn. vm_compute. discriminate.
Qed.

Lemma boot_next file :
  next_cluster (D := ata (boot_sector file)) boot_mem 3 = 5 /\ next_cluster (D := ata (boot_sector file)) boot_mem 5 = 0x0ffffff8.
Proof. split; vm_compute; reflexivity. Qed.

Definition boot_drive file : ata (boot_sector file) := AtaDrive ∅ 0 [] false.

Lemma searchFile_spec_witness :
  exists fuel s', searchFile fuel 0xA000 (state 9 8 7 6 5 true true [77] boot_mem (boot_drive demo_image) 0 false) = Some (77, s') /\
    lget RAX s' = 3 /\ carry s' = false /\ stack (p_cpu (l_pc s')) = [].
Proof.
  destruct (searchFile_spec 9 8 7 6 5 true true 77 [] boot_mem (boot_drive demo_image) 0 false 0xA000 1) as [n Hn].
  - exact boot_volume.
  - exact boot_root.
  - done.
  - unfold buffer. lia.
  - lia.
  - destruct boot_mem_fields as (_ & _ & _ & _ & _ & E). rewrite E. lia.
  - apply boot_names.
  - apply boot_names.
  - destruct (Hn (S n) ltac:(lia)) as (s' & E & Hr & Hc & Hs & _). exists (S n), s'.
    split; [exact E |]. split; [rewrite Hr; vm_compute; reflexivity |]. by split.
Defined.

Lemma searchFile_lost_witness :
  exists fuel s', searchFile fuel 0xA001 (state 9 8 7 6 5 true true [77] boot_mem (boot_drive demo_image) 0 false) = Some (2, s') /\
    stack (p_cpu (l_pc s')) = [77].
Proof.
  destruct (searchFile_lost 9 8 7 6 5 true true 77 [] boot_mem (boot_drive demo_image) 0 false 0xA001) as [n Hn].
  - exact boot_volume.
  - exact boot_root.
  - done.
  - unfold buffer. lia.
  - apply boot_mem_fields.
  - intros i Hi Hname. specialize (Hname 0 ltac:(lia)).
    assert (In i (seqZ 0 16)) as Hin by (apply list_elem_of_In, elem_of_seqZ; lia).
    cbn in Hin. repeat destruct Hin as [<-|Hin]; [revert Hname; vm_compute; discriminate .. | done].
  - destruct (Hn (S n) ltac:(lia)) as (s' & E & Hs). exists (S n), s'. split; [rewrite E; vm_compute; reflexivity | exact Hs].
Defined.

(** The second cluster of the chain, taken for a file of its own. *)
Lemma loadFile_spec_witness :
  exists fuel s' m', loadFile fuel (state 5 8 7 6 kernel true true [77] boot_mem (boot_drive demo_image) 0 false) = Some s' /\
    lmem s' = m' /\ load8 m' (kernel + 88) = 1200 mod 256 /\ lget RDI s' = kernel + 512.
Proof.
  destruct (loadFile_spec 5 8 7 6 kernel true true [77] boot_mem (boot_drive demo_image) 0 false) as [n Hn].
  - exact boot_volume.
  - apply boot_mem_fields.
  - by apply boot_cluster.
  - rewrite (proj2 (boot_next demo_image)). done.
  - done.
  - unfold kernel, buffer. lia.
  - unfold kernel, buffer. simpl. lia.
  - destruct (Hn (S n) ltac:(lia)) as (z' & less' & d' & m' & E & Hl & _). exists (S n). eexists. exists m'.
    split; [exact E |]. split; [reflexivity |]. split; [| reflexivity].
    specialize (Hl 88 ltac:(lia)). rewrite Hl. vm_compute. reflexivity.
Defined.

(** A file of two clusters: after [cluster2lba], whose [mul] clears [dl], the loader asks for 256
    sectors and reads one, and it sends the next command while the drive waits for the others
    to be read, which the protocol of a read command does not allow. On a file of one cluster it
    does not. *)
Definition early_command (c : Z) : option bool :=
  s ← loadFile 10 (state c 8 7 6 kernel true true [77] boot_mem (boot_drive demo_image) 0 false);
  Some (a_early (p_drive (l_pc s))).

Theorem loadFile_early_command :
  next_cluster (D := ata (boot_sector demo_image)) boot_mem 3 = 5 /\ early_command 3 = Some true /\
  FAT_EOF <= next_cluster (D := ata (boot_sector demo_image)) boot_mem 5 /\ early_command 5 = Some false.
Proof. split_and!; vm_compute; first [reflexivity | discriminate]. Qed.
