(* ===== verification/BootMap.v ===== *)
(** The firmware's memory map (boot/memory.asm, lines 24-31 of boot/stage2.asm): the loader
    asks the BIOS for it entry by entry and leaves it to the kernel, which finds it through
    [multiboot_info] (include/bootinfo.h) in [memman_init]. *)

From S2P Require Import Prelude Words Memory FrameMap FrameAlloc Ata BootPaging.
#[local] Open Scope Z_scope.

(** * The BIOS *)

(** An answer to [int 0x15] with [eax] = 0xe820 and a clear carry flag: the registers and the
    entry, of which the BIOS stores [an_ecx] bytes at [es:di]. *)
Record answer := Answer { an_eax : Z; an_ebx : Z; an_ecx : Z; an_entry : memory_region }.

(** The service, with its continuation value in [ebx]; [None] is a set carry flag. *)
Class Bios (B : Type) := { e820 : B -> Z -> option answer }.

#[global] Hint Mode Bios ! : typeclass_instances.

Definition SMAP : Z := 0x0534D4150.

(** An entry in memory: 20 bytes, or 24 with the extended attributes. *)
Definition put_entry (ecx : Z) (a : Z) (r : memory_region) (m : mem) : mem :=
  let m := store 4 (a + 16) (type r) (store 8 (a + 8) (size r) (store 8 a (start r) m)) in
  if ecx <=? 20 then m else store 4 (a + 20) (acpi3 r) m.

(** * The loader *)

Section loader.
Context {B : Type} `{Bios B} (bios : B).

(** The registers of real mode that matter, with [es] = 0, and memory. *)
Record real := Real { r_di : Z; r_bp : Z; r_ebx : Z; r_ecx : Z; r_ram : mem }.

(** The label [bootinfo] of stage2.asm and two of its fields. *)
Context (bootinfo : Z).
Definition mmap_length : Z := bootinfo + 40.
Definition mmap_addr : Z := bootinfo + 44.

(** Forcing a valid ACPI 3 entry, and the call. The flag says that [eax] is "SMAP" again. *)
Definition int15 (s : real) : option (bool * real) :=
  let m := store 4 (low16 (r_di s + 20)) 1 (r_ram s) in
  a ← e820 bios (r_ebx s);
  Some (uint32_t (an_eax a) =? SMAP, Real (r_di s) (r_bp s) (an_ebx a) (an_ecx a) (put_entry (an_ecx a) (r_di s) (an_entry a) m)).

(** [.jmpin] to [.skipent]: whether the entry counts. *)
Definition jmpin (s : real) : real :=
  if low16 (r_ecx s) =? 0 then s
  else if negb (low8 (r_ecx s) <=? 20) && (Z.land (load8 (r_ram s) (low16 (r_di s + 20))) 1 =? 0) then s
  else
    let ecx := Z.lor (load 4 (r_ram s) (low16 (r_di s + 8))) (load 4 (r_ram s) (low16 (r_di s + 12))) in
    if ecx =? 0 then Real (r_di s) (r_bp s) (r_ebx s) ecx (r_ram s)
    else Real (low16 (r_di s + 24)) (low16 (r_bp s + 1)) (r_ebx s) ecx (r_ram s).

(** [.skipent] and [.e820lp]: [inr] leaves at [.e820f]. The store before a call that fails stays. *)
Definition e820lp (s : real) : real + real :=
  if r_ebx s =? 0 then inr s
  else match int15 s with
       | None => inr (Real (r_di s) (r_bp s) (r_ebx s) (r_ecx s) (store 4 (low16 (r_di s + 20)) 1 (r_ram s)))
       | Some (_, s) => inl (jmpin s)
       end.

(** [BiosGetMemoryMap]: the carry flag, and the state. *)
Definition BiosGetMemoryMap (fuel : nat) (s : real) : option (bool * real) :=
  let s := Real (r_di s) 0 0 (r_ecx s) (r_ram s) in
  match int15 s with
  | None => Some (true, Real (r_di s) (r_bp s) (r_ebx s) (r_ecx s) (store 4 (low16 (r_di s + 20)) 1 (r_ram s)))
  | Some (smap, s) =>
      if negb smap then Some (true, s)
      else if r_ebx s =? 0 then Some (true, s)
      else
        s ← iter_fuel fuel e820lp (jmpin s);
        Some (false, Real (r_di s) (r_bp s) (r_ebx s) (r_ecx s) (store 2 mmap_length (r_bp s) (r_ram s)))
  end.

(** The caller in stage2.asm, which does not look at the carry flag. *)
Definition get_memory_map (fuel : nat) (m : mem) : option mem :=
  let di := 512 in
  '(_, s) ← BiosGetMemoryMap fuel (Real di 0 0 0 (store 2 mmap_addr di m));
  Some (r_ram s).

End loader.

(** * The kernel's side *)

(** [memory_map\[i\]] at its address. *)
Definition region_at (m : mem) (a : Z) : memory_region :=
  MemoryRegion (load 8 m a) (load 8 m (a + 8)) (load 4 m (a + 16)) (load 4 m (a + 20)).

Definition m_mmap_length (m : mem) (bootinfo : Z) : Z := load 4 m (bootinfo + 40).
Definition m_mmap_addr (m : mem) (bootinfo : Z) : Z := load 4 m (bootinfo + 44).

(** The list that the loops of [memman_init] go through. *)
Definition memory_map (m : mem) (bootinfo : Z) : list memory_region :=
  (fun i => region_at m (m_mmap_addr m bootinfo + 24 * i)) <$> seqZ 0 (m_mmap_length m bootinfo).

(** * The list *)

(** What is in memory after a call: an entry without attributes gets the forced ones. *)
Definition stored_entry (a : answer) : memory_region :=
  MemoryRegion (start (an_entry a)) (size (an_entry a)) (type (an_entry a)) (if an_ecx a <=? 20 then 1 else acpi3 (an_entry a)).

(** The loader keeps an entry that is not empty and not to be ignored. *)
Definition keeps (a : answer) : bool :=
  negb (negb (an_ecx a <=? 20) && (Z.land (acpi3 (an_entry a)) 1 =? 0)) && negb (size (an_entry a) =? 0).

(** What the kernel should see of a firmware's answers. *)
Fixpoint kept (l : list answer) : list memory_region :=
  match l with [] => [] | a :: l => if keeps a then stored_entry a :: kept l else kept l end.

Lemma kept_length l : (length (kept l) <= length l)%nat.
Proof. induction l as [|a l IH]; [done |]. cbn [kept length]. destruct (keeps a); cbn [length]; lia. Qed.

(** A well-formed answer: 20 or 24 bytes, values of the fields' widths. *)
Record answer_ok (a : answer) : Prop := {
  ok_ecx : an_ecx a = 20 \/ an_ecx a = 24;
  ok_start : 0 <= start (an_entry a) < 2 ^ 64;
  ok_size : 0 <= size (an_entry a) < 2 ^ 64;
  ok_type : 0 <= type (an_entry a) < 2 ^ 32;
  ok_acpi3 : 0 <= acpi3 (an_entry a) < 2 ^ 32
}.

(** The answers that follow the continuation value [k]: the BIOS ends the list with a
    continuation of 0 or with the carry flag. *)
Inductive serves {B : Type} `{Bios B} (bios : B) : Z -> list answer -> Prop :=
  | serves_end : serves bios 0 []
  | serves_carry k : k <> 0 -> e820 bios k = None -> serves bios k []
  | serves_more k a l : k <> 0 -> e820 bios k = Some a -> serves bios (an_ebx a) l -> serves bios k (a :: l).

(** The regions [l] at 512. *)
Definition regions (l : list memory_region) (m : mem) : Prop :=
  forall i r, l !! i = Some r -> region_at m (512 + 24 * Z.of_nat i) = r.

(** ** One entry *)

Lemma region_at_ext m m' a : (forall b, a <= b < a + 24 -> load8 m' b = load8 m b) -> region_at m' a = region_at m a.
Proof. intros Hext. unfold region_at. f_equal; apply load_ext; intros b Hb; apply Hext; lia. Qed.

Lemma put_entry_run (a : answer) di m :
  answer_ok a ->
  let m' := put_entry (an_ecx a) di (an_entry a) (store 4 (di + 20) 1 m) in
  region_at m' di = stored_entry a /\ same_outside di (di + 24) m m'.
Proof.
  intros [Hecx Hs Hz Ht Ha]. cbv zeta. unfold put_entry, region_at, stored_entry. split.
  - destruct Hecx as [-> | ->]; cbn [Z.leb Z.compare Pos.compare Pos.compare_cont];
      f_equal; repeat first [rewrite load_store_same by done | rewrite load_store_other by lia]; done.
  - destruct (an_ecx a <=? 20); repeat (apply same_outside_store; [| lia | lia]); done.
Qed.

Lemma size_zero m a : 0 <= a -> (Z.lor (load 4 m a) (load 4 m (a + 4)) =? 0) = (load 8 m a =? 0).
Proof.
  intros Ha. change 8%nat with (4 + 4)%nat. rewrite load_add. change (a + Z.of_nat 4) with (a + 4).
  pose proof (load_bounds m 4 a). pose proof (load_bounds m 4 (a + 4)). change (8 * Z.of_nat 4) with 32 in *.
  apply eq_true_iff_eq. rewrite !Z.eqb_eq, Z.lor_eq_0_iff. lia.
Qed.

Lemma attribute_bit m a : 0 <= a -> Z.land (load8 m a) 1 = Z.land (load 4 m a) 1.
Proof.
  intros Ha. change (load 4 m a) with (load8 m a + 256 * load 3 m (a + 1)).
  change 1 with (Z.ones 1). rewrite !Z.land_ones by lia. change (2 ^ 1) with 2. div_lia.
Qed.

Section run.
Context {B : Type} `{Bios B} (bios : B).

(** Between two calls: the regions [l] are stored. *)
Record collected (m0 : mem) (l : list memory_region) (s : real) : Prop := {
  co_di : r_di s = 512 + 24 * Z.of_nat (length l);
  co_bp : r_bp s = Z.of_nat (length l);
  co_regions : regions l (r_ram s);
  co_outside : same_outside 512 (512 + 24 * (Z.of_nat (length l) + 1)) m0 (r_ram s)
}.

(** A call, which leaves its entry behind the others. *)
Lemma int15_run m0 l s a :
  collected m0 l s -> e820 bios (r_ebx s) = Some a -> answer_ok a -> Z.of_nat (length l) < 1000 ->
  exists m', int15 bios s = Some (uint32_t (an_eax a) =? SMAP, Real (r_di s) (r_bp s) (an_ebx a) (an_ecx a) m') /\
    collected m0 l (Real (r_di s) (r_bp s) (an_ebx a) (an_ecx a) m') /\ region_at m' (r_di s) = stored_entry a.
Proof.
  intros [Hdi Hbp Hl Ho] Ea Hok Hlen. unfold int15. rewrite Ea, bind_Some_eq.
  unfold low16. rewrite (Z.mod_small (r_di s + 20)) by lia.
  destruct (put_entry_run a (r_di s) (r_ram s) Hok) as [Hat Hout].
  eexists. split; [reflexivity |]. split; [| exact Hat]. split; [exact Hdi | exact Hbp | |]; cbn [r_ram].
  - intros i r Hi. rewrite <- (Hl i r Hi). apply region_at_ext. intros b Hb. apply Hout. apply lookup_lt_Some in Hi. lia.
  - intros b Hb. rewrite Hout by lia. by apply Ho.
Qed.

(** The decision about it. *)
Lemma jmpin_run m0 l di bp a m :
  collected m0 l (Real di bp (an_ebx a) (an_ecx a) m) -> region_at m di = stored_entry a -> answer_ok a -> Z.of_nat (length l) < 1000 ->
  let s' := jmpin (Real di bp (an_ebx a) (an_ecx a) m) in
  r_ebx s' = an_ebx a /\ collected m0 (if keeps a then l ++ [stored_entry a] else l) s'.
Proof.
  intros Hc Hat [Hecx _ Hsz _ Hattr] Hlen. pose proof Hc as [Hdi Hbp Hl Ho]. cbn [r_di r_bp r_ram] in *.
  assert (forall ecx, collected m0 l (Real di bp (an_ebx a) ecx m)) as Hskip by (intros; by split).
  assert (forall ecx, collected m0 (l ++ [stored_entry a]) (Real (di + 24) (bp + 1) (an_ebx a) ecx m)) as Hkeep.
  { intros ecx. split; cbn [r_di r_bp r_ram]; rewrite ?length_app; cbn [length]; [lia | lia | |].
    - intros i r Hi. apply lookup_app_Some in Hi as [Hi|[Hi Hi']]; [by apply Hl |].
      apply list_lookup_singleton_Some in Hi' as [Hi' <-]. rewrite <- Hat, Hdi. do 2 f_equal. lia.
    - intros b Hb. apply Ho. lia. }
  assert ((low16 (an_ecx a) =? 0) = false) as Hnz by (destruct Hecx as [-> | ->]; done).
  assert (low8 (an_ecx a) = an_ecx a) as Hcl by (destruct Hecx as [-> | ->]; done).
  unfold jmpin. cbn [r_ecx r_di r_ram r_bp r_ebx]. rewrite Hnz, Hcl.
  unfold low16. rewrite (Z.mod_small (di + 20)), (Z.mod_small (di + 8)), (Z.mod_small (di + 12)), (Z.mod_small (di + 24)), (Z.mod_small (bp + 1)) by lia.
  unfold region_at, stored_entry in Hat. injection Hat as _ Esz _ Eat.
  rewrite attribute_bit, Eat by lia. replace (di + 12) with (di + 8 + 4) by lia. rewrite size_zero, Esz by lia.
  unfold keeps. destruct (an_ecx a <=? 20); cbn [negb andb].
  - destruct (size (an_entry a) =? 0); cbn [negb andb]; by split.
  - destruct (Z.land (acpi3 (an_entry a)) 1 =? 0); cbn [negb andb]; [by split |].
    destruct (size (an_entry a) =? 0); cbn [negb andb]; by split.
Qed.

Lemma kept_cons a l r : r ++ kept (a :: l) = (if keeps a then r ++ [stored_entry a] else r) ++ kept l.
Proof. cbn [kept]. destruct (keeps a); [| done]. by rewrite <- app_assoc. Qed.

(** The store before a call that has no answer. *)
Lemma collected_force m0 l s :
  collected m0 l s -> Z.of_nat (length l) < 1000 ->
  collected m0 l (Real (r_di s) (r_bp s) (r_ebx s) (r_ecx s) (store 4 (low16 (r_di s + 20)) 1 (r_ram s))).
Proof.
  intros [Hdi Hbp Hl Ho] Hlen. unfold low16. rewrite (Z.mod_small (r_di s + 20)) by lia. split; [exact Hdi | exact Hbp | |]; cbn [r_ram].
  - intros i r Hi. rewrite <- (Hl i r Hi). apply region_at_ext. intros b Hb. apply load8_store. apply lookup_lt_Some in Hi. lia.
  - apply same_outside_store; [done | lia | lia].
Qed.

(** The loop, from [.skipent] on. *)
Lemma e820_loop m0 k l :
  serves bios k l -> forall r s fuel, collected m0 r s -> r_ebx s = k -> Forall answer_ok l ->
  Z.of_nat (length r + length l) < 1000 -> (length l < fuel)%nat ->
  exists s', iter_fuel fuel (e820lp bios) s = Some s' /\ collected m0 (r ++ kept l) s'.
Proof.
  induction 1 as [|k Hk0 Hcarry|k a l Hk0 Ea Hserves IH]; intros r s [|fuel] Hc Hk Hall Hlen Hfuel; try (simpl in Hfuel; lia);
    cbn [iter_fuel length] in *; unfold e820lp at 1; rewrite Hk.
  - exists s. split; [done |]. by rewrite app_nil_r.
  - rewrite (proj2 (Z.eqb_neq k 0)) by done. unfold int15. rewrite Hk, Hcarry. cbn [mbind option_bind]. eexists. split; [reflexivity |].
    rewrite app_nil_r, <- Hk. apply collected_force; [done | lia].
  - rewrite (proj2 (Z.eqb_neq k 0)) by done. apply Forall_cons in Hall as [Hok Hall]. rewrite <- Hk in Ea.
    destruct (int15_run m0 r s a Hc Ea Hok ltac:(lia)) as (m' & E & Hc' & Hat).
    destruct (jmpin_run m0 r (r_di s) (r_bp s) a m' Hc' Hat Hok ltac:(lia)) as [Hebx Hnext].
    rewrite E, kept_cons. apply IH; [done | done | done | | lia]. destruct (keeps a); rewrite ?length_app; cbn [length]; lia.
Qed.

Context (bootinfo : Z).

(** The loader's call, when the first answer is good. *)
Lemma get_memory_map_run m a l :
  e820 bios 0 = Some a -> uint32_t (an_eax a) = SMAP -> an_ebx a <> 0 -> serves bios (an_ebx a) l -> Forall answer_ok (a :: l) ->
  (length l < 900)%nat -> 0x6000 <= bootinfo ->
  exists m', (forall fuel, (length l < fuel)%nat -> get_memory_map bios bootinfo fuel m = Some m') /\ regions (kept (a :: l)) m' /\
    load 2 m' (mmap_length bootinfo) = Z.of_nat (length (kept (a :: l))) /\ load 2 m' (mmap_addr bootinfo) = 512 /\
    forall b, ~ (512 <= b < 0x6000) -> ~ (bootinfo + 40 <= b < bootinfo + 42) -> ~ (bootinfo + 44 <= b < bootinfo + 46) -> load8 m' b = load8 m b.
Proof.
  intros Ea Hsmap Hebx Hserves Hall Hlen Hinfo. apply Forall_cons in Hall as [Hok Hall].
  set (m0 := store 2 (mmap_addr bootinfo) 512 m).
  assert (collected m0 [] (Real 512 0 0 0 m0)) as Hstart by (split; [done | done | by intros i r Hi | done]).
  destruct (int15_run m0 [] (Real 512 0 0 0 m0) a Hstart Ea Hok) as (m1 & E1 & Hc1 & Hat); [simpl; lia |].
  destruct (jmpin_run m0 [] 512 0 a m1 Hc1 Hat Hok) as [Hebx1 Hc2]; [simpl; lia |]. cbn [r_di r_bp] in *.
  destruct (e820_loop m0 (an_ebx a) l Hserves _ _ (S (length l)) Hc2 Hebx1 Hall) as (s2 & E2 & Hc3); [destruct (keeps a); simpl; lia | lia |].
  rewrite <- kept_cons, app_nil_l in Hc3. destruct Hc3 as [_ Hbp Hl Ho].
  assert (length (kept (a :: l)) <= S (length l))%nat as Hk by apply kept_length.
  set (n := length (kept (a :: l))) in *.
  exists (store 2 (mmap_length bootinfo) (r_bp s2) (r_ram s2)). split.
  { intros fuel Hfuel. unfold get_memory_map, BiosGetMemoryMap. cbn [r_di r_bp r_ebx r_ecx r_ram].
    fold m0. rewrite E1, Hsmap. change (SMAP =? SMAP) with true. cbn [negb r_ebx].
    rewrite (proj2 (Z.eqb_neq (an_ebx a) 0)), (iter_fuel_mono _ (S (length l)) fuel _ _ Hfuel E2), bind_Some_eq by done. reflexivity. }
  unfold mmap_length, mmap_addr in *. split_and!.
  - intros i r Hi. rewrite <- (Hl i r Hi). apply region_at_ext. intros b Hb. apply load8_store.
    apply lookup_lt_Some in Hi. fold n in Hi. lia.
  - rewrite load_store_same; [done | lia].
  - rewrite load_store_other by lia. rewrite (same_outside_load _ _ _ _ 2 _ Ho) by lia. unfold m0. by rewrite load_store_same.
  - intros b H1 H2 H3. rewrite load8_store by lia. rewrite Ho by lia. apply load8_store. lia.
Qed.
End run.

(** * Theorems *)

(** The kernel's list, where memory holds [l]. *)
Lemma memory_map_run m bootinfo l :
  regions l m -> m_mmap_addr m bootinfo = 512 -> m_mmap_length m bootinfo = Z.of_nat (length l) -> memory_map m bootinfo = l.
Proof.
  intros Hl Ea El. unfold memory_map. rewrite Ea, El. apply list_eq. intros i. rewrite list_lookup_fmap.
  destruct (decide (i < length l)%nat) as [Hi|Hi].
  - rewrite lookup_seqZ_lt by lia. destruct (lookup_lt_is_Some_2 l i Hi) as [r Er]. rewrite Er. cbn. f_equal. by apply Hl.
  - rewrite lookup_seqZ_ge by lia. rewrite lookup_ge_None_2 by lia. done.
Qed.

Lemma low_half m a v : load 2 m a = v -> load 2 m (a + 2) = 0 -> load 4 m a = v.
Proof. intros E1 E2. rewrite load_words, E1, E2. lia. Qed.

(** What the loader has left, seen later: nothing has changed in the list and in [bootinfo]. *)
Lemma memory_map_kept m m1 m' bootinfo l :
  regions l m1 -> load 2 m1 (mmap_length bootinfo) = Z.of_nat (length l) -> load 2 m1 (mmap_addr bootinfo) = 512 ->
  (forall b, ~ (512 <= b < 0x6000) -> ~ (bootinfo + 40 <= b < bootinfo + 42) -> ~ (bootinfo + 44 <= b < bootinfo + 46) -> load8 m1 b = load8 m b) ->
  0x9000 <= bootinfo -> load 2 m (bootinfo + 42) = 0 /\ load 2 m (bootinfo + 46) = 0 -> (length l <= 149)%nat ->
  (forall b, 512 <= b < 0x1000 -> load8 m' b = load8 m1 b) ->
  (forall b, bootinfo + 40 <= b < bootinfo + 48 -> load8 m' b = load8 m1 b) ->
  memory_map m' bootinfo = l.
Proof.
  unfold mmap_length, mmap_addr. intros Hr En Ead Hout Hinfo [Hz1 Hz2] Hlen Hlow Hfields. apply memory_map_run.
  - intros i r Hi. rewrite <- (Hr i r Hi). apply region_at_ext. intros b Hb. apply Hlow. apply lookup_lt_Some in Hi. lia.
  - unfold m_mmap_addr. rewrite (load_ext m1 m') by (intros; apply Hfields; lia). apply low_half; [done |].
    rewrite <- Hz2. replace (bootinfo + 44 + 2) with (bootinfo + 46) by lia. apply load_ext. intros c Hc. apply Hout; lia.
  - unfold m_mmap_length. rewrite (load_ext m1 m') by (intros; apply Hfields; lia). apply low_half; [done |].
    rewrite <- Hz1. replace (bootinfo + 40 + 2) with (bootinfo + 42) by lia. apply load_ext. intros c Hc. apply Hout; lia.
Qed.

(** A firmware that answers the first call with [a], has the further entries [l], and whose list is not
    longer than the space for it. *)
Record firmware {B : Type} `{Bios B} (bios : B) (a : answer) (l : list answer) : Prop := {
  fw_first : e820 bios 0 = Some a;
  fw_smap : uint32_t (an_eax a) = SMAP;
  fw_more : an_ebx a <> 0;
  fw_serves : serves bios (an_ebx a) l;
  fw_answers : Forall answer_ok (a :: l);
  fw_calls : (length l < 900)%nat;
  fw_room : (length (kept (a :: l)) <= 149)%nat
}.

(** C23: from the BIOS to the kernel. When the firmware answers the first call and has more
    than one entry, the loader's list survives the writing of the page tables, and the array that
    [memman_init] walks is the firmware's list without its empty and its ignored entries, in
    order, up to 149 of them. The carry flag or a continuation of 0 ends it, and one more
    round than there are entries is enough. *)
Theorem firmware_map_spec {B : Type} `{Bios B} (bios : B) (bootinfo : Z) (m : mem) (a : answer) (l : list answer) (fuel : nat)
    (Hfw : firmware bios a l) (Hfuel : (length l < fuel)%nat)
    (Hinfo : 0x9000 <= bootinfo) (Hzero : load 2 m (bootinfo + 42) = 0 /\ load 2 m (bootinfo + 46) = 0) :
  exists m', get_memory_map bios bootinfo fuel m = Some m' /\
    forall s, ram s = m' -> half (edi s) -> half (ecx s) ->
      exists s', boot_tables s = Some s' /\ memory_map (ram s') bootinfo = kept (a :: l).
Proof.
  destruct Hfw as [Ha Hsmap Hebx Hl Hok Hlen Hkept].
  destruct (get_memory_map_run bios bootinfo m a l) as (m' & E & Hr & En & Ead & Hout); try done; [lia |].
  exists m'. split; [by apply E |]. intros s <- Hdi Hcx.
  destruct (boot_tables_run s Hdi Hcx) as (s' & Es & _ & _ & Ho). exists s'. split; [done |].
  apply (memory_map_kept m (ram s)); try done; intros b Hb; apply Ho; lia.
Qed.

(** When the first call fails, when [eax] does not come back as "SMAP", or when the first
    entry is the only one, the loader goes on all the same, and the kernel's list is empty. *)
Theorem firmware_map_fails {B : Type} `{Bios B} (bios : B) (bootinfo : Z) (m : mem) (fuel : nat)
    (Hfail : forall a, e820 bios 0 = Some a -> answer_ok a /\ (uint32_t (an_eax a) <> SMAP \/ an_ebx a = 0))
    (Hinfo : 0x9000 <= bootinfo) (Hzero : load 4 m (bootinfo + 40) = 0) :
  exists m', get_memory_map bios bootinfo fuel m = Some m' /\ memory_map m' bootinfo = [].
Proof.
  set (m0 := store 2 (mmap_addr bootinfo) 512 m).
  assert (collected m0 [] (Real 512 0 0 0 m0)) as Hstart by (split; [done | done | by intros i r Hi | done]).
  assert (forall m', same_outside 512 (512 + 24) m0 m' -> memory_map m' bootinfo = []) as Hempty.
  { intros m' Ho. unfold memory_map, m_mmap_length. rewrite (same_outside_load _ _ _ _ 4 _ Ho) by lia.
    unfold m0, mmap_addr. by rewrite load_store_other, Hzero by lia. }
  unfold get_memory_map, BiosGetMemoryMap. cbn [r_di r_bp r_ebx r_ecx r_ram]. fold m0.
  destruct (e820 bios 0) as [a|] eqn:Ea.
  - destruct (Hfail a eq_refl) as [Hok Hbad].
    destruct (int15_run bios m0 [] (Real 512 0 0 0 m0) a Hstart Ea Hok) as (m1 & E1 & [_ _ _ Ho] & _); [simpl; lia |].
    rewrite E1. cbn [r_di r_bp r_ram r_ebx] in *. exists m1. split; [| by apply Hempty].
    destruct (Z.eqb_spec (uint32_t (an_eax a)) SMAP) as [Es|]; [| done]. cbn [negb].
    destruct Hbad as [Hbad | ->]; [done | done].
  - unfold int15. cbn [r_ebx]. rewrite Ea. cbn [mbind option_bind]. eexists. split; [reflexivity |]. cbn [r_ram].
    apply Hempty. apply (collected_force m0 [] (Real 512 0 0 0 m0)); [done | simpl; lia].
Qed.

(** * A concrete firmware *)

(** Its entries by their continuation values. *)
Definition list_bios : Type := list answer.
#[export] Instance list_bios_e820 : Bios list_bios := {| e820 b k := b !! Z.to_nat k |}.

Definition demo_bios : list_bios :=
  [Answer SMAP 1 20 (MemoryRegion 0 0x9fc00 1 0);
   Answer SMAP 2 24 (MemoryRegion 0x9fc00 0x400 2 1);
   Answer SMAP 3 24 (MemoryRegion 0xf0000 0x10000 2 0);
   Answer SMAP 0 24 (MemoryRegion 0x100000 0x700000 1 1)].

Lemma demo_bios_ok : Forall answer_ok demo_bios.
Proof. repeat (constructor; [split; simpl; lia |]). constructor. Qed.

Lemma demo_bios_serves : serves demo_bios 1 (drop 1 demo_bios).
Proof. repeat (eapply serves_more; [done | reflexivity |]). apply serves_end. Qed.

Lemma demo_firmware : firmware demo_bios (Answer SMAP 1 20 (MemoryRegion 0 0x9fc00 1 0)) (drop 1 demo_bios).
Proof. split; [reflexivity | reflexivity | done | exact demo_bios_serves | exact demo_bios_ok | simpl; lia | vm_compute; lia]. Qed.

Lemma firmware_map_spec_witness :
  exists m' s', get_memory_map demo_bios 0x9800 10 ∅ = Some m' /\ boot_tables (Cpu32 0x11 7 0x1234 0x9000 0 m') = Some s' /\
    memory_map (ram s') 0x9800 = [MemoryRegion 0 0x9fc00 1 1; MemoryRegion 0x9fc00 0x400 2 1; MemoryRegion 0x100000 0x700000 1 1].
Proof.
  destruct (firmware_map_spec demo_bios 0x9800 ∅ (Answer SMAP 1 20 (MemoryRegion 0 0x9fc00 1 0)) (drop 1 demo_bios) 10) as (m' & E & Hs).
  - exact demo_firmware.
  - simpl. lia.
  - lia.
  - by split.
  - destruct (Hs (Cpu32 0x11 7 0x1234 0x9000 0 m') eq_refl) as (s' & E' & Em); [split; done | split; done |].
    exists m', s'. split; [exact E |]. split; [exact E' |]. rewrite Em. reflexivity.
Defined.

Lemma firmware_map_fails_witness :
  exists m', get_memory_map ([Answer SMAP 0 20 (MemoryRegion 0 0x800000 1 0)] : list_bios) 0x9800 10 ∅ = Some m' /\ memory_map m' 0x9800 = [].
Proof.
  apply (firmware_map_fails ([Answer SMAP 0 20 (MemoryRegion 0 0x800000 1 0)] : list_bios) 0x9800 ∅ 10).
  - intros a [= <-]. split; [split; simpl; lia | by right].
  - lia.
  - reflexivity.
Defined.
