(* ===== verification/BootLoader.v ===== *)
(** The second stage of the boot loader as a whole (boot/stage2.asm): the firmware's memory
    map, the page tables, and in long mode the search for the kernel, its file and its segments,
    up to the call of the kernel's entry point. *)

From S2P Require Import Prelude Words Memory FrameMap FrameAlloc Paging Fat32 Elf Ata BootPaging BootMap BootDisk LoadElf.
#[local] Open Scope Z_scope.

(** How the second stage ends. *)
Inductive outcome :=
  | Jumps (a : Z)                          (** a [ret] to no return address *)
  | Halts                                  (** the [hlt] *)
  | Enters (rip rdi : Z) (m : mem).        (** [call r12] *)

(** [rsp] in [loadelf]: [longMode]'s, below the return address. *)
Definition LOADER_STACK : Z := 0x100000000 - 22 - 8.

Section stage2.
Context {D B : Type} `{Drive D, Bios B}.

(** The labels that the assembler places: the two data structures, the variables of
    loadelf.asm, and the return address of the call of [searchFile]. *)
Context (bootinfo fileName filestart entrypoint searched : Z).

Definition with_ram (m : mem) (s : cpu32) : cpu32 := Cpu32 (eax s) (ebx s) (ecx s) (edi s) (cr3 s) m.
Definition with_lmem (m : mem) (s : loader D) : loader D := upd_pc (fun s => Pc (p_cpu s) m (p_drive s)) s.

(** [longMode]: [rsp] is set to an empty stack, the kernel is called with [bootinfo] in [rdi]. *)
Definition longMode (fuel : nat) (s : loader D) : option outcome :=
  s ← lexec_all [Mov64i RDI fileName] (lstack [searched] s);
  '(rip, s) ← searchFile fuel fileName s;
  if negb (rip =? searched) then Some (Jumps rip)
  else if carry s then Some Halts
  else
    s ← lexec_all [Mov64i RDI kernel] s;
    s ← loadFile fuel s;
    '(r12, m) ← loadelf filestart entrypoint LOADER_STACK fuel kernel (lmem s);
    Some (Enters r12 bootinfo m).

(** From real mode on; [s32] and [s64] are the registers at [protectedMode] and at [longMode]. *)
Definition stage2 (fuel : nat) (bios : B) (s32 : cpu32) (s64 : loader D) (m : mem) : option outcome :=
  m ← get_memory_map bios bootinfo fuel m;
  s ← boot_tables (with_ram m s32);
  longMode fuel (with_lmem (ram s) s64).

End stage2.

(** * The kernel from the disk *)

Section kernel_file.
Context {D : Type} `{Drive D}.
Context (bootinfo fileName filestart entrypoint searched : Z).
Implicit Types (m : mem) (s : loader D) (d : D).

#[local] Abbreviation disk := (disk_of D).
#[local] Abbreviation scratched := (scratch filestart entrypoint LOADER_STACK).

(** Byte [o] of the file that is the cluster [c], of one sector. *)
Definition file_byte m (c o : Z) : Z := disk (cluster_lba m c) o mod 256.

(** The sector is a kernel: its one segment has its place in the zone, whatever memory holds
    elsewhere. *)
Definition kernel_fits m (c : Z) : Prop :=
  forall m', (forall o, 0 <= o < 512 -> load8 m' (kernel + o) = file_byte m c o) ->
    e_phnum m' kernel = 1 /\ fits m' kernel 512.

(** The conditions on the volume: clusters of one sector, the variables of the first stage, and the
    kernel's entry [j] of the root directory, with a chain of one cluster. *)
Record bootable m (j : Z) : Prop := {
  bt_volume : volume m;
  bt_sectors : sectors_per_cluster_of m = 1;
  bt_root : data_cluster m (root_of m);
  bt_name : 0x9000 <= fileName <= buffer - 11;
  bt_entry : 0 <= j < 16 /\ 32 * j < load 2 m bytes_per_cluster;
  bt_first : forall i, 0 <= i < j -> ~ names (D := D) m fileName i;
  bt_found : names (D := D) m fileName j;
  bt_cluster : data_cluster m (entry_cluster (D := D) m j);
  bt_last : FAT_EOF <= next_cluster (D := D) m (entry_cluster (D := D) m j);
  bt_fits : kernel_fits m (entry_cluster (D := D) m j)
}.

(** What the kernel finds: the file [mf] is the cluster [c], [rip] its entry point, and its
    segment is in place. *)
Definition image_loaded m (c rip : Z) (m' : mem) : Prop :=
  exists mf, (forall o, 0 <= o < 512 -> load8 mf (kernel + o) = file_byte m c o) /\
    rip = e_entry mf kernel /\
    (p_type mf (phdr mf kernel 0) = 1 ->
     forall k, 0 <= k < p_filesz mf (phdr mf kernel 0) ->
       load8 m' (zone_phys (p_vaddr mf (phdr mf kernel 0)) + k) = file_byte m c (p_offset mf (phdr mf kernel 0) + k)).

Lemma loadelf_image m c m2 fuel :
  labels filestart entrypoint LOADER_STACK ->
  (forall o, 0 <= o < 512 -> load8 m2 (kernel + o) = file_byte m c o) -> kernel_fits m c -> (0 < fuel)%nat ->
  exists rip m', loadelf filestart entrypoint LOADER_STACK fuel kernel m2 = Some (rip, m') /\ image_loaded m c rip m' /\
    forall b, b < 0x200000 -> ~ scratched b -> load8 m' b = load8 m2 b.
Proof.
  intros Hlab Hfile Hkernel Hfuel. destruct (Hkernel m2 Hfile) as [Hn Hfits].
  destruct (loadelf_run filestart entrypoint LOADER_STACK m2 kernel 512 Hlab Hfits fuel) as (m' & E & [Hc Hr _ _]); [lia |].
  exists (e_entry m2 kernel), m'. split; [exact E |]. split.
  - exists m2. split; [exact Hfile |]. split; [done |].
    assert (header m2 kernel 0 = phdr m2 kernel 0) as Eh by (unfold header, phdr, sizeof_phdr; lia).
    intros Hty k Hk. assert (copied m2 kernel 0) as Hi by (split; [lia | by rewrite Eh]).
    destruct (ft_data _ _ _ Hfits 0 Hi) as [Hoff _]. unfold size in Hoff. rewrite Eh in Hoff.
    pose proof (load_bounds m2 8 (phdr m2 kernel 0 + 8)) as Ho. fold (p_offset m2 (phdr m2 kernel 0)) in Ho.
    specialize (Hc 0 Hi ltac:(lia) k). unfold dest, size in Hc. rewrite Eh in Hc. rewrite Hc by done.
    rewrite <- Z.add_assoc. apply Hfile. lia.
  - intros b Hb Hs. apply Hr; [done |]. intros i Hi _. destruct (ft_data _ _ _ Hfits i Hi) as (_ & Hz & _). unfold dest, zone_phys. lia.
Qed.

Lemma longMode_run j ax cx dx si di c z st m d bx less :
  labels filestart entrypoint LOADER_STACK -> bootable m j -> idle d ->
  eventually (fun fuel => exists rip m',
    longMode bootinfo fileName filestart entrypoint searched fuel (state ax cx dx si di c z st m d bx less) = Some (Enters rip bootinfo m') /\
    image_loaded m (entry_cluster (D := D) m j) rip m' /\
    forall b, b < buffer -> ~ scratched b -> load8 m' b = load8 m b).
Proof.
  intros Hlab [Hvol Hspc Hroot Hname [Hj Hend] Hfirst Hfound Hcluster Hlast Hfits] Hd.
  destruct (searchFile_found ax cx dx si fileName c z searched [] m d bx less fileName j Hvol Hroot Hd) as
    (cx1 & dx1 & si1 & di1 & z1 & m1 & d1 & bx1 & less1 & Hd1 & Hm1 & Hsearch); try done; try lia.
  assert (vars_kept m m1) as Hv by (intros b Hb; apply Hm1; unfold buffer; lia).
  set (ck := entry_cluster (D := D) m j) in *.
  destruct (loadFile_run ck cx1 dx1 si1 kernel false z1 [] m1 d1 bx1 less1)
    as (z2 & less2 & d2 & m2 & _ & Hl & Hm2 & Hload).
  { by apply (vars_volume m). }
  { rewrite <- Hspc. apply Hv. unfold FAT32. lia. }
  { by apply (vars_cluster m). }
  { by rewrite (vars_next m m1). }
  { by apply Hd1. }
  { unfold kernel, buffer. lia. }
  { unfold kernel, buffer. lia. }
  assert (forall o, 0 <= o < 512 -> load8 m2 (kernel + o) = file_byte m ck o) as Hfile.
  { intros o Ho. rewrite Hl by done. unfold file_byte. by rewrite (vars_cluster_lba m m1). }
  destruct Hsearch as [n1 Hsearch], Hload as [n2 Hload]. exists (n1 + n2)%nat. intros fuel Hfuel.
  destruct (loadelf_image m ck m2 fuel Hlab Hfile Hfits ltac:(lia)) as (rip & m3 & E3 & Himg & Hm3).
  exists rip, m3. split; [| split; [exact Himg |]].
  - unfold longMode. change (lexec_all [Mov64i RDI fileName] ?s) with (Some (state ax cx dx si fileName c z [searched] m d bx less)).
    rewrite bind_Some_eq, Hsearch, bind_Some_eq by lia. rewrite Z.eqb_refl. cbn [negb]. cbn [carry state l_pc p_cpu cf].
    fold ck. change (lexec_all [Mov64i RDI kernel] ?s) with (Some (state ck cx1 dx1 si1 kernel false z1 [] m1 d1 bx1 less1)).
    rewrite bind_Some_eq, Hload, bind_Some_eq by lia. cbn [lmem state l_pc p_mem]. by rewrite E3.
  - intros b Hb Hs. unfold buffer in *. rewrite Hm3, Hm2, Hm1 by (done || unfold kernel, buffer; lia). done.
Qed.

(** The conditions speak of the variables, the name and the disk. *)
Lemma bootable_kept m m' j :
  vars_kept m m' -> (forall k, 0 <= k < 11 -> load8 m' (fileName + k) = load8 m (fileName + k)) ->
  bootable m j -> bootable m' j /\ entry_cluster (D := D) m' j = entry_cluster (D := D) m j.
Proof.
  intros Hv Hn [Hvol Hspc Hroot Hname Hentry Hfirst Hfound Hcluster Hlast Hfits].
  assert (root_of m' = root_of m) as Er by (apply (vars_load m m' 4); [done | done | done]).
  assert (forall i, names (D := D) m' fileName i <-> names (D := D) m fileName i) as Hnames.
  { intros i. unfold names. rewrite Er, (vars_cluster_lba m m') by done.
    split; intros Hall' k Hk; [rewrite <- Hn by done | rewrite Hn by done]; by apply Hall'. }
  assert (entry_cluster (D := D) m' j = entry_cluster (D := D) m j) as Ee.
  { unfold entry_cluster. by rewrite Er, (vars_cluster_lba m m'). }
  split; [| done]. split; try done.
  - by apply (vars_volume m).
  - rewrite <- Hspc. apply Hv. unfold FAT32. lia.
  - rewrite Er. by apply (vars_cluster m).
  - unfold bytes_per_cluster in *. by rewrite (vars_load m m' 2) by (done || lia).
  - intros i Hi. rewrite Hnames. by apply Hfirst.
  - by apply Hnames.
  - rewrite Ee. by apply (vars_cluster m).
  - rewrite Ee. by rewrite (vars_next m m').
  - rewrite Ee. intros mf Hmf. apply Hfits. intros o Ho. rewrite Hmf by done. unfold file_byte. by rewrite (vars_cluster_lba m m').
Qed.

Lemma image_kept m m' c rip mk : vars_kept m m' -> image_loaded m' c rip mk -> image_loaded m c rip mk.
Proof.
  intros Hv (mf & Hf & Hr & Hi).
  assert (forall o, file_byte m' c o = file_byte m c o) as Eb by (intros o; unfold file_byte; by rewrite (vars_cluster_lba m m')).
  exists mf. split; [intros o Ho; rewrite <- Eb; by apply Hf |]. split; [done |].
  intros Hty k Hk. rewrite <- Eb. by apply Hi.
Qed.
End kernel_file.

(** The state in which the second stage is entered, and what it hands to the kernel. *)
Record stage2_start {D B : Type} `{Drive D, Bios B} (bootinfo fileName filestart entrypoint : Z) (bios : B) (s32 : cpu32) (s64 : loader D)
    (m : mem) (a : answer) (la : list answer) (j : Z) : Prop := {
  s2_firmware : firmware bios a la;
  s2_info : 0x9000 <= bootinfo <= buffer - 48;
  s2_zero : load 2 m (bootinfo + 42) = 0 /\ load 2 m (bootinfo + 46) = 0;
  s2_edi : half (edi s32);
  s2_ecx : half (ecx s32);
  s2_name : fileName + 11 <= bootinfo;
  s2_labels : labels filestart entrypoint LOADER_STACK;
  s2_apart : (filestart + 8 <= bootinfo \/ bootinfo + 48 <= filestart) /\ (entrypoint + 8 <= bootinfo \/ bootinfo + 48 <= entrypoint);
  s2_disk : bootable (D := D) fileName m j;
  s2_drive : idle (p_drive (l_pc s64))
}.

(** The second stage, from real mode to the kernel: when the firmware has a list of entries and the
    disk a root directory with the kernel's entry in its first sector, it enters the kernel, a file of one
    sector with one program header, at its entry
    point, with [bootinfo] in [rdi]; through it the kernel finds the firmware's list, its
    segment is where its header says, byte by byte as on the disk, and the processor
    translates the first gigabyte, the kernel's zone and the stack. *)
Theorem stage2_spec {D B : Type} `{Drive D, Bios B} (bootinfo fileName filestart entrypoint searched : Z) (bios : B) (s32 : cpu32) (s64 : loader D)
    (m : mem) (a : answer) (la : list answer) (j : Z) :
  stage2_start bootinfo fileName filestart entrypoint bios s32 s64 m a la j ->
  eventually (fun fuel => exists rip m',
    stage2 bootinfo fileName filestart entrypoint searched fuel bios s32 s64 m = Some (Enters rip bootinfo m') /\
    memory_map m' bootinfo = kept (a :: la) /\ image_loaded (D := D) m (entry_cluster (D := D) m j) rip m' /\
    forall pm va, views pm m' -> 0 <= va < 2 ^ 48 -> translate pm 1 va = boot_translation va).
Proof.
  intros [[Ha Hsmap Hebx Hl Hok Hlen Hkept] Hinfo Hzero Hdi Hcx Hname Hlab Hapart Hboot Hdrive].
  destruct (get_memory_map_run bios bootinfo m a la) as (m1 & E1 & Hr & En & Ead & Hm1); try done; [lia |].
  destruct (boot_tables_run (with_ram m1 s32) Hdi Hcx) as (s1 & E2 & Hc3 & HT & Hm2). cbn [with_ram ram] in Hm2.
  destruct s64 as [[[ax cx dx si di c z st] m64 d] bx less]. cbn [l_pc p_drive] in Hdrive. unfold buffer in Hinfo.
  assert (vars_kept m (ram s1)) as Hv by (intros b Hb; rewrite Hm2, Hm1 by lia; done).
  destruct (bootable_kept (D := D) fileName m (ram s1) j) as [Hboot2 Ee]; [done | | done |].
  { intros k Hk. pose proof (bt_name _ _ _ Hboot). rewrite Hm2, Hm1 by lia. done. }
  destruct (longMode_run bootinfo fileName filestart entrypoint searched j ax cx dx si di c z st (ram s1) d bx less Hlab Hboot2 Hdrive) as [n Hlong].
  exists (n + S (length la))%nat. intros fuel Hfuel. destruct (Hlong fuel ltac:(lia)) as (rip & m' & E3 & Himg & Hlow).
  rewrite Ee in Himg. unfold buffer in Hlow.
  assert (forall b, b < 0x8000 \/ bootinfo <= b < bootinfo + 48 -> load8 m' b = load8 (ram s1) b) as Hkeep.
  { intros b Hb. apply Hlow; [lia |]. intros Hs. pose proof (scratch_low _ _ _ _ Hlab Hs).
    unfold scratch, LOADER_STACK, stack_phys, STACK_PAGE in Hs. lia. }
  exists rip, m'. split; [| split; [| split]].
  - unfold stage2. rewrite E1, bind_Some_eq, E2, bind_Some_eq by lia. exact E3.
  - apply (memory_map_kept m m1 m' bootinfo (kept (a :: la))); try done; [lia | |]; intros b Hb; rewrite Hkeep, Hm2 by lia; done.
  - by apply (image_kept m (ram s1)).
  - intros pm va Hview Hva. apply boot_translate; [| done]. intros f i Hf Hi. rewrite Hview by lia.
    rewrite (load_ext (ram s1) m') by (intros; apply Hkeep; lia). by apply HT.
Qed.

(** * A concrete boot *)

(** A kernel of one sector: one segment of four bytes, at offset 200 of the file. *)
Definition boot_image : list Z := Eval vm_compute in
  take 64 (demo_kernel 1) ++ demo_header 200 0xC0000000 ++ replicate 80 0 ++ [11; 22; 33; 44] ++ replicate 308 0.
Definition image_byte (k : Z) : Z := nth (Z.to_nat k) boot_image 0.

(** The disk of BootDisk.v, with this file in the cluster 5 and an entry that names it. *)
Definition image_sector (low mid high sel k : Z) : Z :=
  if low =? 80 then nth (Z.to_nat k) (replicate 20 0 ++ [248; 255; 255; 15]) 0
  else if low =? 100 then nth (Z.to_nat k) (replicate 32 65 ++ kernel_name ++ replicate 15 0 ++ [5; 0; 184; 0]) 0
  else if low =? 103 then image_byte k
  else 0.
Abbreviation boot_disk := (ata image_sector).
Definition image_mem : mem := Eval vm_compute in put_bytes kernel boot_image ∅.

(** What holds of the numbers up to a bound that is a number. *)
Lemma small_all (n : nat) (P : Z -> Prop) (dec : forall o, Decision (P o)) :
  bool_decide (Forall P (seqZ 0 (Z.of_nat n))) = true -> forall o, 0 <= o < Z.of_nat n -> P o.
Proof. intros Hall%bool_decide_eq_true o Ho. rewrite Forall_forall in Hall. apply Hall, elem_of_seqZ. lia. Qed.

Lemma image_mem_bytes o : 0 <= o < 512 -> load8 image_mem (kernel + o) = image_byte o.
Proof. revert o. apply (small_all 512 _ _). vm_compute. done. Qed.

Lemma image_cluster : entry_cluster (D := boot_disk) boot_mem 1 = 5 /\ next_cluster (D := boot_disk) boot_mem 5 = 0x0ffffff8.
Proof. split; vm_compute; reflexivity. Qed.

Lemma image_on_disk o : 0 <= o < 512 -> file_byte (D := boot_disk) boot_mem 5 o = image_byte o.
Proof. revert o. apply (small_all 512 _ _). vm_compute. done. Qed.

Lemma image_mem_fields :
  e_phnum image_mem kernel = 1 /\ e_phoff image_mem kernel = 64 /\ p_offset image_mem (kernel + 64) = 200 /\
  p_vaddr image_mem (kernel + 64) = 0xC0000000 /\ p_filesz image_mem (kernel + 64) = 4 /\ p_type image_mem (kernel + 64) = 1 /\
  e_entry image_mem kernel = 0xC0000002.
Proof. vm_compute. done. Qed.

#[local] Opaque image_mem.

Section fitting.
Context (m' : mem) (Hm' : forall o, 0 <= o < 512 -> load8 m' (kernel + o) = image_byte o).

Lemma image_stored n a : kernel <= a -> a + Z.of_nat n <= kernel + 512 -> load n m' a = load n image_mem a.
Proof.
  intros H1 H2. apply load_ext. intros b Hb. replace b with (kernel + (b - kernel)) by lia.
  rewrite Hm' by lia. symmetry. apply image_mem_bytes. lia.
Qed.

Lemma image_fields :
  e_phnum m' kernel = 1 /\ phdr m' kernel 0 = kernel + 64 /\ p_offset m' (kernel + 64) = 200 /\
  p_vaddr m' (kernel + 64) = 0xC0000000 /\ p_filesz m' (kernel + 64) = 4 /\ p_type m' (kernel + 64) = 1 /\ e_entry m' kernel = 0xC0000002.
Proof.
  assert (phdr m' kernel 0 = kernel + 64) as ->.
  { unfold phdr, e_phoff. rewrite image_stored by (unfold kernel, buffer; lia).
    destruct image_mem_fields as (_ & E & _). unfold e_phoff in E. rewrite E. lia. }
  unfold e_phnum, p_offset, p_vaddr, p_filesz, p_type, e_entry.
  rewrite !image_stored by (unfold kernel, buffer; lia). destruct image_mem_fields as (E1 & _ & E3 & E4 & E5 & E6 & E7). by split_and!.
Qed.

Lemma image_one i : copied m' kernel i -> i = 0.
Proof. intros [Hi _]. destruct image_fields as (E & _). rewrite E in Hi. lia. Qed.

Lemma image_header : header m' kernel 0 = kernel + 64.
Proof. destruct image_fields as (_ & E & _). rewrite <- E. unfold header, phdr, sizeof_phdr. lia. Qed.

Lemma image_fits : e_phnum m' kernel = 1 /\ fits m' kernel 512.
Proof.
  destruct image_fields as (En & _ & Eo & Ev & Es & _ & _). pose proof image_header as Eh. split; [done |]. split.
  - unfold kernel, buffer. lia.
  - assert (e_phoff m' kernel = 64) as -> by (unfold header in Eh; lia). rewrite En. lia.
  - intros i Hi. rewrite (image_one i Hi). unfold size, in_zone, KERNEL_ZONE. rewrite Eh, Eo, Ev, Es. lia.
  - intros i j Hi Hj. rewrite (image_one i Hi), (image_one j Hj). lia.
Qed.
End fitting.

Lemma image_names : names (D := boot_disk) boot_mem 0xA000 1 /\ forall i, 0 <= i < 1 -> ~ names (D := boot_disk) boot_mem 0xA000 i.
Proof.
  split.
  - unfold names. apply (small_all 11 _ _). vm_compute. done.
  - intros i Hi Hn. assert (i = 0) as -> by lia. specialize (Hn 0 ltac:(lia)). revert Hn. vm_compute. discriminate.
Qed.

Lemma boot_bootable : bootable (D := boot_disk) 0xA000 boot_mem 1.
Proof.
  destruct boot_mem_fields as (_ & Espc & _ & _ & _ & E), image_cluster as [Ec En]. split; rewrite ?Ec.
  - exact boot_volume.
  - exact Espc.
  - exact boot_root.
  - unfold buffer. lia.
  - rewrite E. lia.
  - apply image_names.
  - apply image_names.
  - by apply boot_cluster.
  - rewrite En. done.
  - intros m' Hm'. apply image_fits. intros o Ho. rewrite <- image_on_disk by done. by apply Hm'.
Qed.

Definition boot_cpu : loader boot_disk := state 9 8 7 6 5 true true [] ∅ (AtaDrive ∅ 0 [] false) 0 false.

Lemma loader_labels : labels 0xA140 0xA148 LOADER_STACK.
Proof. split; unfold LOADER_STACK, STACK_PAGE; lia. Qed.

(** The bytes of a file like [boot_image] that was loaded. *)
Lemma image_found {D : Type} `{Drive D} m c rip m' :
  (forall o, 0 <= o < 512 -> file_byte (D := D) m c o = image_byte o) -> image_loaded (D := D) m c rip m' ->
  rip = 0xC0000002 /\ load8 m' 0x200002 = 33.
Proof.
  intros Hb (mf & Hf & Er & Hi). destruct (image_fields mf) as (_ & Eh & Eo & Ev & Es & Et & Ee).
  { intros o Ho. by rewrite Hf, Hb. }
  split; [by rewrite Er, Ee |]. rewrite Eh in Hi. specialize (Hi Et 2). unfold zone_phys, KERNEL_ZONE in Hi. rewrite Es, Ev, Eo in Hi.
  change 0x200002 with (0xC0000000 - 0xC0000000 + 0x200000 + 2). rewrite Hi by lia. rewrite Hb by lia. reflexivity.
Qed.

Lemma stage2_spec_witness :
  exists fuel m', stage2 0xA100 0xA000 0xA140 0xA148 0xA200 fuel demo_bios (Cpu32 0x11 7 0x1234 0x9000 0 ∅) boot_cpu boot_mem =
      Some (Enters 0xC0000002 0xA100 m') /\
    memory_map m' 0xA100 = [MemoryRegion 0 0x9fc00 1 1; MemoryRegion 0x9fc00 0x400 2 1; MemoryRegion 0x100000 0x700000 1 1] /\
    load8 m' 0x200002 = 33.
Proof.
  destruct (stage2_spec 0xA100 0xA000 0xA140 0xA148 0xA200 demo_bios (Cpu32 0x11 7 0x1234 0x9000 0 ∅) boot_cpu boot_mem
    (Answer SMAP 1 20 (MemoryRegion 0 0x9fc00 1 0)) (drop 1 demo_bios) 1) as [n Hn].
  - split; [exact demo_firmware | unfold buffer; lia | split; vm_compute; reflexivity | by split | by split | lia | exact loader_labels | lia | exact boot_bootable | done].
  - destruct (Hn (S n) ltac:(lia)) as (rip & m' & E & Hmap & Himg & _). rewrite (proj1 image_cluster) in Himg.
    destruct (image_found _ _ _ _ image_on_disk Himg) as [-> Hb]. exists (S n), m'. exact (conj E (conj Hmap Hb)).
Defined.
