(* ===== verification/BootStage1.v ===== *)
(** The first stage of the boot loader (boot/stage1.asm, boot/diskio.asm), in real mode: it reads the
    volume's first sector through the BIOS, leaves the variables that the second stage uses, searches
    the root directory, along its chain, for the second stage and loads it, cluster by
    cluster. Registers are let-bound where the code sets them; the variables and the packet for the BIOS
    are in memory. *)

From S2P Require Import Prelude Words Memory Fat32 Ata BootDisk.
#[local] Open Scope Z_scope.

Section stage1.

(** [sectors n k] is byte [k] of sector [n] of the boot drive, as [int 0x13] reads it. *)
Context (sectors : Z -> Z -> Z).

(** Labels of the first sector's code. *)
Context (AddressPacket fileName : Z).

Definition stage2_address : Z := 0x9000.
Definition current_cluster : Z := 0x9000 - 18.
Definition packet_sectors : Z := AddressPacket + 2.
Definition packet_buffer : Z := AddressPacket + 4.
Definition packet_lba : Z := AddressPacket + 8.
Definition PartitionTable_lba : Z := 0x7c00 + 446 + 8.

(** [n] sectors from [lba] on, in memory at [a]. *)
Definition read_blocks (n lba a : Z) (m : mem) : mem :=
  for_range 0 (512 * n) (fun k => store8 (a + k) (sectors (lba + k / 512) (k mod 512))) m.

(** [readDisk]: the extended read of the BIOS, with the packet's count, its buffer as segment
    and offset, and its number of 64 bits. Its errors are not looked at. *)
Definition readDisk (m : mem) : mem :=
  read_blocks (load 2 m packet_sectors) (load 8 m packet_lba)
    (load 2 m packet_buffer + 16 * load 2 m (packet_buffer + 2)) m.

Definition clusterLBA (eax : Z) (m : mem) : Z :=
  uint32_t (uint32_t (uint32_t (eax - 2) * load8 m (FAT32 + 13)) + load 4 m cluster_begin_lba).

(** [getNextCluster]: the carry flag and memory; [None] is a divide error. [shr bx, 2] and the
    low byte of [bx] that is set later share the register. *)
Definition stage1_getNextCluster (m : mem) : option (bool * mem) :=
  let eax := Z.land (load 4 m current_cluster) FAT_Cluster_Mask in
  if FAT_EOF <=? eax then Some (true, m)
  else
    let bx := load 2 m (FAT32 + 11) / 4 in
    if bx =? 0 then None
    else
      let m := store 4 packet_lba (uint32_t (eax / bx + load 4 m fat_begin_lba)) m in
      let m := readDisk (store 2 packet_sectors 1 m) in
      let esi := uint32_t (load 4 m packet_buffer + uint32_t (eax mod bx * 4)) in
      let eax := load 4 m esi in
      let m := store 4 current_cluster eax m in
      let eax := Z.land eax FAT_Cluster_Mask in
      if FAT_EOF <=? eax then Some (true, m)
      else
        let m := store 4 packet_lba (clusterLBA eax m) m in
        let m := store 2 packet_sectors (with_low8 (load8 m (FAT32 + 13)) bx) m in
        Some (false, readDisk m).

(** [nextEntry]: [inr (Some ax)] is the entry found, [inr None] a jump to [notFound]. *)
Definition stage1_nextEntry (m : mem) (ax : Z) : Z + option Z :=
  let ax := low16 (ax + 32) in
  if ax =? low16 (load 2 m bytes_per_cluster + 0x9000) then inr None
  else if same_bytes 11 m ax fileName then inr (Some ax) else inl ax.

(** [searchFile]: [inr None] goes on to the message "Loader not found!". *)
Definition stage1_searchFile (fuel : nat) (m : mem) : mem + option (option (Z * mem)) :=
  match iter_fuel fuel (stage1_nextEntry m) (0x9000 - 32) with
  | None => inr None
  | Some (Some ax) => inr (Some (Some (ax, m)))
  | Some None =>
      match stage1_getNextCluster m with
      | None => inr None
      | Some (carry, m) => if carry then inr (Some None) else inl m
      end
  end.

(** [oneMoreCluster]: [inr] jumps to the second stage. *)
Definition stage1_oneMoreCluster (m : mem) : mem + option mem :=
  let eax := uint32_t (load 4 m packet_buffer + load 2 m bytes_per_cluster) in
  let m := store 4 packet_buffer eax m in
  match stage1_getNextCluster m with
  | None => inr None
  | Some (carry, m) => if carry then inr (Some m) else inl m
  end.

(** The entry at [ax]: its first cluster, high word and low word, and the file. *)
Definition stage1_load (fuel : nat) (ax : Z) (m : mem) : option mem :=
  let eax := load 2 m (low16 (ax + 11 + 15)) + 65536 * load 2 m (low16 (ax + 11 + 9)) in
  let m := store 4 current_cluster eax m in
  let eax := clusterLBA eax m in
  let m := store 2 packet_buffer stage2_address m in
  let m := store 4 packet_lba eax m in
  r ← iter_fuel fuel stage1_oneMoreCluster (readDisk m);
  r.

(** From [supported] to the search: [ecx] is what the BIOS left there, of which [mov cl] sets
    eight bits; [add bx] is an addition of 16 bits. *)
Definition stage1_start (ecx : Z) (m : mem) : mem :=
  let m := readDisk (store 4 packet_lba (load 4 m PartitionTable_lba) m) in
  let ax := load8 m (FAT32 + 13) in
  let m := store 2 packet_sectors ax m in
  let m := store 4 bytes_per_cluster (low16 (ax * load 2 m (FAT32 + 11))) m in
  let m := store 2 packet_buffer 0x9000 m in
  let ebx := load 4 m packet_lba in
  let ebx := with_low16 (low16 ebx + load 2 m (FAT32 + 14)) ebx in
  let m := store 4 fat_begin_lba ebx m in
  let ecx := with_low8 (load8 m (FAT32 + 16)) ecx in
  let ebx := uint32_t (ebx + uint32_t (load 4 m (FAT32 + 36) * uint32_t ecx)) in
  let m := store 4 cluster_begin_lba ebx m in
  let m := store 4 current_cluster (load 4 m (FAT32 + 44)) m in
  readDisk (store 4 packet_lba (clusterLBA (load 4 m (FAT32 + 44)) m) m).

(** The whole stage: [Some (Some m)] jumps to the second stage, [Some None] halts with a
    message. [lba] is the carry flag's answer about the BIOS's extensions. *)
Definition stage1 (fuel : nat) (lba : bool) (ecx : Z) (m : mem) : option (option mem) :=
  if negb lba then Some None
  else
    r ← iter_fuel fuel (stage1_searchFile fuel) (stage1_start ecx m);
    r ← r;
    match r with
    | None => Some None
    | Some (ax, m) => m ← stage1_load fuel ax m; Some (Some m)
    end.

End stage1.

(** * What the routines do *)

Section proofs.
Context (sectors : Z -> Z -> Z) (AddressPacket fileName : Z) (name : Z -> Z) (spc fat data root : Z).

#[local] Abbreviation AP := AddressPacket.

(** The packet and the name are in the code's sector, apart from each other; a cluster has up to
    32 sectors; the numbers of sectors fit. *)
Record layout : Prop := {
  ly_packet : 0x7c00 <= AP /\ AP + 16 <= 0x7dbe;
  ly_name : 0x7c00 <= fileName /\ fileName + 11 <= 0x7dbe;
  ly_apart : AP + 16 <= fileName \/ fileName + 11 <= AP;
  ly_spc : 1 <= spc <= 32;
  ly_fat : 0 <= fat /\ fat + 2 ^ 21 < 2 ^ 32
}.

(** What stays the same in memory while files are read. *)
Record fixed (m : mem) : Prop := {
  fx_bps : load 2 m (FAT32 + 11) = 512;
  fx_spc : load8 m (FAT32 + 13) = spc;
  fx_fat : load 4 m fat_begin_lba = fat;
  fx_data : load 4 m cluster_begin_lba = data;
  fx_bpc : load 2 m bytes_per_cluster = 512 * spc;
  fx_segment : load 2 m (packet_buffer AP + 2) = 0;
  fx_lba48 : load 4 m (packet_lba AP + 4) = 0;
  fx_name k : 0 <= k < 11 -> load8 m (fileName + k) = name k;
  fx_root : load 4 m (FAT32 + 44) = root
}.

(** What changes: the memory above, the packet's fields, and the current cluster. *)
Definition working (lo hi : Z) : Prop :=
  0x9000 <= lo \/ (AP + 2 <= lo /\ hi <= AP + 6) \/ (AP + 8 <= lo /\ hi <= AP + 12) \/ (current_cluster <= lo /\ hi <= current_cluster + 4).

Definition high_kept (b n : Z) (m m' : mem) : Prop := forall a, 0x9000 <= a -> ~ (b <= a < b + n) -> load8 m' a = load8 m a.

Context (Hlayout : layout).

Lemma fixed_outside lo hi m m' : fixed m -> same_outside lo hi m m' -> working lo hi -> fixed m'.
Proof.
  intros [H1 H2 H3 H4 H5 H6 H7 H8 H9] Ho Hw. destruct Hlayout as [Hp Hn Ha _ _].
  split; unfold working, FAT32, fat_begin_lba, cluster_begin_lba, bytes_per_cluster, packet_buffer, packet_lba, current_cluster in *;
    try (rewrite (same_outside_load lo hi m m') by (done || lia); done).
  - rewrite Ho by lia. done.
  - intros k Hk. rewrite Ho by lia. by apply H8.
Qed.

Lemma fixed_store n a v m : fixed m -> working a (a + Z.of_nat n) -> fixed (store n a v m).
Proof. intros Hf Hw. exact (fixed_outside _ _ _ _ Hf (store_outside m n a v) Hw). Qed.

Lemma read_blocks_run n lba a m :
  0 <= n ->
  let m' := read_blocks sectors n lba a m in
  (forall k, 0 <= k < 512 * n -> load8 m' (a + k) = sectors (lba + k / 512) (k mod 512) mod 256) /\ same_outside a (a + 512 * n) m m'.
Proof.
  intros Hn. unfold read_blocks. cbv zeta.
  apply (for_range_ind (fun j m' => (forall k, 0 <= k < j -> load8 m' (a + k) = sectors (lba + k / 512) (k mod 512) mod 256) /\
    same_outside a (a + 512 * n) m m')); [lia | by split; [lia |] |].
  intros j m' Hj [Hin Ho]. split.
  - intros k Hk. destruct (decide (k = j)) as [->|]; [apply load8_store8_eq |]. rewrite load8_store8_ne by lia. apply Hin. lia.
  - intros b Hb. rewrite load8_store8_ne by lia. by apply Ho.
Qed.

(** The packet of a read. *)
Record packet (n lba b : Z) (m : mem) : Prop := {
  pk_sectors : load 2 m (packet_sectors AP) = n;
  pk_lba : load 4 m (packet_lba AP) = lba;
  pk_buffer : load 2 m (packet_buffer AP) = b
}.

Lemma readDisk_low n lba b m :
  load 2 m (packet_buffer AP + 2) = 0 -> load 4 m (packet_lba AP + 4) = 0 -> packet n lba b m ->
  readDisk sectors AP m = read_blocks sectors n lba b m.
Proof.
  intros Hseg H48 [En El Eb]. unfold readDisk. rewrite En, Eb, Hseg, Z.mul_0_r, Z.add_0_r.
  change 8%nat with (4 + 4)%nat. rewrite load_add, El. change (packet_lba AP + Z.of_nat 4) with (packet_lba AP + 4).
  by rewrite H48, Z.mul_0_r, Z.add_0_r.
Qed.

Lemma readDisk_run n lba b m : fixed m -> packet n lba b m -> readDisk sectors AP m = read_blocks sectors n lba b m.
Proof.
  intros Hf Hp. apply readDisk_low; [apply Hf | apply Hf | exact Hp].
Qed.

(** Byte [o] of a cluster, and the next cluster. *)
Definition block_lba (c : Z) : Z := data + (c - 2) * spc.
Definition block_byte (c o : Z) : Z := sectors (block_lba c + o / 512) (o mod 512) mod 256.
Definition next_block (c : Z) : Z := Z.land (disk_load sectors 4 (fat + c / 128) (4 * (c mod 128))) FAT_Cluster_Mask.
Definition data_block (c : Z) : Prop := 2 <= c < FAT_EOF /\ block_lba c < 2 ^ 32.

Lemma clusterLBA_run m c : fixed m -> data_block c -> clusterLBA c m = block_lba c /\ 0 <= block_lba c < 2 ^ 32.
Proof.
  intros Hf [Hc Hlba]. unfold clusterLBA, block_lba, FAT_EOF in *. rewrite (fx_spc _ Hf), (fx_data _ Hf).
  pose proof (load_bounds m 4 cluster_begin_lba) as Hd. rewrite (fx_data _ Hf) in Hd. pose proof (ly_spc Hlayout) as Hs.
  assert (0 <= (c - 2) * spc) by nia. assert ((c - 2) * spc < 2 ^ 32) by nia. 
  rewrite (uint32_id (c - 2)), (uint32_id (_ * _)), (uint32_id (_ + _)) by lia. split; lia.
Qed.

(** A cluster is read to [b]. *)
Lemma block_read m c b :
  fixed m -> data_block c -> packet spc (block_lba c) b m -> 0x9000 <= b ->
  let m' := readDisk sectors AP m in
  fixed m' /\ (forall o, 0 <= o < 512 * spc -> load8 m' (b + o) = block_byte c o) /\ same_outside b (b + 512 * spc) m m'.
Proof.
  intros Hf Hc Hp Hb. cbv zeta. rewrite (readDisk_run _ _ _ _ Hf Hp). pose proof (ly_spc Hlayout) as Hs.
  destruct (read_blocks_run spc (block_lba c) b m) as [Hin Ho]; [lia |].
  split; [apply (fixed_outside _ _ _ _ Hf Ho); by left |]. split; [exact Hin | exact Ho].
Qed.

Lemma fields_apart :
  (packet_lba AP = packet_buffer AP + 4 /\ packet_buffer AP = packet_sectors AP + 2 /\ 0x7c00 < packet_sectors AP /\
   packet_lba AP + 8 < 0x7e00) /\ 0x7e00 < current_cluster /\ current_cluster + 4 < 0x9000.
Proof. pose proof (ly_packet Hlayout). unfold packet_lba, packet_buffer, packet_sectors, current_cluster. lia. Qed.

(** The sector of the allocation table with the entry of [c], at [b]. *)
Lemma table_read m c b :
  fixed m -> 0 <= c < FAT_EOF -> load 2 m (packet_buffer AP) = b -> 0x9000 <= b ->
  let m3 := readDisk sectors AP (store 2 (packet_sectors AP) 1 (store 4 (packet_lba AP) (uint32_t (c / 128 + fat)) m)) in
  fixed m3 /\ load 2 m3 (packet_buffer AP) = b /\ load 4 m3 (b + 4 * (c mod 128)) = disk_load sectors 4 (fat + c / 128) (4 * (c mod 128)) /\
  high_kept b 512 m m3.
Proof.
  intros Hf Hc Eb Hb. destruct fields_apart as [(E1 & E2 & Hlo & Hhi) _]. unfold FAT_EOF in Hc. pose proof (ly_fat Hlayout) as Hfat.
  assert (0 <= c / 128 < 2 ^ 21) by div_lia. rewrite uint32_id, (Z.add_comm (c / 128)) by lia.
  set (m2 := store 2 _ 1 _). cbv zeta.
  assert (fixed m2) as Hf2.
  { unfold m2. apply fixed_store; [apply fixed_store; [done |] |]; unfold working; [right; right; left | right; left];
      unfold packet_lba, packet_sectors; lia. }
  assert (packet 1 (fat + c / 128) b m2) as Hp.
  { unfold m2. split.
    - by rewrite load_store_same.
    - rewrite load_store_other by lia. rewrite load_store_same; [done | lia].
    - by rewrite !load_store_other by lia. }
  rewrite (readDisk_run _ _ _ _ Hf2 Hp). destruct (read_blocks_run 1 (fat + c / 128) b m2) as [Hin Ho]; [done |].
  set (m3 := read_blocks _ _ _ _ _) in *. rewrite Z.mul_1_r in *. split_and!.
  - apply (fixed_outside _ _ _ _ Hf2 Ho). by left.
  - rewrite (same_outside_load _ _ _ _ 2 _ Ho) by lia. apply Hp.
  - apply disk_load_run; [| div_lia | div_lia]. intros k Hk. rewrite Hin by done. rewrite uint32_id by lia.
    rewrite (Z.div_small k), (Z.mod_small k) by done. by rewrite Z.add_0_r.
  - intros a Ha Hna. rewrite Ho by done. unfold m2. rewrite !load8_store by lia. done.
Qed.

(** [getNextCluster] at the end of a chain ... *)
Lemma next_end m c b :
  fixed m -> Z.land (load 4 m current_cluster) FAT_Cluster_Mask = c -> 0 <= c < FAT_EOF -> FAT_EOF <= next_block c ->
  load 2 m (packet_buffer AP) = b -> 0x9000 <= b -> b + 512 <= 0x10000 ->
  exists m', stage1_getNextCluster sectors AP m = Some (true, m') /\ fixed m' /\ high_kept b 512 m m'.
Proof.
  intros Hf Ec Hc Heof Eb Hb Hlim. destruct fields_apart as [_ [Hcc1 Hcc2]].
  destruct (table_read m c b Hf Hc Eb Hb) as (Hf3 & Eb3 & Ee & Hk).
  unfold stage1_getNextCluster. rewrite Ec, (proj2 (Z.leb_gt _ _)), (fx_bps _ Hf), (fx_fat _ Hf) by lia. change (512 / 4) with 128. cbn [Z.eqb]. cbv zeta.
  set (m3 := readDisk _ _ _) in *. rewrite (load_words m3 (packet_buffer AP)), Eb3, (fx_segment _ Hf3), Z.mul_0_r, Z.add_0_r.
  rewrite (uint32_id (_ * 4)), (uint32_id (b + _)), (Z.mul_comm _ 4), Ee by div_lia.
  change (Z.land (disk_load _ _ _ _) _) with (next_block c). rewrite (proj2 (Z.leb_le _ _)) by done.
  eexists. split; [reflexivity |]. split.
  - apply fixed_store; [done |]. unfold working. lia.
  - intros a Ha Hna. rewrite load8_store by lia. by apply Hk.
Qed.

(** A cluster is read, its packet in place. *)
Lemma cluster_read m c b :
  fixed m -> data_block c -> packet spc (block_lba c) b m -> 0x9000 <= b ->
  let m' := readDisk sectors AP m in
  fixed m' /\ load 4 m' current_cluster = load 4 m current_cluster /\ load 2 m' (packet_buffer AP) = b /\
  load 2 m' (packet_sectors AP) = spc /\
  (forall o, 0 <= o < 512 * spc -> load8 m' (b + o) = block_byte c o) /\ high_kept b (512 * spc) m m'.
Proof.
  intros Hf Hc Hp Hb. destruct fields_apart as [(E1 & E2 & Hlo & Hhi) [Hcc1 Hcc2]].
  destruct (block_read m c b Hf Hc Hp Hb) as (Hf2 & Hin & Ho). cbv zeta. split_and!; [done | | | | done |].
  - by rewrite (same_outside_load _ _ _ _ 4 _ Ho) by lia.
  - rewrite (same_outside_load _ _ _ _ 2 _ Ho) by lia. apply Hp.
  - rewrite (same_outside_load _ _ _ _ 2 _ Ho) by lia. apply Hp.
  - intros a Ha Hna. by rewrite Ho by done.
Qed.

Lemma with_low8_128 : with_low8 spc 128 = spc.
Proof. pose proof (ly_spc Hlayout). unfold with_low8. rewrite (Z.mod_small spc) by lia. change (128 mod 256) with 128. lia. Qed.

(** ... and before it. *)
Lemma next_more m c b :
  fixed m -> Z.land (load 4 m current_cluster) FAT_Cluster_Mask = c -> 0 <= c < FAT_EOF -> data_block (next_block c) ->
  load 2 m (packet_buffer AP) = b -> 0x9000 <= b -> b + 512 * spc <= 0x10000 ->
  exists m', stage1_getNextCluster sectors AP m = Some (false, m') /\ fixed m' /\
    Z.land (load 4 m' current_cluster) FAT_Cluster_Mask = next_block c /\ load 2 m' (packet_buffer AP) = b /\
    load 2 m' (packet_sectors AP) = spc /\
    (forall o, 0 <= o < 512 * spc -> load8 m' (b + o) = block_byte (next_block c) o) /\ high_kept b (512 * spc) m m'.
Proof.
  intros Hf Ec Hc Hd Eb Hb Hlim. destruct fields_apart as [(E1 & E2 & Hlo & Hhi) [Hcc1 Hcc2]]. pose proof (ly_spc Hlayout) as Hs.
  destruct (table_read m c b Hf Hc Eb Hb) as (Hf3 & Eb3 & Ee & Hk).
  unfold stage1_getNextCluster. rewrite Ec, (proj2 (Z.leb_gt _ _)), (fx_bps _ Hf), (fx_fat _ Hf) by lia. change (512 / 4) with 128. cbn [Z.eqb]. cbv zeta.
  set (m3 := readDisk _ _ _) in *. rewrite (load_words m3 (packet_buffer AP)), Eb3, (fx_segment _ Hf3), Z.mul_0_r, Z.add_0_r.
  rewrite (uint32_id (_ * 4)), (uint32_id (b + _)), (Z.mul_comm _ 4), Ee by div_lia.
  change (Z.land (disk_load _ _ _ _) _) with (next_block c). rewrite (proj2 (Z.leb_gt _ _)) by apply Hd.
  assert (0 <= disk_load sectors 4 (fat + c / 128) (4 * (c mod 128)) < 2 ^ 32) as He by (rewrite <- Ee; apply load_bounds).
  set (e := disk_load _ _ _ _) in *. set (m4 := store 4 current_cluster e m3).
  assert (fixed m4) as Hf4 by (apply fixed_store; [done | unfold working; lia]).
  assert (load 4 m4 current_cluster = e) as Ecc by (by apply load_store_same).
  assert (load8 (store 4 (packet_lba AP) (clusterLBA (next_block c) m4) m4) (FAT32 + 13) = spc) as Espc.
  { rewrite load8_store by (unfold FAT32; lia). apply Hf4. }
  assert (load 2 m4 (packet_buffer AP) = b) as Eb4 by (unfold m4; by rewrite load_store_other by lia).
  assert (forall a, 0x9000 <= a -> load8 m4 a = load8 m3 a) as Hhigh4 by (intros a Ha; apply load8_store; lia).
  rewrite Espc, with_low8_128. clearbody m4.
  destruct (clusterLBA_run m4 (next_block c) Hf4 Hd) as [-> Hlba].
  set (m6 := store 2 (packet_sectors AP) spc (store 4 (packet_lba AP) (block_lba (next_block c)) m4)).
  assert (fixed m6) as Hf6 by (apply fixed_store; [apply fixed_store; [done |] |]; unfold working, packet_lba, packet_sectors in *; lia).
  assert (packet spc (block_lba (next_block c)) b m6) as Hp.
  { unfold m6. split; [rewrite load_store_same; [done | lia] | |].
    - rewrite load_store_other by lia. by rewrite load_store_same.
    - by rewrite !load_store_other by lia. }
  destruct (cluster_read m6 (next_block c) b Hf6 Hd Hp Hb) as (R1 & R2 & R3 & R4 & R5 & R6).
  eexists. split; [reflexivity |]. split; [exact R1 |]. split; [| split; [exact R3 |]; split; [exact R4 |]; split; [exact R5 |]].
  - rewrite R2. unfold m6. rewrite !load_store_other by lia. by rewrite Ecc.
  - intros a Ha Hna. rewrite R6 by done. unfold m6. rewrite !load8_store by lia. rewrite Hhigh4 by done. apply Hk; lia.
Qed.

(** ** Loading *)

(** The clusters [l], one after the other at [a]. *)
Definition holds_blocks (l : list Z) (a : Z) (m : mem) : Prop :=
  forall i c o, l !! i = Some c -> 0 <= o < 512 * spc -> load8 m (a + 512 * spc * Z.of_nat i + o) = block_byte c o.

Lemma holds_blocks_cons c l a m m' :
  (forall o, 0 <= o < 512 * spc -> load8 m (a + o) = block_byte c o) ->
  (forall b, a <= b < a + 512 * spc -> load8 m' b = load8 m b) -> holds_blocks l (a + 512 * spc) m' -> holds_blocks (c :: l) a m'.
Proof.
  intros Hc Hk Hl [|i] c' o Hi Ho; simpl in Hi.
  - injection Hi as <-. rewrite Z.mul_0_r, Z.add_0_r, Hk by lia. by apply Hc.
  - replace (a + 512 * spc * Z.of_nat (S i) + o) with (a + 512 * spc + 512 * spc * Z.of_nat i + o) by lia. by apply Hl.
Qed.

(** The addition to the buffer's address is one of 32 bits, over the segment. *)
Lemma advance_buffer m b :
  fixed m -> load 2 m (packet_buffer AP) = b -> 0x9000 <= b -> b + 512 * spc < 0x10000 ->
  let m' := store 4 (packet_buffer AP) (uint32_t (load 4 m (packet_buffer AP) + load 2 m bytes_per_cluster)) m in
  fixed m' /\ load 2 m' (packet_buffer AP) = b + 512 * spc /\ load 4 m' current_cluster = load 4 m current_cluster /\
  forall a, 0x9000 <= a -> load8 m' a = load8 m a.
Proof.
  intros Hf Eb Hb Hlim. pose proof (ly_spc Hlayout) as Hs. destruct fields_apart as [(E1 & E2 & Hlo & Hhi) [Hcc1 Hcc2]].
  rewrite load_words, Eb, (fx_segment _ Hf), (fx_bpc _ Hf), Z.mul_0_r, Z.add_0_r, uint32_id by lia. cbv zeta.
  set (m' := store 4 _ _ m).
  assert (load 4 m' (packet_buffer AP) = b + 512 * spc) as E4 by (apply load_store_same; lia).
  rewrite load_words in E4. pose proof (load_bounds m' 2 (packet_buffer AP)). pose proof (load_bounds m' 2 (packet_buffer AP + 2)).
  assert (same_outside (packet_buffer AP) (packet_buffer AP + 4) m m') as Ho by exact (store_outside m 4 (packet_buffer AP) _).
  destruct Hlayout as [Hp Hn Ha _ _]. unfold packet_buffer, packet_lba in *. split; [| split; [lia | split]].
  - destruct Hf as [H1 H2 H3 H4 H5 H6 H7 H8 H9].
    split; unfold FAT32, fat_begin_lba, cluster_begin_lba, bytes_per_cluster, packet_lba in *;
      try (rewrite (same_outside_load _ _ m m' _ _ Ho) by lia; done).
    + rewrite Ho by lia. done.
    + unfold packet_buffer. lia.
    + intros k Hk. rewrite Ho by lia. by apply H8.
  - apply (same_outside_load _ _ _ _ 4 _ Ho). lia.
  - intros a Hge. apply Ho. lia.
Qed.

Lemma load_blocks c l :
  chain next_block c l -> forall m b gas,
  Forall data_block l -> fixed m -> Z.land (load 4 m current_cluster) FAT_Cluster_Mask = c -> load 2 m (packet_buffer AP) = b ->
  0x9000 <= b -> b + 512 * spc * Z.of_nat (length l) + 512 <= 0x10000 -> (length l <= gas)%nat ->
  exists m', iter_fuel gas (stage1_oneMoreCluster sectors AP) m = Some (Some m') /\ fixed m' /\
    holds_blocks (tail l) (b + 512 * spc) m' /\ forall a, 0x9000 <= a < b + 512 * spc -> load8 m' a = load8 m a.
Proof.
  pose proof (ly_spc Hlayout) as Hs.
  induction 1 as [c Heof|c l Hmore Hchain IH]; intros m b [|gas] Hall Hf Ec Eb Hb Hlim Hgas; try (simpl in Hgas; lia);
    apply Forall_cons in Hall as [[Hc _] Hall]; cbn [length tail] in *;
    destruct (advance_buffer m b Hf Eb Hb) as (Hf1 & Eb1 & Ec1 & Hk1); [nia | | nia |];
    cbn [iter_fuel]; unfold stage1_oneMoreCluster at 1; set (m1 := store 4 _ _ m) in *; rewrite <- Ec1 in Ec.
  - destruct (next_end m1 c _ Hf1 Ec ltac:(lia) Heof Eb1) as (m2 & E & Hf2 & Hk2); [lia | lia |]. rewrite E.
    exists m2. split; [done |]. split; [done |]. split; [by intros |]. intros a Ha. rewrite Hk2 by lia. apply Hk1. lia.
  - destruct l as [|c' l]; [by inversion Hchain |]. assert (next_block c = c') as En by (by inversion Hchain). cbn [length tail] in *.
    assert (data_block (next_block c)) as Hd' by (rewrite En; by apply Forall_cons in Hall as [? _]).
    destruct (next_more m1 c _ Hf1 Ec ltac:(lia) Hd' Eb1) as (m2 & E & Hf2 & Ec2 & Eb2 & _ & Hin & Hk2); [lia | nia |]. rewrite E. rewrite En in *.
    destruct (IH m2 (b + 512 * spc) gas Hall Hf2 Ec2 Eb2) as (m3 & E3 & Hf3 & Hl & Hk3); [lia | nia | lia |].
    exists m3. split; [done |]. split; [done |]. split.
    + apply (holds_blocks_cons c' l _ m2 m3); [done | intros b' Hb'; apply Hk3; lia | done].
    + intros a Ha. rewrite Hk3, Hk2 by lia. apply Hk1. lia.
Qed.

(** ** Searching *)

(** Entry [i] of cluster [c] of the directory has the name. *)
Definition block_named (c i : Z) : Prop := forall k, 0 <= k < 11 -> block_byte c (32 * i + k) = name k.
Definition block_missing (c : Z) : Prop := forall i, 0 <= i < 16 * spc -> ~ block_named c i.

(** The cluster [c] is in memory at 0x9000. *)
Definition shows (c : Z) (m : mem) : Prop := forall o, 0 <= o < 512 * spc -> load8 m (0x9000 + o) = block_byte c o.

Lemma entry_matches m c i :
  fixed m -> shows c m -> 0 <= i < 16 * spc -> same_bytes 11 m (0x9000 + 32 * i) fileName = true <-> block_named c i.
Proof.
  intros Hf Hc Hi. rewrite same_bytes_true. unfold block_named.
  split; intros Hall k Hk.
  - rewrite <- Hc, <- (fx_name _ Hf) by lia. rewrite Z.add_assoc. by apply Hall.
  - rewrite <- Z.add_assoc, Hc, (fx_name _ Hf) by lia. by apply Hall.
Qed.

Lemma next_entry_step m c i :
  fixed m -> shows c m -> 0 <= i <= 16 * spc ->
  stage1_nextEntry fileName m (0x9000 + 32 * i - 32) =
    if i =? 16 * spc then inr None
    else if same_bytes 11 m (0x9000 + 32 * i) fileName then inr (Some (0x9000 + 32 * i)) else inl (0x9000 + 32 * (i + 1) - 32).
Proof.
  intros Hf Hc Hi. pose proof (ly_spc Hlayout) as Hs. unfold stage1_nextEntry. rewrite (fx_bpc _ Hf). unfold low16. rewrite !Z.mod_small by lia.
  replace (0x9000 + 32 * i - 32 + 32) with (0x9000 + 32 * i) by lia.
  replace (0x9000 + 32 * i =? 512 * spc + 0x9000) with (i =? 16 * spc) by (apply eq_true_iff_eq; rewrite !Z.eqb_eq; lia).
  replace (0x9000 + 32 * (i + 1) - 32) with (0x9000 + 32 * i) by lia. done.
Qed.

Lemma scan_missing m c (n : nat) : forall i gas,
  fixed m -> shows c m -> block_missing c -> 0 <= i -> i + Z.of_nat n = 16 * spc -> (n < gas)%nat ->
  iter_fuel gas (stage1_nextEntry fileName m) (0x9000 + 32 * i - 32) = Some None.
Proof.
  induction n as [|n IH]; intros i [|gas] Hf Hc Hmiss Hi Hn Hgas; try lia; cbn [iter_fuel]; rewrite (next_entry_step m c i) by (done || lia).
  - by rewrite (proj2 (Z.eqb_eq _ _)) by lia.
  - rewrite (proj2 (Z.eqb_neq _ _)) by lia. destruct (same_bytes _ _ _ _) eqn:E.
    + apply (entry_matches m c i) in E; [| done | done | lia]. by destruct (Hmiss i ltac:(lia)).
    + apply IH; [done | done | done | lia | lia | lia].
Qed.

Lemma scan_found m c (n : nat) : forall i gas,
  fixed m -> shows c m -> 0 <= i -> i + Z.of_nat n < 16 * spc -> (forall i', i <= i' < i + Z.of_nat n -> ~ block_named c i') ->
  block_named c (i + Z.of_nat n) -> (n < gas)%nat ->
  iter_fuel gas (stage1_nextEntry fileName m) (0x9000 + 32 * i - 32) = Some (Some (0x9000 + 32 * (i + Z.of_nat n))).
Proof.
  induction n as [|n IH]; intros i [|gas] Hf Hc Hi Hn Hmiss Hhit Hgas; try lia; cbn [iter_fuel]; rewrite (next_entry_step m c i) by (done || lia);
    rewrite (proj2 (Z.eqb_neq _ _)) by lia.
  - rewrite Z.add_0_r in *. by rewrite (proj2 (entry_matches m c i Hf Hc ltac:(lia)) Hhit).
  - destruct (same_bytes _ _ _ _) eqn:E.
    + apply (entry_matches m c i) in E; [| done | done | lia]. by destruct (Hmiss i ltac:(lia)).
    + replace (i + Z.of_nat (S n)) with (i + 1 + Z.of_nat n) in * by lia.
      apply IH; [done | done | lia | lia | intros i' Hi'; apply Hmiss; lia | done | lia].
Qed.

(** The chain of the directory goes from [c] over the clusters [pre], which do not have the name, to [cf]. *)
Fixpoint path (c : Z) (pre : list Z) (cf : Z) : Prop :=
  match pre with
  | [] => c = cf
  | p :: pre => c = p /\ path (next_block p) pre cf
  end.

(** Between two reads of the directory. *)
Record at_dir (c : Z) (m : mem) : Prop := {
  ad_fixed : fixed m;
  ad_current : Z.land (load 4 m current_cluster) FAT_Cluster_Mask = c;
  ad_buffer : load 2 m (packet_buffer AP) = 0x9000;
  ad_sectors : load 2 m (packet_sectors AP) = spc;
  ad_shows : shows c m
}.

Lemma search_blocks pre : forall c cf j m gas fuel,
  path c pre cf -> Forall data_block (pre ++ [cf]) -> Forall block_missing pre -> at_dir c m ->
  0 <= j < 16 * spc -> (forall i, 0 <= i < j -> ~ block_named cf i) -> block_named cf j ->
  (length pre < gas)%nat -> 16 * spc < Z.of_nat fuel ->
  exists m', iter_fuel gas (stage1_searchFile sectors AP fileName fuel) m = Some (Some (Some (0x9000 + 32 * j, m'))) /\ at_dir cf m'.
Proof.
  pose proof (ly_spc Hlayout) as Hs.
  induction pre as [|p pre IH]; intros c cf j m [|gas] fuel Hpath Hall Hmiss [Hf Ec Eb Es Hsh] Hj Hbefore Hhit Hgas Hfuel;
    try (simpl in Hgas; lia); cbn [path] in Hpath; cbn [iter_fuel]; unfold stage1_searchFile at 1.
  - subst c. pose proof (scan_found m cf (Z.to_nat j) 0 fuel Hf Hsh) as E. rewrite Z.add_0_l, Z2Nat.id in E by lia.
    change (0x9000 + 32 * 0 - 32) with (0x9000 - 32) in E.
    rewrite E; [| done | lia | intros i Hi; apply Hbefore; lia | done | lia]. exists m. split; [done |]. by split.
  - destruct Hpath as [Ep Hpath]. subst p. apply Forall_cons in Hmiss as [Hm Hmiss]. cbn [app] in Hall. apply Forall_cons in Hall as [[Hc _] Hall].
    pose proof (scan_missing m c (Z.to_nat (16 * spc)) 0 fuel Hf Hsh Hm) as E.
    change (0x9000 + 32 * 0 - 32) with (0x9000 - 32) in E. rewrite E by lia. clear E.
    assert (data_block (next_block c)) as Hd'.
    { destruct pre as [|p pre]; cbn [path app] in *; [subst cf; by apply Forall_cons in Hall as [? _] |].
      destruct Hpath as [-> _]. by apply Forall_cons in Hall as [? _]. }
    destruct (next_more m c 0x9000 Hf Ec ltac:(lia) Hd' Eb) as (m2 & E & Hf2 & Ec2 & Eb2 & Es2 & Hin & _); [lia | lia |]. rewrite E.
    apply (IH (next_block c) cf j m2); try done; simpl in Hgas; lia.
Qed.

(** The entry at [0x9000 + 32 * j] of the cluster that is in memory. *)
Definition block_field (c o : Z) : Z := block_byte c o + 256 * block_byte c (o + 1).
Definition entry_block (c j : Z) : Z := block_field c (32 * j + 26) + 65536 * block_field c (32 * j + 20).

Lemma shows_field c m o : shows c m -> 0 <= o -> o + 2 <= 512 * spc -> load 2 m (0x9000 + o) = block_field c o.
Proof.
  intros Hc H0 Ho. change (load 2 m (0x9000 + o)) with (load8 m (0x9000 + o) + 256 * (load8 m (0x9000 + o + 1) + 256 * 0)).
  rewrite <- Z.add_assoc, !Hc by lia. unfold block_field. lia.
Qed.

Lemma load_file c j l m fuel :
  at_dir c m -> 0 <= j < 16 * spc -> chain next_block (entry_block c j) l -> Forall data_block l ->
  0x9000 + 512 * spc * Z.of_nat (length l) + 512 <= 0x10000 -> (length l <= fuel)%nat ->
  exists m', stage1_load sectors AP fuel (0x9000 + 32 * j) m = Some m' /\ fixed m' /\ holds_blocks l 0x9000 m'.
Proof.
  intros [Hf _ Eb Es Hsh] Hj Hchain Hall Hlim Hfuel. pose proof (ly_spc Hlayout) as Hs. destruct fields_apart as [(E1 & E2 & Hlo & Hhi) [Hcc1 Hcc2]].
  unfold stage1_load, low16. rewrite !Z.mod_small by lia.
  replace (0x9000 + 32 * j + 11 + 15) with (0x9000 + (32 * j + 26)) by lia. replace (0x9000 + 32 * j + 11 + 9) with (0x9000 + (32 * j + 20)) by lia.
  rewrite !(shows_field c) by (done || lia). fold (entry_block c j).
  assert (exists l', l = entry_block c j :: l') as [l' ->] by (inversion Hchain; by eexists).
  set (fc := entry_block c j) in *. assert (data_block fc) as Hfc by (by apply Forall_cons in Hall as [? _]).
  assert (0 <= fc < 2 ^ 28) as Hfc28 by (destruct Hfc as [Hb _]; unfold FAT_EOF in Hb; lia). cbv zeta.
  set (m1 := store 4 current_cluster fc m).
  assert (fixed m1) as Hf1 by (apply fixed_store; [done | unfold working; lia]).
  destruct (clusterLBA_run m1 fc Hf1 Hfc) as [-> Hlba]. set (m3 := store 4 (packet_lba AP) _ _).
  assert (fixed m3) as Hf3 by (apply fixed_store; [apply fixed_store; [done |] |]; unfold working, packet_lba, packet_buffer, packet_sectors in *; lia).
  assert (packet spc (block_lba fc) 0x9000 m3) as Hp.
  { unfold m3, m1. split; [by rewrite !load_store_other by lia | rewrite load_store_same; [done | lia] |].
    rewrite load_store_other by lia. by rewrite load_store_same. }
  destruct (cluster_read m3 fc 0x9000 Hf3 Hfc Hp) as (Hf4 & Ecc & Eb4 & _ & Hin & _); [done |].
  destruct (load_blocks fc (fc :: l') Hchain (readDisk sectors AP m3) 0x9000 fuel Hall Hf4) as (m5 & E & Hf5 & Hl & Hk); try done.
  - rewrite Ecc. unfold m3, m1. rewrite !load_store_other by lia. rewrite load_store_same by lia. by apply masked_small.
  - rewrite E. exists m5. split; [done |]. split; [done |]. by apply (holds_blocks_cons fc l' _ (readDisk sectors AP m3) m5).
Qed.

(** ** The start *)

(** The machine as the BIOS starts the first sector, on a partition whose first sector has the
    geometry; the upper bits of [ecx] happen to be clear, and the 16-bit addition has no carry. *)
Record started (m : mem) (ecx : Z) : Prop := {
  sd_sectors : load 2 m (packet_sectors AP) = 1;
  sd_buffer : load 2 m (packet_buffer AP) = FAT32;
  sd_segment : load 2 m (packet_buffer AP + 2) = 0;
  sd_lba48 : load 4 m (packet_lba AP + 4) = 0;
  sd_name k : 0 <= k < 11 -> load8 m (fileName + k) = name k;
  sd_ecx : 0 <= ecx < 256;
  sd_bps : disk_load sectors 2 (load 4 m PartitionTable_lba) 11 = 512;
  sd_spc : disk_load sectors 1 (load 4 m PartitionTable_lba) 13 = spc;
  sd_carry : load 4 m PartitionTable_lba mod 65536 + disk_load sectors 2 (load 4 m PartitionTable_lba) 14 < 65536;
  sd_fat : fat = load 4 m PartitionTable_lba + disk_load sectors 2 (load 4 m PartitionTable_lba) 14;
  sd_data : data = fat + disk_load sectors 4 (load 4 m PartitionTable_lba) 36 * disk_load sectors 1 (load 4 m PartitionTable_lba) 16;
  sd_limit : data < 2 ^ 32;
  sd_root : data_block (disk_load sectors 4 (load 4 m PartitionTable_lba) 44)
}.

(** The volume's first sector in memory. *)
Lemma volume_read m ecx :
  started m ecx ->
  let m1 := readDisk sectors AP (store 4 (packet_lba AP) (load 4 m PartitionTable_lba) m) in
  (forall n k, 0 <= k -> k + Z.of_nat n <= 512 -> load n m1 (FAT32 + k) = disk_load sectors n (load 4 m PartitionTable_lba) k) /\
  load 4 m1 (packet_lba AP) = load 4 m PartitionTable_lba /\ load 2 m1 (packet_buffer AP + 2) = 0 /\ load 4 m1 (packet_lba AP + 4) = 0 /\
  forall k, 0 <= k < 11 -> load8 m1 (fileName + k) = name k.
Proof.
  intros Hs. destruct fields_apart as [(E1 & E2 & Hlo & Hhi) _]. destruct Hlayout as [Hp Hn Ha _ _].
  set (lba := load 4 m PartitionTable_lba). pose proof (load_bounds m 4 PartitionTable_lba) as Hl. fold lba in Hl.
  change (2 ^ (8 * Z.of_nat 4)) with (2 ^ 32) in Hl. set (m0 := store 4 (packet_lba AP) lba m). cbv zeta.
  assert (packet 1 lba FAT32 m0) as Hpk.
  { unfold m0. split; [rewrite load_store_other by lia; apply Hs | by apply load_store_same | rewrite load_store_other by lia; apply Hs]. }
  rewrite (readDisk_low 1 lba FAT32 m0);
    [| unfold m0; rewrite load_store_other by lia; apply Hs | unfold m0; rewrite load_store_other by lia; apply Hs | done].
  destruct (read_blocks_run 1 lba FAT32 m0) as [Hin Ho]; [done |]. generalize dependent (read_blocks sectors 1 lba FAT32 m0).
  intros m1 Hin Ho. unfold FAT32 in *. rewrite Z.mul_1_r in *.
  unfold packet_sectors, packet_buffer, packet_lba in *. split_and!.
  - intros n k H0 Hk. apply disk_load_run; [| done | done]. intros i Hi. rewrite Hin by done.
    rewrite (Z.div_small i), (Z.mod_small i), Z.add_0_r, uint32_id by done. done.
  - rewrite (same_outside_load _ _ _ _ 4 _ Ho) by lia. by apply load_store_same.
  - rewrite (same_outside_load _ _ _ _ 2 _ Ho) by lia. unfold m0. rewrite load_store_other by lia. apply Hs.
  - rewrite (same_outside_load _ _ _ _ 4 _ Ho) by lia. unfold m0. rewrite load_store_other by lia. apply Hs.
  - intros k Hk. rewrite Ho by lia. unfold m0. rewrite load8_store by lia. by apply Hs.
Qed.

Lemma stage1_start_run m ecx :
  started m ecx -> root = disk_load sectors 4 (load 4 m PartitionTable_lba) 44 -> at_dir root (stage1_start sectors AP ecx m).
Proof.
  intros Hs Hrt. destruct (volume_read m ecx Hs) as (Hvol & El & Eseg & E48 & Ename). unfold stage1_start.
  set (m1 := readDisk sectors AP _) in *. clearbody m1. set (lba := load 4 m PartitionTable_lba) in *.
  pose proof (load_bounds m 4 PartitionTable_lba) as Hl. fold lba in Hl. change (2 ^ (8 * Z.of_nat 4)) with (2 ^ 32) in Hl.
  destruct (sd_root _ _ Hs) as [Hroot Hrlba]. destruct Hs as [_ _ _ _ _ Hecx Hbps Hspc Hcarry Hfat Hdata Hlimit _]. fold lba in Hbps, Hspc, Hcarry, Hfat, Hdata, Hroot, Hrlba, Hrt. rewrite <- Hrt in Hroot, Hrlba.
  destruct fields_apart as [(E1 & E2 & Hlo & Hhi) _]. destruct Hlayout as [Hp Hn Ha Hs Hfl].
  assert (load8 m1 (FAT32 + 13) = spc) as Espc.
  { rewrite <- Hspc, <- (Hvol 1%nat 13) by lia. change (load 1 m1 (FAT32 + 13)) with (load8 m1 (FAT32 + 13) + 256 * 0). lia. }
  assert (load8 m1 (FAT32 + 16) = disk_load sectors 1 lba 16) as Enf.
  { rewrite <- (Hvol 1%nat 16) by lia. change (load 1 m1 (FAT32 + 16)) with (load8 m1 (FAT32 + 16) + 256 * 0). lia. }
  pose proof (load8_bounds m1 (FAT32 + 16)) as Bnf. rewrite Enf in Bnf.
  assert (load 2 m1 (FAT32 + 11) = 512) as Ebps by (by rewrite (Hvol 2%nat 11) by lia).
  assert (load 2 m1 (FAT32 + 14) = disk_load sectors 2 lba 14) as Eres by (by apply Hvol).
  assert (load 4 m1 (FAT32 + 36) = disk_load sectors 4 lba 36) as Espf by (by apply Hvol).
  assert (load 4 m1 (FAT32 + 44) = root) as Erc by (rewrite Hrt; by apply Hvol).
  pose proof (load_bounds m1 2 (FAT32 + 14)) as Bres. rewrite Eres in Bres. pose proof (load_bounds m1 4 (FAT32 + 36)) as Bspf. rewrite Espf in Bspf.
  pose proof (load_bounds m1 4 (FAT32 + 44)) as Brc. rewrite Erc in Brc.
  set (res := disk_load sectors 2 lba 14) in *. set (spf := disk_load sectors 4 lba 36) in *.
  set (nf := disk_load sectors 1 lba 16) in *. change (2 ^ (8 * Z.of_nat 2)) with 65536 in *. change (2 ^ (8 * Z.of_nat 4)) with (2 ^ 32) in *.
  clear Hrt. clearbody res spf nf lba. clear Hvol.
  unfold FAT32, fat_begin_lba, cluster_begin_lba, bytes_per_cluster, current_cluster, packet_sectors, packet_buffer, packet_lba in *.
  cbv zeta. repeat first [rewrite load_store_other by lia | rewrite load8_store by lia].
  rewrite Espc, Ebps, Eres, Espf, Erc, Enf, El.
  assert (low16 (spc * 512) = 512 * spc) as -> by (unfold low16; rewrite Z.mod_small by lia; lia).
  pose proof (Z.mod_pos_bound lba 65536 ltac:(lia)) as Hlow.
  assert (with_low16 (low16 lba + res) lba = fat) as -> by (unfold with_low16, low16; rewrite (Z.mod_small (_ + _)) by lia; lia).
  assert (with_low8 nf ecx = nf) as -> by (unfold with_low8; rewrite !Z.mod_small by lia; lia).
  assert (0 <= spf * nf) by nia.
  assert (uint32_t (fat + uint32_t (spf * uint32_t nf)) = data) as ->.
  { rewrite (uint32_id nf), (uint32_id (spf * nf)), (uint32_id (fat + _)) by lia. lia. }
  set (m7 := store 4 (0x9000 - 18) root _).
  assert (fixed m7) as Hf7.
  { unfold m7. split; unfold FAT32, fat_begin_lba, cluster_begin_lba, bytes_per_cluster, packet_buffer, packet_lba; try intros k Hk;
      repeat first [rewrite load_store_other by lia | rewrite load8_store by lia | rewrite load_store_same by lia]; try done; try (by apply Ename).
    change (0x9000 - 6) with 0x8ffa. rewrite load_store_low by lia. done. }
  assert (data_block root) as Hdr by (by split). destruct (clusterLBA_run m7 root Hf7 Hdr) as [-> Hb].
  set (m8 := store 4 (AP + 8) (block_lba root) m7).
  assert (fixed m8) as Hf8 by (apply (fixed_store 4 (AP + 8)); [done | unfold working; lia]).
  assert (packet spc (block_lba root) 0x9000 m8) as Hpk.
  { unfold m8, m7. split; unfold packet_sectors, packet_buffer, packet_lba.
    - rewrite !load_store_other by lia. rewrite load_store_same by lia. done.
    - rewrite load_store_same by lia. done.
    - repeat rewrite load_store_other by lia. by rewrite load_store_same. }
  destruct (cluster_read m8 root 0x9000 Hf8 Hdr Hpk) as (R1 & R2 & R3 & R4 & R5 & _); [done |].
  split; [exact R1 | | exact R3 | exact R4 | exact R5].
  rewrite R2. unfold m8, m7, current_cluster. rewrite load_store_other by lia. rewrite load_store_same by lia.
  apply masked_small. unfold FAT_EOF in Hroot. lia.
Qed.
End proofs.

(** * The theorem *)

(** The disk of [stage1_spec]: the partition, the directory's chain [pre] to the cluster [cf] with the
    name in entry [j], and the file's chain [l]. *)
Record stage1_disk (sectors : Z -> Z -> Z) (AddressPacket fileName : Z) (name : Z -> Z) (spc fat data ecx : Z) (m : mem)
    (pre l : list Z) (cf j : Z) : Prop := {
  s1_layout : layout AddressPacket fileName spc fat;
  s1_started : started sectors AddressPacket fileName name spc fat data m ecx;
  s1_path : path sectors fat (disk_load sectors 4 (load 4 m PartitionTable_lba) 44) pre cf;
  s1_dir : Forall (data_block spc data) (pre ++ [cf]);
  s1_missing : Forall (block_missing sectors name spc data) pre;
  s1_entry : 0 <= j < 16 * spc;
  s1_first i : 0 <= i < j -> ~ block_named sectors name spc data cf i;
  s1_named : block_named sectors name spc data cf j;
  s1_chain : chain (next_block sectors fat) (entry_block sectors spc data cf j) l;
  s1_clusters : Forall (data_block spc data) l;
  s1_room : 0x9000 + 512 * spc * Z.of_nat (length l) + 512 <= 0x10000
}.

(** What the second stage is left with. *)
Record stage1_left (sectors : Z -> Z -> Z) (spc fat data root : Z) (l : list Z) (m : mem) : Prop := {
  sl_blocks : holds_blocks sectors spc data l 0x9000 m;
  sl_volume : volume m;
  sl_fat : fat_lba m = fat;
  sl_lba c : cluster_lba m c = block_lba spc data c;
  sl_bpc : load 2 m bytes_per_cluster = 512 * spc;
  sl_root : root_of m = root;
  sl_data : 0 <= data
}.

(** More fuel never changes the end of the stage. *)
Lemma stage1_mono sectors AddressPacket fileName n1 n2 lba ecx m m' :
  (n1 <= n2)%nat -> stage1 sectors AddressPacket fileName n1 lba ecx m = Some (Some m') ->
  stage1 sectors AddressPacket fileName n2 lba ecx m = Some (Some m').
Proof.
  intros Hn. unfold stage1. destruct lba; [| done]. cbn [negb].
  destruct (iter_fuel n1 _ _) as [[[[ax m1] |] |] |] eqn:E; try done.
  rewrite (iter_fuel_approx _ (stage1_searchFile sectors AddressPacket fileName n2) n1 n2 _ _) with (3 := E); [| | done].
  - rewrite !bind_Some_eq. unfold stage1_load.
    destruct (iter_fuel n1 (stage1_oneMoreCluster _ _) _) as [r|] eqn:E1; [| done].
    by rewrite (iter_fuel_mono _ n1 n2 _ _ Hn E1).
  - intros s. unfold stage1_searchFile. destruct (iter_fuel n1 (stage1_nextEntry _ s) _) as [r|] eqn:E1; [| by right].
    left. by rewrite (iter_fuel_mono _ n1 n2 _ _ Hn E1).
Qed.

Lemma stage1_run sectors AddressPacket fileName name spc fat data ecx m pre l cf j fuel :
  stage1_disk sectors AddressPacket fileName name spc fat data ecx m pre l cf j ->
  Z.of_nat (length pre) + Z.of_nat (length l) + 16 * spc < Z.of_nat fuel ->
  exists m', stage1 sectors AddressPacket fileName fuel true ecx m = Some (Some m') /\
    stage1_left sectors spc fat data (disk_load sectors 4 (load 4 m PartitionTable_lba) 44) l m'.
Proof.
  intros [Hlayout Hstart Hpath Hdir Hmiss Hj Hbefore Hhit Hchain Hall Hroom] Hfuel. pose proof (ly_spc _ _ _ _ Hlayout) as Hs.
  set (root := disk_load sectors 4 _ 44) in *.
  pose proof (stage1_start_run sectors AddressPacket fileName name spc fat data root Hlayout m ecx Hstart eq_refl) as Hat.
  destruct (search_blocks sectors AddressPacket fileName name spc fat data root Hlayout pre _ cf j _ fuel fuel Hpath Hdir Hmiss Hat Hj Hbefore Hhit)
    as (m1 & E1 & Hat1); [lia | lia |].
  destruct (load_file sectors AddressPacket fileName name spc fat data root Hlayout cf j l m1 fuel Hat1 Hj Hchain Hall Hroom) as (m2 & E2 & Hf2 & Hl); [lia |].
  exists m2. split.
  - unfold stage1. cbn [negb]. rewrite E1. rewrite !bind_Some_eq. by rewrite E2.
  - destruct Hf2 as [H1 H2 H3 H4 H5 _ _ _ H9]. split; [exact Hl | | exact H3 | | exact H5 | exact H9 | rewrite <- H4; apply load_bounds].
    + split; [exact H1 | unfold fat_lba; rewrite H3; apply Hlayout].
    + intros c. unfold cluster_lba, sectors_per_cluster_of, block_lba. by rewrite H2, H4.
Qed.

(** C22: the first stage. Started on a partition with sectors of 512 bytes whose root directory
    has the name somewhere along its chain, it loads the file of the first entry of that name,
    complete clusters one after the other at 0x9000, and jumps there; it leaves the partition's
    variables as the second stage expects them. A volume of up to 32 sectors a cluster; the
    clusters of the file and one more sector of the allocation table fit below 64 KiB. *)
Theorem stage1_spec (sectors : Z -> Z -> Z) (AddressPacket fileName : Z) (name : Z -> Z) (spc fat data ecx : Z) (m : mem)
    (pre l : list Z) (cf j : Z) (fuel : nat)
    (Hdisk : stage1_disk sectors AddressPacket fileName name spc fat data ecx m pre l cf j)
    (Hfuel : Z.of_nat (length pre) + Z.of_nat (length l) + 16 * spc < Z.of_nat fuel) :
  exists m', stage1 sectors AddressPacket fileName fuel true ecx m = Some (Some m') /\
    holds_blocks sectors spc data l 0x9000 m' /\
    volume m' /\ fat_lba m' = fat /\ (forall c, cluster_lba m' c = block_lba spc data c) /\ load 2 m' bytes_per_cluster = 512 * spc.
Proof.
  destruct (stage1_run _ _ _ _ _ _ _ _ _ _ _ _ _ _ Hdisk Hfuel) as (m' & E & []). exists m'. by split_and!.
Qed.

(** * A concrete disk *)

(** "STAGE2     " *)
Definition stage2_name : list Z := [83; 84; 65; 71; 69; 50; 32; 32; 32; 32; 32].

(** A partition from sector 60 on: 20 reserved sectors, two tables of 10 sectors, one sector to the
    cluster. The directory has the clusters 2 and 4, the file, in the second entry of the latter, 3 and 5. *)
Definition demo_partition (n k : Z) : Z :=
  if n =? 60 then nth (Z.to_nat k) (replicate 11 0 ++ [0; 2; 1; 20; 0; 2] ++ replicate 19 0 ++ [10; 0; 0; 0] ++ replicate 4 0 ++ [2; 0; 0; 0]) 0
  else if n =? 80 then nth (Z.to_nat k) (replicate 8 0 ++ [4; 0; 0; 0; 5; 0; 0; 0; 248; 255; 255; 15; 248; 255; 255; 15]) 0
  else if n =? 102 then nth (Z.to_nat k) (replicate 32 65 ++ stage2_name ++ replicate 15 0 ++ [3; 0]) 0
  else if n =? 101 then k else if n =? 103 then 2 * k else 0.

Definition bios_mem : mem := Eval vm_compute in
  store 4 PartitionTable_lba 60 (store 2 0x7d82 1 (store 2 0x7d84 FAT32
    (foldr (fun '(a, b) m => store8 a b m) ∅ (zip (seqZ 0x7d60 11) stage2_name)))).

Definition demo_name (k : Z) : Z := nth (Z.to_nat k) stage2_name 0.

Lemma bios_lba : load 4 bios_mem PartitionTable_lba = 60.
Proof. vm_compute. reflexivity. Qed.

Lemma demo_block c : 2 <= c < 1000 -> data_block 1 100 c.
Proof. intros Hc. unfold data_block, block_lba, FAT_EOF. lia. Qed.

Lemma demo_started : started demo_partition 0x7d80 0x7d60 demo_name 1 80 100 bios_mem 0x12.
Proof.
  split; rewrite ?bios_lba; lazymatch goal with |- _ = _ => vm_compute; reflexivity | |- _ < _ => vm_compute; reflexivity | |- _ => idtac end.
  - intros k Hk. assert (In k (seqZ 0 11)) as Hin by (apply list_elem_of_In, elem_of_seqZ; lia).
    cbn in Hin. repeat destruct Hin as [<-|Hin]; [vm_compute; reflexivity .. | done].
  - lia.
  - replace (disk_load demo_partition 4 60 44) with 2 by (vm_compute; reflexivity). by apply demo_block.
Qed.

(** A statement about each number of a small range. *)
Lemma small_range (P : Z -> Prop) n : Forall P (seqZ 0 n) -> forall i, 0 <= i < n -> P i.
Proof. rewrite Forall_forall. intros Hall i Hi. apply Hall, elem_of_seqZ. lia. Qed.

Lemma demo_missing : block_missing demo_partition demo_name 1 100 2.
Proof.
  unfold block_missing. change (16 * 1) with 16. apply small_range. repeat (constructor; [intros Hn; specialize (Hn 0 ltac:(lia)); revert Hn; vm_compute; discriminate |]). constructor.
Qed.

Lemma demo_hit : block_named demo_partition demo_name 1 100 4 1.
Proof. unfold block_named. apply small_range. repeat (constructor; [vm_compute; reflexivity |]). constructor. Qed.

Lemma demo_next : next_block demo_partition 80 2 = 4 /\ next_block demo_partition 80 3 = 5 /\ next_block demo_partition 80 5 = 0x0ffffff8 /\
  entry_block demo_partition 1 100 4 1 = 3.
Proof. vm_compute. done. Qed.

Lemma stage1_spec_witness :
  exists m', stage1 demo_partition 0x7d80 0x7d60 40 true 0x12 bios_mem = Some (Some m') /\ load8 m' (0x9000 + 512 + 7) = 14 /\
    cluster_lba m' 3 = 101 /\ load 2 m' bytes_per_cluster = 512.
Proof.
  destruct demo_next as (N2 & N3 & N5 & En).
  destruct (stage1_spec demo_partition 0x7d80 0x7d60 demo_name 1 80 100 0x12 bios_mem [2] [3; 5] 4 1 40) as (m' & E & Hl & _ & _ & Hd & Hb); [split |..].
  - split; lia.
  - exact demo_started.
  - rewrite bios_lba. replace (disk_load demo_partition 4 60 44) with 2 by (vm_compute; reflexivity). split; [done | exact N2].
  - repeat (constructor; [by apply demo_block |]). constructor.
  - constructor; [exact demo_missing | constructor].
  - lia.
  - intros i Hi Hn. assert (i = 0) as -> by lia. specialize (Hn 0 ltac:(lia)). revert Hn. vm_compute. discriminate.
  - exact demo_hit.
  - rewrite En. apply chain_more; [rewrite N3; lia |]. rewrite N3. apply chain_last. rewrite N5. lia.
  - repeat (constructor; [by apply demo_block |]). constructor.
  - simpl. lia.
  - simpl. lia.
  - exists m'. split; [exact E |]. split; [| split; [by rewrite Hd | exact Hb]].
    specialize (Hl 1%nat 5 7 eq_refl ltac:(lia)). change (0x9000 + 512 * 1 * Z.of_nat 1 + 7) with (0x9000 + 512 + 7) in Hl.
    rewrite Hl. vm_compute. reflexivity.
Defined.
