(* ===== verification/BootChain.v ===== *)
(** The boot from the disk: the first stage and the second together, up to the kernel's entry
    point, on a volume that holds both files, with clusters of one sector and a kernel of one
    cluster: on longer files the second stage breaks the protocol of the drive
    ([BootDisk.loadFile_early_command]). *)

From S2P Require Import Prelude Words Memory FrameMap FrameAlloc Paging Fat32 Elf Ata BootPaging BootMap BootDisk LoadElf BootLoader BootStage1.
#[local] Open Scope Z_scope.

Section boot.
Context {D B : Type} `{Drive D, Bios B}.

#[local] Abbreviation disk := (disk_of D).

(** The labels of the two programs. *)
Context (AddressPacket stage2_name_at bootinfo kernel_name_at filestart entrypoint searched : Z).

(** From the BIOS's jump to the first sector on; both stages see the same disk, the first through
    the BIOS, the second through the drive's ports. *)
Definition boot (fuel : nat) (lba : bool) (ecx : Z) (m : mem) (bios : B) (s32 : cpu32) (s64 : loader D) : option outcome :=
  r ← stage1 disk AddressPacket stage2_name_at fuel lba ecx m;
  match r with
  | None => Some Halts
  | Some m => stage2 bootinfo kernel_name_at filestart entrypoint searched fuel bios s32 s64 m
  end.

(** * The volume *)

(** A cluster is one sector. *)
Context (fat data : Z).

(** Byte [o] of the file whose clusters are [l]. *)
Definition whole_byte (l : list Z) (o : Z) : Z := block_byte disk 1 data (default 0 (l !! Z.to_nat (o / 512))) (o mod 512).

(** The second stage's file [l1] holds the kernel's name, an empty [bootinfo] and the loader's variables;
    the kernel's entry [j] is in the root directory's first cluster [root], and its one cluster is a file
    with one program header, whose segment has a place in the kernel's zone. *)
Record boot_volume (root : Z) (l1 : list Z) (j : Z) : Prop := {
  bv_labels : 0x9000 <= kernel_name_at /\ kernel_name_at + 11 <= bootinfo /\ bootinfo + 48 <= 0x9000 + 512 * Z.of_nat (length l1);
  bv_variables : labels filestart entrypoint LOADER_STACK;
  bv_apart : (filestart + 8 <= bootinfo \/ bootinfo + 48 <= filestart) /\ (entrypoint + 8 <= bootinfo \/ bootinfo + 48 <= entrypoint);
  bv_info k : 42 <= k < 44 \/ 46 <= k < 48 -> whole_byte l1 (bootinfo - 0x9000 + k) = 0;
  bv_entry : 0 <= j < 16;
  bv_first i : 0 <= i < j -> ~ block_named disk (fun k => whole_byte l1 (kernel_name_at - 0x9000 + k)) 1 data root i;
  bv_named : block_named disk (fun k => whole_byte l1 (kernel_name_at - 0x9000 + k)) 1 data root j;
  bv_cluster : data_block 1 data (entry_block disk 1 data root j);
  bv_last : FAT_EOF <= next_block disk fat (entry_block disk 1 data root j);
  bv_fits m : (forall o, 0 <= o < 512 -> load8 m (kernel + o) = block_byte disk 1 data (entry_block disk 1 data root j) o) ->
    e_phnum m kernel = 1 /\ fits m kernel 512
}.

(** What the kernel finds of its file, the cluster [c]. *)
Definition kernel_loaded (c rip : Z) (m' : mem) : Prop :=
  exists mf, (forall o, 0 <= o < 512 -> load8 mf (kernel + o) = block_byte disk 1 data c o) /\
    rip = e_entry mf kernel /\
    (p_type mf (phdr mf kernel 0) = 1 ->
     forall k, 0 <= k < p_filesz mf (phdr mf kernel 0) -> p_offset mf (phdr mf kernel 0) + k < 512 /\
       load8 m' (zone_phys (p_vaddr mf (phdr mf kernel 0)) + k) = block_byte disk 1 data c (p_offset mf (phdr mf kernel 0) + k)).

(** * The hand-over *)

Section handover.
Context (root : Z) (l1 : list Z) (m : mem) (Hleft : stage1_left disk 1 fat data root l1 m).

Lemma whole_bytes o : 0 <= o < 512 * Z.of_nat (length l1) -> load8 m (0x9000 + o) = whole_byte l1 o.
Proof.
  intros Ho. assert (0 <= o / 512 < Z.of_nat (length l1)) as Hi by div_lia.
  destruct (lookup_lt_is_Some_2 l1 (Z.to_nat (o / 512)) ltac:(lia)) as [c Ec].
  pose proof (sl_blocks _ _ _ _ _ _ _ Hleft _ c (o mod 512) Ec) as E. specialize (E ltac:(div_lia)).
  unfold whole_byte. rewrite Ec. cbn [default from_option id]. rewrite <- E. f_equal. rewrite Z2Nat.id by lia. div_lia.
Qed.

Lemma block_sector c o : 0 <= o < 512 -> block_byte disk 1 data c o = disk (block_lba 1 data c) o mod 256.
Proof. intros Ho. unfold block_byte. by rewrite (Z.div_small o), (Z.mod_small o), Z.add_0_r by lia. Qed.

Lemma file_block_byte c o : 0 <= o < 512 -> file_byte (D := D) m c o = block_byte disk 1 data c o.
Proof. intros Ho. unfold file_byte. rewrite (sl_lba _ _ _ _ _ _ _ Hleft). by rewrite block_sector. Qed.

(** The variables of the first stage tell the size of a cluster. *)
Lemma handover_sectors : sectors_per_cluster_of m = 1.
Proof.
  pose proof (sl_lba _ _ _ _ _ _ _ Hleft 2) as E2. pose proof (sl_lba _ _ _ _ _ _ _ Hleft 3) as E3.
  unfold cluster_lba, block_lba in *. lia.
Qed.

Lemma names_block i : 0 <= i < 16 ->
  0x9000 <= kernel_name_at /\ kernel_name_at + 11 <= 0x9000 + 512 * Z.of_nat (length l1) ->
  names (D := D) m kernel_name_at i <-> block_named disk (fun k => whole_byte l1 (kernel_name_at - 0x9000 + k)) 1 data root i.
Proof.
  intros Hi Hn. unfold names, block_named. rewrite (sl_root _ _ _ _ _ _ _ Hleft), (sl_lba _ _ _ _ _ _ _ Hleft).
  assert (forall k, 0 <= k < 11 -> block_byte disk 1 data root (32 * i + k) = disk (block_lba 1 data root) (32 * i + k) mod 256) as E1
    by (intros k Hk; apply block_sector; lia).
  assert (forall k, 0 <= k < 11 -> load8 m (kernel_name_at + k) = whole_byte l1 (kernel_name_at - 0x9000 + k)) as E2
    by (intros k Hk; rewrite <- whole_bytes by lia; f_equal; lia).
  split; intros Hall k Hk; specialize (Hall k Hk); rewrite ?E1, ?E2 in * by done; done.
Qed.

Lemma entry_cluster_block j : 0 <= j < 16 -> data_block 1 data root -> entry_cluster (D := D) m j = entry_block disk 1 data root j.
Proof.
  intros Hj [Hr Hlba]. pose proof (sl_data _ _ _ _ _ _ _ Hleft) as Hd.
  unfold entry_cluster, entry_block, block_field. rewrite (sl_root _ _ _ _ _ _ _ Hleft), (sl_lba _ _ _ _ _ _ _ Hleft).
  rewrite !block_sector by lia. cbn [disk_load]. rewrite uint32_id by (unfold block_lba in *; nia). lia.
Qed.

Lemma handover_cluster c : data_block 1 data c -> data_cluster m c.
Proof. intros Hc. unfold data_cluster. by rewrite (sl_lba _ _ _ _ _ _ _ Hleft). Qed.

Lemma handover_bootable j : boot_volume root l1 j -> data_block 1 data root -> 512 * Z.of_nat (length l1) + 512 <= 0x7000 ->
  bootable (D := D) kernel_name_at m j.
Proof.
  intros [Hlab _ _ _ Hj Hfirst Hnamed Hcluster Hlast Hfits] Hroot Hroom. split; rewrite ?entry_cluster_block by done.
  - apply Hleft.
  - exact handover_sectors.
  - rewrite (sl_root _ _ _ _ _ _ _ Hleft). by apply handover_cluster.
  - unfold buffer. lia.
  - rewrite (sl_bpc _ _ _ _ _ _ _ Hleft). lia.
  - intros i Hi. rewrite names_block by lia. by apply Hfirst.
  - by apply names_block; [| lia |].
  - by apply handover_cluster.
  - unfold next_cluster. by rewrite (sl_fat _ _ _ _ _ _ _ Hleft).
  - intros mf Hmf. apply Hfits. intros o Ho. rewrite <- file_block_byte by lia. by apply Hmf.
Qed.

(** The second stage's words for the image are those of the volume. *)
Lemma handover_loaded j rip m' :
  boot_volume root l1 j -> image_loaded (D := D) m (entry_block disk 1 data root j) rip m' -> kernel_loaded (entry_block disk 1 data root j) rip m'.
Proof.
  intros Hvol (mf & Hf & Er & Hi).
  assert (forall o, 0 <= o < 512 -> load8 mf (kernel + o) = block_byte disk 1 data (entry_block disk 1 data root j) o) as Hf'
    by (intros o Ho; by rewrite Hf, file_block_byte).
  exists mf. split; [done |]. split; [done |]. intros Hty k Hk.
  destruct (bv_fits _ _ _ Hvol mf Hf') as [Hn Hfits]. assert (header mf kernel 0 = phdr mf kernel 0) as Eh by (unfold header, phdr, sizeof_phdr; lia).
  destruct (ft_data _ _ _ Hfits 0) as [Hoff _]; [split; [lia | by rewrite Eh] |]. unfold size in Hoff. rewrite Eh in Hoff.
  pose proof (load_bounds mf 8 (phdr mf kernel 0 + 8)) as Ho. fold (p_offset mf (phdr mf kernel 0)) in Ho.
  split; [lia |]. rewrite (Hi Hty k Hk). apply file_block_byte. lia.
Qed.
End handover.
End boot.

(** C6: the whole boot loader, on a partition whose clusters are one sector and which holds both
    files, the kernel's one cluster long with one program header, with a firmware that has a list and an
    idle drive that follows the protocol: it
    enters the kernel; through [bootinfo] the kernel finds the firmware's list, its segment is
    in its place byte by byte as the disk holds the file, and the
    processor translates the first gigabyte, the kernel's zone and the stack. Of a file of more sectors
    nothing is claimed: there the loader breaks the protocol ([BootDisk.loadFile_early_command]),
    and of more headers it finds the first only ([LoadElf.loadelf_misses_second]). *)
Theorem boot_from_disk {D B : Type} `{Drive D, Bios B} (AddressPacket stage2_name_at bootinfo kernel_name_at filestart entrypoint searched : Z)
    (name : Z -> Z) (fat data ecx : Z) (m : mem) (pre l1 : list Z) (cf j1 j : Z)
    (bios : B) (a : answer) (la : list answer) (s32 : cpu32) (s64 : loader D) (root := disk_load (disk_of D) 4 (load 4 m PartitionTable_lba) 44)
    (Hdisk : stage1_disk (disk_of D) AddressPacket stage2_name_at name 1 fat data ecx m pre l1 cf j1)
    (Hvolume : boot_volume (D := D) bootinfo kernel_name_at filestart entrypoint fat data root l1 j)
    (Hfirmware : firmware bios a la) (Hdi : half (edi s32)) (Hcx : half (BootPaging.ecx s32)) (Hdrive : idle (p_drive (l_pc s64))) :
  eventually (fun fuel => exists rip m',
    boot AddressPacket stage2_name_at bootinfo kernel_name_at filestart entrypoint searched fuel true ecx m bios s32 s64 =
      Some (Enters rip bootinfo m') /\
    memory_map m' bootinfo = kept (a :: la) /\ kernel_loaded (D := D) data (entry_block (disk_of D) 1 data root j) rip m' /\
    forall pm va, views pm m' -> 0 <= va < 2 ^ 48 -> translate pm 1 va = boot_translation va).
Proof.
  set (n1 := S (Z.to_nat (Z.of_nat (length pre) + Z.of_nat (length l1) + 16 * 1))).
  pose proof Hdisk as [Hlayout Hstart _ _ _ _ _ _ _ _ Hroom].
  destruct (stage1_run _ _ _ _ _ _ _ _ _ _ _ _ _ n1 Hdisk ltac:(lia)) as (m1 & E1 & Hleft). fold root in Hleft.
  pose proof (bv_labels _ _ _ _ _ _ _ _ _ Hvolume) as Hlab.
  assert (data_block 1 data root) as Hroot by apply Hstart.
  assert (forall k, 42 <= k < 44 \/ 46 <= k < 48 -> load8 m1 (bootinfo + k) = 0) as Hinfo.
  { intros k Hk. rewrite <- (bv_info _ _ _ _ _ _ _ _ _ Hvolume k Hk), <- (whole_bytes fat data root l1 m1 Hleft) by lia. f_equal. lia. }
  destruct (stage2_spec bootinfo kernel_name_at filestart entrypoint searched bios s32 s64 m1 a la j) as [n2 Hrun].
  { pose proof (bv_variables _ _ _ _ _ _ _ _ _ Hvolume). pose proof (bv_apart _ _ _ _ _ _ _ _ _ Hvolume).
    split; try done; [unfold buffer; lia | | lia |].
    - unfold load. rewrite <- !Z.add_assoc. rewrite !Hinfo by lia. done.
    - apply (handover_bootable bootinfo kernel_name_at filestart entrypoint fat data root l1); try done. lia. }
  exists (n1 + n2)%nat. intros fuel Hfuel. destruct (Hrun fuel ltac:(lia)) as (rip & m' & E2 & Hmap & Himg & Htr).
  rewrite (entry_cluster_block fat data root l1 m1 Hleft j) in Himg by (done || apply Hvolume).
  exists rip, m'. split; [| split; [exact Hmap | split; [| exact Htr]]].
  - unfold boot. rewrite (stage1_mono _ _ _ n1 fuel _ _ _ m1 ltac:(lia) E1), bind_Some_eq. exact E2.
  - exact (handover_loaded bootinfo kernel_name_at filestart entrypoint fat data root l1 m1 Hleft j rip m' Hvolume Himg).
Qed.

(** * A concrete disk *)

(** The partition of BootStage1.v; its directory, cluster 2, has the second stage, cluster 3, and
    the kernel, cluster 4. *)
Definition chain_sector (low mid high sel k : Z) : Z :=
  if low =? 60 then demo_partition 60 k
  else if low =? 80 then nth (Z.to_nat k) (replicate 8 0 ++ [248; 255; 255; 15; 248; 255; 255; 15; 248; 255; 255; 15]) 0
  else if low =? 100 then
    nth (Z.to_nat k) (stage2_name ++ replicate 15 0 ++ [3; 0] ++ replicate 4 0 ++ kernel_name ++ replicate 15 0 ++ [4; 0]) 0
  else if low =? 101 then nth (Z.to_nat k) (replicate 32 0 ++ kernel_name) 0
  else if low =? 102 then image_byte k
  else 0.

Abbreviation chain_disk := (ata chain_sector).

Lemma chain_numbers :
  disk_load (disk_of chain_disk) 4 60 44 = 2 /\ next_block (disk_of chain_disk) 80 3 = 0x0ffffff8 /\
  next_block (disk_of chain_disk) 80 4 = 0x0ffffff8 /\
  entry_block (disk_of chain_disk) 1 100 2 0 = 3 /\ entry_block (disk_of chain_disk) 1 100 2 1 = 4.
Proof. vm_compute. done. Qed.

Lemma chain_started : started (disk_of chain_disk) 0x7d80 0x7d60 demo_name 1 80 100 bios_mem 0x12.
Proof.
  destruct demo_started as [H1 H2 H3 H4 H5 H6 _ _ _ _ _ _ _].
  split; rewrite ?bios_lba; try done; try (vm_compute; done).
Qed.

Lemma chain_stage1 : stage1_disk (disk_of chain_disk) 0x7d80 0x7d60 demo_name 1 80 100 0x12 bios_mem [] [3] 2 0.
Proof.
  destruct chain_numbers as (E2 & N3 & _ & En & _). split.
  - split; lia.
  - exact chain_started.
  - rewrite bios_lba. exact E2.
  - repeat constructor; apply demo_block; lia.
  - constructor.
  - lia.
  - lia.
  - unfold block_named. apply small_range. repeat (constructor; [vm_compute; reflexivity |]). constructor.
  - rewrite En. apply chain_last. rewrite N3. lia.
  - repeat constructor; apply demo_block; lia.
  - simpl. lia.
Qed.

Lemma chain_image o : 0 <= o < 512 -> block_byte (disk_of chain_disk) 1 100 4 o = image_byte o.
Proof. revert o. apply (small_all 512 _ _). vm_compute. done. Qed.

Lemma chain_labels : labels 0x9080 0x9088 LOADER_STACK.
Proof. split; unfold LOADER_STACK, STACK_PAGE; lia. Qed.

Lemma chain_volume : boot_volume (D := chain_disk) 0x9040 0x9020 0x9080 0x9088 80 100 2 [3] 1.
Proof.
  destruct chain_numbers as (_ & _ & N4 & _ & En). split; rewrite ?En.
  - simpl. lia.
  - exact chain_labels.
  - lia.
  - intros k Hk. assert (k = 42 \/ k = 43 \/ k = 46 \/ k = 47) as Hc by lia. destruct Hc as [-> | [-> | [-> | ->]]]; vm_compute; reflexivity.
  - lia.
  - intros i Hi Hn. assert (i = 0) as -> by lia. specialize (Hn 0 ltac:(lia)). revert Hn. vm_compute. discriminate.
  - unfold block_named. apply small_range. repeat (constructor; [vm_compute; reflexivity |]). constructor.
  - apply demo_block. lia.
  - rewrite N4. done.
  - intros m Hm. apply image_fits. intros o Ho. rewrite <- chain_image by done. by apply Hm.
Qed.

Definition chain_cpu : loader chain_disk := state 9 8 7 6 5 true true [] ∅ (AtaDrive ∅ 0 [] false) 0 false.

Lemma boot_from_disk_witness :
  exists fuel m', boot 0x7d80 0x7d60 0x9040 0x9020 0x9080 0x9088 0x9100 fuel true 0x12 bios_mem demo_bios (Cpu32 0x11 7 0x1234 0x9000 0 ∅) chain_cpu =
      Some (Enters 0xC0000002 0x9040 m') /\
    memory_map m' 0x9040 = [MemoryRegion 0 0x9fc00 1 1; MemoryRegion 0x9fc00 0x400 2 1; MemoryRegion 0x100000 0x700000 1 1] /\
    load8 m' 0x200002 = 33.
Proof.
  destruct (boot_from_disk 0x7d80 0x7d60 0x9040 0x9020 0x9080 0x9088 0x9100 demo_name 80 100 0x12 bios_mem [] [3] 2 0 1
    demo_bios (Answer SMAP 1 20 (MemoryRegion 0 0x9fc00 1 0)) (drop 1 demo_bios) (Cpu32 0x11 7 0x1234 0x9000 0 ∅) chain_cpu) as [n Hn].
  - exact chain_stage1.
  - rewrite bios_lba, (proj1 chain_numbers). exact chain_volume.
  - exact demo_firmware.
  - by split.
  - by split.
  - done.
  - destruct (Hn (S n) ltac:(lia)) as (rip & m' & E & Hmap & (mf & Hf & Er & Hi) & _). revert Hf Hi.
    rewrite bios_lba, (proj1 chain_numbers), (proj2 (proj2 (proj2 (proj2 chain_numbers)))). intros Hf Hi.
    destruct (image_fields mf) as (_ & Eh & Eo & Ev & Es & Et & Ee); [intros o Ho; by rewrite Hf, chain_image |].
    rewrite Er, Ee in E. rewrite Eh in Hi. specialize (Hi Et 2). unfold zone_phys, KERNEL_ZONE in Hi. rewrite Es, Ev, Eo in Hi.
    exists (S n), m'. split; [exact E |]. split; [exact Hmap |].
    change 0x200002 with (0xC0000000 - 0xC0000000 + 0x200000 + 2). rewrite (proj2 (Hi ltac:(lia))). rewrite chain_image by lia. reflexivity.
Defined.
