(* ===== verification/Layouts.v ===== *)
(** The structures of the C code as declarations, and where a compiler for x86-64 puts their
    members: sizes, natural alignment or none ([packed]), bit-fields from the low bit of their
    unit on. The other files read members at fixed offsets; [layouts_agree] says of the ones
    in the lists [accessors], [updates] and [sizes], and of the stores it names, that they are
    the declared ones. Not compared are the heap's flags and the members of the task state segment (stored
    in line by their operations; [tss_misplaced] gives the places of the latter), the bytes that
    the file system cuts names and labels with, and the tasks and locks, which the models keep as
    records: of these only the sizes that are asked of [kmalloc] are compared. *)

From stdpp Require Import strings.
From S2P Require Import Prelude Words Memory FrameMap FrameAlloc Scheduler Locking OrderedArray KHeap Paging PageTree PagingInit Descriptors Fat32 Devices Elf Debug Ata BootPaging BootMap BootDisk.
#[local] Open Scope string_scope.
#[local] Open Scope list_scope.
#[local] Open Scope Z_scope.

(** * C types *)

#[warnings="-register-all"] Inductive ctype :=
  | Scalar (n : nat)                                    (** an integer or a pointer of [n] bytes *)
  | Bits (n : nat) (fields : list (string * Z))         (** only bit-fields, of an integer type of [n] bytes *)
  | Array (count : nat) (t : ctype)
  | Struct (packed : bool) (fields : list (string * ctype))
  | Union (fields : list (string * ctype)).

(** A member without a name; its own members are members of what it is in. *)
Definition anonymous : string := "".

Fixpoint alignof (t : ctype) : Z :=
  match t with
  | Scalar n | Bits n _ => Z.of_nat n
  | Array _ t => alignof t
  | Struct packed l => if packed then 1 else foldr (fun '(_, t) a => Z.max (alignof t) a) 1 l
  | Union l => foldr (fun '(_, t) a => Z.max (alignof t) a) 1 l
  end.

Definition align_up (x a : Z) : Z := (x + (a - 1)) / a * a.

(** The first offset from [off] on where a member can be. *)
Definition slot (packed : bool) (t : ctype) (off : Z) : Z := if packed then off else align_up off (alignof t).

Fixpoint sizeof (t : ctype) : Z :=
  match t with
  | Scalar n | Bits n _ => Z.of_nat n
  | Array n t => Z.of_nat n * sizeof t
  | Struct packed l => slot packed (Struct packed l) (foldl (fun off '(_, t) => slot packed t off + sizeof t) 0 l)
  | Union l => align_up (foldr (fun '(_, t) s => Z.max (sizeof t) s) 0 l) (alignof (Union l))
  end.

(** What is at an offset: a value of a type, or the bits [lo] to [lo + w] of a unit of [n] bytes. *)
Inductive shape := Whole (t : ctype) | Field (n : nat) (lo w : Z).

Fixpoint bit_members (n : nat) (lo : Z) (l : list (string * Z)) : list (string * (Z * shape)) :=
  match l with
  | [] => []
  | (x, w) :: l => (x, (0, Field n lo w)) :: bit_members n (lo + w) l
  end.

Definition shift (o : Z) (e : string * (Z * shape)) : string * (Z * shape) := (fst e, (o + fst (snd e), snd (snd e))).

(** The members of a struct one after the other, of a union all at 0. *)
Section members.
Context (member : string -> Z -> ctype -> list (string * (Z * shape))).

Fixpoint struct_members (packed : bool) (off : Z) (l : list (string * ctype)) : list (string * (Z * shape)) :=
  match l with
  | [] => []
  | (x, t) :: l => let o := slot packed t off in member x o t ++ struct_members packed (o + sizeof t) l
  end.

Fixpoint union_members (l : list (string * ctype)) : list (string * (Z * shape)) :=
  match l with
  | [] => []
  | (x, t) :: l => member x 0 t ++ union_members l
  end.
End members.

Fixpoint members (t : ctype) : list (string * (Z * shape)) :=
  let member x o t := if String.eqb x anonymous then shift o <$> members t else [(x, (o, Whole t))] in
  match t with
  | Scalar _ | Array _ _ => []
  | Bits n l => bit_members n 0 l
  | Struct packed l => struct_members member packed 0 l
  | Union l => union_members member l
  end.

(** The way to a member of a member, and to an element of an array. *)
Inductive step := Dot (x : string) | Index (i : Z).

Definition find_member (x : string) (l : list (string * (Z * shape))) : option (Z * shape) :=
  snd <$> List.find (fun e => String.eqb (fst e) x) l.

Fixpoint locate (t : ctype) (path : list step) : option (Z * shape) :=
  match path with
  | [] => Some (0, Whole t)
  | Dot x :: path =>
      '(o, s) ← find_member x (members t);
      match s with
      | Whole t => '(o', s) ← locate t path; Some (o + o', s)
      | Field _ _ _ => match path with [] => Some (o, s) | _ => None end
      end
  | Index i :: path =>
      match t with
      | Array _ t => '(o, s) ← locate t path; Some (i * sizeof t + o, s)
      | _ => None
      end
  end.

(** * Reading and storing *)

(** The unit of [n] bytes at [off], of which the bits [lo] to [lo + w]. *)
Record place := Place { off : Z; nbytes : nat; lo : Z; nbits : Z }.

Definition place_of (e : Z * shape) : option place :=
  match e with
  | (o, Whole (Scalar n)) => Some (Place o n 0 (8 * Z.of_nat n))
  | (o, Field n lo w) => Some (Place o n lo w)
  | _ => None
  end.

Definition get (p : place) (m : mem) (a : Z) : Z := bf_get (lo p) (nbits p) (load (nbytes p) m (a + off p)).
Definition set (p : place) (v : Z) (m : mem) (a : Z) : mem :=
  store (nbytes p) (a + off p) (bf_set (lo p) (nbits p) v (load (nbytes p) m (a + off p))) m.

Definition find (t : ctype) (path : list step) : option place := e ← locate t path; place_of e.
Definition read (t : ctype) (path : list step) (m : mem) (a : Z) : option Z := (fun p => get p m a) <$> find t path.
Definition write (t : ctype) (path : list step) (v : Z) (m : mem) (a : Z) : option mem := (fun p => set p v m a) <$> find t path.

(** * The declarations *)

Definition uint8 := Scalar 1.
Definition uint16 := Scalar 2.
Definition uint32 := Scalar 4.
Definition uint64 := Scalar 8.
Definition pointer := Scalar 8.

(** ** bootinfo.h *)
Definition multiboot_info : ctype := Struct true
  [("m_flags", uint32); ("m_memory", uint64); ("m_bootDevice", uint32); ("m_cmdLine", uint32);
   ("m_modsCount", uint32); ("m_modsAddr", uint32); ("m_syms0", uint32); ("m_syms1", uint32); ("m_syms2", uint32);
   ("m_mmap_length", uint32); ("m_mmap_addr", uint32); ("m_drives_length", uint32); ("m_drives_addr", uint32);
   ("m_config_table", uint32); ("m_bootloader_name", uint32); ("m_apm_table", uint32);
   ("m_vbe_control_info", uint32); ("m_vbe_mode_info", uint32); ("m_vbe_mode", uint16);
   ("m_vbe_interface_addr", uint32); ("m_vbe_interface_len", uint16)].

(** The same block as stage2.asm declares it. *)
Definition stage2_bootinfo : ctype := Struct true
  [(".flags", uint32); (".memoryLo", uint32); (".memoryHi", uint32); (".bootDevice", uint32); (".cmdLine", uint32);
   (".mods_count", uint32); (".mods_addr", uint32); (".syms0", uint32); (".syms1", uint32); (".syms2", uint32);
   (".mmap_length", uint32); (".mmap_addr", uint32); (".drives_length", uint32); (".drives_addr", uint32);
   (".config_table", uint32); (".bootloader_name", uint32); (".apm_table", uint32); (".vbe_control_info", uint32);
   (".vbe_mode_info", uint32); (".vbe_mode", uint16); (".vbe_interface_seg", uint16); (".vbe_interface_off", uint16);
   (".vbe_interface_len", uint16)].

(** ** memman.h *)
Definition struct_memory_region : ctype := Struct true
  [("start", uint64); ("size", uint64); ("type", uint32); ("acpi3", uint32)].

Definition union_address : ctype := Union
  [("hex", uint64); ("ptr", pointer);
   (anonymous, Bits 8 [("offset", 12); ("pt", 9); ("pd", 9); ("pdp", 9); ("pml4", 9); ("sign", 16)]);
   (anonymous, Bits 8 [(anonymous, 12); ("frame", 36); (anonymous, 16)])].

Definition pml4_entry : ctype := Bits 8
  [("present", 1); ("rw", 1); ("user", 1); ("pwt", 1); ("pcd", 1); ("accessed", 1); ("ignored", 1); ("mbz", 2);
   ("avl", 3); ("directory_pointer", 40); ("reserved", 11); ("nx", 1)].
Definition pdp_entry : ctype := Bits 8
  [("present", 1); ("rw", 1); ("user", 1); ("pwt", 1); ("pcd", 1); ("accessed", 1); ("ignored", 1); ("zero", 1);
   ("mbz", 1); ("avl", 3); ("directory", 40); ("reserved", 11); ("nx", 1)].
Definition pd_entry : ctype := Bits 8
  [("present", 1); ("rw", 1); ("user", 1); ("pwt", 1); ("pcd", 1); ("accessed", 1); ("ignored", 1); ("zero", 1);
   ("ignored2", 1); ("avl", 3); ("table", 40); ("reserved", 11); ("nx", 1)].
Definition page_entry : ctype := Union
  [("hex", uint64);
   (anonymous, Bits 8
     [("present", 1); ("rw", 1); ("user", 1); ("pwt", 1); ("pcd", 1); ("accessed", 1); ("dirty", 1); ("size", 1);
      ("global", 1); ("avl", 3); ("frame", 40); ("reserved", 11); ("nx", 1)])].

(** ** fat32.h *)
Definition fat32_volume_id : ctype := Struct true
  [("jump", Array 3 uint8); ("oem_identifier", Array 8 uint8); ("bytes_per_sector", uint16);
   ("sectors_per_cluster", uint8); ("reserved_sectors", uint16); ("number_of_fats", uint8);
   ("directory_entries", uint16); ("total_sectors", uint16); ("media_type", uint8); ("sectors_per_fat", uint16);
   ("sectors_per_track", uint16); ("number_of_heads", uint16); ("hidden_sectors", uint32); ("large_sectors", uint32);
   ("sectors_per_fat2", uint32); ("flags", uint16); ("version", uint16); ("root_cluster", uint32); ("fsinfo", uint16);
   ("backup_boot", uint16); ("reserved", Array 3 uint32); ("drive_number", uint8); ("ntflags", uint8);
   ("signature", uint8); ("volume_id", uint32); ("label", Array 11 uint8); ("identifier", Array 8 uint8)].

(** The same sector as fat32_volumeid.asm declares it. *)
Definition boot_volume_id : ctype := Struct true
  [("jmp_over_fat_table", Array 2 uint8); ("nop", uint8);
   (".oem_identifier", uint64); (".bytes_per_sector", uint16); (".sectors_per_cluster", uint8);
   (".reserved_sectors", uint16); (".number_of_fats", uint8); (".directory_entries", uint16);
   (".total_sectors", uint16); (".media_type", uint8); (".sectors_per_fat", uint16); (".sectors_per_track", uint16);
   (".number_of_heads", uint16); (".hidden_sectors", uint32); (".large_sectors", uint32); (".sectors_per_fat2", uint32);
   (".flags", uint16); (".version", uint16); (".root_cluster", uint32); (".fsinfo", uint16); (".backup_boot", uint16);
   (".reserved", Array 3 uint32); (".drive_number", uint8); (".ntflags", uint8); (".signature", uint8);
   (".volume_id", uint32); (".label", Array 11 uint8); (".identifier", uint64)].

Definition partition_entry : ctype := Struct true
  [("flag", uint8); ("chs_begin", Array 3 uint8); ("type", uint8); ("chs_end", Array 3 uint8); ("lba", uint32);
   ("sectors", uint32)].
Definition partition_table : ctype := Struct true
  [("boot_code", Array 446 uint8); ("partition", Array 4 partition_entry); ("magic", uint16)].

Definition dir_entry : ctype := Struct true
  [("filename", Array 11 uint8);
   (anonymous, Struct false
     [(anonymous, Union
       [("attribute", uint8);
        (anonymous, Bits 1 [("ro", 1); ("hidden", 1); ("sys", 1); ("volid", 1); ("dir", 1); ("archive", 1); ("unused", 2)])])]);
   ("nt", uint8); ("creation_ms", uint8); ("creation_time", uint16); ("creation_date", uint16); ("access_date", uint16);
   ("cluster_high", uint16); ("modification_time", uint16); ("modification_date", uint16); ("cluster_low", uint16);
   ("size", uint32)].

(** ** elf.h *)
Definition Elf64_Ehdr : ctype := Struct true
  [("e_ident", Array 16 uint8); ("e_type", uint16); ("e_machine", uint16); ("e_version", uint32); ("e_entry", uint64);
   ("e_phoff", uint64); ("e_shoff", uint64); ("e_flags", uint32); ("e_ehsize", uint16); ("e_phentsize", uint16);
   ("e_phnum", uint16); ("e_shentsize", uint16); ("e_shnum", uint16); ("e_shstrndx", uint16)].
Definition Elf64_Phdr : ctype := Struct true
  [("p_type", uint32); ("p_flags", uint32); ("p_offset", uint64); ("p_vaddr", uint64); ("p_paddr", uint64);
   ("p_filesz", uint64); ("p_memsz", uint64); ("p_align", uint64)].
Definition Elf64_Shdr : ctype := Struct true
  [("sh_name", uint32); ("sh_type", uint32); ("sh_flags", uint64); ("sh_vaddr", uint64); ("sh_offset", uint64);
   ("sh_size", uint64); ("sh_link", uint32); ("sh_info", uint32); ("sh_addralign", uint64); ("sh_entsize", uint64)].

(** ** gdt.h, idt.h *)
Definition gdt_entry_struct : ctype := Struct true
  [("limit_low", uint16); ("base_low", uint16); ("base_middle", uint8); ("access", uint8); ("granularity", uint8);
   ("base_high", uint8)].
Definition system_segment_descriptor : ctype := Struct true
  [("limit_low", uint16); ("base_low", uint16); ("base_middle", uint8); ("access", uint8); ("granularity", uint8);
   ("base_high", uint8); ("base_veryhigh", uint32); ("zero", uint32)].
Definition gdt_ptr_struct : ctype := Struct true [("limit", uint16); ("base", uint64)].
Definition tss_entry_t : ctype := Struct false
  [("zero1", uint32); ("rsp0_low", uint32); ("rsp0_high", uint32); ("rsp1_low", uint32); ("rsp1_high", uint32);
   ("rsp2_low", uint32); ("rsp2_high", uint32); ("zero2", uint64); ("ist1_low", uint32); ("ist1_high", uint32);
   ("ist2_low", uint32); ("ist2_high", uint32); ("ist3_low", uint32); ("ist3_high", uint32); ("ist4_low", uint32);
   ("ist4_high", uint32); ("ist5_low", uint32); ("ist5_high", uint32); ("ist6_low", uint32); ("ist6_high", uint32);
   ("ist7_low", uint32); ("ist7_high", uint32); ("zero3", uint64); ("zero4", uint16); ("iomap_adr", uint16)].
Definition struct_idt_descriptor : ctype := Struct true
  [("base_low", uint16); ("selector", uint16); ("ist", uint8); ("type_attr", uint8); ("base_middle", uint16);
   ("base_high", uint32); ("zero", uint32)].
Definition idt_ptr_struct : ctype := Struct true [("limit", uint16); ("base", uint64)].

(** ** apic.h, ioapic.h, acpi.h *)
Definition lvt_entry : ctype := Bits 4
  [("vector", 8); ("msgtype", 3); ("reserved", 1); ("delstat", 1); ("reserved2", 1); ("rirr", 1); ("trigmode", 1);
   ("mask", 1); ("timermode", 1); ("reserved3", 14)].
Definition icr_reg : ctype := Struct false
  [(anonymous, Union
     [(anonymous, Bits 4
        [("vector", 8); ("msgtype", 3); ("destmod", 1); ("delstat", 1); ("zero1", 1); ("level", 1); ("trigmod", 1);
         ("rrs", 2); ("dsh", 2); ("zero2", 12)]);
      ("low", uint32)]);
   (anonymous, Union [(anonymous, Bits 4 [("zero3", 24); ("dest", 8)]); ("high", uint32)])].
Definition ioapic_version_table : ctype := Struct false
  [("apicver", uint8); ("reserved", uint8); ("maximumredentry", uint8); ("reserved2", uint8)].

(** The bit-fields are of 64 bits, so that [high] is eight bytes behind [low]. *)
Definition ioapic_redirect_entry : ctype := Struct false
  [(anonymous, Union
     [(anonymous, Bits 8
        [("vector", 8); ("delmod", 3); ("destmod", 1); ("delivs", 1); ("intpol", 1); ("rirr", 1); ("triggermode", 1);
         ("mask", 1); ("reserved", 15)]);
      ("low", uint32)]);
   (anonymous, Union [(anonymous, Bits 8 [("reserved2", 24); ("destination", 8)]); ("high", uint32)])].
Definition struct_acpi_sdt_header : ctype := Struct false
  [("signature", Array 4 uint8); ("length", uint32); ("revision", uint8); ("checksum", uint8); ("OEMID", Array 6 uint8);
   ("OEMTableID", Array 8 uint8); ("OEMRevision", uint32); ("CreatorID", uint32); ("CreatorRevision", uint32)].
Definition rsdt_t : ctype := Struct false [("h", struct_acpi_sdt_header); ("sdt_ptr", Array 32 uint32)].

(** ** ordered_array.h, kheap.h, scheduler.h, b_locking.h *)
Definition ordered_array_t : ctype := Struct false
  [("array", pointer); ("size", uint64); ("max_size", uint64); ("less_than", pointer)].
Definition header_t : ctype := Struct false [("magic", uint32); ("is_hole", uint8); ("size", uint64)].
Definition footer_t : ctype := Struct false [("magic", uint32); ("header", pointer)].
Definition heap_t : ctype := Struct false
  [("index", ordered_array_t); ("start_address", uint64); ("end_address", uint64); ("max_address", uint64);
   ("supervisor", uint8); ("readonly", uint8)].
Definition struct_task : ctype := Struct true
  [("pid", uint64); ("rsp", uint64); ("rbp", uint64); ("rip", uint64); ("pml4", pointer); ("status", uint8);
   ("next", pointer)].
Definition struct_lock : ctype := Struct true [("pid", uint64); ("next", pointer)].
Definition struct_lock_queue : ctype := Struct true [("head", pointer); ("tail", pointer)].

(** * Where members are *)

(** A declaration that a compiler accepts. *)
Fixpoint well_formed (t : ctype) : bool :=
  match t with
  | Scalar n => (0 <? Z.of_nat n)
  | Bits n l => (0 <? Z.of_nat n) && forallb (fun '(_, w) => 0 <=? w) l && (foldr (fun '(_, w) s => w + s) 0 l <=? 8 * Z.of_nat n)
  | Array _ t => well_formed t
  | Struct _ l | Union l => forallb (fun '(_, t) => well_formed t) l
  end.

(** No two members share bytes: no union stands among the members. *)
Fixpoint no_union (t : ctype) : bool :=
  match t with
  | Struct _ l => forallb (fun '(x, t) => if String.eqb x anonymous then no_union t else true) l
  | Union _ => false
  | _ => true
  end.

(** The bits of the structure that a member takes. *)
Definition first_bit (e : Z * shape) : Z := 8 * fst e + match snd e with Whole _ => 0 | Field _ lo _ => lo end.
Definition bits (e : Z * shape) : Z := match snd e with Whole t => 8 * sizeof t | Field _ _ w => w end.

(** The members [l] follow each other between the bits [lo] and [hi]. *)
Fixpoint in_order (lo : Z) (l : list (string * (Z * shape))) (hi : Z) : Prop :=
  match l with
  | [] => lo <= hi
  | (_, e) :: l => lo <= first_bit e /\ 0 <= bits e /\ in_order (first_bit e + bits e) l hi
  end.

(** A bit-field stays inside its unit and the unit inside [size] bytes. *)
Definition inside (size : Z) (e : Z * shape) : Prop :=
  0 <= fst e /\
  match snd e with
  | Whole t => fst e + sizeof t <= size
  | Field n lo w => fst e + Z.of_nat n <= size /\ 0 <= lo /\ 0 <= w /\ lo + w <= 8 * Z.of_nat n
  end.

Section layout.
Implicit Types (t : ctype) (e : Z * shape) (n : nat).

Lemma ctype_nested_ind (P : ctype -> Prop) :
  (forall n, P (Scalar n)) -> (forall n l, P (Bits n l)) -> (forall n t, P t -> P (Array n t)) ->
  (forall packed l, Forall (fun f : string * ctype => P (snd f)) l -> P (Struct packed l)) ->
  (forall l, Forall (fun f : string * ctype => P (snd f)) l -> P (Union l)) -> forall t, P t.
Proof.
  intros H1 H2 H3 H4 H5. fix IH 1. intros [n | n l | n t | packed l | l]; [apply H1 | apply H2 | apply H3, IH | apply H4 | apply H5].
  - induction l as [|[x t] l IHl]; constructor; [apply IH | exact IHl].
  - induction l as [|[x t] l IHl]; constructor; [apply IH | exact IHl].
Qed.

Lemma align_up_le x a : 0 < a -> x <= align_up x a.
Proof. intros. unfold align_up. pose proof (Z.div_mod (x + (a - 1)) a). pose proof (Z.mod_pos_bound (x + (a - 1)) a). nia. Qed.

Lemma max_align_pos l : 1 <= foldr (fun '(_, t) a => Z.max (alignof t) a) 1 (l : list (string * ctype)).
Proof. induction l as [|[x t] l IH]; simpl; lia. Qed.

Lemma alignof_pos t : well_formed t = true -> 0 < alignof t.
Proof.
  induction t as [n | n l | n t IH | packed l _ | l _] using ctype_nested_ind; simpl; intros Hw; bsimpl; try lia.
  - by apply IH.
  - pose proof (max_align_pos l). destruct packed; lia.
  - pose proof (max_align_pos l). lia.
Qed.

Lemma slot_le packed t off : well_formed t = true -> off <= slot packed t off.
Proof. intros Hw. unfold slot. destruct packed; [lia |]. by apply align_up_le, alignof_pos. Qed.

Lemma in_order_app lo l1 mid l2 hi : in_order lo l1 mid -> in_order mid l2 hi -> in_order lo (l1 ++ l2) hi.
Proof.
  revert lo. induction l1 as [|[x e] l1 IH]; simpl; intros lo H1 H2.
  - destruct l2 as [|[y e] l2]; simpl in *; lia || (destruct H2 as (? & ? & ?); split_and!; [lia | done..]).
  - destruct H1 as (? & ? & ?). split_and!; [done.. | by apply IH].
Qed.

Lemma in_order_weaken lo lo' l hi hi' : in_order lo l hi -> lo' <= lo -> hi <= hi' -> in_order lo' l hi'.
Proof.
  revert lo lo'. induction l as [|[x e] l IH]; simpl; intros lo lo' Hl ? ?; [lia |].
  destruct Hl as (? & ? & ?). split_and!; [lia | done | by eapply IH].
Qed.

Lemma in_order_shift o lo l hi : in_order lo l hi -> in_order (8 * o + lo) (shift o <$> l) (8 * o + hi).
Proof.
  revert lo. induction l as [|[x [o' s]] l IH]; simpl; intros lo Hl; [lia |].
  destruct Hl as (? & ? & Hl). unfold first_bit, bits in *. simpl in *. split_and!; [lia | done |].
  eapply in_order_weaken; [by apply IH | lia | done].
Qed.

(** Entries in order are disjoint. *)
Lemma in_order_apart lo l hi i j x y d e :
  in_order lo l hi -> l !! i = Some (x, d) -> l !! j = Some (y, e) -> (i < j)%nat -> first_bit d + bits d <= first_bit e.
Proof.
  intros Hl Hi Hj Hij. revert lo i j Hl Hi Hj Hij.
  assert (Hlo : forall l lo hi i x d, in_order lo l hi -> l !! i = Some (x, d) -> lo <= first_bit d).
  { clear. induction l as [|[y e] l IH]; intros lo hi [|i] x d Hl Hi; simplify_eq/=; destruct Hl as (? & ? & Hl); [done |].
    specialize (IH _ _ _ _ _ Hl Hi). lia. }
  induction l as [|[z c] l IH]; intros lo [|i] [|j] Hl Hi Hj Hij; simplify_eq/=; try lia; destruct Hl as (? & ? & Hl).
  - by eapply Hlo.
  - eapply (IH _ i j); [done.. | lia].
Qed.

(** The offset behind the members [l] of a struct, from [off] on. *)
#[local] Abbreviation end_of packed := (foldl (fun off '((_, t) : string * ctype) => slot packed t off + sizeof t)).

Lemma end_of_le packed l off :
  Forall (fun f : string * ctype => well_formed (snd f) = true -> 0 <= sizeof (snd f)) l ->
  forallb (fun '(_, t) => well_formed t) l = true -> off <= end_of packed off l.
Proof.
  intros Hs. revert off. induction Hs as [|[x t] l Ht _ IH]; simpl; intros off Hw; [lia |]. bsimpl.
  specialize (Ht ltac:(done)). specialize (IH (slot packed t off + sizeof t) ltac:(done)). pose proof (slot_le packed t off ltac:(done)). simpl in *. lia.
Qed.

Lemma sizeof_nonneg t : well_formed t = true -> 0 <= sizeof t.
Proof.
  induction t as [n | n l | n t IH | packed l IH | l IH] using ctype_nested_ind; cbn [sizeof]; intros Hw; try lia.
  - specialize (IH Hw). lia.
  - etransitivity; [exact (end_of_le packed l 0 IH Hw) | apply (slot_le packed (Struct packed l)), Hw].
  - etransitivity; [| apply align_up_le, (alignof_pos (Union l)), Hw].
    clear. induction l as [|[x t] l IH]; simpl; lia.
Qed.

Lemma end_of_sizeof packed l off : forallb (fun '(_, t) => well_formed t) l = true -> off <= end_of packed off l.
Proof. intros Hw. apply end_of_le; [| done]. apply Forall_true. intros f. apply sizeof_nonneg. Qed.

Lemma struct_end packed (l : list (string * ctype)) : well_formed (Struct packed l) = true -> end_of packed 0 l <= sizeof (Struct packed l).
Proof. intros Hw. cbn [sizeof]. by apply (slot_le packed (Struct packed l)). Qed.

Lemma bit_members_in_order n lo l hi :
  forallb (fun '(_, w) => 0 <=? w) l = true -> lo + foldr (fun '(_, w) s => w + s) 0 l <= hi -> in_order lo (bit_members n lo l) hi.
Proof.
  revert lo. induction l as [|[x w] l IH]; simpl; intros lo Hw Hs; [lia |]. bsimpl.
  unfold first_bit, bits. simpl. split_and!; [lia.. |]. apply IH; [done | lia].
Qed.

(** The members of a struct are in the order of their declaration. *)
Lemma members_in_order t : well_formed t = true -> no_union t = true -> in_order 0 (members t) (8 * sizeof t).
Proof.
  induction t as [n | n l | n t _ | packed l IH | l _] using ctype_nested_ind; intros Hw Hu; try done.
  - simpl. lia.
  - cbn [well_formed] in Hw. bsimpl. by apply bit_members_in_order.
  - pose proof (sizeof_nonneg (Array n t) Hw). simpl in *. lia.
  - eapply in_order_weaken; [| reflexivity | apply Z.mul_le_mono_nonneg_l; [lia | by apply struct_end]].
    simpl. cbn [well_formed no_union] in Hw, Hu. change 0 with (8 * 0) at 1. generalize 0 as off. revert Hw Hu.
    induction IH as [|[x t] l Ht _ IHl]; simpl in *; intros Hw Hu off; [lia |]. bsimpl.
    pose proof (slot_le packed t off ltac:(done)). pose proof (sizeof_nonneg t ltac:(done)).
    eapply in_order_app; [| by apply IHl]. destruct (String.eqb x anonymous).
    + eapply in_order_weaken; [by apply (in_order_shift (slot packed t off)), Ht | lia | lia].
    + simpl. unfold first_bit, bits. simpl. lia.
Qed.

Lemma inside_shift o size size' e : inside size e -> 0 <= o -> o + size <= size' -> inside size' (o + fst e, snd e).
Proof. unfold inside. destruct e as [o' [t | n lo w]]; simpl; lia. Qed.

#[local] Abbreviation all_inside size := (Forall (fun m : string * (Z * shape) => inside size (snd m))).

Lemma bit_members_inside n lo l :
  0 <= lo -> forallb (fun '(_, w) => 0 <=? w) l = true -> lo + foldr (fun '(_, w) s => w + s) 0 l <= 8 * Z.of_nat n ->
  all_inside (Z.of_nat n) (bit_members n lo l).
Proof.
  revert lo. induction l as [|[x w] l IH]; simpl; intros lo Hlo Hw Hs; constructor; bsimpl.
  - unfold inside. simpl. assert (0 <= foldr (fun '(_, w) s => w + s) 0 l); [| lia].
    clear - H0. induction l as [|[y v] l IH]; simpl in *; bsimpl; [lia |]. specialize (IH ltac:(done)). lia.
  - apply IH; [lia | done | lia].
Qed.

(** Members, also those of unions, are inside their structure. *)
Lemma members_inside t : well_formed t = true -> all_inside (sizeof t) (members t).
Proof.
  induction t as [n | n l | n t _ | packed l IH | l IH] using ctype_nested_ind; intros Hw; try constructor.
  - cbn [well_formed] in Hw. bsimpl. apply bit_members_inside; [lia | done | lia].
  - pose proof (struct_end packed l Hw) as He. revert He. generalize (sizeof (Struct packed l)) as size. intros size.
    simpl. cbn [well_formed] in Hw. assert (0 <= 0) as Hoff by lia. revert Hoff. generalize 0 at 2 3 4 as off. revert Hw.
    induction IH as [|[x t] l Ht _ IHl]; simpl in *; intros Hw off Hoff He; [constructor |]. bsimpl.
    pose proof (slot_le packed t off ltac:(done)). pose proof (sizeof_nonneg t ltac:(done)).
    pose proof (end_of_sizeof packed l (slot packed t off + sizeof t) ltac:(done)).
    apply Forall_app. split; [| apply IHl; [done | lia | done]]. destruct (String.eqb x anonymous).
    + apply Forall_fmap. eapply Forall_impl; [| by apply Ht]. intros m Hm. refine (inside_shift _ _ _ (snd m) Hm _ _); lia.
    + repeat constructor; simpl; lia.
  - assert (foldr (fun '(_, t) s => Z.max (sizeof t) s) 0 l <= sizeof (Union l)) as He
      by (cbn [sizeof]; by apply align_up_le, alignof_pos).
    revert He. generalize (sizeof (Union l)) as size. intros size. simpl. cbn [well_formed] in Hw. revert Hw.
    induction IH as [|[x t] l Ht _ IHl]; simpl in *; intros Hw He; [constructor |]. bsimpl.
    apply Forall_app. split; [| apply IHl; [done | lia]]. destruct (String.eqb x anonymous).
    + apply Forall_fmap. eapply Forall_impl; [| by apply Ht]. intros m Hm. refine (inside_shift _ _ _ (snd m) Hm _ _); lia.
    + repeat constructor; simpl; lia.
Qed.
End layout.

(** * What a store to a member does *)

Section access.
Implicit Types (m : mem) (p q : place) (a b v : Z).

(** Bit [b] of memory from [a] on. *)
Definition bit m a b : bool := Z.testbit (load8 m (a + b / 8)) (b mod 8).

Lemma bit_shift m a o b : bit m (a + o) b = bit m a (8 * o + b).
Proof. unfold bit. replace (8 * o + b) with (b + o * 8) by lia. rewrite Z.div_add, Z.mod_add by lia. do 2 f_equal. lia. Qed.

Lemma load_testbit n m a i : 0 <= i < 8 * Z.of_nat n -> Z.testbit (load n m a) i = bit m a i.
Proof.
  revert a i. induction n as [|n IH]; intros a i Hi; [lia |]. change (load (S n) m a) with (load8 m a + 256 * load n m (a + 1)).
  pose proof (load8_bounds m a). destruct (decide (i < 8)).
  - unfold bit. rewrite Z.div_small, Z.mod_small, Z.add_0_r by lia.
    rewrite <- (Z.mod_pow2_bits_low (load8 m a + 256 * load n m (a + 1)) 8 i) by lia. change (2 ^ 8) with 256.
    f_equal. rewrite Z.mul_comm, Z.mod_add, Z.mod_small; lia.
  - replace i with (8 + (i - 8)) at 2 by lia. rewrite <- (bit_shift m a 1), <- IH by lia.
    replace i with (i - 8 + 8) at 1 by lia. rewrite <- Z.div_pow2_bits by lia. change (2 ^ 8) with 256. f_equal. div_lia.
Qed.

(** The place is inside its unit. *)
Definition fits p : Prop := 0 <= lo p /\ 0 <= nbits p /\ lo p + nbits p <= 8 * Z.of_nat (nbytes p).

Lemma get_testbit p m a i : fits p -> 0 <= i ->
  Z.testbit (get p m a) i = bit m a (8 * off p + lo p + i) && (i <? nbits p).
Proof.
  intros (? & ? & ?) Hi. unfold get. rewrite bf_get_testbit by lia.
  destruct (Z.ltb_spec i (nbits p)); [| by rewrite !andb_false_r].
  rewrite load_testbit, bit_shift by lia. do 2 f_equal. lia.
Qed.

Lemma set_bit p v m a b : fits p ->
  bit (set p v m a) a b = if (8 * off p + lo p <=? b) && (b <? 8 * off p + lo p + nbits p) then Z.testbit v (b - (8 * off p + lo p)) else bit m a b.
Proof.
  intros (? & ? & ?). unfold set. set (n := nbytes p) in *. set (i := b - 8 * off p).
  replace b with (8 * off p + i) by lia. rewrite <- !bit_shift.
  destruct (decide (0 <= i < 8 * Z.of_nat n)).
  - rewrite <- !(load_testbit n) by lia. rewrite load_store_mod, Z.mod_pow2_bits_low, bf_set_testbit by lia.
    replace (8 * off p + lo p <=? 8 * off p + i) with (lo p <=? i) by lia.
    replace (8 * off p + i <? 8 * off p + lo p + nbits p) with (i <? lo p + nbits p) by lia.
    replace (8 * off p + i - (8 * off p + lo p)) with (i - lo p) by lia. done.
  - replace ((8 * off p + lo p <=? 8 * off p + i) && (8 * off p + i <? 8 * off p + lo p + nbits p)) with false by lia.
    unfold bit. rewrite load8_store; [done |]. div_lia.
Qed.

Lemma get_set_same p v m a : fits p -> get p (set p v m a) a = v mod 2 ^ nbits p.
Proof.
  intros Hp. pose proof Hp as (? & ? & ?). apply Z.bits_inj'. intros i Hi.
  rewrite get_testbit, set_bit, testbit_mod_pow2 by done.
  replace ((8 * off p + lo p <=? 8 * off p + lo p + i) && (8 * off p + lo p + i <? 8 * off p + lo p + nbits p)) with (i <? nbits p) by lia.
  destruct (Z.ltb_spec i (nbits p)); [| by rewrite !andb_false_r]. rewrite andb_true_r. simpl. f_equal. lia.
Qed.

Lemma get_set_apart p q v m a : fits p -> fits q ->
  8 * off p + lo p + nbits p <= 8 * off q + lo q \/ 8 * off q + lo q + nbits q <= 8 * off p + lo p ->
  get q (set p v m a) a = get q m a.
Proof.
  intros Hp Hq Hd. pose proof Hp as (? & ? & ?). apply Z.bits_inj'. intros i Hi. rewrite !get_testbit by done.
  destruct (Z.ltb_spec i (nbits q)); [| by rewrite !andb_false_r]. f_equal. rewrite set_bit by done.
  by replace ((8 * off p + lo p <=? 8 * off q + lo q + i) && (8 * off q + lo q + i <? 8 * off p + lo p + nbits p)) with false by lia.
Qed.

Lemma place_of_inside size e p : place_of e = Some p -> inside size e ->
  fits p /\ first_bit e = 8 * off p + lo p /\ bits e = nbits p /\ 0 <= off p /\ off p + Z.of_nat (nbytes p) <= size.
Proof.
  destruct e as [o [[] | n l w]]; simpl; intros [= <-]; unfold inside, fits, first_bit, bits; simpl; lia.
Qed.
End access.

(** * The models read and write the declared members *)

(** One member of a structure, and what a model uses for it. *)
Definition member {A} (t : ctype) (x : string) (f : A) : ctype * list step * A := (t, [Dot x], f).

(** Elements of arrays are those at the index [i]. *)
Definition accessors (i : Z) : list (ctype * list step * (mem -> Z -> Z)) :=
  [member multiboot_info "m_mmap_length" m_mmap_length; member multiboot_info "m_mmap_addr" m_mmap_addr;
   member stage2_bootinfo ".mmap_length" (fun m a => load32 m (mmap_length a));
   member stage2_bootinfo ".mmap_addr" (fun m a => load32 m (mmap_addr a));
   member struct_memory_region "start" (fun m a => start (region_at m a));
   member struct_memory_region "size" (fun m a => FrameAlloc.size (region_at m a));
   member struct_memory_region "type" (fun m a => type (region_at m a));
   member struct_memory_region "acpi3" (fun m a => acpi3 (region_at m a));
   member union_address "offset" (fun m a => a_offset (load64 m a)); member union_address "pt" (fun m a => a_pt (load64 m a));
   member union_address "pd" (fun m a => a_pd (load64 m a)); member union_address "pdp" (fun m a => a_pdp (load64 m a));
   member union_address "pml4" (fun m a => a_pml4 (load64 m a)); member union_address "frame" (fun m a => a_frame (load64 m a));
   member pml4_entry "directory_pointer" (fun m a => e_frame (load64 m a));
   member pml4_entry "present" (fun m a => Z.b2z (e_present (load64 m a)));
   member pdp_entry "directory" (fun m a => e_frame (load64 m a));
   member pdp_entry "present" (fun m a => Z.b2z (e_present (load64 m a)));
   member pd_entry "table" (fun m a => e_frame (load64 m a));
   member pd_entry "present" (fun m a => Z.b2z (e_present (load64 m a)));
   member page_entry "frame" (fun m a => e_frame (load64 m a));
   member page_entry "present" (fun m a => Z.b2z (e_present (load64 m a)));
   member page_entry "size" (fun m a => Z.b2z (e_large (load64 m a)));
   member fat32_volume_id "bytes_per_sector" bytes_per_sector; member fat32_volume_id "sectors_per_cluster" sectors_per_cluster;
   member fat32_volume_id "reserved_sectors" reserved_sectors; member fat32_volume_id "number_of_fats" number_of_fats;
   member fat32_volume_id "sectors_per_fat2" sectors_per_fat2; member fat32_volume_id "root_cluster" root_cluster;
   member boot_volume_id ".sectors_per_cluster" sectors_per_cluster; member boot_volume_id ".bytes_per_sector" bytes_per_sector;
   member boot_volume_id ".reserved_sectors" reserved_sectors; member boot_volume_id ".number_of_fats" number_of_fats;
   member boot_volume_id ".sectors_per_fat2" sectors_per_fat2; member boot_volume_id ".root_cluster" root_cluster;
   (partition_table, [Dot "partition"; Index 0; Dot "lba"], partition_lba); member partition_table "magic" table_magic;
   member dir_entry "attribute" attribute; member dir_entry "cluster_high" file_cluster_high;
   member dir_entry "cluster_low" file_cluster_low; member dir_entry "size" file_size;
   (Elf64_Ehdr, [Dot "e_ident"; Index i], fun m a => e_ident m a i);
   member Elf64_Ehdr "e_type" e_type; member Elf64_Ehdr "e_machine" e_machine; member Elf64_Ehdr "e_version" e_version;
   member Elf64_Ehdr "e_entry" e_entry; member Elf64_Ehdr "e_phoff" e_phoff; member Elf64_Ehdr "e_shoff" e_shoff;
   member Elf64_Ehdr "e_flags" e_flags; member Elf64_Ehdr "e_ehsize" e_ehsize; member Elf64_Ehdr "e_phentsize" e_phentsize;
   member Elf64_Ehdr "e_phnum" e_phnum; member Elf64_Ehdr "e_shentsize" e_shentsize; member Elf64_Ehdr "e_shnum" e_shnum;
   member Elf64_Ehdr "e_shstrndx" e_shstrndx;
   member Elf64_Phdr "p_type" p_type; member Elf64_Phdr "p_flags" p_flags; member Elf64_Phdr "p_offset" p_offset;
   member Elf64_Phdr "p_vaddr" p_vaddr; member Elf64_Phdr "p_paddr" p_paddr; member Elf64_Phdr "p_filesz" p_filesz;
   member Elf64_Phdr "p_memsz" p_memsz; member Elf64_Phdr "p_align" p_align;
   member Elf64_Shdr "sh_name" sh_name; member Elf64_Shdr "sh_type" sh_type; member Elf64_Shdr "sh_flags" sh_flags;
   member Elf64_Shdr "sh_vaddr" sh_vaddr; member Elf64_Shdr "sh_offset" sh_offset; member Elf64_Shdr "sh_size" sh_size;
   member Elf64_Shdr "sh_link" sh_link; member Elf64_Shdr "sh_info" sh_info; member Elf64_Shdr "sh_addralign" sh_addralign;
   member Elf64_Shdr "sh_entsize" sh_entsize;
   member gdt_entry_struct "access" (fun m a => seg_access (load64 m a));
   member struct_idt_descriptor "selector" (fun m a => gate_selector (load 16 m a));
   member icr_reg "vector" (fun m a => ipi_vector (load32 m (a + 4), load32 m a));
   member icr_reg "msgtype" (fun m a => ipi_type (load32 m (a + 4), load32 m a));
   member icr_reg "destmod" (fun m a => ipi_logical (load32 m (a + 4), load32 m a));
   member icr_reg "dsh" (fun m a => ipi_shorthand (load32 m (a + 4), load32 m a));
   member icr_reg "dest" (fun m a => ipi_dest (load32 m (a + 4), load32 m a));
   member ioapic_redirect_entry "vector" (fun m a => irq_vector (load32 m a));
   member ioapic_redirect_entry "delmod" (fun m a => irq_delivery (load32 m a));
   member ioapic_redirect_entry "destmod" (fun m a => irq_logical (load32 m a));
   member ioapic_redirect_entry "intpol" (fun m a => irq_active_low (load32 m a));
   member ioapic_redirect_entry "triggermode" (fun m a => irq_level (load32 m a));
   member ioapic_redirect_entry "mask" (fun m a => irq_masked (load32 m a));
   member ioapic_redirect_entry "destination" (fun m a => irq_dest (load32 m (a + 8)));
   member struct_acpi_sdt_header "length" sdt_length; (rsdt_t, [Dot "sdt_ptr"; Index i], fun m a => sdt_ptr m a i);
   member ordered_array_t "array" arr_array; member ordered_array_t "size" arr_size; member ordered_array_t "max_size" arr_max_size;
   member header_t "magic" hdr_magic; member header_t "is_hole" hdr_is_hole; member header_t "size" hdr_size;
   member footer_t "magic" ftr_magic; member footer_t "header" ftr_header;
   member heap_t "start_address" start_address; member heap_t "end_address" end_address; member heap_t "max_address" max_address;
   (heap_t, [Dot "index"; Dot "size"], arr_size)].

(** Stores to whole members. *)
Definition updates : list (ctype * list step * (Z -> Z -> mem -> mem)) :=
  [member header_t "is_hole" set_is_hole; member header_t "size" set_size; member footer_t "header" set_ftr_header;
   member heap_t "end_address" set_end_address; member ordered_array_t "size" set_arr_size].

Definition sizes : list (ctype * Z) :=
  [(struct_memory_region, 24); (union_address, 8); (pml4_entry, 8); (pdp_entry, 8); (pd_entry, 8); (page_entry, 8);
   (dir_entry, sizeof_dir_entry); (partition_table, 512); (Elf64_Ehdr, 64); (Elf64_Phdr, sizeof_phdr); (Elf64_Shdr, 64);
   (gdt_entry_struct, 8); (system_segment_descriptor, 16); (gdt_ptr_struct, 10); (tss_entry_t, sizeof_tss);
   (struct_idt_descriptor, 16); (idt_ptr_struct, 10); (lvt_entry, 4); (icr_reg, 8); (ioapic_version_table, 4);
   (ioapic_redirect_entry, 16); (struct_acpi_sdt_header, sizeof_sdt_header); (ordered_array_t, sizeof_ordered_array);
   (header_t, sizeof_header); (footer_t, sizeof_footer); (heap_t, sizeof_heap); (struct_task, sizeof_task);
   (struct_lock, sizeof_lock); (struct_lock_queue, 16); (multiboot_info, sizeof stage2_bootinfo);
   (fat32_volume_id, sizeof boot_volume_id)].

(** Stores to several members, one after the other. *)
Definition write_members (t : ctype) (l : list (string * Z)) (m : mem) (a : Z) : option mem :=
  foldl (fun m '(x, v) => m ← m; write t [Dot x] v m a) (Some m) l.

(** What the members of an entry or a descriptor are set to, and the word that a model puts there. *)
Definition agree_word (n : nat) (t : ctype) (l : list (string * Z)) (word : Z -> Z) : Prop :=
  forall m a, exists m', write_members t l m a = Some m' /\ load n m' a = word (load n m a).

(** * Proofs *)

Lemma read_at t path p m a v : find t path = Some p -> get p m a = v -> read t path m a = Some v.
Proof. unfold read. by intros -> <-. Qed.

Lemma get_whole o n m a : get (Place o n 0 (8 * Z.of_nat n)) m a = load n m (a + o).
Proof. unfold get. simpl. rewrite bf_get_low by lia. apply Z.mod_small, load_bounds. Qed.

Lemma get_byte o m a : get (Place o 1 0 8) m a = load8 m (a + o).
Proof. rewrite (get_whole o 1). unfold load. lia. Qed.

(** The same bits by way of another unit. *)
Lemma get_same_bits p q m a : fits p -> fits q -> 8 * off p + lo p = 8 * off q + lo q -> nbits p = nbits q -> get p m a = get q m a.
Proof. intros Hp Hq E Ew. apply Z.bits_inj'. intros i Hi. by rewrite !get_testbit, E, Ew. Qed.

Lemma flag_bit off v : Z.b2z (bf_get off 1 v =? 1) = bf_get off 1 v.
Proof. pose proof (bf_get_bounds off 1 v ltac:(lia)). destruct (Z.eqb_spec (bf_get off 1 v) 1) as [E | E]; simpl; lia. Qed.

(** [member_at] finds the place of the member and leaves the comparison with the model's reading. *)
Ltac member_at := intros m a; eapply read_at; [vm_compute; reflexivity |]; cbv beta.

(** A member that is a whole unit, or bits of the unit that the model reads too. *)
Ltac whole_member :=
  match goal with
  | |- get (Place ?o 1 0 8) ?m ?a = _ => rewrite (get_byte o m a)
  | |- get (Place ?o ?n 0 _) ?m ?a = _ => transitivity (load n m (a + o)); [exact (get_whole o n m a) |]
  end; rewrite ?Z.add_0_r; reflexivity.
Ltac some_bits := unfold get; cbn [off nbytes lo nbits]; rewrite ?Z.add_0_r; first [reflexivity | symmetry; apply flag_bit].

(** Bits that the model reads through the unit [p] instead. *)
Ltac through p :=
  etransitivity; [apply (get_same_bits _ p); [by unfold fits; simpl; lia .. | reflexivity | reflexivity] | some_bits].

Lemma locate_ident i : find Elf64_Ehdr [Dot "e_ident"; Index i] = Some (Place (0 + (i * 1 + 0)) 1 0 8).
Proof. reflexivity. Qed.

Lemma locate_sdt_ptr i : find rsdt_t [Dot "sdt_ptr"; Index i] = Some (Place (36 + (i * 4 + 0)) 4 0 32).
Proof. reflexivity. Qed.

Lemma accessors_agree i : Forall (fun '(t, path, f) => forall m a, read t path m a = Some (f m a)) (accessors i).
Proof.
  unfold accessors, member.
  repeat (apply List.Forall_cons; [try solve [member_at; first [whole_member | some_bits]] |]); [.. | by constructor].
  - member_at. rewrite (get_whole 454 4). unfold partition_lba. f_equal. lia.
  - intros m a. eapply read_at; [apply locate_ident |]. rewrite get_byte. unfold e_ident. f_equal. lia.
  - member_at. through (Place 0 8 40 8).
  - member_at. through (Place 0 16 16 16).
  - member_at. through (Place 0 4 0 8).
  - member_at. through (Place 0 4 8 3).
  - member_at. through (Place 0 4 11 1).
  - member_at. through (Place 0 4 13 1).
  - member_at. through (Place 0 4 15 1).
  - member_at. through (Place 0 4 16 1).
  - member_at. through (Place 8 4 24 8).
  - intros m a. eapply read_at; [apply locate_sdt_ptr |]. rewrite (get_whole _ 4). unfold sdt_ptr, sizeof_sdt_header. f_equal. lia.
Qed.

(** Storing a whole unit. *)
Lemma store_mod n a v m : store n a (v mod 2 ^ (8 * Z.of_nat n)) m = store n a v m.
Proof.
  revert a v. induction n as [|n IH]; intros a v; [done |].
  change (store8 a (v mod 2 ^ (8 * Z.of_nat (S n))) (store n (a + 1) (v mod 2 ^ (8 * Z.of_nat (S n)) / 256) m) = store8 a v (store n (a + 1) (v / 256) m)).
  replace (8 * Z.of_nat (S n)) with (8 + 8 * Z.of_nat n) by lia. rewrite Z.pow_add_r by lia. change (2 ^ 8) with 256.
  pose proof (Z.pow_pos_nonneg 2 (8 * Z.of_nat n) ltac:(lia) ltac:(lia)).
  rewrite Z.rem_mul_r by lia. rewrite <- (IH (a + 1) (v / 256)). pose proof (Z.mod_pos_bound v 256).
  assert (forall x y, 0 <= x < 256 -> (x + 256 * y) / 256 = y /\ (x + 256 * y) mod 256 = x) as Hxy by (intros; div_lia).
  destruct (Hxy (v mod 256) ((v / 256) mod 2 ^ (8 * Z.of_nat n)) ltac:(lia)) as [-> E]. unfold store8. by rewrite E.
Qed.

Lemma set_whole o n v m a : set (Place o n 0 (8 * Z.of_nat n)) v m a = store n (a + o) v m.
Proof.
  unfold set. cbn [off nbytes lo nbits]. rewrite <- (store_mod n (a + o) v). f_equal. apply Z.bits_inj'. intros i Hi.
  rewrite bf_set_testbit, testbit_mod_pow2 by lia. destruct (Z.ltb_spec i (0 + 8 * Z.of_nat n)).
  - replace (0 <=? i) with true by lia. replace (i <? 8 * Z.of_nat n) with true by lia. simpl. f_equal. lia.
  - rewrite andb_false_r. replace (i <? 8 * Z.of_nat n) with false by lia. simpl.
    apply (testbit_above (8 * Z.of_nat n)); [lia | apply load_bounds].
Qed.

Lemma updates_agree : Forall (fun '(t, path, f) => forall v m a, write t path v m a = Some (f a v m)) updates.
Proof.
  unfold updates, member. repeat (apply List.Forall_cons; [intros v m a |]); [.. | by constructor]; unfold write.
  - change (find header_t _) with (Some (Place 4 1 0 8)). simpl. by rewrite (set_whole 4 1).
  - change (find header_t _) with (Some (Place 8 8 0 64)). simpl. by rewrite (set_whole 8 8).
  - change (find footer_t _) with (Some (Place 8 8 0 64)). simpl. by rewrite (set_whole 8 8).
  - change (find heap_t _) with (Some (Place 40 8 0 64)). simpl. by rewrite (set_whole 40 8).
  - change (find ordered_array_t _) with (Some (Place 8 8 0 64)). simpl. by rewrite (set_whole 8 8).
Qed.

(** A word that contains the member after a store to it. *)
Lemma load_set n p v m a : fits p -> 0 <= off p -> 8 * off p + lo p + nbits p <= 8 * Z.of_nat n ->
  load n (set p v m a) a = bf_set (8 * off p + lo p) (nbits p) v (load n m a).
Proof.
  intros Hp Ho Hn. pose proof Hp as (? & ? & ?). apply Z.bits_inj'. intros i Hi.
  destruct (decide (i < 8 * Z.of_nat n)).
  - by rewrite bf_set_testbit, !load_testbit, set_bit by lia || done.
  - rewrite !(testbit_above (8 * Z.of_nat n)); [done | lia | | lia | apply load_bounds].
    apply bf_set_is_word; [lia.. | apply load_bounds].
Qed.

Lemma pack_testbit w v l i : 0 <= w -> 0 <= i ->
  Z.testbit (pack ((w, v) :: l)) i = if i <? w then Z.testbit v i else Z.testbit (pack l) (i - w).
Proof.
  intros Hw Hi. change (pack ((w, v) :: l)) with (v mod 2 ^ w + 2 ^ w * pack l).
  pose proof (Z.pow_pos_nonneg 2 w ltac:(lia) ltac:(lia)). pose proof (Z.mod_pos_bound v (2 ^ w) ltac:(lia)).
  destruct (Z.ltb_spec i w).
  - rewrite <- (Z.mod_pow2_bits_low _ w i) by lia. rewrite Z.mul_comm, Z.mod_add, Z.mod_mod by lia. by rewrite Z.mod_pow2_bits_low by lia.
  - replace i with (i - w + w) at 1 by lia. rewrite <- Z.div_pow2_bits by lia. f_equal.
    rewrite Z.mul_comm, Z.div_add, Z.div_small by lia. lia.
Qed.

(** [agrees] runs the stores and reads the word back. *)
Ltac agrees :=
  intros m a; eexists; split;
  [ unfold write_members; cbn [foldl mbind option_bind];
    repeat (unfold write at 1; match goal with |- context [find ?t ?l] => let p := eval vm_compute in (find t l) in change (find t l) with p end;
      cbn [fmap option_fmap option_map mbind option_bind]); reflexivity
  | rewrite !load_set by (unfold fits; simpl; lia); cbn [off lo nbits]; rewrite ?Z.mul_0_r, ?Z.add_0_l ].

Lemma entries_agree user f :
  agree_word 8 pml4_entry [("directory_pointer", f); ("present", 1); ("rw", 1); ("user", user)] (entry_for user f) /\
  agree_word 8 pdp_entry [("directory", f); ("present", 1); ("rw", 1); ("user", user)] (entry_for user f) /\
  agree_word 8 pd_entry [("table", f); ("present", 1); ("rw", 1); ("user", user)] (entry_for user f) /\
  agree_word 8 page_entry [("present", 1); ("user", user); ("rw", 1); ("frame", f)] (page_for user f) /\
  agree_word 8 page_entry [("frame", f); ("present", 1); ("user", 0); ("rw", 1)] (init_entry f).
Proof. refine (conj _ (conj _ (conj _ (conj _ _)))); agrees; unfold entry_for, page_for, init_entry; reflexivity. Qed.

(** Bit by bit: which of the fields the bit [i] is in decides both sides. *)
Ltac decide_ranges :=
  repeat match goal with
  | |- context [(?x <=? ?i) && (?i <? ?y)] => first [replace ((x <=? i) && (i <? y)) with true by lia | replace ((x <=? i) && (i <? y)) with false by lia]; cbv iota
  end.
Ltac packed_bits :=
  apply Z.bits_inj'; intros i Hi; rewrite !bf_set_testbit by lia;
  repeat (rewrite pack_testbit by lia;
    match goal with |- _ = (if ?b <? ?w then _ else _) => destruct (Z.ltb_spec b w) end; [decide_ranges; f_equal; lia |]);
  decide_ranges; change (pack []) with 0; rewrite Z.bits_0.

Lemma gdt_agree e :
  agree_word 8 gdt_entry_struct
    [("limit_low", limit_low e); ("base_low", base_low e); ("base_middle", base_middle e); ("access", Descriptors.access e);
     ("granularity", granularity e); ("base_high", base_high e)] (fun _ => entry_word e).
Proof. agrees. unfold entry_word. packed_bits. apply (testbit_above 64); [lia | apply (load_bounds m 8)]. Qed.

Lemma idt_agree d :
  agree_word 16 struct_idt_descriptor
    [("base_low", i_base_low d); ("base_middle", i_base_middle d); ("base_high", i_base_high d); ("selector", i_selector d);
     ("type_attr", i_type_attr d); ("ist", i_ist d); ("zero", i_zero d)] (fun _ => gate_word d).
Proof. agrees. unfold gate_word. packed_bits. apply (testbit_above 128); [lia | apply (load_bounds m 16)]. Qed.

Lemma sizes_agree : Forall (fun '(t, n) => sizeof t = n) sizes.
Proof. unfold sizes. repeat (apply List.Forall_cons; [reflexivity |]). constructor. Qed.

(** A block's header and footer and an array's record, stored member by member. *)
Lemma heap_stores_agree size is_hole addr max less_than m a :
  write_members header_t [("magic", HEAP_MAGIC); ("is_hole", is_hole); ("size", size)] m a = Some (set_header a is_hole size m) /\
  write_members footer_t [("magic", HEAP_MAGIC); ("header", addr)] m a = Some (set_footer a addr m) /\
  write_members ordered_array_t [("array", addr); ("size", 0); ("max_size", max); ("less_than", less_than)] m a =
    Some (store64 (a + 24) less_than (store64 (a + 16) max (store64 (a + 8) 0 (store64 a addr m)))).
Proof.
  unfold write_members. cbn [foldl mbind option_bind]. unfold write.
  change (find header_t [Dot "magic"]) with (Some (Place 0 4 0 32)). change (find header_t [Dot "is_hole"]) with (Some (Place 4 1 0 8)).
  change (find header_t [Dot "size"]) with (Some (Place 8 8 0 64)). change (find footer_t [Dot "magic"]) with (Some (Place 0 4 0 32)).
  change (find footer_t [Dot "header"]) with (Some (Place 8 8 0 64)).
  change (find ordered_array_t [Dot "array"]) with (Some (Place 0 8 0 64)). change (find ordered_array_t [Dot "size"]) with (Some (Place 8 8 0 64)).
  change (find ordered_array_t [Dot "max_size"]) with (Some (Place 16 8 0 64)).
  change (find ordered_array_t [Dot "less_than"]) with (Some (Place 24 8 0 64)).
  cbn [fmap option_fmap option_map mbind option_bind].
  rewrite !(set_whole _ 4), !(set_whole _ 1), !(set_whole _ 8), Z.add_0_r. done.
Qed.

(** The declarations and the models agree: the members of the lists are at the
    places that the declarations give them, in the C headers as in the loader's assembly, structures have
    the sizes that the models count with, and the stores to the members of an entry, a
    descriptor or a command give the word that the models compute. *)
Theorem layouts_agree :
  (forall i, Forall (fun '(t, path, f) => forall m a, read t path m a = Some (f m a)) (accessors i)) /\
  Forall (fun '(t, path, f) => forall v m a, write t path v m a = Some (f a v m)) updates /\
  Forall (fun '(t, n) => sizeof t = n) sizes /\
  (forall user f,
    agree_word 8 pml4_entry [("directory_pointer", f); ("present", 1); ("rw", 1); ("user", user)] (entry_for user f) /\
    agree_word 8 pdp_entry [("directory", f); ("present", 1); ("rw", 1); ("user", user)] (entry_for user f) /\
    agree_word 8 pd_entry [("table", f); ("present", 1); ("rw", 1); ("user", user)] (entry_for user f) /\
    agree_word 8 page_entry [("present", 1); ("user", user); ("rw", 1); ("frame", f)] (page_for user f) /\
    agree_word 8 page_entry [("frame", f); ("present", 1); ("user", 0); ("rw", 1)] (init_entry f)) /\
  (forall e, agree_word 8 gdt_entry_struct
    [("limit_low", limit_low e); ("base_low", base_low e); ("base_middle", base_middle e); ("access", Descriptors.access e);
     ("granularity", granularity e); ("base_high", base_high e)] (fun _ => entry_word e)) /\
  (forall d, agree_word 16 struct_idt_descriptor
    [("base_low", i_base_low d); ("base_middle", i_base_middle d); ("base_high", i_base_high d); ("selector", i_selector d);
     ("type_attr", i_type_attr d); ("ist", i_ist d); ("zero", i_zero d)] (fun _ => gate_word d)) /\
  (forall vector msgtype, agree_word 4 icr_reg
    [("vector", vector); ("msgtype", msgtype); ("destmod", 0); ("level", 0); ("trigmod", 0); ("dsh", 0)] (icr_low vector msgtype)) /\
  (forall vector, agree_word 4 ioapic_redirect_entry
    [("vector", vector); ("delmod", 0); ("destmod", 0); ("intpol", 0); ("triggermode", 0); ("mask", 0); ("reserved", 0)]
    (redirect_low vector)).
Proof.
  refine (conj accessors_agree (conj updates_agree (conj sizes_agree (conj entries_agree (conj gdt_agree (conj idt_agree (conj _ _))))))).
  - intros vector msgtype. agrees. unfold icr_low. reflexivity.
  - intros vector. agrees. unfold redirect_low. reflexivity.
Qed.

(** The fields of the task state segment that the processor reads by their place: the stack pointers
    are where it looks for them, the interrupt stacks and the map of ports four bytes
    on, because the structure is not packed. *)
Lemma tss_misplaced :
  find tss_entry_t [Dot "rsp0_low"] = Some (Place 4 4 0 32) /\ find tss_entry_t [Dot "ist1_low"] = Some (Place 40 4 0 32) /\
  find tss_entry_t [Dot "iomap_adr"] = Some (Place 106 2 0 16) /\ sizeof tss_entry_t = 112.
Proof. by vm_compute. Qed.

Lemma declarations_accepted : Forall (fun e : ctype * Z => well_formed (fst e) = true) sizes.
Proof. by repeat constructor. Qed.

(** In every structure of the program, a member of which [v] is stored reads as [v] cut
    to its width, no byte outside the structure changes, and, when no union stands among the
    members, every other member keeps its value. *)
Theorem member_laws (t : ctype) (n : Z) (i : nat) (x : string) (e : Z * shape) (p : place) (v : Z) (m : mem) (a : Z)
  (Ht : In (t, n) sizes) (Hi : members t !! i = Some (x, e)) (Hp : place_of e = Some p) :
  get p (set p v m a) a = v mod 2 ^ nbits p /\
  same_outside a (a + n) m (set p v m a) /\
  (no_union t = true -> forall j y d q, members t !! j = Some (y, d) -> place_of d = Some q -> i <> j ->
     get q (set p v m a) a = get q m a).
Proof.
  pose proof declarations_accepted as Hw. rewrite Forall_forall in Hw. specialize (Hw _ Ht). simpl in Hw.
  pose proof sizes_agree as Hn. rewrite Forall_forall in Hn. specialize (Hn _ Ht). simpl in Hn. subst n.
  pose proof (members_inside t Hw) as Hin. rewrite Forall_lookup in Hin.
  destruct (place_of_inside _ _ _ Hp (Hin _ _ Hi)) as (Hf & E1 & E2 & ? & ?).
  split_and!.
  - by apply get_set_same.
  - apply same_outside_store; [apply same_outside_refl | lia | lia].
  - intros Hu j y d q Hj Hq Hij. destruct (place_of_inside _ _ _ Hq (Hin _ _ Hj)) as (Hg & F1 & F2 & ? & ?).
    pose proof (members_in_order t Hw Hu) as Ho. apply get_set_apart; [done | done |].
    destruct (decide (i < j)%nat).
    + pose proof (in_order_apart _ _ _ _ _ _ _ _ _ Ho Hi Hj). lia.
    + pose proof (in_order_apart _ _ _ _ _ _ _ _ _ Ho Hj Hi). lia.
Qed.

Lemma member_laws_witness :
  get (Place 4 1 0 8) (set (Place 4 1 0 8) 0x101 ∅ 0x1000) 0x1000 = 1 /\
  get (Place 8 8 0 64) (set (Place 4 1 0 8) 0x101 ∅ 0x1000) 0x1000 = 0.
Proof.
  destruct (member_laws header_t sizeof_header 1 "is_hole" (4, Whole uint8) (Place 4 1 0 8) 0x101 ∅ 0x1000
    ltac:(repeat (first [left; reflexivity | right])) eq_refl eq_refl) as (E & _ & H).
  split; [exact E |]. by rewrite (H eq_refl 2%nat "size" (8, Whole uint64) (Place 8 8 0 64) eq_refl eq_refl ltac:(done)).
Defined.
